(** * A shallow embedding of the Catan rule engine

    The TypeScript rule engine (board generator, resource, building,
    trading, development-card, robber and victory managers, and the
    [CatanRuleEngine] orchestrator) is translated function by function.

    Modelling conventions.
    - JavaScript numbers that hold integers are [Z]; array indices are [nat].
    - A [Map<string, V>] is an association list in insertion order;
      [Map.get] returns the first binding, [Map.set] overwrites in place or
      appends, [forEach] walks the list from its head.
    - Every state object made by [{ ...gameState }] shares the [players]
      array, the [board] object and the [developmentCardDeck] array with the
      object it was copied from.  These three objects form the [Heap]; a
      [GameState.t] is the value of one state object, i.e. its own top-level
      fields together with the current contents of the shared heap.  A
      function that throws reports the heap as it was when the exception
      left it, so that writes made before the throw stay visible.
    - [Math.random] draws are explicit arguments. *)

From Stdlib Require Import String Ascii ZArith List Bool Arith Lia DecimalString.
From Stdlib Require Import Permutation Sorted.
From Stdlib Require DecimalZ DecimalFacts DecimalPos.
Import ListNotations.
Open Scope string_scope.
Open Scope Z_scope.

Set Implicit Arguments.

(** ** Enumerations of [types/index.ts] *)

Inductive ResourceType := Wood | Brick | Wool | Wheat | Ore.
Inductive TerrainType := Forest | Pasture | Field | Hill | Mountain | Desert.
Inductive DevelopmentCardType :=
  Knight | RoadBuilding | Invention | Monopoly | VictoryPoint.
Inductive GamePhase :=
  SETUP_ROUND_1 | SETUP_ROUND_2 | PRODUCTION | ACTION | GAME_OVER.
Inductive BuildingType := Settlement | City.
Inductive PortType := Generic | Specific (resource : ResourceType).

Definition ResourceType_eqb (a b : ResourceType) : bool :=
  match a, b with
  | Wood, Wood | Brick, Brick | Wool, Wool | Wheat, Wheat | Ore, Ore => true
  | _, _ => false
  end.

Definition DevelopmentCardType_eqb (a b : DevelopmentCardType) : bool :=
  match a, b with
  | Knight, Knight | RoadBuilding, RoadBuilding | Invention, Invention
  | Monopoly, Monopoly | VictoryPoint, VictoryPoint => true
  | _, _ => false
  end.

Definition GamePhase_eqb (a b : GamePhase) : bool :=
  match a, b with
  | SETUP_ROUND_1, SETUP_ROUND_1 | SETUP_ROUND_2, SETUP_ROUND_2
  | PRODUCTION, PRODUCTION | ACTION, ACTION | GAME_OVER, GAME_OVER => true
  | _, _ => false
  end.

Definition PortType_eqb (a b : PortType) : bool :=
  match a, b with
  | Generic, Generic => true
  | Specific x, Specific y => ResourceType_eqb x y
  | _, _ => false
  end.

Definition allResourceTypes : list ResourceType := [Wood; Brick; Wool; Wheat; Ore].

(** ** JavaScript containers *)

Module Map.
Section Ops.
Variable V : Type.

Definition t := list (string * V).

Fixpoint get (m : t) (k : string) : option V :=
  match m with
  | [] => None
  | (k', v) :: m' => if String.eqb k' k then Some v else get m' k
  end.

Definition has (m : t) (k : string) : bool :=
  match get m k with Some _ => true | None => false end.

Fixpoint set (m : t) (k : string) (v : V) : t :=
  match m with
  | [] => [(k, v)]
  | (k', v') :: m' =>
      if String.eqb k' k then (k', v) :: m' else (k', v') :: set m' k v
  end.

(** A write through the reference that [get m k] returned. *)
Fixpoint update (m : t) (k : string) (f : V -> V) : t :=
  match m with
  | [] => []
  | (k', v) :: m' =>
      if String.eqb k' k then (k', f v) :: m' else (k', v) :: update m' k f
  end.

(** [forEach] with a callback that writes to every value. *)
Definition updateAll (m : t) (f : V -> V) : t :=
  List.map (fun kv => (fst kv, f (snd kv))) m.

Definition values (m : t) : list V := List.map snd m.
Definition keys (m : t) : list string := List.map fst m.
End Ops.
End Map.

(** [Array.prototype.findIndex]; [None] stands for [-1]. *)
Fixpoint findIndex {A : Type} (f : A -> bool) (l : list A) : option nat :=
  match l with
  | [] => None
  | x :: l' =>
      if f x then Some O
      else match findIndex f l' with Some i => Some (S i) | None => None end
  end.

(** A write to the object stored at [l[i]]. *)
Fixpoint modify_nth {A : Type} (i : nat) (f : A -> A) (l : list A) : list A :=
  match l, i with
  | [], _ => []
  | x :: l', O => f x :: l'
  | x :: l', S i' => x :: modify_nth i' f l'
  end.

(** [Array.prototype.includes] and [indexOf] on strings. *)
Definition includes (l : list string) (s : string) : bool :=
  existsb (String.eqb s) l.

(** [a.splice(a.indexOf(x), 1)]: [indexOf] gives [-1] when [x] is absent and
    [splice(-1, 1)] then removes the last element. *)
Fixpoint splice_indexOf (x : string) (l : list string) : list string :=
  match l with
  | [] => []
  | y :: l' =>
      if String.eqb y x then l'
      else if includes l' x then y :: splice_indexOf x l'
      else removelast (y :: l')
  end.

(** Truthiness of an optional string: [undefined] and [""] are falsy. *)
Definition truthy (o : option string) : bool :=
  match o with
  | Some s => negb (String.eqb s "")
  | None => false
  end.

(** ** Records of [types/index.ts] *)

Module HexCoordinate.
Record t := mk { q : Z; r : Z }.
Definition eqb (a b : t) : bool := (q a =? q b) && (r a =? r b).
End HexCoordinate.
Abbreviation HexCoordinate := HexCoordinate.t.

Module Building.
Record t := mk { type : BuildingType; playerId : string }.
End Building.
Abbreviation Building := Building.t.

Module Port.
Record t := mk { type : PortType; ratio : Z }.
End Port.
Abbreviation Port := Port.t.

Module Intersection.
Record t := mk {
  id : string;
  hexes : list HexCoordinate;
  edges : list string;
  building : option Building;
  port : option Port
}.
Definition set_building (b : Building) (x : t) : t :=
  mk (id x) (hexes x) (edges x) (Some b) (port x).
End Intersection.
Abbreviation Intersection := Intersection.t.

Module Road.
Record t := mk { playerId : string }.
End Road.
Abbreviation Road := Road.t.

Module Edge.
Record t := mk {
  id : string;
  intersections : string * string;
  road : option Road
}.
Definition set_road (rd : Road) (e : t) : t :=
  mk (id e) (intersections e) (Some rd).
End Edge.
Abbreviation Edge := Edge.t.

Module Tile.
Record t := mk {
  coordinate : HexCoordinate;
  terrain : TerrainType;
  numberDisc : option Z;
  hasRobber : bool
}.
Definition set_hasRobber (b : bool) (x : t) : t :=
  mk (coordinate x) (terrain x) (numberDisc x) b.
End Tile.
Abbreviation Tile := Tile.t.

Module Resources.
Record t := mk { wood : Z; brick : Z; wool : Z; wheat : Z; ore : Z }.

(** [resources[resourceType]] *)
Definition get (x : t) (k : ResourceType) : Z :=
  match k with
  | Wood => wood x | Brick => brick x | Wool => wool x
  | Wheat => wheat x | Ore => ore x
  end.

(** [resources[resourceType] = v] *)
Definition set (x : t) (k : ResourceType) (v : Z) : t :=
  match k with
  | Wood => mk v (brick x) (wool x) (wheat x) (ore x)
  | Brick => mk (wood x) v (wool x) (wheat x) (ore x)
  | Wool => mk (wood x) (brick x) v (wheat x) (ore x)
  | Wheat => mk (wood x) (brick x) (wool x) v (ore x)
  | Ore => mk (wood x) (brick x) (wool x) (wheat x) v
  end.
End Resources.
Abbreviation Resources := Resources.t.

(** [Partial<Resources>]: every key may be absent.  [Object.entries] is taken
    in the key order of [Resources]. *)
Module PartialResources.
Record t := mk {
  wood : option Z; brick : option Z; wool : option Z;
  wheat : option Z; ore : option Z
}.

Definition get (x : t) (k : ResourceType) : option Z :=
  match k with
  | Wood => wood x | Brick => brick x | Wool => wool x
  | Wheat => wheat x | Ore => ore x
  end.

Definition entries (x : t) : list (ResourceType * Z) :=
  flat_map (fun k => match get x k with Some v => [(k, v)] | None => [] end)
           allResourceTypes.

Definition empty : t := mk None None None None None.

Definition set (x : t) (k : ResourceType) (v : Z) : t :=
  match k with
  | Wood => mk (Some v) (brick x) (wool x) (wheat x) (ore x)
  | Brick => mk (wood x) (Some v) (wool x) (wheat x) (ore x)
  | Wool => mk (wood x) (brick x) (Some v) (wheat x) (ore x)
  | Wheat => mk (wood x) (brick x) (wool x) (Some v) (ore x)
  | Ore => mk (wood x) (brick x) (wool x) (wheat x) (Some v)
  end.

(** A full [Resources] object passed where a [Partial<Resources>] is
    expected. *)
Definition ofResources (x : Resources) : t :=
  mk (Some (Resources.wood x)) (Some (Resources.brick x))
     (Some (Resources.wool x)) (Some (Resources.wheat x))
     (Some (Resources.ore x)).
End PartialResources.
Abbreviation PartialResources := PartialResources.t.

Module DevelopmentCards.
Record t := mk {
  knight : Z; roadBuilding : Z; invention : Z; monopoly : Z; victoryPoint : Z
}.

Definition get (x : t) (k : DevelopmentCardType) : Z :=
  match k with
  | Knight => knight x | RoadBuilding => roadBuilding x
  | Invention => invention x | Monopoly => monopoly x
  | VictoryPoint => victoryPoint x
  end.

Definition set (x : t) (k : DevelopmentCardType) (v : Z) : t :=
  match k with
  | Knight => mk v (roadBuilding x) (invention x) (monopoly x) (victoryPoint x)
  | RoadBuilding => mk (knight x) v (invention x) (monopoly x) (victoryPoint x)
  | Invention => mk (knight x) (roadBuilding x) v (monopoly x) (victoryPoint x)
  | Monopoly => mk (knight x) (roadBuilding x) (invention x) v (victoryPoint x)
  | VictoryPoint => mk (knight x) (roadBuilding x) (invention x) (monopoly x) v
  end.
End DevelopmentCards.
Abbreviation DevelopmentCards := DevelopmentCards.t.

Module Buildings.
Record t := mk {
  roads : list string;
  settlements : list string;
  cities : list string
}.
End Buildings.
Abbreviation Buildings := Buildings.t.

Module SpecialCards.
Record t := mk { longestRoad : bool; largestArmy : bool }.
End SpecialCards.
Abbreviation SpecialCards := SpecialCards.t.

Module Player.
Record t := mk {
  id : string;
  color : string;
  resources : Resources;
  developmentCards : DevelopmentCards;
  buildings : Buildings;
  specialCards : SpecialCards;
  knightsPlayed : Z;
  victoryPoints : Z;
  canPlayDevCard : bool
}.

Definition set_resources (v : Resources) (p : t) : t :=
  mk (id p) (color p) v (developmentCards p) (buildings p) (specialCards p)
     (knightsPlayed p) (victoryPoints p) (canPlayDevCard p).
Definition set_developmentCards (v : DevelopmentCards) (p : t) : t :=
  mk (id p) (color p) (resources p) v (buildings p) (specialCards p)
     (knightsPlayed p) (victoryPoints p) (canPlayDevCard p).
Definition set_buildings (v : Buildings) (p : t) : t :=
  mk (id p) (color p) (resources p) (developmentCards p) v (specialCards p)
     (knightsPlayed p) (victoryPoints p) (canPlayDevCard p).
Definition set_specialCards (v : SpecialCards) (p : t) : t :=
  mk (id p) (color p) (resources p) (developmentCards p) (buildings p) v
     (knightsPlayed p) (victoryPoints p) (canPlayDevCard p).
Definition set_knightsPlayed (v : Z) (p : t) : t :=
  mk (id p) (color p) (resources p) (developmentCards p) (buildings p)
     (specialCards p) v (victoryPoints p) (canPlayDevCard p).
Definition set_victoryPoints (v : Z) (p : t) : t :=
  mk (id p) (color p) (resources p) (developmentCards p) (buildings p)
     (specialCards p) (knightsPlayed p) v (canPlayDevCard p).
Definition set_canPlayDevCard (v : bool) (p : t) : t :=
  mk (id p) (color p) (resources p) (developmentCards p) (buildings p)
     (specialCards p) (knightsPlayed p) (victoryPoints p) v.

(** [player.resources[k] = v] *)
Definition set_resource (k : ResourceType) (v : Z) (p : t) : t :=
  set_resources (Resources.set (resources p) k v) p.
(** [player.developmentCards[k] = v] *)
Definition set_card (k : DevelopmentCardType) (v : Z) (p : t) : t :=
  set_developmentCards (DevelopmentCards.set (developmentCards p) k v) p.
Definition set_longestRoad (v : bool) (p : t) : t :=
  set_specialCards
    (SpecialCards.mk v (SpecialCards.largestArmy (specialCards p))) p.
Definition set_largestArmy (v : bool) (p : t) : t :=
  set_specialCards
    (SpecialCards.mk (SpecialCards.longestRoad (specialCards p)) v) p.
Definition push_road (e : string) (p : t) : t :=
  set_buildings
    (Buildings.mk (Buildings.roads (buildings p) ++ [e])
                  (Buildings.settlements (buildings p))
                  (Buildings.cities (buildings p))) p.
Definition push_settlement (i : string) (p : t) : t :=
  set_buildings
    (Buildings.mk (Buildings.roads (buildings p))
                  (Buildings.settlements (buildings p) ++ [i])
                  (Buildings.cities (buildings p))) p.
End Player.
Abbreviation Player := Player.t.

Module GameBoard.
Record t := mk {
  tiles : Map.t Tile;
  intersections : Map.t Intersection;
  edges : Map.t Edge;
  robberLocation : HexCoordinate
}.
Definition set_tiles (v : Map.t Tile) (b : t) : t :=
  mk v (intersections b) (edges b) (robberLocation b).
Definition set_intersections (v : Map.t Intersection) (b : t) : t :=
  mk (tiles b) v (edges b) (robberLocation b).
Definition set_edges (v : Map.t Edge) (b : t) : t :=
  mk (tiles b) (intersections b) v (robberLocation b).
Definition set_robberLocation (v : HexCoordinate) (b : t) : t :=
  mk (tiles b) (intersections b) (edges b) v.
End GameBoard.
Abbreviation GameBoard := GameBoard.t.

(** The three objects every copy of a state object points to. *)
Module Heap.
Record t := mk {
  players : list Player;
  board : GameBoard;
  developmentCardDeck : list DevelopmentCardType
}.
End Heap.
Abbreviation Heap := Heap.t.

Module GameState.
Record t := mk {
  id : string;
  phase : GamePhase;
  currentPlayerIndex : nat;
  players : list Player;
  board : GameBoard;
  developmentCardDeck : list DevelopmentCardType;
  diceRoll : option (Z * Z);
  turn : Z;
  winner : option string
}.

Definition set_phase (v : GamePhase) (s : t) : t :=
  mk (id s) v (currentPlayerIndex s) (players s) (board s)
     (developmentCardDeck s) (diceRoll s) (turn s) (winner s).
Definition set_currentPlayerIndex (v : nat) (s : t) : t :=
  mk (id s) (phase s) v (players s) (board s)
     (developmentCardDeck s) (diceRoll s) (turn s) (winner s).
Definition set_players (v : list Player) (s : t) : t :=
  mk (id s) (phase s) (currentPlayerIndex s) v (board s)
     (developmentCardDeck s) (diceRoll s) (turn s) (winner s).
Definition set_board (v : GameBoard) (s : t) : t :=
  mk (id s) (phase s) (currentPlayerIndex s) (players s) v
     (developmentCardDeck s) (diceRoll s) (turn s) (winner s).
Definition set_developmentCardDeck (v : list DevelopmentCardType) (s : t) : t :=
  mk (id s) (phase s) (currentPlayerIndex s) (players s) (board s)
     v (diceRoll s) (turn s) (winner s).
Definition set_diceRoll (v : option (Z * Z)) (s : t) : t :=
  mk (id s) (phase s) (currentPlayerIndex s) (players s) (board s)
     (developmentCardDeck s) v (turn s) (winner s).
Definition set_turn (v : Z) (s : t) : t :=
  mk (id s) (phase s) (currentPlayerIndex s) (players s) (board s)
     (developmentCardDeck s) (diceRoll s) v (winner s).
Definition set_winner (v : option string) (s : t) : t :=
  mk (id s) (phase s) (currentPlayerIndex s) (players s) (board s)
     (developmentCardDeck s) (diceRoll s) (turn s) v.

(** The shared objects as this state object sees them. *)
Definition heap (s : t) : Heap :=
  Heap.mk (players s) (board s) (developmentCardDeck s).

(** The same state object looked at again once the shared objects hold
    [h]: its own top-level fields are as before. *)
Definition withHeap (s : t) (h : Heap) : t :=
  mk (id s) (phase s) (currentPlayerIndex s) (Heap.players h) (Heap.board h)
     (Heap.developmentCardDeck h) (diceRoll s) (turn s) (winner s).

(** [newState.players[i].<field> = ...] *)
Definition modifyPlayer (i : nat) (f : Player -> Player) (s : t) : t :=
  set_players (modify_nth i f (players s)) s.
Definition modifyTile (k : string) (f : Tile -> Tile) (s : t) : t :=
  set_board (GameBoard.set_tiles (Map.update (GameBoard.tiles (board s)) k f)
                                 (board s)) s.
Definition modifyIntersection (k : string) (f : Intersection -> Intersection)
    (s : t) : t :=
  set_board (GameBoard.set_intersections
               (Map.update (GameBoard.intersections (board s)) k f)
               (board s)) s.
Definition modifyEdge (k : string) (f : Edge -> Edge) (s : t) : t :=
  set_board (GameBoard.set_edges
               (Map.update (GameBoard.edges (board s)) k f) (board s)) s.
End GameState.
Abbreviation GameState := GameState.t.

(** ** Exceptions and results *)

Inductive Exception :=
| Error (message : string)
| TypeError (message : string).

Definition message (e : Exception) : string :=
  match e with Error m => m | TypeError m => m end.

(** [`${error}`] *)
Definition Exception_toString (e : Exception) : string :=
  match e with
  | Error m => "Error: " ++ m
  | TypeError m => "TypeError: " ++ m
  end.

(** Reading a property of [undefined]. *)
Definition undefinedProperty : Exception :=
  TypeError "Cannot read properties of undefined".

(** What a call leaves behind: a returned value, or an exception together
    with the shared heap at the moment it was thrown. *)
Inductive Outcome (A : Type) :=
| Return (a : A)
| Throw (e : Exception) (h : Heap).
Arguments Return {A} a.
Arguments Throw {A} e h.

Definition bind {A B : Type} (o : Outcome A) (k : A -> Outcome B) : Outcome B :=
  match o with
  | Return a => k a
  | Throw e h => Throw e h
  end.

Notation "x <- c ;; k" := (bind c (fun x => k))
  (at level 61, c at next level, right associativity).

(** [try { c } catch (error) { throw new Error(f error) }] *)
Definition rethrow {A : Type} (f : Exception -> Exception) (o : Outcome A)
  : Outcome A :=
  match o with
  | Return a => Return a
  | Throw e h => Throw (f e) h
  end.

(** The [{ valid, error }] objects of the [can...] queries. *)
Inductive Validation :=
| Valid
| Invalid (error : string).

Definition valid (v : Validation) : bool :=
  match v with Valid => true | Invalid _ => false end.

(** [const v = can...(...); if (!v.valid) throw new Error(v.error)] *)
Definition check (v : Validation) (s : GameState) : Outcome unit :=
  match v with
  | Valid => Return tt
  | Invalid error => Throw (Error error) (GameState.heap s)
  end.

(** [gameState.players.find(p => p.id === playerId)] *)
Definition findPlayer (s : GameState) (playerId : string) : option Player :=
  List.find (fun p => String.eqb (Player.id p) playerId) (GameState.players s).

(** [gameState.players.findIndex(p => p.id === playerId)] *)
Definition findPlayerIndex (s : GameState) (playerId : string) : option nat :=
  findIndex (fun p => String.eqb (Player.id p) playerId) (GameState.players s).

(** [gameState.players[gameState.currentPlayerIndex].id], which throws when
    the index names no player. *)
Definition currentPlayerId (s : GameState) : option string :=
  option_map Player.id
    (nth_error (GameState.players s) (GameState.currentPlayerIndex s)).

(** ** [BoardGenerator] *)

Module BoardGenerator.

Definition numberToString (z : Z) : string :=
  NilZero.string_of_int (Z.to_int z).

Definition coordToKey (coord : HexCoordinate) : string :=
  numberToString (HexCoordinate.q coord) ++ "," ++
  numberToString (HexCoordinate.r coord).

Definition intersectionToId (coord : HexCoordinate) : string :=
  "i_" ++ coordToKey coord.

Definition createEdgeId (coord1 coord2 : HexCoordinate) : string :=
  let key1 := coordToKey coord1 in
  let key2 := coordToKey coord2 in
  if String.ltb key1 key2
  then "e_" ++ key1 ++ "_" ++ key2
  else "e_" ++ key2 ++ "_" ++ key1.

(** [s.split(sep)] for a one-character separator. *)
Fixpoint split_aux (sep : ascii) (acc : string) (s : string) : list string :=
  match s with
  | EmptyString => [acc]
  | String c s' =>
      if Ascii.eqb c sep then acc :: split_aux sep EmptyString s'
      else split_aux sep (acc ++ String c EmptyString) s'
  end.
Definition split (sep : ascii) (s : string) : list string :=
  split_aux sep EmptyString s.

(** [Number(s)] on the decimal integer literals that [coordToKey] prints;
    every other string is read as [0] here (JavaScript gives [NaN], which
    names no tile and no intersection). *)
Definition Number (s : string) : Z :=
  match NilZero.int_of_string s with
  | Some d => Z.of_int d
  | None => 0
  end.

Definition keyToCoord (key : string) : HexCoordinate :=
  let parts := List.map Number (split "," key) in
  HexCoordinate.mk (nth 0 parts 0) (nth 1 parts 0).

Definition parseEdgeId (edgeId : string) : string * string :=
  let parts := split "_" edgeId in
  (intersectionToId (keyToCoord (nth 1 parts EmptyString)),
   intersectionToId (keyToCoord (nth 2 parts EmptyString))).

Definition terrainLayout : list (HexCoordinate * TerrainType * option Z) :=
  let c := HexCoordinate.mk in
  [ (c 0 0, Desert, None);
    (c 1 0, Pasture, Some 9);
    (c 0 1, Field, Some 12);
    (c (-1) 1, Forest, Some 6);
    (c (-1) 0, Hill, Some 4);
    (c 0 (-1), Mountain, Some 10);
    (c 1 (-1), Hill, Some 5);
    (c 2 0, Forest, Some 11);
    (c 1 1, Field, Some 3);
    (c 0 2, Pasture, Some 8);
    (c (-1) 2, Hill, Some 8);
    (c (-2) 2, Mountain, Some 3);
    (c (-2) 1, Forest, Some 4);
    (c (-2) 0, Pasture, Some 2);
    (c (-1) (-1), Field, Some 6);
    (c 0 (-2), Mountain, Some 11);
    (c 1 (-2), Forest, Some 9);
    (c 2 (-2), Pasture, Some 5);
    (c 2 (-1), Field, Some 10) ].

Definition createStandardTiles : Map.t Tile :=
  fold_left
    (fun tiles entry =>
       let '(coord, terrain, number) := entry in
       Map.set tiles (coordToKey coord)
         (Tile.mk coord terrain number
                  (match terrain with Desert => true | _ => false end)))
    terrainLayout [].

Definition getHexIntersections (coord : HexCoordinate) : list HexCoordinate :=
  let q := HexCoordinate.q coord in
  let r := HexCoordinate.r coord in
  [ HexCoordinate.mk q (r - 1);
    HexCoordinate.mk (q + 1) (r - 1);
    HexCoordinate.mk (q + 1) r;
    HexCoordinate.mk q (r + 1);
    HexCoordinate.mk (q - 1) (r + 1);
    HexCoordinate.mk (q - 1) r ].

Definition getAdjacentHexes (intersectionCoord : HexCoordinate)
    (tiles : Map.t Tile) : list HexCoordinate :=
  let q := HexCoordinate.q intersectionCoord in
  let r := HexCoordinate.r intersectionCoord in
  let candidates :=
    [ HexCoordinate.mk q r;
      HexCoordinate.mk q (r + 1);
      HexCoordinate.mk (q - 1) (r + 1) ] in
  List.filter (fun coord => Map.has tiles (coordToKey coord)) candidates.

Definition getIntersectionEdges (intersectionCoord : HexCoordinate)
  : list string :=
  let q := HexCoordinate.q intersectionCoord in
  let r := HexCoordinate.r intersectionCoord in
  let adjacentIntersections :=
    [ HexCoordinate.mk (q + 1) (r - 1);
      HexCoordinate.mk (q + 1) r;
      HexCoordinate.mk q (r + 1) ] in
  List.map (fun adjCoord => createEdgeId intersectionCoord adjCoord)
           adjacentIntersections.

Definition portLocations : list (HexCoordinate * Port) :=
  let c := HexCoordinate.mk in
  [ (c (-2) 0, Port.mk Generic 3);
    (c 2 (-1), Port.mk Generic 3);
    (c 1 1, Port.mk Generic 3);
    (c (-1) 2, Port.mk Generic 3);
    (c 0 (-2), Port.mk (Specific Ore) 2);
    (c 2 0, Port.mk (Specific Wheat) 2);
    (c 1 (-2), Port.mk (Specific Wood) 2);
    (c 0 2, Port.mk (Specific Brick) 2);
    (c (-2) 1, Port.mk (Specific Wool) 2) ].

Definition getPortForIntersection (coord : HexCoordinate) : option Port :=
  option_map snd
    (List.find (fun port => HexCoordinate.eqb (fst port) coord) portLocations).

Definition createIntersections (tiles : Map.t Tile) : Map.t Intersection :=
  fold_left
    (fun intersections tile =>
       fold_left
         (fun intersections intersectionCoord =>
            let intersectionId := intersectionToId intersectionCoord in
            if Map.has intersections intersectionId then intersections
            else
              Map.set intersections intersectionId
                (Intersection.mk intersectionId
                   (getAdjacentHexes intersectionCoord tiles)
                   (getIntersectionEdges intersectionCoord)
                   None
                   (getPortForIntersection intersectionCoord)))
         (getHexIntersections (Tile.coordinate tile)) intersections)
    (Map.values tiles) [].

Definition createEdges (intersections : Map.t Intersection) : Map.t Edge :=
  fold_left
    (fun edges intersection =>
       fold_left
         (fun edges edgeId =>
            if Map.has edges edgeId then edges
            else Map.set edges edgeId
                   (Edge.mk edgeId (parseEdgeId edgeId) None))
         (Intersection.edges intersection) edges)
    (Map.values intersections) [].

(** [createIntersectionsAndEdges] *)
Definition createIntersectionsAndEdges (tiles : Map.t Tile)
  : Map.t Intersection * Map.t Edge :=
  let intersections := createIntersections tiles in
  (intersections, createEdges intersections).

Definition generateStandardBoard : GameBoard :=
  let tiles := createStandardTiles in
  let '(intersections, edges) := createIntersectionsAndEdges tiles in
  GameBoard.mk tiles intersections edges (HexCoordinate.mk 0 0).

(** The numerator of [getDistance]; it is even, so the division by two that
    follows is exact. *)
Definition distanceNumerator (coord1 coord2 : HexCoordinate) : Z :=
  Z.abs (HexCoordinate.q coord1 - HexCoordinate.q coord2) +
  Z.abs (HexCoordinate.q coord1 + HexCoordinate.r coord1
         - HexCoordinate.q coord2 - HexCoordinate.r coord2) +
  Z.abs (HexCoordinate.r coord1 - HexCoordinate.r coord2).

Definition getDistance (coord1 coord2 : HexCoordinate) : Z :=
  distanceNumerator coord1 coord2 / 2.

Definition getNeighbors (coord : HexCoordinate) : list HexCoordinate :=
  let q := HexCoordinate.q coord in
  let r := HexCoordinate.r coord in
  [ HexCoordinate.mk (q + 1) (r - 1);
    HexCoordinate.mk (q + 1) r;
    HexCoordinate.mk q (r + 1);
    HexCoordinate.mk (q - 1) (r + 1);
    HexCoordinate.mk (q - 1) r;
    HexCoordinate.mk q (r - 1) ].

End BoardGenerator.

(** ** [BUILDING_COSTS] *)

Module BUILDING_COSTS.
Definition road : Resources := Resources.mk 1 1 0 0 0.
Definition settlement : Resources := Resources.mk 1 1 1 1 0.
Definition city : Resources := Resources.mk 0 0 0 2 3.
Definition developmentCard : Resources := Resources.mk 0 0 1 1 1.
End BUILDING_COSTS.

(** ** [ResourceManager] *)

Module ResourceManager.

(** [Math.floor(Math.random() * 6) + 1] for the two draws [u1], [u2]. *)
Definition rollDice (u1 u2 : nat) : Z * Z :=
  (Z.of_nat (u1 mod 6) + 1, Z.of_nat (u2 mod 6) + 1).

Definition getTotalResources (resources : Resources) : Z :=
  Resources.wood resources + Resources.brick resources +
  Resources.wool resources + Resources.wheat resources +
  Resources.ore resources.

Definition hasResources (playerResources : Resources)
    (required : PartialResources) : bool :=
  forallb (fun entry => Resources.get playerResources (fst entry) >=? snd entry)
          (PartialResources.entries required).

Definition subtractResources (playerResources : Resources)
    (toSubtract : PartialResources) : Resources :=
  fold_left
    (fun result entry =>
       let '(resource, amount) := entry in
       if amount >? 0
       then Resources.set result resource
              (Z.max 0 (Resources.get result resource - amount))
       else result)
    (PartialResources.entries toSubtract) playerResources.

Definition addResources (playerResources : Resources)
    (toAdd : PartialResources) : Resources :=
  fold_left
    (fun result entry =>
       let '(resource, amount) := entry in
       if amount >? 0
       then Resources.set result resource
              (Resources.get result resource + amount)
       else result)
    (PartialResources.entries toAdd) playerResources.

Definition createEmptyResources : Resources := Resources.mk 0 0 0 0 0.

(** [None] is the thrown [No resource type for terrain] error. *)
Definition terrainToResource (terrain : TerrainType) : option ResourceType :=
  match terrain with
  | Forest => Some Wood
  | Hill => Some Brick
  | Pasture => Some Wool
  | Field => Some Wheat
  | Mountain => Some Ore
  | Desert => None
  end.

(** The private [handleSevenRolled]: the new [players] array holds the same
    players, or field-for-field copies of them. *)
Definition handleSevenRolled (gameState : GameState) : GameState :=
  GameState.set_players
    (List.map
       (fun player =>
          if getTotalResources (Player.resources player) >? 7
          then Player.mk (Player.id player) (Player.color player)
                 (Player.resources player) (Player.developmentCards player)
                 (Player.buildings player) (Player.specialCards player)
                 (Player.knightsPlayed player) (Player.victoryPoints player)
                 (Player.canPlayDevCard player)
          else player)
       (GameState.players gameState))
    gameState.

Definition isAdjacent (intersection : Intersection) (coord : HexCoordinate)
  : bool :=
  existsb (fun hexCoord => HexCoordinate.eqb hexCoord coord)
          (Intersection.hexes intersection).

(** The body of the inner [intersections.forEach] callback. *)
Definition creditIntersection (tileCoord : HexCoordinate)
    (resourceType : ResourceType) (newState : GameState)
    (intersection : Intersection) : GameState :=
  if isAdjacent intersection tileCoord then
    match Intersection.building intersection with
    | Some building =>
        match findPlayerIndex newState (Building.playerId building) with
        | Some playerIndex =>
            let resourceAmount :=
              match Building.type building with City => 2 | Settlement => 1 end in
            GameState.modifyPlayer playerIndex
              (fun p => Player.set_resource resourceType
                          (Resources.get (Player.resources p) resourceType
                           + resourceAmount) p)
              newState
        | None => newState
        end
    | None => newState
    end
  else newState.

(** The body of the [producingTiles.forEach] callback.  The throw of
    [terrainToResource] cannot be reached: the desert returned before. *)
Definition creditTile (gameState : GameState) (newState : GameState)
    (tileCoord : HexCoordinate) : GameState :=
  match Map.get (GameBoard.tiles (GameState.board gameState))
                (BoardGenerator.coordToKey tileCoord) with
  | None => newState
  | Some tile =>
      match ResourceManager.terrainToResource (Tile.terrain tile) with
      | None => newState
      | Some resourceType =>
          fold_left (creditIntersection tileCoord resourceType)
            (Map.values (GameBoard.intersections (GameState.board gameState)))
            newState
      end
  end.

(** The test of the first [tiles.forEach] callback. *)
Definition rolled (diceSum : Z) (tile : Tile) : bool :=
  match Tile.numberDisc tile with
  | Some n => (n =? diceSum) && negb (Tile.hasRobber tile)
  | None => false
  end.

Definition producingTiles (gameState : GameState) (diceSum : Z)
  : list HexCoordinate :=
  List.map Tile.coordinate
    (List.filter (rolled diceSum)
       (Map.values (GameBoard.tiles (GameState.board gameState)))).

Definition distributeResources (gameState : GameState) (diceSum : Z)
  : GameState :=
  if diceSum =? 7 then handleSevenRolled gameState
  else
    fold_left (creditTile gameState) (producingTiles gameState diceSum)
              gameState.

Definition validateDiscardSelection (currentResources : Resources)
    (toDiscard : PartialResources) (requiredAmount : Z) : bool :=
  if negb (hasResources currentResources toDiscard) then false
  else
    let discardAmount :=
      fold_left (fun sum entry => sum + snd entry)
                (PartialResources.entries toDiscard) 0 in
    discardAmount =? requiredAmount.

Definition discardResources (gameState : GameState) (playerId : string)
    (toDiscard : PartialResources) : Outcome GameState :=
  match findPlayerIndex gameState playerId with
  | None =>
      Throw (Error ("Player " ++ playerId ++ " not found"))
            (GameState.heap gameState)
  | Some playerIndex =>
      match nth_error (GameState.players gameState) playerIndex with
      | None => Throw undefinedProperty (GameState.heap gameState)
      | Some player =>
          let totalResources := getTotalResources (Player.resources player) in
          if totalResources <=? 7 then
            Throw (Error ("Player " ++ playerId ++
                          " doesn't need to discard resources"))
                  (GameState.heap gameState)
          else
            let requiredDiscard := totalResources / 2 in
            if negb (validateDiscardSelection (Player.resources player)
                                              toDiscard requiredDiscard)
            then Throw (Error "Invalid discard selection")
                       (GameState.heap gameState)
            else
              Return
                (GameState.modifyPlayer playerIndex
                   (fun p => Player.set_resources
                               (subtractResources (Player.resources player)
                                                  toDiscard) p)
                   gameState)
      end
  end.

(** The unit cards of a hand, kind by kind. *)
Definition availableResources (resources : Resources) : list ResourceType :=
  flat_map (fun k => repeat k (Z.to_nat (Resources.get resources k)))
           allResourceTypes.

(** [u] is the draw behind [Math.floor(Math.random() * length)]. *)
Definition stealRandomResource (fromPlayerId toPlayerId : string)
    (gameState : GameState) (u : nat) : Outcome GameState :=
  match findPlayerIndex gameState fromPlayerId,
        findPlayerIndex gameState toPlayerId with
  | Some fromPlayerIndex, Some toPlayerIndex =>
      match nth_error (GameState.players gameState) fromPlayerIndex with
      | None => Throw undefinedProperty (GameState.heap gameState)
      | Some fromPlayer =>
          let available := availableResources (Player.resources fromPlayer) in
          match available with
          | [] => Return gameState
          | first :: _ =>
              let stolenResource :=
                nth (u mod List.length available) available first in
              let s1 :=
                GameState.modifyPlayer fromPlayerIndex
                  (fun p => Player.set_resource stolenResource
                              (Resources.get (Player.resources p) stolenResource - 1) p)
                  gameState in
              Return
                (GameState.modifyPlayer toPlayerIndex
                   (fun p => Player.set_resource stolenResource
                               (Resources.get (Player.resources p) stolenResource + 1) p)
                   s1)
          end
      end
  | _, _ =>
      Throw (Error "Invalid player IDs for stealing") (GameState.heap gameState)
  end.

End ResourceManager.

(** [gameState.players[gameState.currentPlayerIndex].id !== playerId]; the
    read throws when the index names no player. *)
Definition notCurrentPlayer (gameState : GameState) (playerId : string)
  : Outcome bool :=
  match currentPlayerId gameState with
  | Some id => Return (negb (String.eqb id playerId))
  | None => Throw undefinedProperty (GameState.heap gameState)
  end.

(** [const i = players.findIndex(...); const player = players[i]; ...]: the
    first use of [players[-1]] throws. *)
Definition withPlayer {A : Type} (gameState : GameState) (playerId : string)
    (k : nat -> Player -> Outcome A) : Outcome A :=
  match findPlayerIndex gameState playerId with
  | None => Throw undefinedProperty (GameState.heap gameState)
  | Some playerIndex =>
      match nth_error (GameState.players gameState) playerIndex with
      | None => Throw undefinedProperty (GameState.heap gameState)
      | Some player => k playerIndex player
      end
  end.

Definition isSetupPhase (phase : GamePhase) : bool :=
  match phase with
  | SETUP_ROUND_1 | SETUP_ROUND_2 => true
  | _ => false
  end.

Definition roadOwnedBy (playerId : string) (edge : option Edge) : bool :=
  match edge with
  | Some e =>
      match Edge.road e with
      | Some rd => String.eqb (Road.playerId rd) playerId
      | None => false
      end
  | None => false
  end.

Definition buildingOwnedBy (playerId : string) (intersection : option Intersection)
  : bool :=
  match intersection with
  | Some x =>
      match Intersection.building x with
      | Some b => String.eqb (Building.playerId b) playerId
      | None => false
      end
  | None => false
  end.

(** The connectivity walk shared, line for line, by
    [BuildingManager.isRoadConnected] and
    [DevelopmentCardManager.isRoadConnectedForFreeBuilding]. *)
Definition roadConnected (gameState : GameState) (playerId edgeId : string)
  : bool :=
  let board := GameState.board gameState in
  match Map.get (GameBoard.edges board) edgeId with
  | None => false
  | Some edge =>
      existsb
        (fun intersectionId =>
           let intersection := Map.get (GameBoard.intersections board) intersectionId in
           buildingOwnedBy playerId intersection ||
           match intersection with
           | Some x =>
               existsb
                 (fun connectedEdgeId =>
                    if String.eqb connectedEdgeId edgeId then false
                    else roadOwnedBy playerId
                           (Map.get (GameBoard.edges board) connectedEdgeId))
                 (Intersection.edges x)
           | None => false
           end)
        [fst (Edge.intersections edge); snd (Edge.intersections edge)]
  end.

(** ** [BuildingManager] *)

Module BuildingManager.

Definition isRoadConnected := roadConnected.

Definition isSettlementConnected (gameState : GameState)
    (playerId intersectionId : string) : bool :=
  let board := GameState.board gameState in
  match Map.get (GameBoard.intersections board) intersectionId with
  | None => false
  | Some intersection =>
      existsb (fun edgeId => roadOwnedBy playerId
                               (Map.get (GameBoard.edges board) edgeId))
              (Intersection.edges intersection)
  end.

(** [edge.intersections.find(id => id !== intersectionId)] *)
Definition otherEnd (edge : Edge) (intersectionId : string) : option string :=
  List.find (fun id => negb (String.eqb id intersectionId))
            [fst (Edge.intersections edge); snd (Edge.intersections edge)].

Definition checkDistanceRule (gameState : GameState) (intersectionId : string)
  : Validation :=
  let board := GameState.board gameState in
  match Map.get (GameBoard.intersections board) intersectionId with
  | None => Invalid "Invalid intersection"
  | Some intersection =>
      if existsb
           (fun edgeId =>
              match Map.get (GameBoard.edges board) edgeId with
              | None => false
              | Some edge =>
                  match otherEnd edge intersectionId with
                  | None => false
                  | Some otherIntersectionId =>
                      match Map.get (GameBoard.intersections board)
                                    otherIntersectionId with
                      | Some other =>
                          match Intersection.building other with
                          | Some _ => true
                          | None => false
                          end
                      | None => false
                      end
                  end
              end)
           (Intersection.edges intersection)
      then Invalid "Cannot place settlement adjacent to another building (distance rule)"
      else Valid
  end.

Definition canBuildRoad (gameState : GameState) (playerId edgeId : string)
  : Validation :=
  match findPlayer gameState playerId with
  | None => Invalid "Player not found"
  | Some player =>
      if negb (isSetupPhase (GameState.phase gameState)) &&
         negb (ResourceManager.hasResources (Player.resources player)
                 (PartialResources.ofResources BUILDING_COSTS.road))
      then Invalid "Insufficient resources for road"
      else
        match Map.get (GameBoard.edges (GameState.board gameState)) edgeId with
        | None => Invalid "Invalid edge location"
        | Some edge =>
            match Edge.road edge with
            | Some _ => Invalid "Edge already has a road"
            | None =>
                if negb (isRoadConnected gameState playerId edgeId)
                then Invalid "Road must connect to existing road or building"
                else Valid
            end
        end
  end.

Definition canBuildSettlement (gameState : GameState)
    (playerId intersectionId : string) : Validation :=
  match findPlayer gameState playerId with
  | None => Invalid "Player not found"
  | Some player =>
      if negb (isSetupPhase (GameState.phase gameState)) &&
         negb (ResourceManager.hasResources (Player.resources player)
                 (PartialResources.ofResources BUILDING_COSTS.settlement))
      then Invalid "Insufficient resources for settlement"
      else
        match Map.get (GameBoard.intersections (GameState.board gameState))
                      intersectionId with
        | None => Invalid "Invalid intersection location"
        | Some intersection =>
            match Intersection.building intersection with
            | Some _ => Invalid "Intersection already has a building"
            | None =>
                match checkDistanceRule gameState intersectionId with
                | Invalid error => Invalid error
                | Valid =>
                    if isSetupPhase (GameState.phase gameState) then Valid
                    else if negb (isSettlementConnected gameState playerId
                                                        intersectionId)
                    then Invalid "Settlement must connect to your road"
                    else Valid
                end
            end
        end
  end.

Definition canBuildCity (gameState : GameState)
    (playerId intersectionId : string) : Validation :=
  match findPlayer gameState playerId with
  | None => Invalid "Player not found"
  | Some player =>
      if negb (ResourceManager.hasResources (Player.resources player)
                 (PartialResources.ofResources BUILDING_COSTS.city))
      then Invalid "Insufficient resources for city"
      else
        match Map.get (GameBoard.intersections (GameState.board gameState))
                      intersectionId with
        | None => Invalid "Invalid intersection location"
        | Some intersection =>
            match Intersection.building intersection with
            | Some (Building.mk Settlement owner) =>
                if String.eqb owner playerId then Valid
                else Invalid "Can only upgrade your own settlements to cities"
            | _ => Invalid "Can only upgrade your own settlements to cities"
            end
        end
  end.

Definition buildRoad (gameState : GameState) (playerId edgeId : string)
  : Outcome GameState :=
  _ <- check (canBuildRoad gameState playerId edgeId) gameState ;;
  withPlayer gameState playerId (fun playerIndex player =>
    let s1 :=
      GameState.modifyPlayer playerIndex
        (Player.set_resources
           (ResourceManager.subtractResources (Player.resources player)
              (PartialResources.ofResources BUILDING_COSTS.road)))
        gameState in
    let s2 := GameState.modifyEdge edgeId (Edge.set_road (Road.mk playerId)) s1 in
    Return (GameState.modifyPlayer playerIndex (Player.push_road edgeId) s2)).

Definition buildSettlement (gameState : GameState)
    (playerId intersectionId : string) : Outcome GameState :=
  _ <- check (canBuildSettlement gameState playerId intersectionId) gameState ;;
  withPlayer gameState playerId (fun playerIndex player =>
    let s1 :=
      if negb (isSetupPhase (GameState.phase gameState)) then
        GameState.modifyPlayer playerIndex
          (Player.set_resources
             (ResourceManager.subtractResources (Player.resources player)
                (PartialResources.ofResources BUILDING_COSTS.settlement)))
          gameState
      else gameState in
    let s2 :=
      GameState.modifyIntersection intersectionId
        (Intersection.set_building (Building.mk Settlement playerId)) s1 in
    let s3 := GameState.modifyPlayer playerIndex
                (Player.push_settlement intersectionId) s2 in
    Return (GameState.modifyPlayer playerIndex
              (fun p => Player.set_victoryPoints (Player.victoryPoints p + 1) p)
              s3)).

Definition buildCity (gameState : GameState)
    (playerId intersectionId : string) : Outcome GameState :=
  _ <- check (canBuildCity gameState playerId intersectionId) gameState ;;
  withPlayer gameState playerId (fun playerIndex player =>
    let s1 :=
      GameState.modifyPlayer playerIndex
        (Player.set_resources
           (ResourceManager.subtractResources (Player.resources player)
              (PartialResources.ofResources BUILDING_COSTS.city)))
        gameState in
    let s2 :=
      GameState.modifyIntersection intersectionId
        (Intersection.set_building (Building.mk City playerId)) s1 in
    let s3 :=
      GameState.modifyPlayer playerIndex
        (fun p =>
           Player.set_buildings
             (Buildings.mk
                (Buildings.roads (Player.buildings p))
                (splice_indexOf intersectionId
                   (Buildings.settlements (Player.buildings p)))
                (Buildings.cities (Player.buildings p) ++ [intersectionId]))
             p)
        s2 in
    Return (GameState.modifyPlayer playerIndex
              (fun p => Player.set_victoryPoints (Player.victoryPoints p + 1) p)
              s3)).

Definition getRemainingBuildings (player : Player) : Z * Z * Z :=
  (15 - Z.of_nat (List.length (Buildings.roads (Player.buildings player))),
   5 - Z.of_nat (List.length (Buildings.settlements (Player.buildings player))),
   4 - Z.of_nat (List.length (Buildings.cities (Player.buildings player)))).

Definition remainingRoads (player : Player) : Z :=
  fst (fst (getRemainingBuildings player)).

End BuildingManager.

(** ** [DevelopmentCardManager] *)

Module DevelopmentCardManager.

(** [[deck[i], deck[j]] = [deck[j], deck[i]]] *)
Definition swap (deck : list DevelopmentCardType) (i j : nat)
  : list DevelopmentCardType :=
  match nth_error deck i, nth_error deck j with
  | Some a, Some b =>
      modify_nth j (fun _ => a) (modify_nth i (fun _ => b) deck)
  | _, _ => deck
  end.

Definition unshuffledDeck : list DevelopmentCardType :=
  repeat Knight 14 ++ repeat VictoryPoint 5 ++ repeat RoadBuilding 2 ++
  repeat Invention 2 ++ repeat Monopoly 2.

(** The shuffle loop for [i] running from [n] down to [1]; [u i] is the
    draw behind [Math.floor(Math.random() * (i + 1))] at index [i]. *)
Fixpoint shuffle (u : nat -> nat) (n : nat) (deck : list DevelopmentCardType)
  : list DevelopmentCardType :=
  match n with
  | O => deck
  | S n' => shuffle u n' (swap deck n (u n mod (n + 1)))
  end.

Definition createStandardDeck (u : nat -> nat) : list DevelopmentCardType :=
  shuffle u (List.length unshuffledDeck - 1) unshuffledDeck.

Definition canBuyDevelopmentCard (gameState : GameState) (playerId : string)
  : Validation :=
  match findPlayer gameState playerId with
  | None => Invalid "Player not found"
  | Some player =>
      if negb (ResourceManager.hasResources (Player.resources player)
                 (PartialResources.ofResources BUILDING_COSTS.developmentCard))
      then Invalid "Insufficient resources for development card"
      else
        match GameState.developmentCardDeck gameState with
        | [] => Invalid "No development cards remaining"
        | _ => Valid
        end
  end.

Definition buyDevelopmentCard (gameState : GameState) (playerId : string)
  : Outcome GameState :=
  _ <- check (canBuyDevelopmentCard gameState playerId) gameState ;;
  withPlayer gameState playerId (fun playerIndex player =>
    let s1 :=
      GameState.modifyPlayer playerIndex
        (Player.set_resources
           (ResourceManager.subtractResources (Player.resources player)
              (PartialResources.ofResources BUILDING_COSTS.developmentCard)))
        gameState in
    let deck := GameState.developmentCardDeck s1 in
    match List.last (List.map Some deck) None with
    | None => (* not reached: the deck was checked to be non-empty *)
        Throw undefinedProperty (GameState.heap s1)
    | Some drawnCard =>
        let s2 := GameState.set_developmentCardDeck (removelast deck) s1 in
        let s3 :=
          GameState.modifyPlayer playerIndex
            (fun p => Player.set_card drawnCard
                        (DevelopmentCards.get (Player.developmentCards p) drawnCard + 1)
                        p)
            s2 in
        Return (GameState.modifyPlayer playerIndex
                  (Player.set_canPlayDevCard false) s3)
    end).

Definition cardName (cardType : DevelopmentCardType) : string :=
  match cardType with
  | Knight => "knight"
  | RoadBuilding => "roadBuilding"
  | Invention => "invention"
  | Monopoly => "monopoly"
  | VictoryPoint => "victoryPoint"
  end.

Definition canPlayDevelopmentCard (gameState : GameState) (playerId : string)
    (cardType : DevelopmentCardType) : Outcome Validation :=
  match findPlayer gameState playerId with
  | None => Return (Invalid "Player not found")
  | Some player =>
      if DevelopmentCards.get (Player.developmentCards player) cardType =? 0
      then Return (Invalid ("Player does not have " ++ cardName cardType ++ " card"))
      else
        let isVictoryPoint := DevelopmentCardType_eqb cardType VictoryPoint in
        notCurrent <-
          (if negb isVictoryPoint then notCurrentPlayer gameState playerId
           else Return false) ;;
        if notCurrent
        then Return (Invalid "Can only play development cards on your turn")
        else if negb (Player.canPlayDevCard player) && negb isVictoryPoint
        then Return (Invalid "Cannot play development card on the same turn it was bought")
        else Return Valid
  end.

(** [const v = this.canPlayDevelopmentCard(...); if (!v.valid) throw ...] *)
Definition checkPlay (gameState : GameState) (playerId : string)
    (cardType : DevelopmentCardType) : Outcome unit :=
  v <- canPlayDevelopmentCard gameState playerId cardType ;;
  check v gameState.

(** The private [updateLargestArmy (gameState, playerId)]. *)
Definition updateLargestArmy (gameState : GameState) (playerId : string)
  : Outcome GameState :=
  match findPlayer gameState playerId with
  | None => Return gameState
  | Some player =>
      if Player.knightsPlayed player <? 3 then Return gameState
      else
        let currentHolder :=
          List.find (fun p => SpecialCards.largestArmy (Player.specialCards p))
                    (GameState.players gameState) in
        let currentLargestCount :=
          match currentHolder with
          | Some holder =>
              if Player.knightsPlayed holder =? 0 then 2
              else Player.knightsPlayed holder
          | None => 2
          end in
        if Player.knightsPlayed player >? currentLargestCount then
          s1 <-
            match currentHolder with
            | Some holder =>
                withPlayer gameState (Player.id holder) (fun currentHolderIndex _ =>
                  let s := GameState.modifyPlayer currentHolderIndex
                             (Player.set_largestArmy false) gameState in
                  Return (GameState.modifyPlayer currentHolderIndex
                            (fun p => Player.set_victoryPoints
                                        (Player.victoryPoints p - 2) p) s))
            | None => Return gameState
            end ;;
          withPlayer s1 playerId (fun playerIndex _ =>
            let s := GameState.modifyPlayer playerIndex
                       (Player.set_largestArmy true) s1 in
            Return (GameState.modifyPlayer playerIndex
                      (fun p => Player.set_victoryPoints
                                  (Player.victoryPoints p + 2) p) s))
        else Return gameState
  end.

Definition playKnightCard (gameState : GameState) (playerId : string)
    (newRobberLocation : HexCoordinate) (targetPlayerId : option string)
    (u : nat) : Outcome GameState :=
  _ <- checkPlay gameState playerId Knight ;;
  withPlayer gameState playerId (fun playerIndex _ =>
    let s1 :=
      GameState.modifyPlayer playerIndex
        (fun p => Player.set_card Knight
                    (DevelopmentCards.knight (Player.developmentCards p) - 1) p)
        gameState in
    let s2 :=
      GameState.modifyPlayer playerIndex
        (fun p => Player.set_knightsPlayed (Player.knightsPlayed p + 1) p) s1 in
    let s3 :=
      GameState.set_board
        (GameBoard.set_robberLocation newRobberLocation (GameState.board s2)) s2 in
    let s4 :=
      GameState.set_board
        (GameBoard.set_tiles
           (Map.updateAll (GameBoard.tiles (GameState.board s3))
                          (Tile.set_hasRobber false))
           (GameState.board s3)) s3 in
    let s5 :=
      GameState.modifyTile (BoardGenerator.coordToKey newRobberLocation)
        (Tile.set_hasRobber true) s4 in
    match targetPlayerId with
    | Some target =>
        if truthy targetPlayerId && negb (String.eqb target playerId)
        then ResourceManager.stealRandomResource target playerId s5 u
        else updateLargestArmy s5 playerId
    | None => updateLargestArmy s5 playerId
    end).

Definition isRoadConnectedForFreeBuilding := roadConnected.

Definition buildFreeRoad (gameState : GameState) (playerId edgeId : string)
  : Outcome GameState :=
  let heap := GameState.heap gameState in
  match Map.get (GameBoard.edges (GameState.board gameState)) edgeId with
  | None => Throw (Error "Invalid edge location") heap
  | Some edge =>
      match Edge.road edge with
      | Some _ => Throw (Error "Edge already has a road") heap
      | None =>
          if negb (isRoadConnectedForFreeBuilding gameState playerId edgeId)
          then Throw (Error "Road must connect to existing road or building") heap
          else
            match findPlayer gameState playerId with
            | None => Throw (Error "Player not found") heap
            | Some player =>
                if BuildingManager.remainingRoads player =? 0
                then Throw (Error "No roads remaining") heap
                else
                  withPlayer gameState playerId (fun playerIndex _ =>
                    let s1 := GameState.modifyEdge edgeId
                                (Edge.set_road (Road.mk playerId)) gameState in
                    Return (GameState.modifyPlayer playerIndex
                              (Player.push_road edgeId) s1))
            end
      end
  end.

Definition playRoadBuildingCard (gameState : GameState) (playerId : string)
    (edgeIds : string * string) : Outcome GameState :=
  _ <- checkPlay gameState playerId RoadBuilding ;;
  withPlayer gameState playerId (fun playerIndex _ =>
    let s1 :=
      GameState.modifyPlayer playerIndex
        (fun p => Player.set_card RoadBuilding
                    (DevelopmentCards.roadBuilding (Player.developmentCards p) - 1) p)
        gameState in
    s2 <- rethrow
            (fun error => Error ("Cannot build first road: " ++
                                 Exception_toString error))
            (buildFreeRoad s1 playerId (fst edgeIds)) ;;
    if negb (String.eqb (snd edgeIds) (fst edgeIds)) then
      rethrow
        (fun error => Error ("Cannot build second road: " ++
                             Exception_toString error))
        (buildFreeRoad s2 playerId (snd edgeIds))
    else Return s2).

Definition playInventionCard (gameState : GameState) (playerId : string)
    (resources : ResourceType * ResourceType) : Outcome GameState :=
  _ <- checkPlay gameState playerId Invention ;;
  withPlayer gameState playerId (fun playerIndex _ =>
    let s1 :=
      GameState.modifyPlayer playerIndex
        (fun p => Player.set_card Invention
                    (DevelopmentCards.invention (Player.developmentCards p) - 1) p)
        gameState in
    let resourcesToAdd :=
      fold_left
        (fun acc resourceType =>
           let current :=
             match PartialResources.get acc resourceType with
             | Some v => v
             | None => 0
             end in
           PartialResources.set acc resourceType (current + 1))
        [fst resources; snd resources] PartialResources.empty in
    Return (GameState.modifyPlayer playerIndex
              (fun p => Player.set_resources
                          (ResourceManager.addResources (Player.resources p)
                                                        resourcesToAdd) p)
              s1)).

(** The [players.forEach] of [playMonopolyCard]: [index] counts from the
    position of the head of [players]. *)
Fixpoint takeAll (resourceType : ResourceType) (playerIndex index : nat)
    (players : list Player) : Z * list Player :=
  match players with
  | [] => (0, [])
  | player :: rest =>
      let '(total, rest') := takeAll resourceType playerIndex (S index) rest in
      if Nat.eqb index playerIndex then (total, player :: rest')
      else (Resources.get (Player.resources player) resourceType + total,
            Player.set_resource resourceType 0 player :: rest')
  end.

Definition playMonopolyCard (gameState : GameState) (playerId : string)
    (resourceType : ResourceType) : Outcome GameState :=
  _ <- checkPlay gameState playerId Monopoly ;;
  withPlayer gameState playerId (fun playerIndex _ =>
    let s1 :=
      GameState.modifyPlayer playerIndex
        (fun p => Player.set_card Monopoly
                    (DevelopmentCards.monopoly (Player.developmentCards p) - 1) p)
        gameState in
    let '(totalStolen, players') :=
      takeAll resourceType playerIndex O (GameState.players s1) in
    let s2 := GameState.set_players players' s1 in
    Return (GameState.modifyPlayer playerIndex
              (fun p => Player.set_resource resourceType
                          (Resources.get (Player.resources p) resourceType
                           + totalStolen) p)
              s2)).

Definition playVictoryPointCard (gameState : GameState) (playerId : string)
  : Outcome GameState :=
  _ <- checkPlay gameState playerId VictoryPoint ;;
  withPlayer gameState playerId (fun playerIndex _ =>
    let s1 :=
      GameState.modifyPlayer playerIndex
        (fun p => Player.set_card VictoryPoint
                    (DevelopmentCards.victoryPoint (Player.developmentCards p) - 1) p)
        gameState in
    Return (GameState.modifyPlayer playerIndex
              (fun p => Player.set_victoryPoints (Player.victoryPoints p + 1) p)
              s1)).

Definition resetPlayDevCardFlag (gameState : GameState) : GameState :=
  GameState.set_players
    (List.map (Player.set_canPlayDevCard true) (GameState.players gameState))
    gameState.

(** [Object.entries(player.developmentCards)] runs through the kinds in the
    order of the [DevelopmentCards] record. *)
Definition allDevelopmentCardTypes : list DevelopmentCardType :=
  [Knight; RoadBuilding; Invention; Monopoly; VictoryPoint].

Definition getPlayableDevelopmentCards (player : Player)
  : list DevelopmentCardType :=
  if negb (Player.canPlayDevCard player) then []
  else
    List.filter
      (fun cardType =>
         DevelopmentCards.get (Player.developmentCards player) cardType >? 0)
      allDevelopmentCardTypes.

End DevelopmentCardManager.

(** ** [RobberManager] *)

Module RobberManager.

Definition canMoveRobber (gameState : GameState) (playerId : string)
    (newLocation : HexCoordinate) : Outcome Validation :=
  match findPlayer gameState playerId with
  | None => Return (Invalid "Player not found")
  | Some _ =>
      notCurrent <- notCurrentPlayer gameState playerId ;;
      if notCurrent then Return (Invalid "Not your turn")
      else
        match Map.get (GameBoard.tiles (GameState.board gameState))
                      (BoardGenerator.coordToKey newLocation) with
        | None => Return (Invalid "Invalid hex location")
        | Some _ =>
            if HexCoordinate.eqb
                 (GameBoard.robberLocation (GameState.board gameState))
                 newLocation
            then Return (Invalid "Robber must move to a different hex")
            else Return Valid
        end
  end.

Definition playerHasAdjacentBuilding (gameState : GameState)
    (playerId : string) (hexLocation : HexCoordinate) : bool :=
  existsb
    (fun intersection =>
       ResourceManager.isAdjacent intersection hexLocation &&
       buildingOwnedBy playerId (Some intersection))
    (Map.values (GameBoard.intersections (GameState.board gameState))).

Definition canStealFromPlayer (gameState : GameState)
    (theftPlayerId targetPlayerId : string) (robberLocation : HexCoordinate)
  : Validation :=
  if String.eqb theftPlayerId targetPlayerId
  then Invalid "Cannot steal from yourself"
  else
    match findPlayer gameState targetPlayerId with
    | None => Invalid "Target player not found"
    | Some targetPlayer =>
        if ResourceManager.getTotalResources (Player.resources targetPlayer) =? 0
        then Invalid "Target player has no resources to steal"
        else if negb (playerHasAdjacentBuilding gameState targetPlayerId
                                                robberLocation)
        then Invalid "Target player has no buildings adjacent to robber"
        else Valid
    end.

Definition moveRobber (gameState : GameState) (playerId : string)
    (newLocation : HexCoordinate) (targetPlayerId : option string) (u : nat)
  : Outcome GameState :=
  validation <- canMoveRobber gameState playerId newLocation ;;
  _ <- check validation gameState ;;
  let currentTileKey :=
    BoardGenerator.coordToKey
      (GameBoard.robberLocation (GameState.board gameState)) in
  let s1 := GameState.modifyTile currentTileKey (Tile.set_hasRobber false)
                                 gameState in
  let newTileKey := BoardGenerator.coordToKey newLocation in
  let s2 := GameState.modifyTile newTileKey (Tile.set_hasRobber true) s1 in
  let s3 :=
    GameState.set_board
      (GameBoard.set_robberLocation newLocation (GameState.board s2)) s2 in
  match targetPlayerId with
  | Some target =>
      if truthy targetPlayerId && negb (String.eqb target playerId) then
        if valid (canStealFromPlayer s3 playerId target newLocation)
        then ResourceManager.stealRandomResource target playerId s3 u
        else Return s3
      else Return s3
  | None => Return s3
  end.

Definition mustDiscardResources (gameState : GameState) : list Player :=
  List.filter
    (fun player =>
       ResourceManager.getTotalResources (Player.resources player) >? 7)
    (GameState.players gameState).

Definition isDiscardPhaseComplete (gameState : GameState) : bool :=
  match mustDiscardResources gameState with
  | [] => true
  | _ => false
  end.

(** Only the [newState] field of the result is used by the engine. *)
Definition handleSevenRolled (gameState : GameState) : GameState := gameState.

Definition getPlayersAdjacentToRobber (gameState : GameState) : list string :=
  let robberLocation := GameBoard.robberLocation (GameState.board gameState) in
  fold_left
    (fun adjacentPlayers intersection =>
       if ResourceManager.isAdjacent intersection robberLocation then
         match Intersection.building intersection with
         | Some building =>
             if negb (includes adjacentPlayers (Building.playerId building))
             then (adjacentPlayers ++ [Building.playerId building])%list
             else adjacentPlayers
         | None => adjacentPlayers
         end
       else adjacentPlayers)
    (Map.values (GameBoard.intersections (GameState.board gameState))) [].

Definition getValidStealTargets (gameState : GameState) (theftPlayerId : string)
  : list string :=
  List.filter
    (fun playerId =>
       if String.eqb playerId theftPlayerId then false
       else
         match findPlayer gameState playerId with
         | None => false
         | Some player =>
             ResourceManager.getTotalResources (Player.resources player) >? 0
         end)
    (getPlayersAdjacentToRobber gameState).

Definition getValidRobberLocations (gameState : GameState)
  : list HexCoordinate :=
  let currentLocation := GameBoard.robberLocation (GameState.board gameState) in
  List.map Tile.coordinate
    (List.filter
       (fun tile =>
          negb (HexCoordinate.q (Tile.coordinate tile)
                =? HexCoordinate.q currentLocation) ||
          negb (HexCoordinate.r (Tile.coordinate tile)
                =? HexCoordinate.r currentLocation))
       (Map.values (GameBoard.tiles (GameState.board gameState)))).

Definition validateRobberPlacement (gameState : GameState) (playerId : string)
    (robberLocation : HexCoordinate) (targetPlayerId : option string)
  : Outcome Validation :=
  moveValidation <- canMoveRobber gameState playerId robberLocation ;;
  if negb (valid moveValidation) then Return moveValidation
  else
    match targetPlayerId with
    | Some target =>
        if truthy targetPlayerId
        then Return (canStealFromPlayer gameState playerId target robberLocation)
        else
          match getValidStealTargets gameState playerId with
          | [] => Return Valid
          | _ => Return (Invalid "Must select a player to steal from when valid targets are available")
          end
    | None =>
        match getValidStealTargets gameState playerId with
        | [] => Return Valid
        | _ => Return (Invalid "Must select a player to steal from when valid targets are available")
        end
    end.

End RobberManager.

(** ** [TradingManager] *)

Module TradeOffer.
Record t := mk {
  offering : PartialResources;
  requesting : PartialResources;
  fromPlayerId : string;
  toPlayerId : option string
}.
End TradeOffer.
Abbreviation TradeOffer := TradeOffer.t.

Module TradingManager.

Definition getAccessiblePorts (gameState : GameState) (playerId : string)
  : list Port :=
  match findPlayer gameState playerId with
  | None => []
  | Some player =>
      let allBuildings :=
        (Buildings.settlements (Player.buildings player) ++
         Buildings.cities (Player.buildings player))%list in
      flat_map
        (fun intersectionId =>
           match Map.get (GameBoard.intersections (GameState.board gameState))
                         intersectionId with
           | Some intersection =>
               match Intersection.port intersection with
               | Some port => [port]
               | None => []
               end
           | None => []
           end)
        allBuildings
  end.

Definition getBestTradeRatio (accessiblePorts : list Port)
    (resourceType : ResourceType) : Z :=
  let bestRatio := 4 in
  let bestRatio :=
    match List.find (fun port => PortType_eqb (Port.type port)
                                              (Specific resourceType))
                    accessiblePorts with
    | Some specificPort => Z.min bestRatio (Port.ratio specificPort)
    | None => bestRatio
    end in
  let genericPorts :=
    List.filter (fun port => PortType_eqb (Port.type port) Generic)
                accessiblePorts in
  fold_left (fun bestRatio port => Z.min bestRatio (Port.ratio port))
            genericPorts bestRatio.

(** [entries.filter(([_, amount]) => amount > 0)] *)
Definition positiveEntries (x : PartialResources) : list (ResourceType * Z) :=
  List.filter (fun entry => snd entry >? 0) (PartialResources.entries x).

Definition validateBankTrade (gameState : GameState) (offer : TradeOffer)
  : Validation :=
  match findPlayer gameState (TradeOffer.fromPlayerId offer) with
  | None => Invalid "Player not found"
  | Some player =>
      if negb (ResourceManager.hasResources (Player.resources player)
                                            (TradeOffer.offering offer))
      then Invalid "Player does not have offered resources"
      else
        let accessiblePorts :=
          getAccessiblePorts gameState (TradeOffer.fromPlayerId offer) in
        match positiveEntries (TradeOffer.offering offer),
              positiveEntries (TradeOffer.requesting offer) with
        | [(offeringResource, offeringAmount)],
          [(requestingResource, requestingAmount)] =>
            let bestRatio := getBestTradeRatio accessiblePorts offeringResource in
            if offeringAmount <? bestRatio * requestingAmount
            then Invalid ("Invalid trade ratio. Need " ++
                          BoardGenerator.numberToString bestRatio ++
                          ":1 ratio (offering " ++
                          BoardGenerator.numberToString offeringAmount ++
                          ", requesting " ++
                          BoardGenerator.numberToString requestingAmount ++ ")")
            else Valid
        | _, _ =>
            Invalid "Bank trades must be one resource type for one resource type"
        end
  end.

Definition validatePlayerTrade (gameState : GameState) (offer : TradeOffer)
  : Validation :=
  let fromPlayer := findPlayer gameState (TradeOffer.fromPlayerId offer) in
  let toPlayer :=
    match TradeOffer.toPlayerId offer with
    | Some target =>
        if truthy (TradeOffer.toPlayerId offer)
        then findPlayer gameState target else None
    | None => None
    end in
  match fromPlayer with
  | None => Invalid "From player not found"
  | Some fromPlayer =>
      if truthy (TradeOffer.toPlayerId offer) &&
         match toPlayer with None => true | Some _ => false end
      then Invalid "To player not found"
      else if negb (ResourceManager.hasResources (Player.resources fromPlayer)
                                                 (TradeOffer.offering offer))
      then Invalid "Player does not have offered resources"
      else if negb (truthy (TradeOffer.toPlayerId offer))
      then validateBankTrade gameState offer
      else Valid
  end.

Definition executeTrade (gameState : GameState) (offer : TradeOffer)
  : Outcome GameState :=
  _ <- check (validatePlayerTrade gameState offer) gameState ;;
  withPlayer gameState (TradeOffer.fromPlayerId offer) (fun fromPlayerIndex _ =>
    let s1 :=
      GameState.modifyPlayer fromPlayerIndex
        (fun p => Player.set_resources
                    (ResourceManager.subtractResources (Player.resources p)
                       (TradeOffer.offering offer)) p)
        gameState in
    let s2 :=
      GameState.modifyPlayer fromPlayerIndex
        (fun p => Player.set_resources
                    (ResourceManager.addResources (Player.resources p)
                       (TradeOffer.requesting offer)) p)
        s1 in
    match TradeOffer.toPlayerId offer with
    | Some target =>
        if truthy (TradeOffer.toPlayerId offer) then
          withPlayer s2 target (fun toPlayerIndex _ =>
            let s3 :=
              GameState.modifyPlayer toPlayerIndex
                (fun p => Player.set_resources
                            (ResourceManager.subtractResources (Player.resources p)
                               (TradeOffer.requesting offer)) p)
                s2 in
            Return
              (GameState.modifyPlayer toPlayerIndex
                 (fun p => Player.set_resources
                             (ResourceManager.addResources (Player.resources p)
                                (TradeOffer.offering offer)) p)
                 s3))
        else Return s2
    | None => Return s2
    end).

Definition createBankTradeOffer (fromPlayerId : string)
    (offeringResource : ResourceType) (offeringAmount : Z)
    (requestingResource : ResourceType) (requestingAmount : Z) : TradeOffer :=
  TradeOffer.mk
    (PartialResources.set PartialResources.empty offeringResource offeringAmount)
    (PartialResources.set PartialResources.empty requestingResource
                          requestingAmount)
    fromPlayerId None.

(** [Math.floor(a / b)] on integers: the quotient rounded down, or an
    infinity when [b] is [0] (with [a] other than [0]). *)
Inductive Quotient :=
| Finite (z : Z)
| Infinite (positive : bool).

Definition floorDivide (a b : Z) : Quotient :=
  if b =? 0 then Infinite (a >? 0) else Finite (a / b).

Definition isPositive (x : Quotient) : bool :=
  match x with
  | Finite z => z >? 0
  | Infinite positive => positive
  end.

Module PossibleTrade.
Record t := mk {
  offeringResource : ResourceType;
  requestingResource : ResourceType;
  ratio : Z;
  maxTrades : Quotient
}.
End PossibleTrade.

Definition getPossibleBankTrades (gameState : GameState) (playerId : string)
  : list PossibleTrade.t :=
  match findPlayer gameState playerId with
  | None => []
  | Some player =>
      let accessiblePorts := getAccessiblePorts gameState playerId in
      flat_map
        (fun offeringResource =>
           let playerAmount :=
             Resources.get (Player.resources player) offeringResource in
           if playerAmount =? 0 then []
           else
             let ratio := getBestTradeRatio accessiblePorts offeringResource in
             let maxTrades := floorDivide playerAmount ratio in
             if isPositive maxTrades then
               flat_map
                 (fun requestingResource =>
                    if negb (ResourceType_eqb requestingResource offeringResource)
                    then [PossibleTrade.mk offeringResource requestingResource
                                           ratio maxTrades]
                    else [])
                 allResourceTypes
             else [])
        allResourceTypes
  end.

End TradingManager.

(** ** [Set<string>] *)

Module StringSet.
Definition t := list string.
Definition empty : t := [].
Definition has (s : t) (x : string) : bool := includes s x.
Definition add (s : t) (x : string) : t :=
  if has s x then s else (s ++ [x])%list.
Definition delete (s : t) (x : string) : t :=
  List.filter (fun y => negb (String.eqb y x)) s.
End StringSet.

(** ** [VictoryManager] *)

Module VictoryManager.

Definition bonus (b : bool) : Z := if b then 2 else 0.

Definition calculateVictoryPoints (player : Player) : Z :=
  let settlements :=
    Z.of_nat (List.length (Buildings.settlements (Player.buildings player))) in
  let cities :=
    Z.of_nat (List.length (Buildings.cities (Player.buildings player))) in
  let longestRoad := SpecialCards.longestRoad (Player.specialCards player) in
  let largestArmy := SpecialCards.largestArmy (Player.specialCards player) in
  let points := 0 in
  let points := points + settlements * 1 in
  let points := points + cities * 2 in
  let points := if longestRoad then points + 2 else points in
  let points := if largestArmy then points + 2 else points in
  points + (Player.victoryPoints player - settlements - cities * 2
            - bonus longestRoad - bonus largestArmy).

Definition getWinner (gameState : GameState) : option Player :=
  match List.filter (fun player => calculateVictoryPoints player >=? 10)
                    (GameState.players gameState) with
  | first :: _ => Some first
  | [] => None
  end.

(** [{ gameEnded, winner }]: [gameEnded] is [winner !== null]. *)
Definition checkGameEnd (gameState : GameState) : option Player :=
  getWinner gameState.

Definition isPathBlockedByOpponent (gameState : GameState)
    (intersectionId playerId : string) : bool :=
  match Map.get (GameBoard.intersections (GameState.board gameState))
                intersectionId with
  | Some intersection =>
      match Intersection.building intersection with
      | Some building => negb (String.eqb (Building.playerId building) playerId)
      | None => false
      end
  | None => false
  end.

(** The two nested [forEach] loops that fill [connectedRoads] for one road.
    [None] is the [TypeError] of [edge.road!.playerId] on an edge without
    a road. *)
Definition connectedRoadsOf (gameState : GameState) (roadIds : list string)
    (roadId : string) (edge : Edge) : option (list string) :=
  let board := GameState.board gameState in
  fold_left
    (fun acc intersectionId =>
       match Map.get (GameBoard.intersections board) intersectionId with
       | None => acc
       | Some intersection =>
           fold_left
             (fun acc connectedEdgeId =>
                match acc with
                | None => None
                | Some connectedRoads =>
                    if negb (String.eqb connectedEdgeId roadId) &&
                       includes roadIds connectedEdgeId
                    then
                      match Edge.road edge with
                      | None => None
                      | Some rd =>
                          if negb (isPathBlockedByOpponent gameState
                                     intersectionId (Road.playerId rd))
                          then Some (connectedRoads ++ [connectedEdgeId])%list
                          else Some connectedRoads
                      end
                    else Some connectedRoads
                end)
             (Intersection.edges intersection) acc
       end)
    [fst (Edge.intersections edge); snd (Edge.intersections edge)]
    (Some []).

Definition buildRoadGraph (gameState : GameState) (roadIds : list string)
  : option (Map.t (list string)) :=
  let graph := fold_left (fun graph roadId => Map.set graph roadId [])
                         roadIds [] in
  fold_left
    (fun acc roadId =>
       match acc with
       | None => None
       | Some graph =>
           match Map.get (GameBoard.edges (GameState.board gameState)) roadId with
           | None => Some graph
           | Some edge =>
               match connectedRoadsOf gameState roadIds roadId edge with
               | None => None
               | Some connectedRoads => Some (Map.set graph roadId connectedRoads)
               end
           end
       end)
    roadIds (Some graph).

(** The [for (const neighborRoad of neighbors)] loop; [recurse] is the
    recursive call, which hands back the path length and the visited set
    as the callee left it. *)
Fixpoint visitNeighbors
    (recurse : string -> StringSet.t -> option (Z * StringSet.t))
    (neighbors : list string) (maxPath : Z) (visited : StringSet.t)
  : option (Z * StringSet.t) :=
  match neighbors with
  | [] => Some (maxPath, visited)
  | neighborRoad :: rest =>
      if negb (StringSet.has visited neighborRoad) then
        match recurse neighborRoad visited with
        | None => None
        | Some (pathLength, visited') =>
            visitNeighbors recurse rest (Z.max maxPath pathLength) visited'
        end
      else visitNeighbors recurse rest maxPath visited
  end.

(** [depthFirstSearchLongestPath] with a bound on the recursion depth;
    [None] means the bound was hit.  The result carries the [visited] set
    as the call leaves it. *)
Fixpoint searchFrom (depth : nat) (graph : Map.t (list string))
    (currentRoad : string) (visited : StringSet.t)
  : option (Z * StringSet.t) :=
  match depth with
  | O => None
  | S depth' =>
      let visited := StringSet.add visited currentRoad in
      let neighbors :=
        match Map.get graph currentRoad with
        | Some l => l
        | None => []
        end in
      match visitNeighbors (searchFrom depth' graph) neighbors 0 visited with
      | None => None
      | Some (maxPath, visited) =>
          Some (maxPath + 1, StringSet.delete visited currentRoad)
      end
  end.

(** Every road id that occurs in the graph, as a key or as a neighbour. *)
Definition graphNodes (graph : Map.t (list string)) : list string :=
  (Map.keys graph ++ List.concat (Map.values graph))%list.

Definition searchDepth (graph : Map.t (list string)) : nat :=
  S (List.length (graphNodes graph)).

Definition depthFirstSearchLongestPath (graph : Map.t (list string))
    (currentRoad : string) (visited : StringSet.t)
  : option (Z * StringSet.t) :=
  searchFrom (searchDepth graph) graph currentRoad visited.

Definition calculateLongestRoadLength (gameState : GameState)
    (playerId : string) : Outcome Z :=
  match findPlayer gameState playerId with
  | None => Return 0
  | Some player =>
      let roads := Buildings.roads (Player.buildings player) in
      match roads with
      | [] => Return 0
      | _ =>
          match buildRoadGraph gameState roads with
          | None => Throw undefinedProperty (GameState.heap gameState)
          | Some roadGraph =>
              Return
                (fold_left
                   (fun maxLength roadId =>
                      match depthFirstSearchLongestPath roadGraph roadId
                                                        StringSet.empty with
                      | Some (length, _) => Z.max maxLength length
                      | None => maxLength
                      end)
                   roads 0)
          end
      end
  end.

(** [items.sort((a, b) => b.score - a.score)]: a stable sort, largest
    score first. *)
Fixpoint insertDescending (x : string * Z) (l : list (string * Z))
  : list (string * Z) :=
  match l with
  | [] => [x]
  | y :: l' =>
      if snd y <=? snd x then x :: y :: l' else y :: insertDescending x l'
  end.

Definition sortDescending (l : list (string * Z)) : list (string * Z) :=
  fold_right insertDescending [] l.

Section Award.
(** [updateLongestRoad] and [updateLargestArmy] are the same code up to
    the flag they read and write, the score they rank and its minimum. *)
Variable holds : Player -> bool.
Variable setHolds : bool -> Player -> Player.

Definition revoke (index : nat) (gameState : GameState) : GameState :=
  GameState.modifyPlayer index
    (fun p => Player.set_victoryPoints (Player.victoryPoints p - 2) p)
    (GameState.modifyPlayer index (setHolds false) gameState).

Definition grant (index : nat) (gameState : GameState) : GameState :=
  GameState.modifyPlayer index
    (fun p => Player.set_victoryPoints (Player.victoryPoints p + 2) p)
    (GameState.modifyPlayer index (setHolds true) gameState).

Definition revokeAll (gameState : GameState) : GameState :=
  GameState.set_players
    (List.map
       (fun player =>
          if holds player
          then Player.set_victoryPoints (Player.victoryPoints player - 2)
                 (setHolds false player)
          else player)
       (GameState.players gameState))
    gameState.

Definition award (minimum : Z) (scores : list (string * Z))
    (gameState : GameState) : Outcome GameState :=
  let validScores := List.filter (fun e => snd e >=? minimum) scores in
  match validScores with
  | [] => Return (revokeAll gameState)
  | _ =>
      let sorted := sortDescending validScores in
      let longest := match sorted with e :: _ => snd e | [] => 0 end in
      let tiedPlayers := List.filter (fun e => snd e =? longest) sorted in
      let currentHolder := List.find holds (GameState.players gameState) in
      match tiedPlayers with
      | [winner] =>
          let winnerId := fst winner in
          match currentHolder with
          | Some holder =>
              if negb (String.eqb (Player.id holder) winnerId) then
                s1 <- withPlayer gameState (Player.id holder)
                        (fun currentHolderIndex _ =>
                           Return (revoke currentHolderIndex gameState)) ;;
                withPlayer s1 winnerId
                  (fun winnerIndex _ => Return (grant winnerIndex s1))
              else Return gameState
          | None =>
              withPlayer gameState winnerId
                (fun winnerIndex _ => Return (grant winnerIndex gameState))
          end
      | _ =>
          match currentHolder with
          | Some holder =>
              let currentHolderTied :=
                existsb (fun e => String.eqb (fst e) (Player.id holder))
                        tiedPlayers in
              if negb currentHolderTied then
                withPlayer gameState (Player.id holder)
                  (fun currentHolderIndex _ =>
                     Return (revoke currentHolderIndex gameState))
              else Return gameState
          | None => Return gameState
          end
      end
  end.
End Award.

(** [newState.players.map(player => ({ playerId, length }))] *)
Fixpoint roadLengths (gameState : GameState) (players : list Player)
  : Outcome (list (string * Z)) :=
  match players with
  | [] => Return []
  | player :: rest =>
      length <- calculateLongestRoadLength gameState (Player.id player) ;;
      lengths <- roadLengths gameState rest ;;
      Return ((Player.id player, length) :: lengths)
  end.

Definition holdsLongestRoad (p : Player) : bool :=
  SpecialCards.longestRoad (Player.specialCards p).
Definition holdsLargestArmy (p : Player) : bool :=
  SpecialCards.largestArmy (Player.specialCards p).

Definition updateLongestRoad (gameState : GameState) : Outcome GameState :=
  lengths <- roadLengths gameState (GameState.players gameState) ;;
  award holdsLongestRoad Player.set_longestRoad 5 lengths gameState.

Definition armySizes (gameState : GameState) : list (string * Z) :=
  List.map (fun player => (Player.id player, Player.knightsPlayed player))
           (GameState.players gameState).

Definition updateLargestArmy (gameState : GameState) : Outcome GameState :=
  award holdsLargestArmy Player.set_largestArmy 3 (armySizes gameState)
        gameState.

Definition updatePlayerVictoryPoints (gameState : GameState) : GameState :=
  GameState.set_players
    (List.map
       (fun player =>
          Player.set_victoryPoints (calculateVictoryPoints player) player)
       (GameState.players gameState))
    gameState.

Module Breakdown.
Record t := mk {
  settlements : Z;
  cities : Z;
  longestRoad : Z;
  largestArmy : Z;
  developmentCards : Z;
  total : Z
}.
End Breakdown.

Definition getVictoryPointBreakdown (player : Player) : Breakdown.t :=
  let settlements :=
    Z.of_nat (List.length (Buildings.settlements (Player.buildings player))) in
  let cities :=
    Z.of_nat (List.length (Buildings.cities (Player.buildings player))) * 2 in
  let longestRoad :=
    if SpecialCards.longestRoad (Player.specialCards player) then 2 else 0 in
  let largestArmy :=
    if SpecialCards.largestArmy (Player.specialCards player) then 2 else 0 in
  let developmentCards :=
    Z.max 0 (Player.victoryPoints player - settlements - cities
             - longestRoad - largestArmy) in
  Breakdown.mk settlements cities longestRoad largestArmy developmentCards
    (settlements + cities + longestRoad + largestArmy + developmentCards).

End VictoryManager.

(** ** Actions and results *)

Inductive CardPayload :=
| PlayKnight (robberLocation : HexCoordinate) (targetPlayerId : option string)
| PlayRoadBuilding (edgeIds : string * string)
| PlayInvention (resources : ResourceType * ResourceType)
| PlayMonopoly (resourceType : ResourceType)
| PlayVictoryPoint
| PlayUnknownCard (cardType : string).

(** [action.type] together with the payload fields that the handler of that
    type reads. *)
Inductive ActionType :=
| ROLL_DICE
| PLAY_DEVELOPMENT_CARD (card : CardPayload)
| BUILD_ROAD (edgeId : string)
| BUILD_SETTLEMENT (intersectionId : string)
| BUILD_CITY (intersectionId : string)
| BUY_DEVELOPMENT_CARD
| TRADE_WITH_PLAYER (tradeOffer : TradeOffer)
| TRADE_WITH_BANK (tradeOffer : TradeOffer)
| MOVE_ROBBER (robberLocation : HexCoordinate) (targetPlayerId : option string)
| DISCARD_RESOURCES (resourcesToDiscard : PartialResources)
| END_TURN
| UNKNOWN_ACTION (type : string).

Module Action.
Record t := mk { type : ActionType; playerId : string }.
End Action.
Abbreviation Action := Action.t.

Inductive GameResult :=
| Success (newState : GameState)
| Failure (error : string).

(** The [Math.random] draws one call may consume: two for the dice, one for
    the choice of the stolen card. *)
Module Draws.
Record t := mk { die1 : nat; die2 : nat; steal : nat }.
End Draws.
Abbreviation Draws := Draws.t.

(** ** [CatanRuleEngine] *)

Module CatanRuleEngine.

(** [shuffle] supplies the draws of the deck shuffle and [now] is
    [Date.now()] as printed into the game id. *)
Definition createNewGame (playerIds : list string) (shuffle : nat -> nat)
    (now : string) : Exception + GameState :=
  if (List.length playerIds <? 2)%nat || (4 <? List.length playerIds)%nat
  then inl (Error "Game requires 2-4 players")
  else
    let players :=
      List.map
        (fun entry =>
           Player.mk (fst entry) (snd entry)
             (Resources.mk 0 0 0 0 0)
             (DevelopmentCards.mk 0 0 0 0 0)
             (Buildings.mk [] [] [])
             (SpecialCards.mk false false)
             0 0 true)
        (List.combine playerIds ["red"; "blue"; "white"; "orange"]) in
    inr (GameState.mk ("game_" ++ now) SETUP_ROUND_1 0 players
           BoardGenerator.generateStandardBoard
           (DevelopmentCardManager.createStandardDeck shuffle)
           None 1 None).

Definition handleRollDice (gameState : GameState) (action : Action)
    (draws : Draws) : Outcome GameState :=
  if negb (GamePhase_eqb (GameState.phase gameState) PRODUCTION)
  then Throw (Error "Can only roll dice during production phase")
             (GameState.heap gameState)
  else
    notCurrent <- notCurrentPlayer gameState (Action.playerId action) ;;
    if notCurrent
    then Throw (Error "Not your turn to roll dice") (GameState.heap gameState)
    else
      let diceRoll :=
        ResourceManager.rollDice (Draws.die1 draws) (Draws.die2 draws) in
      let diceSum := fst diceRoll + snd diceRoll in
      let newState := GameState.set_diceRoll (Some diceRoll) gameState in
      let newState :=
        if diceSum =? 7 then
          GameState.set_diceRoll (Some diceRoll)
            (RobberManager.handleSevenRolled newState)
        else
          GameState.set_diceRoll (Some diceRoll)
            (ResourceManager.distributeResources newState diceSum) in
      if negb (diceSum =? 7) || RobberManager.isDiscardPhaseComplete newState
      then Return (GameState.set_phase ACTION newState)
      else Return newState.

Definition handleBuildRoad (gameState : GameState) (action : Action)
    (edgeId : string) : Outcome GameState :=
  notCurrent <- notCurrentPlayer gameState (Action.playerId action) ;;
  if notCurrent
  then Throw (Error "Not your turn to build") (GameState.heap gameState)
  else BuildingManager.buildRoad gameState (Action.playerId action) edgeId.

Definition handleBuildSettlement (gameState : GameState) (action : Action)
    (intersectionId : string) : Outcome GameState :=
  notCurrent <- notCurrentPlayer gameState (Action.playerId action) ;;
  if notCurrent
  then Throw (Error "Not your turn to build") (GameState.heap gameState)
  else BuildingManager.buildSettlement gameState (Action.playerId action)
                                       intersectionId.

Definition handleBuildCity (gameState : GameState) (action : Action)
    (intersectionId : string) : Outcome GameState :=
  notCurrent <- notCurrentPlayer gameState (Action.playerId action) ;;
  if notCurrent
  then Throw (Error "Not your turn to build") (GameState.heap gameState)
  else BuildingManager.buildCity gameState (Action.playerId action)
                                 intersectionId.

Definition handleBuyDevelopmentCard (gameState : GameState) (action : Action)
  : Outcome GameState :=
  DevelopmentCardManager.buyDevelopmentCard gameState (Action.playerId action).

Definition handlePlayDevelopmentCard (gameState : GameState) (action : Action)
    (card : CardPayload) (draws : Draws) : Outcome GameState :=
  match card with
  | PlayKnight robberLocation targetPlayerId =>
      DevelopmentCardManager.playKnightCard gameState (Action.playerId action)
        robberLocation targetPlayerId (Draws.steal draws)
  | PlayRoadBuilding edgeIds =>
      DevelopmentCardManager.playRoadBuildingCard gameState
        (Action.playerId action) edgeIds
  | PlayInvention resources =>
      DevelopmentCardManager.playInventionCard gameState
        (Action.playerId action) resources
  | PlayMonopoly resourceType =>
      DevelopmentCardManager.playMonopolyCard gameState
        (Action.playerId action) resourceType
  | PlayVictoryPoint =>
      DevelopmentCardManager.playVictoryPointCard gameState
        (Action.playerId action)
  | PlayUnknownCard cardType =>
      Throw (Error ("Unknown development card type: " ++ cardType))
            (GameState.heap gameState)
  end.

Definition handlePlayerTrade (gameState : GameState) (action : Action)
    (tradeOffer : TradeOffer) : Outcome GameState :=
  TradingManager.executeTrade gameState tradeOffer.

Definition handleBankTrade (gameState : GameState) (action : Action)
    (tradeOffer : TradeOffer) : Outcome GameState :=
  TradingManager.executeTrade gameState tradeOffer.

Definition handleMoveRobber (gameState : GameState) (action : Action)
    (robberLocation : HexCoordinate) (targetPlayerId : option string)
    (draws : Draws) : Outcome GameState :=
  RobberManager.moveRobber gameState (Action.playerId action) robberLocation
                           targetPlayerId (Draws.steal draws).

Definition handleDiscardResources (gameState : GameState) (action : Action)
    (resourcesToDiscard : PartialResources) : Outcome GameState :=
  ResourceManager.discardResources gameState (Action.playerId action)
                                   resourcesToDiscard.

Definition handleEndTurn (gameState : GameState) (action : Action)
  : Outcome GameState :=
  notCurrent <- notCurrentPlayer gameState (Action.playerId action) ;;
  if notCurrent
  then Throw (Error "Not your turn to end turn") (GameState.heap gameState)
  else
    let newState := DevelopmentCardManager.resetPlayDevCardFlag gameState in
    let newState :=
      GameState.set_currentPlayerIndex
        ((GameState.currentPlayerIndex newState + 1)
           mod List.length (GameState.players newState))%nat
        newState in
    let newState :=
      if Nat.eqb (GameState.currentPlayerIndex newState) 0
      then GameState.set_turn (GameState.turn newState + 1) newState
      else newState in
    match GameState.phase newState with
    | SETUP_ROUND_1 =>
        if Nat.eqb (GameState.currentPlayerIndex newState) 0 &&
           (GameState.turn newState >? 1)
        then
          Return
            (GameState.set_currentPlayerIndex
               (List.length (GameState.players newState) - 1)%nat
               (GameState.set_phase SETUP_ROUND_2 newState))
        else Return newState
    | SETUP_ROUND_2 =>
        if Nat.eqb (GameState.currentPlayerIndex newState) 0
        then Return (GameState.set_phase PRODUCTION newState)
        else Return newState
    | _ => Return (GameState.set_phase PRODUCTION newState)
    end.

(** The [switch] of [processAction]; [None] is the [default] branch. *)
Definition dispatch (gameState : GameState) (action : Action) (draws : Draws)
  : option (Outcome GameState) :=
  match Action.type action with
  | ROLL_DICE => Some (handleRollDice gameState action draws)
  | BUILD_ROAD edgeId => Some (handleBuildRoad gameState action edgeId)
  | BUILD_SETTLEMENT intersectionId =>
      Some (handleBuildSettlement gameState action intersectionId)
  | BUILD_CITY intersectionId =>
      Some (handleBuildCity gameState action intersectionId)
  | BUY_DEVELOPMENT_CARD => Some (handleBuyDevelopmentCard gameState action)
  | PLAY_DEVELOPMENT_CARD card =>
      Some (handlePlayDevelopmentCard gameState action card draws)
  | TRADE_WITH_PLAYER tradeOffer =>
      Some (handlePlayerTrade gameState action tradeOffer)
  | TRADE_WITH_BANK tradeOffer =>
      Some (handleBankTrade gameState action tradeOffer)
  | MOVE_ROBBER robberLocation targetPlayerId =>
      Some (handleMoveRobber gameState action robberLocation targetPlayerId
                             draws)
  | DISCARD_RESOURCES resourcesToDiscard =>
      Some (handleDiscardResources gameState action resourcesToDiscard)
  | END_TURN => Some (handleEndTurn gameState action)
  | UNKNOWN_ACTION _ => None
  end.

Definition unknownActionType (action : Action) : string :=
  match Action.type action with
  | UNKNOWN_ACTION type => type
  | _ => EmptyString
  end.

(** The body of the [try] block. *)
Definition tryProcessAction (gameState : GameState) (action : Action)
    (draws : Draws) : Outcome GameResult :=
  match dispatch gameState action draws with
  | None =>
      Return (Failure ("Unknown action type: " ++ unknownActionType action))
  | Some handled =>
      newState <- handled ;;
      newState <- VictoryManager.updateLongestRoad newState ;;
      newState <- VictoryManager.updateLargestArmy newState ;;
      match VictoryManager.checkGameEnd newState with
      | Some winner =>
          Return (Success
                    (GameState.set_winner (Some (Player.id winner))
                       (GameState.set_phase GAME_OVER newState)))
      | None => Return (Success newState)
      end
  end.

Definition processAction (gameState : GameState) (action : Action)
    (draws : Draws) : GameResult :=
  match tryProcessAction gameState action draws with
  | Return result => result
  | Throw error _ => Failure (message error)
  end.

(** The shared objects once [processAction] has returned. *)
Definition heapAfter (gameState : GameState) (action : Action) (draws : Draws)
  : Heap :=
  match tryProcessAction gameState action draws with
  | Return (Success newState) => GameState.heap newState
  | Return (Failure _) => GameState.heap gameState
  | Throw _ heap => heap
  end.

(** The caller's own [gameState] object, read again after the call. *)
Definition inputAfter (gameState : GameState) (action : Action) (draws : Draws)
  : GameState :=
  GameState.withHeap gameState (heapAfter gameState action draws).

End CatanRuleEngine.

(** * Specification-level definitions *)

Unset Implicit Arguments.

(** The road ids of a graph that a search has not marked yet: the quantity
    that shrinks along the recursion of the longest-path search. *)
Definition unvisited (graph : Map.t (list string)) (visited : StringSet.t)
  : list string :=
  List.filter (fun n => negb (StringSet.has visited n))
              (nodup string_dec (VictoryManager.graphNodes graph)).

Definition sumZ {A : Type} (f : A -> Z) (l : list A) : Z :=
  fold_right (fun x acc => f x + acc) 0 l.

(** The seat of the first player carrying [playerId]. *)
Definition seatOf (players : list Player) (playerId : string) : option nat :=
  findIndex (fun p => String.eqb (Player.id p) playerId) players.

(** The holding of resource [k] in the hand at seat [index]. *)
Definition handAt (players : list Player) (index : nat) (k : ResourceType) : Z :=
  match nth_error players index with
  | Some p => Resources.get (Player.resources p) k
  | None => 0
  end.

Definition buildingYield (b : Building) : Z :=
  match Building.type b with City => 2 | Settlement => 1 end.

(** What the building on [x], if any, earns the player at seat [index] from
    the hex at [coord]. *)
Definition intersectionCredit (players : list Player) (coord : HexCoordinate)
    (index : nat) (x : Intersection) : Z :=
  match Intersection.building x with
  | Some b =>
      if ResourceManager.isAdjacent x coord then
        match seatOf players (Building.playerId b) with
        | Some seat => if Nat.eqb seat index then buildingYield b else 0
        | None => 0
        end
      else 0
  | None => 0
  end.

(** What one tile pays, in resource [k], to the player at seat [index] when
    [diceSum] is rolled. *)
Definition tileCredit (gameState : GameState) (diceSum : Z) (index : nat)
    (k : ResourceType) (tile : Tile) : Z :=
  if Tile.hasRobber tile then 0
  else
    match Tile.numberDisc tile, ResourceManager.terrainToResource (Tile.terrain tile) with
    | Some n, Some resource =>
        if (n =? diceSum) && ResourceType_eqb resource k then
          sumZ (intersectionCredit (GameState.players gameState)
                                   (Tile.coordinate tile) index)
               (Map.values (GameBoard.intersections (GameState.board gameState)))
        else 0
    | _, _ => 0
    end.

Definition production (gameState : GameState) (diceSum : Z) (index : nat)
    (k : ResourceType) : Z :=
  sumZ (tileCredit gameState diceSum index k)
       (Map.values (GameBoard.tiles (GameState.board gameState))).

(** Every tile is stored under the key of its own coordinate. *)
Definition tilesKeyedByCoordinate (tiles : Map.t Tile) : Prop :=
  Forall (fun tile =>
            Map.get tiles (BoardGenerator.coordToKey (Tile.coordinate tile))
            = Some tile)
         (Map.values tiles).


(** States met while credits are handed out keep the seating of the state
    the hand-out started from. *)
Definition sameSeats (gameState s : GameState) : Prop :=
  List.map Player.id (GameState.players s)
  = List.map Player.id (GameState.players gameState).


(** ** Bank trades, in the words of the specification *)

(** The player has a building, by the ledger, on an intersection that
    carries a port of the given kind. *)
Definition hasBuildingOnPort (gameState : GameState) (player : Player)
    (kind : PortType) : bool :=
  existsb
    (fun intersectionId =>
       match Map.get (GameBoard.intersections (GameState.board gameState))
                     intersectionId with
       | Some intersection =>
           match Intersection.port intersection with
           | Some port => PortType_eqb (Port.type port) kind
           | None => false
           end
       | None => false
       end)
    (Buildings.settlements (Player.buildings player) ++
     Buildings.cities (Player.buildings player))%list.

(** The minimum of 4, of 3 with a generic port, and of 2 with the port of
    the offered kind. *)
Definition requiredRatio (gameState : GameState) (player : Player)
    (offered : ResourceType) : Z :=
  Z.min 4
    (Z.min (if hasBuildingOnPort gameState player Generic then 3 else 4)
           (if hasBuildingOnPort gameState player (Specific offered)
            then 2 else 4)).

(** Ports trade at the rates the board generator gives them: 3:1 when
    generic, 2:1 when tied to a resource. *)
Definition standardPort (port : Port) : Prop :=
  Port.ratio port = match Port.type port with Generic => 3 | Specific _ => 2 end.

Definition standardPorts (board : GameBoard) : Prop :=
  Forall (fun intersection =>
            match Intersection.port intersection with
            | Some port => standardPort port
            | None => True
            end)
         (Map.values (GameBoard.intersections board)).


(** The ports found on a list of intersection ids, as
    [getAccessiblePorts] collects them. *)
Definition portsOf (gameState : GameState) (ids : list string) : list Port :=
  flat_map
    (fun intersectionId =>
       match Map.get (GameBoard.intersections (GameState.board gameState))
                     intersectionId with
       | Some intersection =>
           match Intersection.port intersection with
           | Some port => [port]
           | None => []
           end
       | None => []
       end) ids.



(** ** Hand arithmetic, entry by entry *)

(** [Math.max(0, held - amount)] when a positive amount is named. *)
Definition clampedSubtract (held : Z) (amount : option Z) : Z :=
  match amount with
  | Some a => if a >? 0 then Z.max 0 (held - a) else held
  | None => held
  end.

Definition credited (held : Z) (amount : option Z) : Z :=
  match amount with
  | Some a => if a >? 0 then held + a else held
  | None => held
  end.

(** All resource units in play. *)
Definition totalUnits (players : list Player) : Z :=
  sumZ (fun p => ResourceManager.getTotalResources (Player.resources p)) players.


(** A two-seat state in which only the first player holds anything, and
    an offer of that one wood for a brick the second player does not have. *)
Definition tradeExample : GameState :=
  GameState.mk "game_0" ACTION 0
    [ Player.mk "player1" "red" (Resources.mk 1 0 0 0 0)
        (DevelopmentCards.mk 0 0 0 0 0) (Buildings.mk [] [] [])
        (SpecialCards.mk false false) 0 0 true;
      Player.mk "player2" "blue" (Resources.mk 0 0 0 0 0)
        (DevelopmentCards.mk 0 0 0 0 0) (Buildings.mk [] [] [])
        (SpecialCards.mk false false) 0 0 true ]
    BoardGenerator.generateStandardBoard [] None 1 None.

Definition tradeExampleOffer : TradeOffer :=
  TradeOffer.mk (PartialResources.set PartialResources.empty Wood 1)
                (PartialResources.set PartialResources.empty Brick 1)
                "player1" (Some "player2").



(** ** Bonus cards *)

(** [playerId] names a player whose flag for the bonus is set. *)
Definition holdsBonus (holds : Player -> bool) (players : list Player)
    (playerId : string) : bool :=
  existsb (fun p => String.eqb (Player.id p) playerId && holds p) players.

Definition atMostOneHolder (holds : Player -> bool) (players : list Player)
  : Prop :=
  (List.length (List.filter holds players) <= 1)%nat.

(** The entries that share the top score, in the order the sort leaves
    them: the [tiedPlayers] of the source. *)
Definition tiedLeaders (valid : list (string * Z)) : list (string * Z) :=
  List.filter
    (fun e => snd e =? match VictoryManager.sortDescending valid with
                       | first :: _ => snd first
                       | [] => 0
                       end)
    (VictoryManager.sortDescending valid).


(** The order the sort of the scores establishes. *)
Definition descending (a b : string * Z) : Prop := snd b <= snd a.



(** ** Play from a new game *)

(** The states a game passes through: a new game, then one accepted action
    after another. *)
Inductive reachable : GameState -> Prop :=
| reachable_new (playerIds : list string) (shuffle : nat -> nat) (now : string)
    (gameState : GameState) :
    CatanRuleEngine.createNewGame playerIds shuffle now = inr gameState ->
    reachable gameState
| reachable_step (gameState : GameState) (action : Action) (draws : Draws)
    (newState : GameState) :
    reachable gameState ->
    CatanRuleEngine.processAction gameState action draws = Success newState ->
    reachable newState.

(** Feed a list of actions to [processAction], stopping at the first one
    that is turned down. *)
Fixpoint play (gameState : GameState) (trace : list (Action * Draws))
  : option GameState :=
  match trace with
  | [] => Some gameState
  | (action, draws) :: rest =>
      match CatanRuleEngine.processAction gameState action draws with
      | Success newState => play newState rest
      | Failure _ => None
      end
  end.

(** The tiles whose robber flag is set. *)
Definition robberTiles (gameState : GameState) : list Tile :=
  List.filter Tile.hasRobber
    (Map.values (GameBoard.tiles (GameState.board gameState))).

(** The robber flags agree with [robberLocation]: the tiles have distinct
    keys, and a tile is flagged exactly when it is stored under the key of
    the robber's hex. *)
Definition robberMarked (board : GameBoard) : Prop :=
  NoDup (Map.keys (GameBoard.tiles board)) /\
  forall k tile,
    In (k, tile) (GameBoard.tiles board) ->
    (Tile.hasRobber tile = true <->
     k = BoardGenerator.coordToKey (GameBoard.robberLocation board)).

(** Shuffle draws that swap the last card of the deck with the card at
    [index] and leave every other card in place. *)
Definition topCardFrom (index : nat) (i : nat) : nat :=
  if Nat.eqb i 24 then index else i.

Definition rolling (a b : nat) : Draws := Draws.mk (a - 1) (b - 1) 0.
Definition noDraws : Draws := Draws.mk 0 0 0.
Definition by_ (playerId : string) (type : ActionType) : Action * Draws :=
  (Action.mk type playerId, noDraws).
Definition rolls (playerId : string) (a b : nat) : Action * Draws :=
  (Action.mk ROLL_DICE playerId, rolling a b).

(** Player 1 settles next to a pasture, two fields and two mountains and
    both players pass through the setup rounds; then 9, 3 and 11 are rolled,
    which pays player 1 a wool, a wheat and an ore.  It is player 2's turn
    to roll. *)
Definition openingTrace : list (Action * Draws) :=
  [ by_ "player1" (BUILD_SETTLEMENT "i_1,0");
    by_ "player1" (BUILD_SETTLEMENT "i_0,-2");
    by_ "player1" END_TURN;
    by_ "player2" END_TURN;
    by_ "player2" END_TURN;
    rolls "player1" 4 5;
    by_ "player1" END_TURN;
    rolls "player2" 1 2;
    by_ "player2" END_TURN;
    rolls "player1" 5 6;
    by_ "player1" END_TURN ].

(** Player 1 then buys a development card on the next turn and the turn
    comes round again: player 1 is to roll, and may play the card first. *)
Definition purchaseTrace : list (Action * Draws) :=
  (openingTrace ++
   [ rolls "player2" 1 1;
     by_ "player2" END_TURN;
     rolls "player1" 1 1;
     by_ "player1" BUY_DEVELOPMENT_CARD;
     by_ "player1" END_TURN;
     rolls "player2" 1 1;
     by_ "player2" END_TURN ])%list.

Definition newGameWithTopCard (index : nat) : Exception + GameState :=
  CatanRuleEngine.createNewGame ["player1"; "player2"] (topCardFrom index) "0".

Definition playFromNew (index : nat) (trace : list (Action * Draws))
  : option GameState :=
  match newGameWithTopCard index with
  | inr gameState => play gameState trace
  | inl _ => None
  end.


(** A knight sent to a hex that is not on the board, a road-building play
    whose second edge does not exist, and two requests made by player 1
    while player 2 is to move. *)
Definition knightOffBoard : Action :=
  Action.mk (PLAY_DEVELOPMENT_CARD (PlayKnight (HexCoordinate.mk 5 5) None))
            "player1".

Definition roadBuildingSecondFails : Action :=
  Action.mk (PLAY_DEVELOPMENT_CARD (PlayRoadBuilding ("e_1,0_2,-1", "e_9,9_9,9")))
            "player1".

Definition buyOutOfTurn : Action := Action.mk BUY_DEVELOPMENT_CARD "player1".

Definition tradeOutOfTurn : Action :=
  Action.mk
    (TRADE_WITH_PLAYER
       (TradeOffer.mk (PartialResources.set PartialResources.empty Wheat 1)
                      PartialResources.empty "player1" (Some "player2")))
    "player1".


(** Three players place a settlement and a road each in the first setup
    round. *)
Definition firstRoundTrace : list (Action * Draws) :=
  [ by_ "player1" (BUILD_SETTLEMENT "i_1,0");
    by_ "player1" (BUILD_ROAD "e_1,0_2,-1");
    by_ "player1" END_TURN;
    by_ "player2" (BUILD_SETTLEMENT "i_-1,1");
    by_ "player2" (BUILD_ROAD "e_-1,1_0,0");
    by_ "player2" END_TURN;
    by_ "player3" (BUILD_SETTLEMENT "i_0,-2");
    by_ "player3" (BUILD_ROAD "e_0,-2_1,-3");
    by_ "player3" END_TURN ].

(** The last-seated player's turn of the second setup round. *)
Definition secondRoundTurn : list (Action * Draws) :=
  [ by_ "player3" (BUILD_SETTLEMENT "i_2,-2");
    by_ "player3" (BUILD_ROAD "e_2,-2_3,-3");
    by_ "player3" END_TURN ].

Definition threePlayerGame : Exception + GameState :=
  CatanRuleEngine.createNewGame ["player1"; "player2"; "player3"]
                                (topCardFrom 0) "0".

Definition playThree (trace : list (Action * Draws)) : option GameState :=
  match threePlayerGame with
  | inr gameState => play gameState trace
  | inl _ => None
  end.

(** The terrains of the tiles that touch an intersection. *)
Definition adjacentTerrains (gameState : GameState) (intersectionId : string)
  : list TerrainType :=
  match Map.get (GameBoard.intersections (GameState.board gameState))
                intersectionId with
  | Some intersection =>
      flat_map
        (fun hex =>
           match Map.get (GameBoard.tiles (GameState.board gameState))
                         (BoardGenerator.coordToKey hex) with
           | Some tile => [Tile.terrain tile]
           | None => []
           end)
        (Intersection.hexes intersection)
  | None => []
  end.



(** What the longest-road rule reads of a player besides the roads: the id
    and the flag. *)
Definition bonusView (p : Player) : string * bool :=
  (Player.id p, VictoryManager.holdsLongestRoad p).

(** A step keeps the seating and the longest-road flags. *)
Definition keepsBonusView (s s' : GameState) : Prop :=
  List.map bonusView (GameState.players s')
  = List.map bonusView (GameState.players s).






(** ** Example states *)

Definition examplePlayer (id color : string) (resources : Resources)
    (settlements : list string) : Player :=
  Player.mk id color resources (DevelopmentCards.mk 0 0 0 0 0)
            (Buildings.mk [] settlements []) (SpecialCards.mk false false)
            0 0 true.

(** Player 1 has a city on [i_1,0], which touches the field numbered 3. *)
Definition productionExample : GameState :=
  GameState.modifyIntersection "i_1,0"
    (Intersection.set_building (Building.mk City "player1"))
    (GameState.mk "game_0" PRODUCTION 0
       [ examplePlayer "player1" "red" (Resources.mk 0 0 0 0 0) [];
         examplePlayer "player2" "blue" (Resources.mk 0 0 0 0 0) [] ]
       BoardGenerator.generateStandardBoard [] None 1 None).

(** Player 1 holds two wood and has settled the wood port [i_1,-2]. *)
Definition bankPlayer : Player :=
  examplePlayer "player1" "red" (Resources.mk 2 0 0 0 0) ["i_1,-2"].

Definition bankExample : GameState :=
  GameState.mk "game_0" ACTION 0
    [ bankPlayer; examplePlayer "player2" "blue" (Resources.mk 0 0 0 0 0) [] ]
    BoardGenerator.generateStandardBoard [] None 1 None.

Definition bankOffer : TradeOffer :=
  TradeOffer.mk (PartialResources.set PartialResources.empty Wood 2)
                (PartialResources.set PartialResources.empty Brick 1)
                "player1" None.

(** Player 1 can pay for a card and a victory point lies on top of the
    one-card deck. *)
Definition cardExample : GameState :=
  GameState.mk "game_0" ACTION 0
    [ examplePlayer "player1" "red" (Resources.mk 0 0 1 1 1) [];
      examplePlayer "player2" "blue" (Resources.mk 0 0 0 0 0) [] ]
    BoardGenerator.generateStandardBoard [VictoryPoint] None 1 None.

Definition cardBought : GameState :=
  Eval vm_compute in
    match DevelopmentCardManager.buyDevelopmentCard cardExample "player1" with
    | Return bought => bought
    | Throw _ _ => cardExample
    end.

(** Player 2 is to end the first setup round of a two-player game. *)
Definition setupExample : GameState :=
  GameState.mk "game_0" SETUP_ROUND_1 1
    [ examplePlayer "player1" "red" (Resources.mk 0 0 0 0 0) [];
      examplePlayer "player2" "blue" (Resources.mk 0 0 0 0 0) [] ]
    BoardGenerator.generateStandardBoard [] None 1 None.

Definition setupEntered : GameState :=
  Eval vm_compute in
    match CatanRuleEngine.handleEndTurn setupExample (Action.mk END_TURN "player2") with
    | Return entered => entered
    | Throw _ _ => setupExample
    end.





(** * Definitions for the further properties *)

(** The character [sep] does not occur in [s]. *)
Fixpoint lacks (sep : ascii) (s : string) : bool :=
  match s with
  | EmptyString => true
  | String c s' => negb (Ascii.eqb c sep) && lacks sep s'
  end.

(** ** The generator loops *)

(** One round of the two generator loops: the value made for [x] is stored
    under the key of [x] unless that key is taken. *)
Definition fillStep {K V : Type} (key : K -> string) (make : K -> V)
    (m : Map.t V) (x : K) : Map.t V :=
  if Map.has m (key x) then m else Map.set m (key x) (make x).

(** Whatever is stored under the key of some [x] is the value made for it. *)
Definition madeByKey {K V : Type} (key : K -> string) (make : K -> V)
    (m : Map.t V) : Prop :=
  forall x v, Map.get m (key x) = Some v -> v = make x.

(** The intersection and the edge as the generator first stores them. *)
Definition makeIntersection (tiles : Map.t Tile) (coord : HexCoordinate)
  : Intersection :=
  Intersection.mk (BoardGenerator.intersectionToId coord)
    (BoardGenerator.getAdjacentHexes coord tiles)
    (BoardGenerator.getIntersectionEdges coord)
    None
    (BoardGenerator.getPortForIntersection coord).

Definition makeEdge (edgeId : string) : Edge :=
  Edge.mk edgeId (BoardGenerator.parseEdgeId edgeId) None.

(** ** Hands *)

(** No kind of card is held in a negative number. *)
Definition handNonnegative (held : Resources) : Prop :=
  forall k, 0 <= Resources.get held k.

(** The amount an object of amounts names for [k]: [amounts[k] || 0]. *)
Definition amountOf (amounts : PartialResources) (k : ResourceType) : Z :=
  match PartialResources.get amounts k with
  | Some a => a
  | None => 0
  end.

(** The amounts that [addResources] and [subtractResources] act on: the
    positive ones. *)
Definition positivePart (amounts : PartialResources) (k : ResourceType) : Z :=
  Z.max 0 (amountOf amounts k).

Definition sumOverKinds (f : ResourceType -> Z) : Z :=
  f Wood + f Brick + f Wool + f Wheat + f Ore.

(** The number of cards in the hand at seat [index]. *)
Definition totalAt (players : list Player) (index : nat) : Z :=
  match nth_error players index with
  | Some p => ResourceManager.getTotalResources (Player.resources p)
  | None => 0
  end.

(** A hand of two wood, two brick, two wool, one wheat and one ore, and a
    selection of one wood, one brick, one wool and one wheat from it. *)
Definition eightCards : Resources := Resources.mk 2 2 2 1 1.

Definition fourOfThem : PartialResources :=
  PartialResources.mk (Some 1) (Some 1) (Some 1) (Some 1) None.

Definition discardExample : GameState :=
  GameState.mk "game_0" PRODUCTION 0
    [ examplePlayer "player1" "red" eightCards [];
      examplePlayer "player2" "blue" (Resources.mk 0 0 0 0 1) [] ]
    BoardGenerator.generateStandardBoard [] None 1 None.

Definition discardExampleAfter : GameState :=
  Eval vm_compute in
    match ResourceManager.discardResources discardExample "player1" fourOfThem with
    | Return s => s
    | Throw _ _ => discardExample
    end.

Definition stealExampleAfter : GameState :=
  Eval vm_compute in
    match ResourceManager.stealRandomResource "player1" "player2" discardExample 3 with
    | Return s => s
    | Throw _ _ => discardExample
    end.

(** ** Building *)

(** Player 1 holds the price of a city and has settlements on [i_1,0] and
    [i_0,-2], both on the ledger and on the board. *)
Definition cityExample : GameState :=
  GameState.modifyIntersection "i_0,-2"
    (Intersection.set_building (Building.mk Settlement "player1"))
    (GameState.modifyIntersection "i_1,0"
       (Intersection.set_building (Building.mk Settlement "player1"))
       (GameState.mk "game_0" ACTION 0
          [ Player.mk "player1" "red" (Resources.mk 0 0 0 2 3)
              (DevelopmentCards.mk 0 0 0 0 0)
              (Buildings.mk [] ["i_1,0"; "i_0,-2"] [])
              (SpecialCards.mk false false) 0 2 true;
            examplePlayer "player2" "blue" (Resources.mk 0 0 0 0 0) [] ]
          BoardGenerator.generateStandardBoard [] None 1 None)).

Definition cityExampleAfter : GameState :=
  Eval vm_compute in
    match BuildingManager.buildCity cityExample "player1" "i_1,0" with
    | Return s => s
    | Throw _ _ => cityExample
    end.

(** Player 1, who holds a wood and a brick, has a settlement on [i_1,0] in
    the first setup round. *)
Definition roadSetupExample : GameState :=
  GameState.modifyIntersection "i_1,0"
    (Intersection.set_building (Building.mk Settlement "player1"))
    (GameState.mk "game_0" SETUP_ROUND_1 0
       [ examplePlayer "player1" "red" (Resources.mk 1 1 0 0 0) ["i_1,0"];
         examplePlayer "player2" "blue" (Resources.mk 0 0 0 0 0) [] ]
       BoardGenerator.generateStandardBoard [] None 1 None).

Definition roadSetupExampleAfter : GameState :=
  Eval vm_compute in
    match BuildingManager.buildRoad roadSetupExample "player1" "e_1,0_2,-1" with
    | Return s => s
    | Throw _ _ => roadSetupExample
    end.

(** The three intersections to which [getIntersectionEdges] draws an edge
    from [coord]. *)
Definition forwardNeighbours (coord : HexCoordinate) : list HexCoordinate :=
  [ HexCoordinate.mk (HexCoordinate.q coord + 1) (HexCoordinate.r coord - 1);
    HexCoordinate.mk (HexCoordinate.q coord + 1) (HexCoordinate.r coord);
    HexCoordinate.mk (HexCoordinate.q coord) (HexCoordinate.r coord + 1) ].

(** ** Development cards *)

Definition DevelopmentCardType_eq_dec (a b : DevelopmentCardType)
  : {a = b} + {a <> b}.
Proof. decide equality. Defined.

(** How many cards of a kind the deck is made of. *)
Definition deckComposition (cardType : DevelopmentCardType) : nat :=
  match cardType with
  | Knight => 14
  | VictoryPoint => 5
  | RoadBuilding | Invention | Monopoly => 2
  end.

(** [1] when the two kinds agree, [0] otherwise. *)
Definition sameCard (a x : DevelopmentCardType) : nat :=
  if DevelopmentCardType_eq_dec a x then 1%nat else 0%nat.

(** The number of cards of kind [k] held at seat [index]. *)
Definition cardsAt (players : list Player) (index : nat)
    (k : DevelopmentCardType) : Z :=
  match nth_error players index with
  | Some p => DevelopmentCards.get (Player.developmentCards p) k
  | None => 0
  end.

(** Player 1 can pay for a card; a monopoly lies on top of a two-card
    deck. *)
Definition purchaseExample : GameState :=
  GameState.mk "game_0" ACTION 0
    [ examplePlayer "player1" "red" (Resources.mk 0 0 1 1 1) [];
      examplePlayer "player2" "blue" (Resources.mk 0 0 0 0 0) [] ]
    BoardGenerator.generateStandardBoard [Knight; Monopoly] None 1 None.

Definition purchaseExampleAfter : GameState :=
  Eval vm_compute in
    match DevelopmentCardManager.buyDevelopmentCard purchaseExample "player1" with
    | Return s => s
    | Throw _ _ => purchaseExample
    end.

(** All cards of kind [k] in the players' hands. *)
Definition unitsOf (k : ResourceType) (players : list Player) : Z :=
  sumZ (fun p => Resources.get (Player.resources p) k) players.

(** Player 1 holds a monopoly and an invention card; there is wood in all
    three hands. *)
Definition monopolyExample : GameState :=
  GameState.mk "game_0" ACTION 0
    [ Player.mk "player1" "red" (Resources.mk 1 0 0 0 0)
        (DevelopmentCards.mk 0 0 1 1 0) (Buildings.mk [] [] [])
        (SpecialCards.mk false false) 0 0 true;
      examplePlayer "player2" "blue" (Resources.mk 2 1 0 0 0) [];
      examplePlayer "player3" "white" (Resources.mk 3 0 0 0 1) [] ]
    BoardGenerator.generateStandardBoard [] None 1 None.

Definition monopolyExampleAfter : GameState :=
  Eval vm_compute in
    match DevelopmentCardManager.playMonopolyCard monopolyExample "player1" Wood with
    | Return s => s
    | Throw _ _ => monopolyExample
    end.

Definition inventionExampleAfter : GameState :=
  Eval vm_compute in
    match DevelopmentCardManager.playInventionCard monopolyExample "player1"
            (Ore, Ore) with
    | Return s => s
    | Throw _ _ => monopolyExample
    end.

(** Player 1 has a settlement on [i_1,0] and holds a road-building card and
    nothing else. *)
Definition roadBuildingExample : GameState :=
  GameState.modifyIntersection "i_1,0"
    (Intersection.set_building (Building.mk Settlement "player1"))
    (GameState.mk "game_0" ACTION 0
       [ Player.mk "player1" "red" (Resources.mk 0 0 0 0 0)
           (DevelopmentCards.mk 0 1 0 0 0) (Buildings.mk [] ["i_1,0"] [])
           (SpecialCards.mk false false) 0 1 true;
         examplePlayer "player2" "blue" (Resources.mk 0 0 0 0 0) [] ]
       BoardGenerator.generateStandardBoard [] None 1 None).

Definition roadBuildingExampleAfter : GameState :=
  Eval vm_compute in
    match DevelopmentCardManager.playRoadBuildingCard roadBuildingExample "player1"
            ("e_1,0_2,-1", "e_1,0_2,0") with
    | Return s => s
    | Throw _ _ => roadBuildingExample
    end.

(** The buyer in [cardBought]: player 1, who holds the victory point just
    bought and may not play a card this turn. *)
Definition cardBuyer : Player :=
  Eval vm_compute in
    match findPlayer cardBought "player1" with
    | Some p => p
    | None => examplePlayer "player1" "red" (Resources.mk 0 0 0 0 0) []
    end.

(** ** The robber *)

(** Every tile is stored under the key of its own coordinate, entry by
    entry. *)
Definition tilesStoredByCoordinate (tiles : Map.t Tile) : Prop :=
  forall k tile,
    In (k, tile) tiles -> k = BoardGenerator.coordToKey (Tile.coordinate tile).

(** Player 2 has a settlement on [i_1,0], next to the hexes (1,0), (1,1)
    and (0,1), and holds one ore; player 1 is to move. *)
Definition robberExample : GameState :=
  GameState.modifyIntersection "i_1,0"
    (Intersection.set_building (Building.mk Settlement "player2"))
    (GameState.mk "game_0" ACTION 0
       [ examplePlayer "player1" "red" (Resources.mk 0 0 0 0 0) [];
         examplePlayer "player2" "blue" (Resources.mk 0 0 0 0 1) ["i_1,0"] ]
       BoardGenerator.generateStandardBoard [] None 1 None).

Definition robberExampleAfter : GameState :=
  Eval vm_compute in
    match RobberManager.moveRobber robberExample "player1"
            (HexCoordinate.mk 1 0) (Some "player2") 0 with
    | Return s => s
    | Throw _ _ => robberExample
    end.

(** A building of [playerId] stands on an intersection that touches the
    hex. *)
Definition buildsNextTo (gameState : GameState) (playerId : string)
    (hex : HexCoordinate) : Prop :=
  exists intersection building,
    In intersection
       (Map.values (GameBoard.intersections (GameState.board gameState))) /\
    ResourceManager.isAdjacent intersection hex = true /\
    Intersection.building intersection = Some building /\
    Building.playerId building = playerId.

(** [robberExample] once player 1 has moved the robber to the hex (1,0)
    without robbing anybody. *)
Definition robberExampleMoved : GameState :=
  Eval vm_compute in
    match RobberManager.moveRobber robberExample "player1"
            (HexCoordinate.mk 1 0) None 0 with
    | Return s => s
    | Throw _ _ => robberExample
    end.

(** ** Trading *)

Definition bankExampleAfter : GameState :=
  Eval vm_compute in
    match TradingManager.executeTrade bankExample bankOffer with
    | Return s => s
    | Throw _ _ => bankExample
    end.

(** ** Victory *)

(** Player 1 has played three knights, player 2 two; nobody holds the
    largest army yet. *)
Definition armyExample : GameState :=
  GameState.mk "game_0" ACTION 0
    [ Player.mk "player1" "red" (Resources.mk 0 0 0 0 0)
        (DevelopmentCards.mk 0 0 0 0 0) (Buildings.mk [] [] [])
        (SpecialCards.mk false false) 3 0 true;
      Player.mk "player2" "blue" (Resources.mk 0 0 0 0 0)
        (DevelopmentCards.mk 0 0 0 0 0) (Buildings.mk [] [] [])
        (SpecialCards.mk false false) 2 0 true ]
    BoardGenerator.generateStandardBoard [] None 1 None.

(** The points a player's pieces and bonus cards are worth. *)
Definition pointsOnBoard (player : Player) : Z :=
  Z.of_nat (List.length (Buildings.settlements (Player.buildings player)))
  + 2 * Z.of_nat (List.length (Buildings.cities (Player.buildings player)))
  + VictoryManager.bonus (SpecialCards.longestRoad (Player.specialCards player))
  + VictoryManager.bonus (SpecialCards.largestArmy (Player.specialCards player)).

(** Player 1 is one roll and one victory-point card away from ten points. *)
Definition lastCardExample : GameState :=
  GameState.mk "game_0" ACTION 0
    [ Player.mk "player1" "red" (Resources.mk 0 0 0 0 0)
        (DevelopmentCards.mk 0 0 0 0 1) (Buildings.mk [] [] [])
        (SpecialCards.mk false false) 0 9 true;
      examplePlayer "player2" "blue" (Resources.mk 0 0 0 0 0) [] ]
    BoardGenerator.generateStandardBoard [] None 1 None.

Definition lastCardPlayed : Action :=
  Action.mk (PLAY_DEVELOPMENT_CARD PlayVictoryPoint) "player1".

Definition lastCardExampleAfter : GameState :=
  Eval vm_compute in
    match CatanRuleEngine.processAction lastCardExample lastCardPlayed noDraws with
    | Success s => s
    | Failure _ => lastCardExample
    end.

(** ** What holds in every state of a game *)

(** No player holds a negative number of any card. *)
Definition handsNonnegative (gameState : GameState) : Prop :=
  Forall (fun p => handNonnegative (Player.resources p))
         (GameState.players gameState).

(** The current player index names a seat at the table. *)
Definition currentPlayerSeated (gameState : GameState) : Prop :=
  (GameState.currentPlayerIndex gameState
   < List.length (GameState.players gameState))%nat.

(** A step that leaves hands without negative entries and the turn where it
    was. *)
Definition keepsHands (s s' : GameState) : Prop :=
  (handsNonnegative s -> handsNonnegative s') /\
  GameState.currentPlayerIndex s' = GameState.currentPlayerIndex s.

(** The game after [openingTrace]. *)
Definition openingExample : GameState :=
  Eval vm_compute in
    match playFromNew 0 openingTrace with
    | Some s => s
    | None => lastCardExample
    end.

(** Nobody holds more than seven cards. *)
Definition nobodyOverSeven (gameState : GameState) : bool :=
  forallb
    (fun p => ResourceManager.getTotalResources (Player.resources p) <=? 7)
    (GameState.players gameState).

Definition rollsSeven : Action * Draws := rolls "player1" 3 4.

Definition sevenExampleAfter : GameState :=
  Eval vm_compute in
    match CatanRuleEngine.handleRollDice discardExample (fst rollsSeven)
            (snd rollsSeven) with
    | Return s => s
    | Throw _ _ => discardExample
    end.

(** Player 1 holds a knight and plays it onto the hex (1,0). *)
Definition knightExample : GameState :=
  GameState.mk "game_0" ACTION 0
    [ Player.mk "player1" "red" (Resources.mk 0 0 0 0 0)
        (DevelopmentCards.mk 1 0 0 0 0) (Buildings.mk [] [] [])
        (SpecialCards.mk false false) 0 0 true;
      examplePlayer "player2" "blue" (Resources.mk 0 0 0 0 0) [] ]
    BoardGenerator.generateStandardBoard [] None 1 None.

Definition knightExampleAfter : GameState :=
  Eval vm_compute in
    match DevelopmentCardManager.playKnightCard knightExample "player1"
            (HexCoordinate.mk 1 0) None 0 with
    | Return s => s
    | Throw _ _ => knightExample
    end.

(** ** Offers that name one kind *)

(** [amounts] names exactly one kind: [kind], in the positive amount
    [amount]; every other kind is absent from it or carries an amount that
    is not positive. *)
Definition namesOnly (amounts : PartialResources) (kind : ResourceType)
    (amount : Z) : Prop :=
  PartialResources.get amounts kind = Some amount /\
  0 < amount /\
  forall other amount',
    other <> kind ->
    PartialResources.get amounts other = Some amount' ->
    amount' <= 0.

(** Player 1 holds four wood and has no building. *)
Definition plainTrader : Player :=
  examplePlayer "player1" "red" (Resources.mk 4 0 0 0 0) [].

Definition plainExample : GameState :=
  GameState.mk "game_0" ACTION 0
    [ plainTrader; examplePlayer "player2" "blue" (Resources.mk 0 0 0 0 0) [] ]
    BoardGenerator.generateStandardBoard [] None 1 None.

(** Four wood for one brick, and three wood for one brick. *)
Definition fourForOne : TradeOffer :=
  TradeOffer.mk (PartialResources.set PartialResources.empty Wood 4)
                (PartialResources.set PartialResources.empty Brick 1)
                "player1" None.

Definition threeForOne : TradeOffer :=
  TradeOffer.mk (PartialResources.set PartialResources.empty Wood 3)
                (PartialResources.set PartialResources.empty Brick 1)
                "player1" None.

(** ** The lock across other actions *)

(** What the per-turn lock reads of a player: the id and the flag. *)
Definition lockView (p : Player) : string * bool :=
  (Player.id p, Player.canPlayDevCard p).

(** [after] seats the players of [before], and whoever was locked in
    [before] is locked in [after]. *)
Definition locksKept (before after : list Player) : Prop :=
  List.map Player.id after = List.map Player.id before /\
  forall seat p p',
    nth_error before seat = Some p ->
    nth_error after seat = Some p' ->
    Player.canPlayDevCard p = false ->
    Player.canPlayDevCard p' = false.

(** A call keeps the locks of [before] in the players it leaves behind,
    whether it returns or throws. *)
Definition lockSafe {A : Type} (before : list Player) (good : A -> Prop)
    (o : Outcome A) : Prop :=
  match o with
  | Return a => good a
  | Throw _ h => locksKept before (Heap.players h)
  end.

(** The players of [s'] keep the locks of [before]. *)
Definition kept (before : list Player) (s' : GameState) : Prop :=
  locksKept before (GameState.players s').

(** The state the caller holds once [processAction] has answered: the new
    state when the action is accepted, and otherwise the caller's own
    state, with whatever the failed call wrote to its shared parts. *)
Definition stateAfter (gameState : GameState) (action : Action) (draws : Draws)
  : GameState :=
  match CatanRuleEngine.processAction gameState action draws with
  | Success newState => newState
  | Failure _ => CatanRuleEngine.inputAfter gameState action draws
  end.

(** A run of actions, accepted or not. *)
Fixpoint playOn (gameState : GameState) (trace : list (Action * Draws))
  : GameState :=
  match trace with
  | [] => gameState
  | (action, draws) :: rest => playOn (stateAfter gameState action draws) rest
  end.

(** No action of the trace is an end of turn. *)
Definition withinTurn (trace : list (Action * Draws)) : Prop :=
  Forall (fun step => Action.type (fst step) <> END_TURN) trace.

(** Player 2 is to move.  Player 1 holds a knight and the price of a card,
    and a victory point lies on top of the one-card deck. *)
Definition lockExample : GameState :=
  GameState.mk "game_0" ACTION 1
    [ Player.mk "player1" "red" (Resources.mk 0 0 1 1 1)
        (DevelopmentCards.mk 1 0 0 0 0) (Buildings.mk [] [] [])
        (SpecialCards.mk false false) 0 0 true;
      examplePlayer "player2" "blue" (Resources.mk 0 0 0 0 0) [] ]
    BoardGenerator.generateStandardBoard [VictoryPoint] None 1 None.

Definition lockBought : GameState :=
  Eval vm_compute in
    match DevelopmentCardManager.buyDevelopmentCard lockExample "player1" with
    | Return bought => bought
    | Throw _ _ => lockExample
    end.

(** Player 2 moves the robber, which is accepted, and player 1 tries the
    knight, which is not. *)
Definition playsKnight : Action :=
  Action.mk (PLAY_DEVELOPMENT_CARD (PlayKnight (HexCoordinate.mk 0 1) None))
            "player1".

Definition playsVictoryPoint : Action :=
  Action.mk (PLAY_DEVELOPMENT_CARD PlayVictoryPoint) "player1".

Definition lockTrace : list (Action * Draws) :=
  [ by_ "player2" (MOVE_ROBBER (HexCoordinate.mk 1 0) None);
    (playsKnight, noDraws) ].

Definition lockLater : GameState :=
  Eval vm_compute in playOn lockBought lockTrace.

(** * Properties *)

(** ** The longest-road search *)

Lemma includes_In (l : list string) (x : string) :
  includes l x = true <-> In x l.
Proof.
  unfold includes. rewrite existsb_exists. split.
  - intros [y [Hy He]]. apply String.eqb_eq in He. now subst.
  - intros H. exists x. split; [assumption | apply String.eqb_refl].
Qed.

Lemma includes_app (l1 l2 : list string) (x : string) :
  includes (l1 ++ l2) x = includes l1 x || includes l2 x.
Proof. unfold includes. apply existsb_app. Qed.

Lemma StringSet_has_add (s : StringSet.t) (x y : string) :
  StringSet.has (StringSet.add s x) y = StringSet.has s y || String.eqb y x.
Proof.
  unfold StringSet.add, StringSet.has.
  destruct (includes s x) eqn:Hx.
  - destruct (String.eqb_spec y x) as [->|Hne].
    + rewrite Hx. reflexivity.
    + now rewrite orb_false_r.
  - rewrite includes_app. unfold includes at 2. simpl.
    now rewrite orb_false_r.
Qed.

Lemma StringSet_delete_fresh (s : StringSet.t) (x : string) :
  StringSet.has s x = false -> StringSet.delete s x = s.
Proof.
  unfold StringSet.has, StringSet.delete, includes.
  induction s as [|y s IH]; simpl; intros H; [reflexivity|].
  apply orb_false_iff in H. destruct H as [Hxy Hs].
  rewrite String.eqb_sym in Hxy. rewrite Hxy. simpl. now rewrite IH.
Qed.

Lemma StringSet_delete_add_fresh (s : StringSet.t) (x : string) :
  StringSet.has s x = false -> StringSet.delete (StringSet.add s x) x = s.
Proof.
  intros H. unfold StringSet.add. rewrite H.
  unfold StringSet.delete. rewrite filter_app. simpl.
  rewrite String.eqb_refl. simpl. rewrite app_nil_r.
  now apply StringSet_delete_fresh.
Qed.

Lemma filter_length_le_pointwise {A} (f g : A -> bool) (l : list A) :
  (forall x, In x l -> f x = true -> g x = true) ->
  (List.length (filter f l) <= List.length (filter g l))%nat.
Proof.
  induction l as [|a l IH]; simpl; intros H; [lia|].
  assert (IH' := IH (fun x Hx => H x (or_intror Hx))).
  destruct (f a) eqn:Hf.
  - rewrite (H a (or_introl eq_refl) Hf). simpl. lia.
  - destruct (g a); simpl; lia.
Qed.

Lemma filter_length_lt_witness {A} (f g : A -> bool) (l : list A) (w : A) :
  (forall x, In x l -> f x = true -> g x = true) ->
  In w l -> f w = false -> g w = true ->
  (List.length (filter f l) < List.length (filter g l))%nat.
Proof.
  induction l as [|a l IH]; simpl; intros H Hin Hfw Hgw; [contradiction|].
  assert (Hle := filter_length_le_pointwise f g l (fun x Hx => H x (or_intror Hx))).
  destruct Hin as [->|Hin].
  - rewrite Hfw, Hgw. simpl. lia.
  - assert (IH' := IH (fun x Hx => H x (or_intror Hx)) Hin Hfw Hgw).
    destruct (f a) eqn:Hf.
    + rewrite (H a (or_introl eq_refl) Hf). simpl. lia.
    + destruct (g a); simpl; lia.
Qed.

Lemma unvisited_add_lt graph visited n :
  In n (VictoryManager.graphNodes graph) ->
  StringSet.has visited n = false ->
  (List.length (unvisited graph (StringSet.add visited n))
   < List.length (unvisited graph visited))%nat.
Proof.
  intros Hin Hfresh. unfold unvisited.
  apply filter_length_lt_witness with (w := n).
  - intros x _. rewrite StringSet_has_add.
    rewrite negb_true_iff, orb_false_iff. intros [H _]. now rewrite H.
  - now apply nodup_In.
  - rewrite StringSet_has_add, String.eqb_refl, orb_true_r. reflexivity.
  - now rewrite Hfresh.
Qed.

Lemma unvisited_bound graph visited :
  (List.length (unvisited graph visited) < VictoryManager.searchDepth graph)%nat.
Proof.
  unfold unvisited, VictoryManager.searchDepth.
  pose proof (filter_length_le (fun n => negb (StringSet.has visited n))
                (nodup string_dec (VictoryManager.graphNodes graph))).
  pose proof (NoDup_incl_length (NoDup_nodup string_dec (VictoryManager.graphNodes graph))
                (fun x Hx => proj1 (nodup_In string_dec _ x) Hx)).
  lia.
Qed.

Lemma Map_get_In {V} (m : Map.t V) k v :
  Map.get m k = Some v -> In v (Map.values m).
Proof.
  induction m as [|[k' v'] m IH]; simpl; [discriminate|].
  destruct (String.eqb k' k).
  - intros [= ->]. now left.
  - intros H. right. now apply IH.
Qed.

Lemma neighbors_are_nodes graph currentRoad l n :
  Map.get graph currentRoad = Some l -> In n l ->
  In n (VictoryManager.graphNodes graph).
Proof.
  intros Hget Hin. unfold VictoryManager.graphNodes.
  apply in_or_app. right. apply in_concat.
  exists l. split; [now apply Map_get_In with (k := currentRoad) | assumption].
Qed.

Section Search.
Variable graph : Map.t (list string).

(** One level of the search, given that the level below behaves. *)
Lemma visitNeighbors_total (depth : nat) :
  (forall currentRoad visited,
      (List.length (unvisited graph (StringSet.add visited currentRoad)) < depth)%nat ->
      exists len,
        VictoryManager.searchFrom depth graph currentRoad visited
        = Some (len, StringSet.delete (StringSet.add visited currentRoad) currentRoad)) ->
  forall neighbors maxPath visited,
    (forall n, In n neighbors -> In n (VictoryManager.graphNodes graph)) ->
    (List.length (unvisited graph visited) <= depth)%nat ->
    exists m,
      VictoryManager.visitNeighbors (VictoryManager.searchFrom depth graph)
                                    neighbors maxPath visited
      = Some (m, visited).
Proof.
  intros IH neighbors.
  induction neighbors as [|n rest IHn]; intros maxPath visited Hnodes Hlen; simpl.
  - now exists maxPath.
  - destruct (StringSet.has visited n) eqn:Hhas; simpl.
    + apply IHn; [intros; apply Hnodes; now right | assumption].
    + destruct (IH n visited) as [len Hlen'].
      { pose proof (unvisited_add_lt graph visited n
                      (Hnodes n (or_introl eq_refl)) Hhas). lia. }
      rewrite Hlen', StringSet_delete_add_fresh by assumption.
      apply IHn; [intros; apply Hnodes; now right | assumption].
Qed.

Lemma searchFrom_total (depth : nat) :
  forall currentRoad visited,
    (List.length (unvisited graph (StringSet.add visited currentRoad)) < depth)%nat ->
    exists len,
      VictoryManager.searchFrom depth graph currentRoad visited
      = Some (len, StringSet.delete (StringSet.add visited currentRoad) currentRoad).
Proof.
  induction depth as [|depth IH]; intros currentRoad visited Hlen; [lia|].
  simpl.
  destruct (visitNeighbors_total depth IH
              (match Map.get graph currentRoad with Some l => l | None => [] end)
              0 (StringSet.add visited currentRoad)) as [m Hm].
  - destruct (Map.get graph currentRoad) as [l|] eqn:Hget; [|intros n []].
    intros n Hn. now apply neighbors_are_nodes with (currentRoad := currentRoad) (l := l).
  - lia.
  - rewrite Hm. now exists (m + 1).
Qed.

Lemma visitNeighbors_mono (d d' : nat) :
  (forall currentRoad visited r,
      VictoryManager.searchFrom d graph currentRoad visited = Some r ->
      VictoryManager.searchFrom d' graph currentRoad visited = Some r) ->
  forall neighbors maxPath visited r,
    VictoryManager.visitNeighbors (VictoryManager.searchFrom d graph)
                                  neighbors maxPath visited = Some r ->
    VictoryManager.visitNeighbors (VictoryManager.searchFrom d' graph)
                                  neighbors maxPath visited = Some r.
Proof.
  intros IH neighbors.
  induction neighbors as [|n rest IHn]; intros maxPath visited r; simpl; [trivial|].
  destruct (StringSet.has visited n); simpl; [apply IHn|].
  destruct (VictoryManager.searchFrom d graph n visited) as [[len v]|] eqn:Hs;
    [|discriminate].
  rewrite (IH _ _ _ Hs). apply IHn.
Qed.

Lemma searchFrom_mono (d : nat) :
  forall d' currentRoad visited r,
    (d <= d')%nat ->
    VictoryManager.searchFrom d graph currentRoad visited = Some r ->
    VictoryManager.searchFrom d' graph currentRoad visited = Some r.
Proof.
  induction d as [|d IH]; intros d' currentRoad visited r Hle; simpl; [discriminate|].
  destruct d' as [|d']; [lia|]. simpl.
  destruct (VictoryManager.visitNeighbors (VictoryManager.searchFrom d graph) _ 0 _)
    as [[m v]|] eqn:Hv; [|discriminate].
  intros [= <-].
  rewrite (visitNeighbors_mono d d'
             (fun c v0 r0 => IH d' c v0 r0 ltac:(lia)) _ _ _ _ Hv).
  reflexivity.
Qed.
End Search.

(** C9: the longest-road search terminates.  For every road graph (cycles
    included), every start road and every visited set, the depth-first
    longest-path search returns a length once the recursion bound reaches
    [searchDepth graph], the bound [calculateLongestRoadLength] runs it
    with; a larger bound gives the same answer, and the call leaves the
    visited set as it found it, minus the start road. *)
Theorem longest_road_search_terminates :
  forall (graph : Map.t (list string)) (currentRoad : string)
         (visited : StringSet.t),
  exists length : Z,
    VictoryManager.depthFirstSearchLongestPath graph currentRoad visited
    = Some (length,
            StringSet.delete (StringSet.add visited currentRoad) currentRoad)
    /\ forall depth : nat,
        (VictoryManager.searchDepth graph <= depth)%nat ->
        VictoryManager.searchFrom depth graph currentRoad visited
        = VictoryManager.depthFirstSearchLongestPath graph currentRoad visited.
Proof.
  intros graph currentRoad visited.
  destruct (searchFrom_total graph (VictoryManager.searchDepth graph)
              currentRoad visited (unvisited_bound graph _)) as [len Hlen].
  exists len. unfold VictoryManager.depthFirstSearchLongestPath.
  split; [assumption|].
  intros depth Hd. rewrite Hlen.
  now apply searchFrom_mono with (d := VictoryManager.searchDepth graph).
Qed.

(** ** Production *)

Lemma ResourceType_eqb_eq a b : ResourceType_eqb a b = true <-> a = b.
Proof. destruct a, b; simpl; split; intros H; try reflexivity; discriminate. Qed.

Lemma ResourceType_eqb_refl a : ResourceType_eqb a a = true.
Proof. now destruct a. Qed.

Lemma Resources_get_set r k v k' :
  Resources.get (Resources.set r k v) k'
  = if ResourceType_eqb k k' then v else Resources.get r k'.
Proof. destruct k, k'; reflexivity. Qed.

Lemma nth_error_modify_nth {A} (f : A -> A) (l : list A) i j :
  nth_error (modify_nth i f l) j
  = if Nat.eqb i j then option_map f (nth_error l j) else nth_error l j.
Proof.
  revert i j. induction l as [|x l IH]; intros i j.
  - destruct i, j; simpl; try reflexivity. now destruct (Nat.eqb i j).
  - destruct i, j; simpl; try reflexivity. apply IH.
Qed.

Lemma findIndex_Some {A} (f : A -> bool) (l : list A) i :
  findIndex f l = Some i ->
  exists x, nth_error l i = Some x /\ f x = true.
Proof.
  revert i. induction l as [|y l IH]; intros i; simpl; [discriminate|].
  destruct (f y) eqn:Hf.
  - intros [= <-]. now exists y.
  - destruct (findIndex f l) as [j|]; [|discriminate].
    intros [= <-]. simpl. now apply IH.
Qed.

Lemma nth_error_same_length {A B C} (g : A -> C) (h : B -> C) l l' i x :
  List.map g l = List.map h l' -> nth_error l' i = Some x ->
  exists y, nth_error l i = Some y.
Proof.
  intros Hmap Hx.
  assert (Hlen : List.length l = List.length l').
  { rewrite <- (length_map g l), Hmap. apply length_map. }
  assert (Hi : (i < List.length l)%nat).
  { rewrite Hlen. apply nth_error_Some. now rewrite Hx. }
  destruct (nth_error l i) as [y|] eqn:Hy; [now exists y|].
  apply nth_error_None in Hy. lia.
Qed.

Lemma map_modify_nth {A B} (g : A -> B) (f : A -> A) (l : list A) i :
  (forall x, g (f x) = g x) -> List.map g (modify_nth i f l) = List.map g l.
Proof.
  intros H. revert i. induction l as [|x l IH]; intros i; [now destruct i|].
  destruct i; simpl; [now rewrite H | now rewrite IH].
Qed.

Lemma modify_nth_compose {A} (f g : A -> A) (l : list A) : forall i,
  modify_nth i g (modify_nth i f l) = modify_nth i (fun x => g (f x)) l.
Proof.
  induction l as [|x l IH]; intros i; [now destruct i|].
  destruct i; simpl; [reflexivity | now rewrite IH].
Qed.

Lemma findIndex_ext_map {A B} (g : A -> B) (h : B -> bool) (l l' : list A) :
  List.map g l = List.map g l' ->
  findIndex (fun x => h (g x)) l = findIndex (fun x => h (g x)) l'.
Proof.
  revert l'. induction l as [|x l IH]; intros [|y l'] H; try discriminate; [reflexivity|].
  simpl in *. injection H as Hxy Hl. rewrite Hxy, (IH l' Hl). reflexivity.
Qed.

Lemma seatOf_ids players players' playerId :
  List.map Player.id players = List.map Player.id players' ->
  seatOf players playerId = seatOf players' playerId.
Proof.
  intros H. unfold seatOf.
  exact (findIndex_ext_map Player.id (fun i => String.eqb i playerId) _ _ H).
Qed.

Lemma sumZ_app {A} (f : A -> Z) l1 l2 : sumZ f (l1 ++ l2) = sumZ f l1 + sumZ f l2.
Proof. induction l1 as [|x l1 IH]; simpl; [reflexivity | rewrite IH; lia]. Qed.

Section Distribute.
Variable gameState : GameState.

Lemma creditIntersection_spec coord resource s x :
  sameSeats gameState s ->
  sameSeats gameState (ResourceManager.creditIntersection coord resource s x) /\
  forall index k,
    handAt (GameState.players (ResourceManager.creditIntersection coord resource s x))
           index k
    = handAt (GameState.players s) index k
      + (if ResourceType_eqb resource k
         then intersectionCredit (GameState.players gameState) coord index x
         else 0).
Proof.
  intros Hs. unfold ResourceManager.creditIntersection, intersectionCredit.
  destruct (ResourceManager.isAdjacent x coord);
    [|split; [assumption | intros; destruct (Intersection.building x), (ResourceType_eqb resource k); lia]].
  destruct (Intersection.building x) as [b|];
    [|split; [assumption | intros; destruct (ResourceType_eqb resource k); lia]].
  unfold findPlayerIndex. fold (seatOf (GameState.players s) (Building.playerId b)).
  rewrite (seatOf_ids _ _ _ Hs).
  destruct (seatOf (GameState.players gameState) (Building.playerId b)) as [seat|] eqn:Hseat0;
    [|split; [assumption | intros; destruct (ResourceType_eqb resource k); lia]].
  split.
  - unfold sameSeats. destruct s; simpl in *.
    rewrite map_modify_nth; [assumption|]. intros p. now destruct p.
  - intros index k. destruct s; simpl. unfold handAt.
    rewrite nth_error_modify_nth.
    destruct (Nat.eqb seat index) eqn:Hseat.
    + destruct (nth_error players index) as [p|] eqn:Hp; simpl.
      * destruct p; simpl. rewrite Resources_get_set.
        unfold buildingYield.
        destruct (ResourceType_eqb resource k) eqn:Hk; [|lia].
        apply ResourceType_eqb_eq in Hk. subst k. reflexivity.
      * apply Nat.eqb_eq in Hseat. subst seat.
        apply findIndex_Some in Hseat0. destruct Hseat0 as [p0 [Hp0 _]].
        destruct (nth_error_same_length Player.id Player.id _ _ _ _ Hs Hp0) as [y Hy].
        simpl in Hy. congruence.
    + destruct (ResourceType_eqb resource k); lia.
Qed.

Lemma creditIntersections_spec coord resource xs : forall s,
  sameSeats gameState s ->
  sameSeats gameState (fold_left (ResourceManager.creditIntersection coord resource) xs s) /\
  forall index k,
    handAt (GameState.players
              (fold_left (ResourceManager.creditIntersection coord resource) xs s))
           index k
    = handAt (GameState.players s) index k
      + (if ResourceType_eqb resource k
         then sumZ (intersectionCredit (GameState.players gameState) coord index) xs
         else 0).
Proof.
  induction xs as [|x xs IH]; intros s Hs; simpl.
  - split; [assumption|]. intros. destruct (ResourceType_eqb resource k); lia.
  - destruct (creditIntersection_spec coord resource s x Hs) as [Hs' Hhand].
    destruct (IH _ Hs') as [Hs'' Hhand'].
    split; [assumption|]. intros index k.
    rewrite Hhand', Hhand. destruct (ResourceType_eqb resource k); lia.
Qed.

Variable diceSum : Z.

Lemma creditTile_spec tile s index k :
  Map.get (GameBoard.tiles (GameState.board gameState))
          (BoardGenerator.coordToKey (Tile.coordinate tile)) = Some tile ->
  ResourceManager.rolled diceSum tile = true ->
  sameSeats gameState s ->
  sameSeats gameState (ResourceManager.creditTile gameState s (Tile.coordinate tile)) /\
  handAt (GameState.players
            (ResourceManager.creditTile gameState s (Tile.coordinate tile)))
         index k
  = handAt (GameState.players s) index k + tileCredit gameState diceSum index k tile.
Proof.
  intros Hget Hrolled Hs. unfold ResourceManager.creditTile. rewrite Hget.
  unfold tileCredit. unfold ResourceManager.rolled in Hrolled.
  destruct (Tile.numberDisc tile) as [n|]; [|discriminate].
  destruct (n =? diceSum); [|discriminate].
  destruct (Tile.hasRobber tile); [discriminate|]. simpl.
  destruct (ResourceManager.terrainToResource (Tile.terrain tile)) as [resource|].
  - destruct (creditIntersections_spec (Tile.coordinate tile) resource
                (Map.values (GameBoard.intersections (GameState.board gameState)))
                s Hs) as [Hs' Hhand].
    split; [assumption | apply Hhand].
  - split; [assumption | lia].
Qed.

Lemma tileCredit_not_rolled tile index k :
  ResourceManager.rolled diceSum tile = false ->
  tileCredit gameState diceSum index k tile = 0.
Proof.
  unfold ResourceManager.rolled, tileCredit.
  destruct (Tile.hasRobber tile); [reflexivity|].
  destruct (Tile.numberDisc tile) as [n|]; [|reflexivity].
  destruct (n =? diceSum); simpl; [discriminate|].
  now destruct (ResourceManager.terrainToResource (Tile.terrain tile)).
Qed.

Lemma creditTiles_spec tiles : forall s,
  Forall (fun tile =>
            Map.get (GameBoard.tiles (GameState.board gameState))
                    (BoardGenerator.coordToKey (Tile.coordinate tile))
            = Some tile) tiles ->
  sameSeats gameState s ->
  forall index k,
    handAt (GameState.players
              (fold_left (ResourceManager.creditTile gameState)
                 (List.map Tile.coordinate
                    (List.filter (ResourceManager.rolled diceSum) tiles)) s))
           index k
    = handAt (GameState.players s) index k
      + sumZ (tileCredit gameState diceSum index k) tiles.
Proof.
  induction tiles as [|tile tiles IH]; intros s Hkeyed Hs index k; simpl; [lia|].
  inversion Hkeyed as [|? ? Htile Hrest]; subst.
  destruct (ResourceManager.rolled diceSum tile) eqn:Hrolled; simpl.
  - destruct (creditTile_spec tile s index k Htile Hrolled Hs) as [Hs' Hhand].
    rewrite (IH _ Hrest Hs'), Hhand. lia.
  - rewrite (IH _ Hrest Hs), (tileCredit_not_rolled _ _ _ Hrolled). lia.
Qed.
End Distribute.

Lemma handleSevenRolled_id (gameState : GameState) :
  ResourceManager.handleSevenRolled gameState = gameState.
Proof.
  unfold ResourceManager.handleSevenRolled.
  assert (H : forall l : list Player,
             List.map
               (fun player =>
                  if ResourceManager.getTotalResources (Player.resources player) >? 7
                  then Player.mk (Player.id player) (Player.color player)
                         (Player.resources player) (Player.developmentCards player)
                         (Player.buildings player) (Player.specialCards player)
                         (Player.knightsPlayed player) (Player.victoryPoints player)
                         (Player.canPlayDevCard player)
                  else player) l = l).
  { induction l as [|p l IH]; simpl; [reflexivity|].
    rewrite IH. destruct p; simpl. now destruct (_ >? 7). }
  rewrite H. now destruct gameState.
Qed.

(** C7: production.  Rolling a 7 changes nothing.  For any other sum, the
    hand at every seat grows, resource by resource, by exactly what the tiles
    pay: a tile under the robber pays nothing whatever its number disc, and
    every other tile whose disc shows the sum pays its terrain's resource
    (nothing for the desert) to the owner of each building on an adjacent
    intersection, 1 for a settlement and 2 for a city. *)
Theorem distributeResources_production (gameState : GameState) (diceSum : Z)
    (Hkeyed : tilesKeyedByCoordinate
                (GameBoard.tiles (GameState.board gameState))) :
  ResourceManager.distributeResources gameState 7 = gameState /\
  (forall (index : nat) (k : ResourceType) (tile : Tile),
     tileCredit gameState diceSum index k (Tile.set_hasRobber true tile) = 0) /\
  (forall (index : nat) (k : ResourceType),
     handAt (GameState.players
               (ResourceManager.distributeResources gameState diceSum)) index k
     = handAt (GameState.players gameState) index k
       + (if diceSum =? 7 then 0 else production gameState diceSum index k)).
Proof.
  split; [|split].
  - unfold ResourceManager.distributeResources. simpl.
    apply handleSevenRolled_id.
  - intros index k tile. reflexivity.
  - intros index k. unfold ResourceManager.distributeResources.
    destruct (diceSum =? 7) eqn:H7.
    + rewrite handleSevenRolled_id. lia.
    + unfold ResourceManager.producingTiles, production.
      apply creditTiles_spec; [exact Hkeyed | reflexivity].
Qed.

(** ** Bank trades *)


Lemma portsOf_standard gameState ids :
  standardPorts (GameState.board gameState) ->
  Forall standardPort (portsOf gameState ids).
Proof.
  intros Hstd. unfold portsOf. apply Forall_flat_map.
  apply Forall_forall. intros i _.
  destruct (Map.get _ i) as [x|] eqn:Hget; [|constructor].
  destruct (Intersection.port x) as [p|] eqn:Hp; [|constructor].
  constructor; [|constructor].
  unfold standardPorts in Hstd. rewrite Forall_forall in Hstd.
  specialize (Hstd x (Map_get_In _ _ _ Hget)). now rewrite Hp in Hstd.
Qed.

Lemma existsb_portsOf gameState ids kind :
  existsb (fun port => PortType_eqb (Port.type port) kind) (portsOf gameState ids)
  = existsb
      (fun intersectionId =>
         match Map.get (GameBoard.intersections (GameState.board gameState))
                       intersectionId with
         | Some intersection =>
             match Intersection.port intersection with
             | Some port => PortType_eqb (Port.type port) kind
             | None => false
             end
         | None => false
         end) ids.
Proof.
  unfold portsOf. induction ids as [|i ids IH]; simpl; [reflexivity|].
  rewrite existsb_app, IH. f_equal.
  destruct (Map.get _ i) as [x|]; [|reflexivity].
  destruct (Intersection.port x); simpl; [apply orb_false_r | reflexivity].
Qed.

Lemma PortType_eqb_eq a b : PortType_eqb a b = true <-> a = b.
Proof.
  destruct a as [|x], b as [|y]; simpl; split; intros H;
    try reflexivity; try discriminate.
  - f_equal. destruct x, y; simpl in H; try reflexivity; discriminate.
  - injection H as ->. now destruct y.
Qed.

Lemma fold_min_generic (ports : list Port) : forall (start : Z),
  Forall standardPort ports ->
  start <= 4 ->
  fold_left (fun best port => Z.min best (Port.ratio port))
            (List.filter (fun port => PortType_eqb (Port.type port) Generic) ports)
            start
  = Z.min start
      (if existsb (fun port => PortType_eqb (Port.type port) Generic) ports
       then 3 else 4).
Proof.
  induction ports as [|p ports IH]; intros start Hstd Hle; simpl; [lia|].
  inversion Hstd as [|? ? Hp Hrest]; subst.
  destruct (PortType_eqb (Port.type p) Generic) eqn:Hg; simpl.
  - apply PortType_eqb_eq in Hg. unfold standardPort in Hp. rewrite Hg in Hp.
    rewrite Hp, IH by (assumption || lia).
    destruct (existsb _ ports); lia.
  - now apply IH.
Qed.

Lemma getBestTradeRatio_standard (ports : list Port) (offered : ResourceType) :
  Forall standardPort ports ->
  TradingManager.getBestTradeRatio ports offered
  = Z.min 4
      (Z.min (if existsb (fun port => PortType_eqb (Port.type port) Generic) ports
              then 3 else 4)
             (if existsb (fun port => PortType_eqb (Port.type port) (Specific offered)) ports
              then 2 else 4)).
Proof.
  intros Hstd. unfold TradingManager.getBestTradeRatio.
  destruct (find _ ports) as [sp|] eqn:Hfind.
  - apply find_some in Hfind. destruct Hfind as [Hin Hty].
    assert (Hex : existsb (fun port => PortType_eqb (Port.type port) (Specific offered)) ports = true).
    { apply existsb_exists. now exists sp. }
    rewrite Hex. rewrite Forall_forall in Hstd. pose proof (Hstd sp Hin) as Hsp.
    apply PortType_eqb_eq in Hty. unfold standardPort in Hsp. rewrite Hty in Hsp.
    rewrite Hsp, fold_min_generic by (try apply Forall_forall; assumption || lia).
    destruct (existsb _ ports); lia.
  - assert (Hex : existsb (fun port => PortType_eqb (Port.type port) (Specific offered)) ports = false).
    { apply not_true_is_false. intros H. apply existsb_exists in H.
      destruct H as [p [Hin Hp]]. apply (find_none _ _ Hfind) in Hin. congruence. }
    rewrite Hex, fold_min_generic by (assumption || lia).
    destruct (existsb _ ports); lia.
Qed.

Lemma getAccessiblePorts_found gameState player :
  findPlayer gameState (Player.id player) = Some player ->
  TradingManager.getAccessiblePorts gameState (Player.id player)
  = portsOf gameState
      (Buildings.settlements (Player.buildings player) ++
       Buildings.cities (Player.buildings player))%list.
Proof. intros H. unfold TradingManager.getAccessiblePorts. now rewrite H. Qed.

Lemma findPlayer_id gameState playerId player :
  findPlayer gameState playerId = Some player -> Player.id player = playerId.
Proof.
  unfold findPlayer. intros H. apply find_some in H. destruct H as [_ H].
  now apply String.eqb_eq.
Qed.

Lemma bestRatio_is_requiredRatio gameState player offered :
  findPlayer gameState (Player.id player) = Some player ->
  standardPorts (GameState.board gameState) ->
  TradingManager.getBestTradeRatio
    (TradingManager.getAccessiblePorts gameState (Player.id player)) offered
  = requiredRatio gameState player offered.
Proof.
  intros Hfound Hstd. rewrite (getAccessiblePorts_found _ _ Hfound).
  rewrite getBestTradeRatio_standard by now apply portsOf_standard.
  unfold requiredRatio, hasBuildingOnPort. now rewrite !existsb_portsOf.
Qed.

(** Bank-trade validation in terms of the entries the validator keeps:
    [validateBankTrade] accepts exactly when one entry offered and one entry
    requested are positive and the offered amount is at least the required
    ratio times the requested amount. *)
Lemma bank_trade_validation_entries (gameState : GameState) (offer : TradeOffer)
    (player : Player)
    (Hplayer : findPlayer gameState (TradeOffer.fromPlayerId offer) = Some player)
    (Hholds : ResourceManager.hasResources (Player.resources player)
                (TradeOffer.offering offer) = true)
    (Hports : standardPorts (GameState.board gameState)) :
  (TradingManager.validateBankTrade gameState offer = Valid <->
   exists (offered requested : ResourceType) (offeredAmount requestedAmount : Z),
     TradingManager.positiveEntries (TradeOffer.offering offer)
     = [(offered, offeredAmount)] /\
     TradingManager.positiveEntries (TradeOffer.requesting offer)
     = [(requested, requestedAmount)] /\
     offeredAmount >= requiredRatio gameState player offered * requestedAmount) /\
  (truthy (TradeOffer.toPlayerId offer) = false ->
   TradingManager.validatePlayerTrade gameState offer
   = TradingManager.validateBankTrade gameState offer).
Proof.
  pose proof (findPlayer_id _ _ _ Hplayer) as Hid.
  split.
  - unfold TradingManager.validateBankTrade. rewrite Hplayer, Hholds. simpl.
    rewrite <- Hid in *.
    destruct (TradingManager.positiveEntries (TradeOffer.offering offer))
      as [|[offered a] [|? ?]] eqn:Hoff;
      try (split; [discriminate | intros (? & ? & ? & ? & H & _); discriminate]).
    destruct (TradingManager.positiveEntries (TradeOffer.requesting offer))
      as [|[requested b] [|? ?]] eqn:Hreq;
      try (split; [discriminate | intros (? & ? & ? & ? & _ & H & _); discriminate]).
    rewrite bestRatio_is_requiredRatio by assumption.
    destruct (a <? requiredRatio gameState player offered * b) eqn:Hlt.
    + apply Z.ltb_lt in Hlt. split; [discriminate|].
      intros (o & q & a' & b' & [= <- <-] & [= <- <-] & Hge). lia.
    + apply Z.ltb_ge in Hlt. split; [|reflexivity].
      intros _. exists offered, requested, a, b. repeat split. lia.
  - intros Hbank. unfold TradingManager.validatePlayerTrade.
    rewrite Hplayer, Hholds, Hbank. reflexivity.
Qed.

(** ** Trades between players *)


Lemma get_subtractResources (held : Resources) (toSubtract : PartialResources)
    (k : ResourceType) :
  Resources.get (ResourceManager.subtractResources held toSubtract) k
  = clampedSubtract (Resources.get held k) (PartialResources.get toSubtract k).
Proof.
  destruct held as [a b c d e], toSubtract as [[?|] [?|] [?|] [?|] [?|]];
    unfold ResourceManager.subtractResources, PartialResources.entries, clampedSubtract;
    destruct k; simpl;
    repeat (match goal with |- context [?x >? 0] => destruct (x >? 0) end; simpl);
    reflexivity.
Qed.

Lemma get_addResources (held : Resources) (toAdd : PartialResources)
    (k : ResourceType) :
  Resources.get (ResourceManager.addResources held toAdd) k
  = credited (Resources.get held k) (PartialResources.get toAdd k).
Proof.
  destruct held as [a b c d e], toAdd as [[?|] [?|] [?|] [?|] [?|]];
    unfold ResourceManager.addResources, PartialResources.entries, credited;
    destruct k; simpl;
    repeat (match goal with |- context [?x >? 0] => destruct (x >? 0) end; simpl);
    reflexivity.
Qed.



Lemma find_findIndex {A} (f : A -> bool) (l : list A) x :
  List.find f l = Some x ->
  exists i, findIndex f l = Some i /\ nth_error l i = Some x.
Proof.
  induction l as [|y l IH]; simpl; [discriminate|].
  destruct (f y).
  - intros [= ->]. now exists O.
  - intros H. destruct (IH H) as [i [Hi Hn]]. exists (S i). now rewrite Hi.
Qed.

Lemma findPlayer_seat gameState playerId player :
  findPlayer gameState playerId = Some player ->
  exists seat, findPlayerIndex gameState playerId = Some seat /\
               nth_error (GameState.players gameState) seat = Some player.
Proof. apply find_findIndex. Qed.

Lemma withPlayer_found {A} gameState playerId seat player
      (k : nat -> Player -> Outcome A) :
  findPlayerIndex gameState playerId = Some seat ->
  nth_error (GameState.players gameState) seat = Some player ->
  withPlayer gameState playerId k = k seat player.
Proof. intros H1 H2. unfold withPlayer. now rewrite H1, H2. Qed.

Lemma findPlayerIndex_modifyPlayer gameState seat f playerId :
  (forall p, Player.id (f p) = Player.id p) ->
  findPlayerIndex (GameState.modifyPlayer seat f gameState) playerId
  = findPlayerIndex gameState playerId.
Proof.
  intros Hf. unfold findPlayerIndex. destruct gameState; simpl.
  apply (findIndex_ext_map Player.id (fun i => String.eqb i playerId)).
  now apply map_modify_nth.
Qed.

Lemma players_modifyPlayer gameState seat f :
  GameState.players (GameState.modifyPlayer seat f gameState)
  = modify_nth seat f (GameState.players gameState).
Proof. now destruct gameState. Qed.

Lemma seats_differ gameState a b i j :
  findPlayerIndex gameState a = Some i ->
  findPlayerIndex gameState b = Some j ->
  a <> b -> i <> j.
Proof.
  intros Ha Hb Hab ->.
  apply findIndex_Some in Ha. apply findIndex_Some in Hb.
  destruct Ha as [x [Hx Hxa]], Hb as [y [Hy Hyb]].
  rewrite Hx in Hy. injection Hy as ->.
  apply String.eqb_eq in Hxa, Hyb. congruence.
Qed.

Lemma truthy_Some s : s <> "" -> truthy (Some s) = true.
Proof. intros H. simpl. now destruct (String.eqb_spec s ""). Qed.

(** C10: a player-to-player trade is never checked against the counterpart's
    hand.  Whenever both players are seated and the initiator holds what is
    offered, validation accepts and [executeTrade] returns; the counterpart's
    holding of every resource is the old one, less the requested amount but
    not below zero, plus the offered amount.  In the example state the
    units in play go from 1 to 2. *)
Theorem player_trade_ignores_counterpart_hand
    (gameState : GameState) (offer : TradeOffer) (target : string)
    (fromPlayer toPlayer : Player)
    (Hto : TradeOffer.toPlayerId offer = Some target)
    (Htruthy : target <> "")
    (Hfrom : findPlayer gameState (TradeOffer.fromPlayerId offer) = Some fromPlayer)
    (Htarget : findPlayer gameState target = Some toPlayer)
    (Hholds : ResourceManager.hasResources (Player.resources fromPlayer)
                (TradeOffer.offering offer) = true) :
  (exists (newState : GameState) (seat : nat),
      TradingManager.validatePlayerTrade gameState offer = Valid /\
      TradingManager.executeTrade gameState offer = Return newState /\
      findPlayerIndex gameState target = Some seat /\
      (target <> TradeOffer.fromPlayerId offer ->
       forall k : ResourceType,
         handAt (GameState.players newState) seat k
         = credited
             (clampedSubtract (Resources.get (Player.resources toPlayer) k)
                (PartialResources.get (TradeOffer.requesting offer) k))
             (PartialResources.get (TradeOffer.offering offer) k))) /\
  (exists newState : GameState,
      TradingManager.executeTrade tradeExample tradeExampleOffer = Return newState /\
      totalUnits (GameState.players tradeExample) = 1 /\
      totalUnits (GameState.players newState) = 2).
Proof.
  split.
  - destruct (findPlayer_seat _ _ _ Hfrom) as [i [Hi Hpi]].
    destruct (findPlayer_seat _ _ _ Htarget) as [j [Hj Hpj]].
    assert (Hvalid : TradingManager.validatePlayerTrade gameState offer = Valid).
    { unfold TradingManager.validatePlayerTrade.
      now rewrite Hfrom, Hto, (truthy_Some _ Htruthy), Htarget, Hholds. }
    unfold TradingManager.executeTrade. rewrite Hvalid. cbn [check bind].
    rewrite (withPlayer_found _ _ _ _ _ Hi Hpi), Hto, (truthy_Some _ Htruthy).
    set (s1 := GameState.modifyPlayer i _ gameState).
    set (s2 := GameState.modifyPlayer i _ s1).
    assert (Hj2 : findPlayerIndex s2 target = Some j).
    { unfold s2, s1. rewrite !findPlayerIndex_modifyPlayer; [assumption| |];
        intros p; now destruct p. }
    assert (Hlen : exists p2, nth_error (GameState.players s2) j = Some p2 /\
                     (i <> j -> p2 = toPlayer)).
    { unfold s2, s1. rewrite !players_modifyPlayer, !nth_error_modify_nth.
      destruct (Nat.eqb_spec i j) as [->|Hij].
      - rewrite Hpj. simpl. eexists. split; [reflexivity | intros H; now elim H].
      - exists toPlayer. split; [assumption | reflexivity]. }
    destruct Hlen as [p2 [Hp2 Hsame]].
    rewrite (withPlayer_found _ _ _ _ _ Hj2 Hp2).
    eexists. exists j. split; [reflexivity|]. split; [reflexivity|].
    split; [assumption|].
    intros Hne k.
    assert (Hij : i <> j).
    { apply (seats_differ gameState _ _ _ _ Hi Hj). congruence. }
    rewrite (Hsame Hij) in Hp2.
    unfold handAt. rewrite !players_modifyPlayer, !nth_error_modify_nth.
    rewrite Nat.eqb_refl, Hp2. simpl.
    destruct toPlayer; simpl.
    now rewrite get_addResources, get_subtractResources.
  - eexists. split; [reflexivity|]. split; reflexivity.
Qed.

(** ** Development cards *)


Lemma findIndex_find {A} (f : A -> bool) (l : list A) i :
  findIndex f l = Some i -> List.find f l = nth_error l i.
Proof.
  revert i. induction l as [|y l IH]; intros i; simpl; [discriminate|].
  destruct (f y).
  - now intros [= <-].
  - destruct (findIndex f l) as [j|]; [|discriminate].
    intros [= <-]. simpl. now apply IH.
Qed.

Lemma findPlayer_at_seat gameState playerId seat :
  findPlayerIndex gameState playerId = Some seat ->
  findPlayer gameState playerId = nth_error (GameState.players gameState) seat.
Proof. apply findIndex_find. Qed.

Lemma withPlayer_inv {A} gameState playerId (k : nat -> Player -> Outcome A) r :
  withPlayer gameState playerId k = Return r ->
  exists seat player,
    findPlayerIndex gameState playerId = Some seat /\
    nth_error (GameState.players gameState) seat = Some player /\
    k seat player = Return r.
Proof.
  unfold withPlayer.
  destruct (findPlayerIndex gameState playerId) as [seat|]; [|discriminate].
  destruct (nth_error _ seat) as [player|] eqn:Hn; [|discriminate].
  intros H. now exists seat, player.
Qed.

Lemma check_inv v s r : check v s = Return r -> v = Valid.
Proof. destruct v; simpl; [reflexivity | discriminate]. Qed.

Lemma bind_Return_inv {A B} (o : Outcome A) (k : A -> Outcome B) r :
  bind o k = Return r -> exists a, o = Return a /\ k a = Return r.
Proof. destruct o; simpl; [intros H; now eexists | discriminate]. Qed.

Lemma DevelopmentCardType_eqb_eq a b :
  DevelopmentCardType_eqb a b = true <-> a = b.
Proof. destruct a, b; simpl; split; intros H; try reflexivity; discriminate. Qed.

(** While the lock is set, every kind but the victory point is refused. *)
Lemma checkPlay_locked gameState playerId player cardType :
  findPlayer gameState playerId = Some player ->
  Player.canPlayDevCard player = false ->
  cardType <> VictoryPoint ->
  exists error,
    DevelopmentCardManager.checkPlay gameState playerId cardType
    = Throw error (GameState.heap gameState).
Proof.
  intros Hp Hlock Hkind.
  unfold DevelopmentCardManager.checkPlay, DevelopmentCardManager.canPlayDevelopmentCard.
  rewrite Hp.
  destruct (_ =? 0); [simpl; eauto|].
  assert (Hvp : DevelopmentCardType_eqb cardType VictoryPoint = false).
  { apply not_true_is_false. intros H. now apply DevelopmentCardType_eqb_eq in H. }
  rewrite Hvp, Hlock. simpl.
  unfold notCurrentPlayer.
  destruct (currentPlayerId gameState) as [current|]; simpl; [|eauto].
  destruct (negb (String.eqb current playerId)); simpl; eauto.
Qed.

Lemma checkPlay_victoryPoint gameState playerId player :
  findPlayer gameState playerId = Some player ->
  DevelopmentCards.victoryPoint (Player.developmentCards player) <> 0 ->
  DevelopmentCardManager.checkPlay gameState playerId VictoryPoint = Return tt.
Proof.
  intros Hp Hheld.
  unfold DevelopmentCardManager.checkPlay, DevelopmentCardManager.canPlayDevelopmentCard.
  rewrite Hp. simpl.
  destruct (Z.eqb_spec (DevelopmentCards.victoryPoint (Player.developmentCards player)) 0);
    [contradiction|].
  simpl. now rewrite andb_false_r.
Qed.

Lemma processAction_handler_throws gameState action draws handled error heap :
  CatanRuleEngine.dispatch gameState action draws = Some handled ->
  handled = Throw error heap ->
  CatanRuleEngine.processAction gameState action draws = Failure (message error).
Proof.
  intros Hd ->. unfold CatanRuleEngine.processAction, CatanRuleEngine.tryProcessAction.
  now rewrite Hd.
Qed.

Lemma play_locked_rejected gameState playerId player card draws :
  findPlayer gameState playerId = Some player ->
  Player.canPlayDevCard player = false ->
  card <> PlayVictoryPoint ->
  exists error,
    CatanRuleEngine.processAction gameState
      (Action.mk (PLAY_DEVELOPMENT_CARD card) playerId) draws
    = Failure error.
Proof.
  intros Hp Hlock Hcard.
  assert (H : exists error heap,
             CatanRuleEngine.handlePlayDevelopmentCard gameState
               (Action.mk (PLAY_DEVELOPMENT_CARD card) playerId) card draws
             = Throw error heap).
  { destruct card as [loc target|edges|res|res| |name]; simpl;
      try contradiction; try (now eauto).
    - destruct (checkPlay_locked gameState playerId player Knight Hp Hlock) as [e He];
        [discriminate|].
      unfold DevelopmentCardManager.playKnightCard. rewrite He. simpl. eauto.
    - destruct (checkPlay_locked gameState playerId player RoadBuilding Hp Hlock) as [e He];
        [discriminate|].
      unfold DevelopmentCardManager.playRoadBuildingCard. rewrite He. simpl. eauto.
    - destruct (checkPlay_locked gameState playerId player Invention Hp Hlock) as [e He];
        [discriminate|].
      unfold DevelopmentCardManager.playInventionCard. rewrite He. simpl. eauto.
    - destruct (checkPlay_locked gameState playerId player Monopoly Hp Hlock) as [e He];
        [discriminate|].
      unfold DevelopmentCardManager.playMonopolyCard. rewrite He. simpl. eauto. }
  destruct H as [error [heap H]].
  exists (message error).
  apply processAction_handler_throws with (handled := Throw error heap) (heap := heap);
    [unfold CatanRuleEngine.dispatch; cbn [Action.type]; now rewrite H | reflexivity].
Qed.



Lemma buyDevelopmentCard_locks gameState playerId bought :
  DevelopmentCardManager.buyDevelopmentCard gameState playerId = Return bought ->
  exists buyer,
    findPlayer bought playerId = Some buyer /\
    Player.canPlayDevCard buyer = false.
Proof.
  unfold DevelopmentCardManager.buyDevelopmentCard. intros H.
  apply bind_Return_inv in H. destruct H as [[] [_ H]].
  apply withPlayer_inv in H. destruct H as [seat [player [Hseat [Hplayer H]]]].
  cbv zeta in H.
  destruct (last _ None) as [drawn|]; [|discriminate].
  injection H as <-.
  rewrite (findPlayer_at_seat _ _ seat).
  - rewrite !players_modifyPlayer. cbn [GameState.players GameState.set_developmentCardDeck].
    rewrite !players_modifyPlayer, !nth_error_modify_nth, Nat.eqb_refl, Hplayer.
    simpl. eexists. split; reflexivity.
  - rewrite !findPlayerIndex_modifyPlayer; try (intros p; now destruct p).
    unfold findPlayerIndex. cbn [GameState.players GameState.set_developmentCardDeck].
    fold (findPlayerIndex (GameState.modifyPlayer seat
             (Player.set_resources
                (ResourceManager.subtractResources (Player.resources player)
                   (PartialResources.ofResources BUILDING_COSTS.developmentCard)))
             gameState) playerId).
    rewrite findPlayerIndex_modifyPlayer; [assumption | intros p; now destruct p].
Qed.

Lemma handleEndTurn_unlocks gameState action ended :
  CatanRuleEngine.handleEndTurn gameState action = Return ended ->
  Forall (fun p => Player.canPlayDevCard p = true) (GameState.players ended).
Proof.
  unfold CatanRuleEngine.handleEndTurn. intros H.
  apply bind_Return_inv in H. destruct H as [notCurrent [_ H]].
  destruct notCurrent; [discriminate|].
  assert (Hall : Forall (fun p => Player.canPlayDevCard p = true)
                   (List.map (Player.set_canPlayDevCard true)
                             (GameState.players gameState))).
  { apply Forall_forall. intros p Hp. apply in_map_iff in Hp.
    destruct Hp as [p0 [<- _]]. reflexivity. }
  cbv zeta in H.
  repeat match type of H with
         | context [if ?c then _ else _] => destruct c
         | context [match GameState.phase ?s with _ => _ end] =>
             destruct (GameState.phase s) eqn:?
         end;
    injection H as <-; destruct gameState; exact Hall.
Qed.

(** ** Longest road *)


Lemma insertDescending_perm x l :
  Permutation (VictoryManager.insertDescending x l) (x :: l).
Proof.
  induction l as [|y l IH]; simpl; [reflexivity|].
  destruct (snd y <=? snd x); [reflexivity|].
  rewrite IH. apply perm_swap.
Qed.

Lemma sortDescending_perm l : Permutation (VictoryManager.sortDescending l) l.
Proof.
  induction l as [|x l IH]; simpl; [reflexivity|].
  rewrite insertDescending_perm. now constructor.
Qed.

Lemma insertDescending_sorted x l :
  StronglySorted descending l ->
  StronglySorted descending (VictoryManager.insertDescending x l).
Proof.
  induction l as [|y l IH]; intros Hs; simpl.
  - repeat constructor.
  - inversion Hs as [|? ? Hs' Hall]; subst.
    destruct (Z.leb_spec (snd y) (snd x)) as [Hle|Hlt].
    + constructor; [assumption|]. constructor; [exact Hle|].
      rewrite Forall_forall in *. intros z Hz. specialize (Hall z Hz).
      unfold descending in *. lia.
    + constructor; [now apply IH|].
      rewrite Forall_forall in *. intros z Hz.
      apply (Permutation_in _ (insertDescending_perm x l)) in Hz.
      destruct Hz as [<-|Hz]; [unfold descending; lia | now apply Hall].
Qed.

Lemma sortDescending_sorted l :
  StronglySorted descending (VictoryManager.sortDescending l).
Proof.
  induction l as [|x l IH]; simpl; [constructor | now apply insertDescending_sorted].
Qed.

(** The head of the sorted list carries the largest score. *)
Lemma sortDescending_head l e rest :
  VictoryManager.sortDescending l = e :: rest ->
  In e l /\ forall x, In x l -> snd x <= snd e.
Proof.
  intros H. pose proof (sortDescending_sorted l) as Hs.
  pose proof (sortDescending_perm l) as Hp. rewrite H in Hs, Hp.
  split.
  - apply (Permutation_in _ Hp). now left.
  - intros x Hx. apply (Permutation_in _ (Permutation_sym Hp)) in Hx.
    inversion Hs as [|? ? _ Hall]; subst.
    destruct Hx as [<-|Hx]; [lia|].
    rewrite Forall_forall in Hall. exact (Hall x Hx).
Qed.

Lemma sortDescending_nonempty l :
  l <> [] -> VictoryManager.sortDescending l <> [].
Proof.
  intros Hl Hs. pose proof (sortDescending_perm l) as Hp. rewrite Hs in Hp.
  apply Permutation_nil in Hp. contradiction.
Qed.



Lemma findIndex_In {A} (f : A -> bool) (l : list A) x :
  In x l -> f x = true -> exists i, findIndex f l = Some i.
Proof.
  induction l as [|y l IH]; simpl; [contradiction|].
  intros [->|Hin] Hf.
  - rewrite Hf. now exists O.
  - destruct (f y); [now exists O|].
    destruct (IH Hin Hf) as [i ->]. now exists (S i).
Qed.

(** A seated id is found by [withPlayer]. *)
Lemma seated gameState playerId :
  In playerId (List.map Player.id (GameState.players gameState)) ->
  exists seat player,
    findPlayerIndex gameState playerId = Some seat /\
    nth_error (GameState.players gameState) seat = Some player /\
    Player.id player = playerId.
Proof.
  intros Hin. apply in_map_iff in Hin. destruct Hin as [p [Hid Hp]].
  destruct (findIndex_In (fun q => String.eqb (Player.id q) playerId) _ p Hp)
    as [seat Hseat]; [rewrite Hid; apply String.eqb_refl|].
  destruct (findIndex_Some _ _ _ Hseat) as [player [Hn Hq]].
  exists seat, player. repeat split; try assumption. now apply String.eqb_eq.
Qed.

Lemma NoDup_fst_functional {B} (l : list (string * B)) a x y :
  NoDup (List.map fst l) -> In (a, x) l -> In (a, y) l -> x = y.
Proof.
  induction l as [|[b z] l IH]; simpl; intros Hnd Hx Hy; [contradiction|].
  inversion Hnd as [|? ? Hnotin Hnd']; subst.
  simpl in Hnotin.
  destruct Hx as [Hx|Hx], Hy as [Hy|Hy].
  - congruence.
  - injection Hx as -> ->. elim Hnotin. apply in_map_iff. now exists (a, y).
  - injection Hy as -> ->. elim Hnotin. apply in_map_iff. now exists (a, x).
  - now apply IH.
Qed.

Lemma NoDup_map_filter {A B} (g : A -> B) (f : A -> bool) (l : list A) :
  NoDup (List.map g l) -> NoDup (List.map g (List.filter f l)).
Proof.
  induction l as [|x l IH]; simpl; intros Hnd; [constructor|].
  inversion Hnd as [|? ? Hnotin Hnd']; subst.
  destruct (f x); simpl; [|now apply IH].
  constructor; [|now apply IH].
  intros Hin. apply Hnotin. apply in_map_iff in Hin. destruct Hin as [y [Hy Hin]].
  apply filter_In in Hin. apply in_map_iff. exists y. tauto.
Qed.

Section AwardFacts.
Variable holds : Player -> bool.
Variable setHolds : bool -> Player -> Player.
Hypothesis holds_setHolds : forall b p, holds (setHolds b p) = b.
Hypothesis id_setHolds : forall b p, Player.id (setHolds b p) = Player.id p.
Hypothesis holds_victoryPoints :
  forall v p, holds (Player.set_victoryPoints v p) = holds p.

Lemma holdsBonus_not_seated players c :
  ~ In c (List.map Player.id players) -> holdsBonus holds players c = false.
Proof.
  intros Hnotin. unfold holdsBonus. apply not_true_is_false. intros H.
  apply existsb_exists in H. destruct H as [p [Hp H]].
  apply andb_true_iff in H. destruct H as [Hid _]. apply String.eqb_eq in Hid.
  apply Hnotin. apply in_map_iff. now exists p.
Qed.

(** A write to the flag of the player found under [h]. *)
Lemma holdsBonus_modify players : forall seat h f b,
  NoDup (List.map Player.id players) ->
  findIndex (fun p => String.eqb (Player.id p) h) players = Some seat ->
  (forall p, Player.id (f p) = Player.id p) ->
  (forall p, holds (f p) = b) ->
  forall c,
    holdsBonus holds (modify_nth seat f players) c
    = if String.eqb c h then b else holdsBonus holds players c.
Proof.
  induction players as [|p players IH]; intros seat h f b Hnd Hseat Hid Hb c;
    [discriminate|].
  inversion Hnd as [|? ? Hnotin Hnd']; subst. simpl in Hseat.
  destruct (String.eqb_spec (Player.id p) h) as [Hph|Hph].
  - injection Hseat as <-. simpl. rewrite Hid, Hb, Hph.
    destruct (String.eqb_spec c h) as [->|Hch].
    + rewrite String.eqb_refl. simpl.
      rewrite holdsBonus_not_seated by now rewrite <- Hph. apply orb_false_r.
    + destruct (String.eqb_spec h c) as [Heq|_]; [now elim Hch|]. reflexivity.
  - destruct (findIndex _ players) as [j|] eqn:Hj; [|discriminate].
    injection Hseat as <-. simpl.
    fold (holdsBonus holds (modify_nth j f players) c).
    fold (holdsBonus holds players c).
    rewrite (IH j h f b Hnd' Hj Hid Hb).
    destruct (String.eqb_spec c h) as [->|Hch]; [|reflexivity].
    destruct (String.eqb_spec (Player.id p) h); [contradiction|]. reflexivity.
Qed.

Lemma holdsBonus_incumbent players incumbent :
  atMostOneHolder holds players ->
  List.find holds players = Some incumbent ->
  forall c, holdsBonus holds players c = String.eqb c (Player.id incumbent).
Proof.
  unfold atMostOneHolder. intros Hamo Hfind c.
  assert (Hfilter : List.filter holds players = [incumbent]).
  { clear c. induction players as [|p players IH]; simpl in *; [discriminate|].
    destruct (holds p) eqn:Hp.
    - injection Hfind as ->. simpl in Hamo.
      destruct (filter holds players); [reflexivity | simpl in Hamo; lia].
    - now apply IH. }
  destruct (String.eqb_spec c (Player.id incumbent)) as [->|Hne].
  - apply existsb_exists. exists incumbent. apply find_some in Hfind.
    destruct Hfind as [Hin Hh]. split; [assumption|].
    now rewrite String.eqb_refl, Hh.
  - apply not_true_is_false. intros H. apply existsb_exists in H.
    destruct H as [p [Hin H]]. apply andb_true_iff in H. destruct H as [Hid Hh].
    assert (Hp : In p (List.filter holds players)) by (apply filter_In; tauto).
    rewrite Hfilter in Hp. destruct Hp as [<-|[]].
    apply String.eqb_eq in Hid. congruence.
Qed.

Lemma holdsBonus_vacant players :
  List.find holds players = None ->
  forall c, holdsBonus holds players c = false.
Proof.
  intros Hfind c. apply not_true_is_false. intros H. apply existsb_exists in H.
  destruct H as [p [Hin H]]. apply andb_true_iff in H. destruct H as [_ Hh].
  pose proof (find_none _ _ Hfind p Hin). congruence.
Qed.

Lemma revokeAll_holders gameState c :
  holdsBonus holds
    (GameState.players (VictoryManager.revokeAll holds setHolds gameState)) c
  = false.
Proof.
  unfold VictoryManager.revokeAll. destruct gameState; simpl.
  apply not_true_is_false. intros H. apply existsb_exists in H.
  destruct H as [p [Hin H]]. apply andb_true_iff in H. destruct H as [_ Hh].
  apply in_map_iff in Hin. destruct Hin as [p0 [<- _]].
  destruct (holds p0) eqn:Hp0; [|congruence].
  rewrite holds_victoryPoints, holds_setHolds in Hh. discriminate.
Qed.

Lemma revokeAll_ids gameState :
  List.map Player.id
    (GameState.players (VictoryManager.revokeAll holds setHolds gameState))
  = List.map Player.id (GameState.players gameState).
Proof.
  unfold VictoryManager.revokeAll. destruct gameState; simpl.
  rewrite map_map. apply map_ext. intros p.
  destruct (holds p); [|reflexivity].
  transitivity (Player.id (setHolds false p)); [now destruct (setHolds false p) | apply id_setHolds].
Qed.

(** [revoke] and [grant] write the flag of the player found under [h]. *)
Lemma flag_write_holders (b : bool) (delta : Z) gameState seat h :
  NoDup (List.map Player.id (GameState.players gameState)) ->
  findPlayerIndex gameState h = Some seat ->
  forall c,
    holdsBonus holds
      (GameState.players
         (GameState.modifyPlayer seat
            (fun p => Player.set_victoryPoints (Player.victoryPoints p + delta) p)
            (GameState.modifyPlayer seat (setHolds b) gameState))) c
    = if String.eqb c h then b
      else holdsBonus holds (GameState.players gameState) c.
Proof.
  intros Hnd Hseat c. rewrite !players_modifyPlayer, modify_nth_compose.
  apply holdsBonus_modify; try assumption.
  - intros p. transitivity (Player.id (setHolds b p));
      [now destruct (setHolds b p) | apply id_setHolds].
  - intros p. now rewrite holds_victoryPoints, holds_setHolds.
Qed.

Lemma flag_write_ids (b : bool) (delta : Z) gameState seat :
  List.map Player.id
    (GameState.players
       (GameState.modifyPlayer seat
          (fun p => Player.set_victoryPoints (Player.victoryPoints p + delta) p)
          (GameState.modifyPlayer seat (setHolds b) gameState)))
  = List.map Player.id (GameState.players gameState).
Proof.
  rewrite !players_modifyPlayer, modify_nth_compose. apply map_modify_nth.
  intros p. transitivity (Player.id (setHolds b p));
    [now destruct (setHolds b p) | apply id_setHolds].
Qed.

Lemma award_outcome (minimum : Z) (scores : list (string * Z)) gameState :
  NoDup (List.map Player.id (GameState.players gameState)) ->
  atMostOneHolder holds (GameState.players gameState) ->
  List.map fst scores = List.map Player.id (GameState.players gameState) ->
  let valid := List.filter (fun e => snd e >=? minimum) scores in
  let tied := tiedLeaders valid in
  exists newState,
    VictoryManager.award holds setHolds minimum scores gameState
    = Return newState /\
    List.map Player.id (GameState.players newState)
    = List.map Player.id (GameState.players gameState) /\
    forall c,
      holdsBonus holds (GameState.players newState) c
      = match valid with
        | [] => false
        | _ =>
            match tied with
            | [winner] => String.eqb c (fst winner)
            | _ => holdsBonus holds (GameState.players gameState) c &&
                   existsb (fun e => String.eqb (fst e) c) tied
            end
        end.
Proof.
  intros Hnd Hamo Hids. cbv zeta.
  set (valid := List.filter (fun e => snd e >=? minimum) scores).
  assert (Hsub : forall e, In e valid -> In e scores).
  { intros e He. apply filter_In in He. tauto. }
  unfold VictoryManager.award. fold valid. clearbody valid.
  destruct valid as [|v0 valid'].
  { eexists. split; [reflexivity|]. split; [apply revokeAll_ids|].
    intros c. apply revokeAll_holders. }
  cbv beta zeta. fold (tiedLeaders (v0 :: valid')).
  set (tied := tiedLeaders (v0 :: valid')).
  assert (Htied_seated : forall e, In e tied ->
            In (fst e) (List.map Player.id (GameState.players gameState))).
  { intros e He. unfold tied, tiedLeaders in He.
    apply filter_In in He. destruct He as [He _].
    apply (Permutation_in _ (sortDescending_perm (v0 :: valid'))) in He.
    apply Hsub in He. rewrite <- Hids. now apply in_map. }
  clearbody tied.
  destruct (List.find holds (GameState.players gameState)) as [incumbent|] eqn:Hfind.
  - pose proof (holdsBonus_incumbent _ _ Hamo Hfind) as Hholder.
    assert (Hinc : In (Player.id incumbent)
                      (List.map Player.id (GameState.players gameState))).
    { apply in_map. apply find_some in Hfind. tauto. }
    destruct (seated _ _ Hinc) as [hseat [hplayer [Hhseat [Hhnth _]]]].
    destruct tied as [|winner [|second rest]] eqn:Htied.
    + (* no leader *)
      cbn [existsb negb].
      rewrite (withPlayer_found _ _ _ _ _ Hhseat Hhnth).
      eexists. split; [reflexivity|]. split; [apply (flag_write_ids false (-2))|].
      intros c.
      rewrite (flag_write_holders false (-2) _ _ _ Hnd Hhseat), Hholder.
      rewrite andb_false_r. now destruct (String.eqb c (Player.id incumbent)).
    + (* one leader *)
      destruct (String.eqb_spec (Player.id incumbent) (fst winner)) as [Hsame|Hdiff];
        cbn [negb].
      * eexists. split; [reflexivity|]. split; [reflexivity|].
        intros c. now rewrite Hholder, Hsame.
      * rewrite (withPlayer_found _ _ _ _ _ Hhseat Hhnth). cbn [bind].
        set (s1 := VictoryManager.revoke setHolds hseat gameState).
        assert (Hids1 : List.map Player.id (GameState.players s1)
                        = List.map Player.id (GameState.players gameState))
          by apply (flag_write_ids false (-2)).
        assert (Hwin : In (fst winner) (List.map Player.id (GameState.players s1))).
        { rewrite Hids1. apply Htied_seated. now left. }
        destruct (seated _ _ Hwin) as [wseat [wplayer [Hwseat [Hwnth _]]]].
        rewrite (withPlayer_found _ _ _ _ _ Hwseat Hwnth).
        eexists. split; [reflexivity|].
        split; [unfold VictoryManager.grant; now rewrite (flag_write_ids true 2)|].
        intros c. unfold VictoryManager.grant.
        rewrite (flag_write_holders true 2 _ _ _ ltac:(now rewrite Hids1) Hwseat).
        unfold s1, VictoryManager.revoke.
        rewrite (flag_write_holders false (-2) _ _ _ Hnd Hhseat), Hholder.
        destruct (String.eqb_spec c (fst winner)) as [->|Hcw]; [reflexivity|].
        now destruct (String.eqb c (Player.id incumbent)).
    + (* several leaders *)
      set (tied' := winner :: second :: rest) in *.
      destruct (existsb (fun e => String.eqb (fst e) (Player.id incumbent)) tied')
        eqn:Hin; cbn [negb].
      * eexists. split; [reflexivity|]. split; [reflexivity|].
        intros c. rewrite Hholder.
        destruct (String.eqb_spec c (Player.id incumbent)) as [->|Hne];
          [now rewrite Hin | reflexivity].
      * rewrite (withPlayer_found _ _ _ _ _ Hhseat Hhnth).
        eexists. split; [reflexivity|]. split; [apply (flag_write_ids false (-2))|].
        intros c.
        rewrite (flag_write_holders false (-2) _ _ _ Hnd Hhseat), Hholder.
        destruct (String.eqb_spec c (Player.id incumbent)) as [->|Hne];
          [now rewrite Hin | reflexivity].
  - pose proof (holdsBonus_vacant _ Hfind) as Hholder.
    destruct tied as [|winner [|second rest]] eqn:Htied.
    + eexists. split; [reflexivity|]. split; [reflexivity|].
      intros c. now rewrite Hholder.
    + assert (Hwin : In (fst winner) (List.map Player.id (GameState.players gameState))).
      { apply Htied_seated. now left. }
      destruct (seated _ _ Hwin) as [wseat [wplayer [Hwseat [Hwnth _]]]].
      rewrite (withPlayer_found _ _ _ _ _ Hwseat Hwnth).
      eexists. split; [reflexivity|]. split; [apply (flag_write_ids true 2)|].
      intros c. unfold VictoryManager.grant.
      rewrite (flag_write_holders true 2 _ _ _ Hnd Hwseat), Hholder.
      now destruct (String.eqb c (fst winner)).
    + eexists. split; [reflexivity|]. split; [reflexivity|].
      intros c. now rewrite Hholder.
Qed.
End AwardFacts.

Lemma tiedLeaders_spec (valid : list (string * Z)) :
  valid <> [] ->
  exists top,
    (forall e, In e valid -> snd e <= top) /\
    (exists e, In e valid /\ snd e = top) /\
    (forall e, In e (tiedLeaders valid) <-> In e valid /\ snd e = top).
Proof.
  intros Hne. unfold tiedLeaders.
  destruct (VictoryManager.sortDescending valid) as [|first rest] eqn:Hsort.
  { now elim (sortDescending_nonempty valid Hne). }
  destruct (sortDescending_head _ _ _ Hsort) as [Hin Hmax].
  exists (snd first). split; [assumption|]. split; [now exists first|].
  intros e. rewrite filter_In, Z.eqb_eq. rewrite <- Hsort.
  split; intros [He Htop]; (split; [|assumption]).
  - now apply (Permutation_in _ (sortDescending_perm valid)).
  - now apply (Permutation_in _ (Permutation_sym (sortDescending_perm valid))).
Qed.

Lemma tiedLeaders_NoDup (valid : list (string * Z)) :
  NoDup (List.map fst valid) -> NoDup (List.map fst (tiedLeaders valid)).
Proof.
  intros Hnd. unfold tiedLeaders. apply NoDup_map_filter.
  apply (Permutation_NoDup
           (Permutation_map fst (Permutation_sym (sortDescending_perm valid))) Hnd).
Qed.


Lemma atMostOneHolder_unique holds players :
  NoDup (List.map Player.id players) ->
  (forall c c', holdsBonus holds players c = true ->
                holdsBonus holds players c' = true -> c = c') ->
  atMostOneHolder holds players.
Proof.
  unfold atMostOneHolder, holdsBonus.
  induction players as [|p players IH]; simpl; intros Hnd Huniq; [lia|].
  inversion Hnd as [|? ? Hnotin Hnd']; subst.
  destruct (holds p) eqn:Hp.
  - assert (Hnone : List.filter holds players = []).
    { destruct (List.filter holds players) as [|q l] eqn:Hf; [reflexivity|].
      assert (Hq : In q (List.filter holds players)) by (rewrite Hf; now left).
      apply filter_In in Hq. destruct Hq as [Hq Hhq].
      assert (Player.id p = Player.id q).
      { apply Huniq.
        - now rewrite String.eqb_refl.
        - apply orb_true_iff. right. apply existsb_exists. exists q.
          now rewrite String.eqb_refl, Hhq. }
      elim Hnotin. apply in_map_iff. now exists q. }
    rewrite Hnone. simpl. lia.
  - apply IH; [assumption|]. intros c c' Hc Hc'. apply Huniq.
    + now rewrite Hc, orb_true_r.
    + now rewrite Hc', orb_true_r.
Qed.

Lemma existsb_fst_In (l : list (string * Z)) c :
  existsb (fun e => String.eqb (fst e) c) l = true <-> exists x, In (c, x) l.
Proof.
  rewrite existsb_exists. split.
  - intros [[a x] [Hin He]]. simpl in He. apply String.eqb_eq in He. subst.
    now exists x.
  - intros [x Hin]. exists (c, x). split; [assumption | apply String.eqb_refl].
Qed.



(** ** Play from a new game *)

Lemma play_reachable (trace : list (Action * Draws)) :
  forall gameState final,
    reachable gameState -> play gameState trace = Some final -> reachable final.
Proof.
  induction trace as [|[action draws] rest IH]; simpl; intros gameState final Hr H.
  - now injection H as <-.
  - destruct (CatanRuleEngine.processAction gameState action draws)
      as [newState|] eqn:Hstep; [|discriminate].
    apply (IH newState final); [|assumption].
    now apply reachable_step with (gameState := gameState) (action := action)
                                  (draws := draws).
Qed.

Lemma playFromNew_reachable (index : nat) (trace : list (Action * Draws))
    (final : GameState) :
  playFromNew index trace = Some final -> reachable final.
Proof.
  unfold playFromNew.
  destruct (newGameWithTopCard index) as [|gameState] eqn:Hnew; [discriminate|].
  apply play_reachable.
  now apply reachable_new with (playerIds := ["player1"; "player2"])
                               (shuffle := topCardFrom index) (now := "0").
Qed.

Lemma new_game_has_one_robber (playerIds : list string) (shuffle : nat -> nat)
    (now : string) (gameState : GameState) :
  CatanRuleEngine.createNewGame playerIds shuffle now = inr gameState ->
  List.length (robberTiles gameState) = 1%nat.
Proof.
  unfold CatanRuleEngine.createNewGame.
  destruct (_ || _); [discriminate|]. intros [= <-]. reflexivity.
Qed.

(** C3: the robber can leave the board.  A new game has exactly one tile
    under the robber, and so has the state reached by [purchaseTrace], in
    which player 1 holds a knight.  Playing that knight onto the hex (5, 5),
    which is no tile, is accepted, and afterwards no tile is under the
    robber, in a state reached from a new game by accepted actions only. *)
Theorem knight_off_board_loses_robber :
  exists before after : GameState,
    playFromNew 0 purchaseTrace = Some before /\
    reachable before /\
    List.length (robberTiles before) = 1%nat /\
    Map.get (GameBoard.tiles (GameState.board before))
            (BoardGenerator.coordToKey (HexCoordinate.mk 5 5)) = None /\
    CatanRuleEngine.processAction before knightOffBoard noDraws = Success after /\
    reachable after /\
    List.length (robberTiles after) = 0%nat.
Proof.
  eexists. eexists.
  split; [vm_compute; reflexivity|].
  split; [apply (playFromNew_reachable 0 purchaseTrace); vm_compute; reflexivity|].
  split; [vm_compute; reflexivity|].
  split; [vm_compute; reflexivity|].
  split; [vm_compute; reflexivity|].
  split; [|vm_compute; reflexivity].
  apply (playFromNew_reachable 0 (purchaseTrace ++ [(knightOffBoard, noDraws)])).
  vm_compute; reflexivity.
Qed.

(** C1: a failed action leaves its mark on the input.  In the state reached
    by [purchaseTrace] with a road-building card on top of the deck, player 1
    plays the card naming a free edge next to their settlement and an edge
    that does not exist.  [processAction] reports failure for the second
    road, yet the caller's state object has lost the card and gained the
    first road, on the board and in the ledger. *)
Theorem failed_road_building_mutates_input :
  exists before : GameState,
    playFromNew 19 purchaseTrace = Some before /\
    reachable before /\
    CatanRuleEngine.processAction before roadBuildingSecondFails noDraws
    = Failure "Cannot build second road: Error: Invalid edge location" /\
    let after := CatanRuleEngine.inputAfter before roadBuildingSecondFails noDraws in
    after <> before /\
    option_map Edge.road
      (Map.get (GameBoard.edges (GameState.board before)) "e_1,0_2,-1")
    = Some None /\
    option_map Edge.road
      (Map.get (GameBoard.edges (GameState.board after)) "e_1,0_2,-1")
    = Some (Some (Road.mk "player1")) /\
    List.map (fun p => (Buildings.roads (Player.buildings p),
                        DevelopmentCards.roadBuilding (Player.developmentCards p)))
             (GameState.players before)
    = [([], 1); ([], 0)] /\
    List.map (fun p => (Buildings.roads (Player.buildings p),
                        DevelopmentCards.roadBuilding (Player.developmentCards p)))
             (GameState.players after)
    = [(["e_1,0_2,-1"], 0); ([], 0)].
Proof.
  eexists.
  split; [vm_compute; reflexivity|].
  split; [apply (playFromNew_reachable 19 purchaseTrace); vm_compute; reflexivity|].
  split; [vm_compute; reflexivity|].
  cbv zeta.
  split; [|repeat split; vm_compute; reflexivity].
  intros Heq.
  apply (f_equal (fun s => List.map (fun p => DevelopmentCards.roadBuilding
                                               (Player.developmentCards p))
                                    (GameState.players s))) in Heq.
  vm_compute in Heq. discriminate.
Qed.

(** C4: two action kinds are served out of turn.  In the state reached by
    [openingTrace] it is player 2's turn to roll; player 1, who holds a
    wool, a wheat and an ore, asks to buy a development card and is served,
    and so is player 1's request to give player 2 a wheat. *)
Theorem out_of_turn_purchase_accepted :
  exists before bought traded : GameState,
    playFromNew 0 openingTrace = Some before /\
    reachable before /\
    currentPlayerId before = Some "player2" /\
    CatanRuleEngine.processAction before buyOutOfTurn noDraws = Success bought /\
    List.map (fun p => DevelopmentCards.knight (Player.developmentCards p))
             (GameState.players bought) = [1; 0] /\
    CatanRuleEngine.processAction before tradeOutOfTurn noDraws = Success traded.
Proof.
  do 3 eexists.
  split; [vm_compute; reflexivity|].
  split; [apply (playFromNew_reachable 0 openingTrace); vm_compute; reflexivity|].
  split; [vm_compute; reflexivity|].
  split; [vm_compute; reflexivity|].
  split; vm_compute; reflexivity.
Qed.


(** ** The second setup round *)

(** Against C2 as stated: three players each place a settlement and a road
    in the first round; the second round opens on player 3, who places a
    second settlement on an intersection touching a pasture, a field and a
    hill, adds a road and ends the turn.  The phase is then PRODUCTION with
    player 1 to move: players 1 and 2 still have one settlement each, and
    player 3 holds no resource. *)
Lemma setup_round_2_counterexample :
  exists entered finished : GameState,
    playThree firstRoundTrace = Some entered /\
    GameState.phase entered = SETUP_ROUND_2 /\
    currentPlayerId entered = Some "player3" /\
    play entered secondRoundTurn = Some finished /\
    adjacentTerrains finished "i_2,-2" = [Pasture; Field; Hill] /\
    List.map (fun p => (Player.id p,
                        Buildings.settlements (Player.buildings p),
                        ResourceManager.getTotalResources (Player.resources p)))
             (GameState.players finished)
    = [ ("player1", ["i_1,0"], 0);
        ("player2", ["i_-1,1"], 0);
        ("player3", ["i_0,-2"; "i_2,-2"], 0) ] /\
    GameState.phase finished = PRODUCTION /\
    currentPlayerId finished = Some "player1".
Proof.
  do 2 eexists.
  split; [vm_compute; reflexivity|].
  split; [vm_compute; reflexivity|].
  split; [vm_compute; reflexivity|].
  split; [vm_compute; reflexivity|].
  repeat split; vm_compute; reflexivity.
Qed.

Lemma handleEndTurn_enters_round_2 gameState action entered :
  GameState.phase gameState = SETUP_ROUND_1 ->
  CatanRuleEngine.handleEndTurn gameState action = Return entered ->
  GameState.phase entered = SETUP_ROUND_2 ->
  GameState.players entered <> [] /\
  GameState.currentPlayerIndex entered
  = (List.length (GameState.players entered) - 1)%nat.
Proof.
  intros Hphase H Hentered. unfold CatanRuleEngine.handleEndTurn in H.
  apply bind_Return_inv in H. destruct H as [notCurrent [Hcur H]].
  destruct notCurrent; [discriminate|].
  assert (Hne : GameState.players gameState <> []).
  { unfold notCurrentPlayer, currentPlayerId in Hcur. intros Hnil.
    rewrite Hnil in Hcur. now destruct (GameState.currentPlayerIndex gameState). }
  cbv zeta in H. destruct gameState; simpl in *. subst phase.
  repeat match type of H with
         | context [if ?c then _ else _] => destruct c
         end;
    simpl in H; injection H as <-; simpl in *; try discriminate;
    rewrite length_map; split; try reflexivity;
    intros Hnil; apply map_eq_nil in Hnil; contradiction.
Qed.

Lemma buildSettlement_in_setup gameState playerId intersectionId placed :
  isSetupPhase (GameState.phase gameState) = true ->
  BuildingManager.buildSettlement gameState playerId intersectionId
  = Return placed ->
  exists seat builder,
    findPlayerIndex gameState playerId = Some seat /\
    nth_error (GameState.players gameState) seat = Some builder /\
    GameState.players placed
    = modify_nth seat
        (fun p => Player.set_victoryPoints (Player.victoryPoints p + 1)
                    (Player.push_settlement intersectionId p))
        (GameState.players gameState).
Proof.
  intros Hsetup H. unfold BuildingManager.buildSettlement in H.
  apply bind_Return_inv in H. destruct H as [[] [_ H]].
  apply withPlayer_inv in H. destruct H as [seat [builder [Hseat [Hnth H]]]].
  rewrite Hsetup in H. cbn [negb] in H. injection H as <-.
  exists seat, builder. split; [assumption|]. split; [assumption|].
  rewrite !players_modifyPlayer, modify_nth_compose.
  unfold GameState.modifyIntersection. now destruct gameState.
Qed.

(** C2, amended: when an end of turn takes the game from the first setup
    round into the second, the player to move is the last-seated one; and a
    settlement placed during the second setup round costs and credits
    nothing: every hand is as before, while the builder's ledger gains the
    intersection and the builder one victory point. *)
Theorem setup_round_2_start_and_free_settlement
    (gameState : GameState) (action : Action) (entered : GameState)
    (Hfirst : GameState.phase gameState = SETUP_ROUND_1)
    (Hend : CatanRuleEngine.handleEndTurn gameState action = Return entered)
    (Hsecond : GameState.phase entered = SETUP_ROUND_2) :
  GameState.players entered <> [] /\
  GameState.currentPlayerIndex entered
  = (List.length (GameState.players entered) - 1)%nat /\
  forall (state : GameState) (playerId intersectionId : string)
         (placed : GameState),
    GameState.phase state = SETUP_ROUND_2 ->
    BuildingManager.buildSettlement state playerId intersectionId
    = Return placed ->
    List.map Player.resources (GameState.players placed)
    = List.map Player.resources (GameState.players state) /\
    exists (seat : nat) (builder : Player),
      findPlayerIndex state playerId = Some seat /\
      nth_error (GameState.players state) seat = Some builder /\
      nth_error (GameState.players placed) seat
      = Some (Player.set_victoryPoints (Player.victoryPoints builder + 1)
                (Player.push_settlement intersectionId builder)).
Proof.
  destruct (handleEndTurn_enters_round_2 _ _ _ Hfirst Hend Hsecond) as [Hne Hidx].
  split; [assumption|]. split; [assumption|].
  intros state playerId intersectionId placed Hphase Hbuild.
  destruct (buildSettlement_in_setup state playerId intersectionId placed)
    as [seat [builder [Hseat [Hnth Hplayers]]]];
    [now rewrite Hphase | assumption |].
  rewrite Hplayers. split.
  - apply map_modify_nth. intros p. now destruct p.
  - exists seat, builder. split; [assumption|]. split; [assumption|].
    rewrite nth_error_modify_nth, Nat.eqb_refl, Hnth. simpl.
    now destruct builder.
Qed.

(** ** The longest-road bonus across an action *)


Lemma keepsBonusView_refl s : keepsBonusView s s.
Proof. reflexivity. Qed.

Lemma keepsBonusView_trans s1 s2 s3 :
  keepsBonusView s1 s2 -> keepsBonusView s2 s3 -> keepsBonusView s1 s3.
Proof. unfold keepsBonusView. congruence. Qed.

Lemma keepsBonusView_modifyPlayer s seat f :
  (forall p, bonusView (f p) = bonusView p) ->
  keepsBonusView s (GameState.modifyPlayer seat f s).
Proof.
  intros Hf. unfold keepsBonusView. rewrite players_modifyPlayer.
  now apply map_modify_nth.
Qed.

Lemma keepsBonusView_players s s' :
  GameState.players s' = GameState.players s -> keepsBonusView s s'.
Proof. unfold keepsBonusView. now intros ->. Qed.

Ltac view_field := intros p; destruct p; reflexivity.

Ltac keeps :=
  repeat first
    [ apply keepsBonusView_refl
    | (eapply keepsBonusView_trans;
       [| apply keepsBonusView_modifyPlayer; view_field])
    | (eapply keepsBonusView_trans;
       [| apply keepsBonusView_players;
          match goal with |- GameState.players ?t = _ =>
            (unfold GameState.modifyEdge, GameState.modifyTile,
                    GameState.modifyIntersection); cbn [GameState.players
               GameState.set_board GameState.set_phase GameState.set_diceRoll
               GameState.set_turn GameState.set_winner
               GameState.set_currentPlayerIndex
               GameState.set_developmentCardDeck]; reflexivity end]) ].

Lemma buildRoad_keeps s playerId edgeId s' :
  BuildingManager.buildRoad s playerId edgeId = Return s' -> keepsBonusView s s'.
Proof.
  unfold BuildingManager.buildRoad. intros H.
  apply bind_Return_inv in H. destruct H as [[] [_ H]].
  apply withPlayer_inv in H. destruct H as [seat [player [_ [_ H]]]].
  injection H as <-. keeps.
Qed.

Lemma buildSettlement_keeps s playerId intersectionId s' :
  BuildingManager.buildSettlement s playerId intersectionId = Return s' ->
  keepsBonusView s s'.
Proof.
  unfold BuildingManager.buildSettlement. intros H.
  apply bind_Return_inv in H. destruct H as [[] [_ H]].
  apply withPlayer_inv in H. destruct H as [seat [player [_ [_ H]]]].
  injection H as <-. destruct (negb _); keeps.
Qed.

Lemma buildCity_keeps s playerId intersectionId s' :
  BuildingManager.buildCity s playerId intersectionId = Return s' ->
  keepsBonusView s s'.
Proof.
  unfold BuildingManager.buildCity. intros H.
  apply bind_Return_inv in H. destruct H as [[] [_ H]].
  apply withPlayer_inv in H. destruct H as [seat [player [_ [_ H]]]].
  injection H as <-. keeps.
Qed.

Lemma stealRandomResource_keeps from to s u s' :
  ResourceManager.stealRandomResource from to s u = Return s' ->
  keepsBonusView s s'.
Proof.
  unfold ResourceManager.stealRandomResource. intros H.
  destruct (findPlayerIndex s from); [|discriminate].
  destruct (findPlayerIndex s to); [|discriminate].
  destruct (nth_error _ _); [|discriminate].
  destruct (ResourceManager.availableResources _); injection H as <-; keeps.
Qed.

Lemma discardResources_keeps s playerId toDiscard s' :
  ResourceManager.discardResources s playerId toDiscard = Return s' ->
  keepsBonusView s s'.
Proof.
  unfold ResourceManager.discardResources. intros H.
  destruct (findPlayerIndex s playerId); [|discriminate].
  destruct (nth_error _ _); [|discriminate].
  destruct (_ <=? 7); [discriminate|].
  destruct (negb _); [discriminate|]. injection H as <-. keeps.
Qed.

Lemma creditIntersection_keeps coord resource s x :
  keepsBonusView s (ResourceManager.creditIntersection coord resource s x).
Proof.
  unfold ResourceManager.creditIntersection.
  destruct (ResourceManager.isAdjacent x coord); [|keeps].
  destruct (Intersection.building x); [|keeps].
  destruct (findPlayerIndex s _); keeps.
Qed.

Lemma fold_keeps {A} (step : GameState -> A -> GameState) (l : list A) :
  (forall s x, keepsBonusView s (step s x)) ->
  forall s, keepsBonusView s (fold_left step l s).
Proof.
  intros Hstep. induction l as [|x l IH]; intros s; simpl; [keeps|].
  eapply keepsBonusView_trans; [apply Hstep | apply IH].
Qed.

Lemma distributeResources_keeps s diceSum :
  keepsBonusView s (ResourceManager.distributeResources s diceSum).
Proof.
  unfold ResourceManager.distributeResources.
  destruct (diceSum =? 7); [rewrite handleSevenRolled_id; keeps|].
  apply fold_keeps. intros st coord. unfold ResourceManager.creditTile.
  destruct (Map.get _ _); [|keeps].
  destruct (ResourceManager.terrainToResource _); [|keeps].
  apply fold_keeps. intros. apply creditIntersection_keeps.
Qed.

Lemma executeTrade_keeps s offer s' :
  TradingManager.executeTrade s offer = Return s' -> keepsBonusView s s'.
Proof.
  unfold TradingManager.executeTrade. intros H.
  apply bind_Return_inv in H. destruct H as [[] [_ H]].
  apply withPlayer_inv in H. destruct H as [seat [player [_ [_ H]]]].
  destruct (TradeOffer.toPlayerId offer) as [target|]; [|injection H as <-; keeps].
  destruct (truthy _); [|injection H as <-; keeps].
  apply withPlayer_inv in H. destruct H as [seat2 [player2 [_ [_ H]]]].
  injection H as <-. keeps.
Qed.

Lemma moveRobber_keeps s playerId loc target u s' :
  RobberManager.moveRobber s playerId loc target u = Return s' ->
  keepsBonusView s s'.
Proof.
  unfold RobberManager.moveRobber. intros H.
  apply bind_Return_inv in H. destruct H as [v [_ H]].
  apply bind_Return_inv in H. destruct H as [[] [_ H]].
  destruct target as [t|]; [|injection H as <-; keeps].
  destruct (_ && _); [|injection H as <-; keeps].
  destruct (valid _); [|injection H as <-; keeps].
  apply stealRandomResource_keeps in H.
  eapply keepsBonusView_trans; [|exact H]. keeps.
Qed.

Lemma buyDevelopmentCard_keeps s playerId s' :
  DevelopmentCardManager.buyDevelopmentCard s playerId = Return s' ->
  keepsBonusView s s'.
Proof.
  unfold DevelopmentCardManager.buyDevelopmentCard. intros H.
  apply bind_Return_inv in H. destruct H as [[] [_ H]].
  apply withPlayer_inv in H. destruct H as [seat [player [_ [_ H]]]].
  cbv zeta in H. destruct (last _ None); [|discriminate].
  injection H as <-. keeps.
Qed.

Lemma privateUpdateLargestArmy_keeps s playerId s' :
  DevelopmentCardManager.updateLargestArmy s playerId = Return s' ->
  keepsBonusView s s'.
Proof.
  unfold DevelopmentCardManager.updateLargestArmy. intros H.
  destruct (findPlayer s playerId); [|injection H as <-; keeps].
  destruct (_ <? 3); [injection H as <-; keeps|].
  destruct (_ >? _); [|injection H as <-; keeps].
  apply bind_Return_inv in H. destruct H as [s1 [H1 H]].
  apply withPlayer_inv in H. destruct H as [seat [player [_ [_ H]]]].
  injection H as <-.
  assert (K1 : keepsBonusView s s1).
  { destruct (find _ _); [|injection H1 as <-; keeps].
    apply withPlayer_inv in H1. destruct H1 as [seat1 [player1 [_ [_ H1]]]].
    injection H1 as <-. keeps. }
  eapply keepsBonusView_trans; [exact K1|]. keeps.
Qed.

Lemma playKnightCard_keeps s playerId loc target u s' :
  DevelopmentCardManager.playKnightCard s playerId loc target u = Return s' ->
  keepsBonusView s s'.
Proof.
  unfold DevelopmentCardManager.playKnightCard. intros H.
  apply bind_Return_inv in H. destruct H as [[] [_ H]].
  apply withPlayer_inv in H. destruct H as [seat [player [_ [_ H]]]].
  cbv zeta in H.
  match type of H with
  | context [ResourceManager.stealRandomResource _ _ ?st _] =>
      assert (K : keepsBonusView s st) by keeps
  end.
  eapply keepsBonusView_trans; [exact K|].
  destruct target as [t|].
  - destruct (_ && _).
    + now apply stealRandomResource_keeps in H.
    + now apply privateUpdateLargestArmy_keeps in H.
  - now apply privateUpdateLargestArmy_keeps in H.
Qed.

Lemma rethrow_Return_inv {A} f (o : Outcome A) r :
  rethrow f o = Return r -> o = Return r.
Proof. destruct o; simpl; [trivial | discriminate]. Qed.

Lemma buildFreeRoad_keeps s playerId edgeId s' :
  DevelopmentCardManager.buildFreeRoad s playerId edgeId = Return s' ->
  keepsBonusView s s'.
Proof.
  unfold DevelopmentCardManager.buildFreeRoad. intros H. cbv zeta in H.
  destruct (Map.get _ _) as [edge|]; [|discriminate].
  destruct (Edge.road edge); [discriminate|].
  destruct (negb _); [discriminate|].
  destruct (findPlayer s playerId); [|discriminate].
  destruct (_ =? 0); [discriminate|].
  apply withPlayer_inv in H. destruct H as [seat [player [_ [_ H]]]].
  injection H as <-. keeps.
Qed.

Lemma playRoadBuildingCard_keeps s playerId edgeIds s' :
  DevelopmentCardManager.playRoadBuildingCard s playerId edgeIds = Return s' ->
  keepsBonusView s s'.
Proof.
  unfold DevelopmentCardManager.playRoadBuildingCard. intros H.
  apply bind_Return_inv in H. destruct H as [[] [_ H]].
  apply withPlayer_inv in H. destruct H as [seat [player [_ [_ H]]]].
  cbv zeta in H.
  apply bind_Return_inv in H. destruct H as [s2 [H2 H]].
  apply rethrow_Return_inv, buildFreeRoad_keeps in H2.
  assert (K : keepsBonusView s s2).
  { eapply keepsBonusView_trans; [|exact H2]. keeps. }
  destruct (negb _).
  - apply rethrow_Return_inv, buildFreeRoad_keeps in H.
    eapply keepsBonusView_trans; eassumption.
  - now injection H as <-.
Qed.

Lemma playInventionCard_keeps s playerId resources s' :
  DevelopmentCardManager.playInventionCard s playerId resources = Return s' ->
  keepsBonusView s s'.
Proof.
  unfold DevelopmentCardManager.playInventionCard. intros H.
  apply bind_Return_inv in H. destruct H as [[] [_ H]].
  apply withPlayer_inv in H. destruct H as [seat [player [_ [_ H]]]].
  injection H as <-. keeps.
Qed.

Lemma takeAll_view resourceType playerIndex players : forall index,
  List.map bonusView
    (snd (DevelopmentCardManager.takeAll resourceType playerIndex index players))
  = List.map bonusView players.
Proof.
  induction players as [|p players IH]; intros index; simpl; [reflexivity|].
  specialize (IH (S index)).
  destruct (DevelopmentCardManager.takeAll resourceType playerIndex (S index) players)
    as [total rest]. simpl in IH.
  destruct (Nat.eqb index playerIndex); simpl; rewrite IH; reflexivity.
Qed.

Lemma playMonopolyCard_keeps s playerId resourceType s' :
  DevelopmentCardManager.playMonopolyCard s playerId resourceType = Return s' ->
  keepsBonusView s s'.
Proof.
  unfold DevelopmentCardManager.playMonopolyCard. intros H.
  apply bind_Return_inv in H. destruct H as [[] [_ H]].
  apply withPlayer_inv in H. destruct H as [seat [player [_ [_ H]]]].
  cbv zeta in H.
  match type of H with
  | context [DevelopmentCardManager.takeAll ?r ?i ?n ?ps] =>
      pose proof (takeAll_view r i ps n) as Hview;
      destruct (DevelopmentCardManager.takeAll r i n ps) as [total players']
  end.
  injection H as <-. cbn [snd] in Hview.
  eapply keepsBonusView_trans;
    [|apply keepsBonusView_modifyPlayer; view_field].
  unfold keepsBonusView. cbn [GameState.players GameState.set_players].
  rewrite Hview. apply keepsBonusView_modifyPlayer. view_field.
Qed.

Lemma playVictoryPointCard_keeps s playerId s' :
  DevelopmentCardManager.playVictoryPointCard s playerId = Return s' ->
  keepsBonusView s s'.
Proof.
  unfold DevelopmentCardManager.playVictoryPointCard. intros H.
  apply bind_Return_inv in H. destruct H as [[] [_ H]].
  apply withPlayer_inv in H. destruct H as [seat [player [_ [_ H]]]].
  injection H as <-. keeps.
Qed.

Lemma handleRollDice_keeps s action draws s' :
  CatanRuleEngine.handleRollDice s action draws = Return s' ->
  keepsBonusView s s'.
Proof.
  unfold CatanRuleEngine.handleRollDice. intros H.
  destruct (negb _); [discriminate|].
  apply bind_Return_inv in H. destruct H as [notCurrent [_ H]].
  destruct notCurrent; [discriminate|]. cbv zeta in H.
  match type of H with
  | context [GameState.set_phase ACTION ?st] =>
      assert (K : keepsBonusView s st)
  end.
  { destruct (_ =? 7).
    - unfold RobberManager.handleSevenRolled. keeps.
    - eapply keepsBonusView_trans;
        [|apply keepsBonusView_players;
          cbn [GameState.players GameState.set_diceRoll]; reflexivity].
      eapply keepsBonusView_trans; [|apply distributeResources_keeps]. keeps. }
  destruct (_ || _); injection H as <-; [|exact K].
  eapply keepsBonusView_trans; [exact K|]. keeps.
Qed.

Lemma handleEndTurn_keeps s action s' :
  CatanRuleEngine.handleEndTurn s action = Return s' -> keepsBonusView s s'.
Proof.
  unfold CatanRuleEngine.handleEndTurn. intros H.
  apply bind_Return_inv in H. destruct H as [notCurrent [_ H]].
  destruct notCurrent; [discriminate|]. cbv zeta in H.
  assert (K : keepsBonusView s (DevelopmentCardManager.resetPlayDevCardFlag s)).
  { unfold keepsBonusView, DevelopmentCardManager.resetPlayDevCardFlag.
    destruct s; simpl. rewrite map_map. apply map_ext. view_field. }
  repeat match type of H with
         | context [if ?c then _ else _] => destruct c
         | context [match GameState.phase ?st with _ => _ end] =>
             destruct (GameState.phase st)
         end;
    injection H as <-; (eapply keepsBonusView_trans; [exact K|]); keeps.
Qed.

Lemma dispatch_keeps s action draws s' :
  CatanRuleEngine.dispatch s action draws = Some (Return s') ->
  keepsBonusView s s'.
Proof.
  unfold CatanRuleEngine.dispatch. intros H.
  destruct (Action.type action) as [|card| | | | | | | | | |];
    try discriminate; injection H as H.
  - now apply handleRollDice_keeps in H.
  - unfold CatanRuleEngine.handlePlayDevelopmentCard in H.
    destruct card.
    + now apply playKnightCard_keeps in H.
    + now apply playRoadBuildingCard_keeps in H.
    + now apply playInventionCard_keeps in H.
    + now apply playMonopolyCard_keeps in H.
    + now apply playVictoryPointCard_keeps in H.
    + discriminate.
  - unfold CatanRuleEngine.handleBuildRoad in H.
    apply bind_Return_inv in H. destruct H as [notCurrent [_ H]].
    destruct notCurrent; [discriminate|]. now apply buildRoad_keeps in H.
  - unfold CatanRuleEngine.handleBuildSettlement in H.
    apply bind_Return_inv in H. destruct H as [notCurrent [_ H]].
    destruct notCurrent; [discriminate|]. now apply buildSettlement_keeps in H.
  - unfold CatanRuleEngine.handleBuildCity in H.
    apply bind_Return_inv in H. destruct H as [notCurrent [_ H]].
    destruct notCurrent; [discriminate|]. now apply buildCity_keeps in H.
  - now apply buyDevelopmentCard_keeps in H.
  - now apply executeTrade_keeps in H.
  - now apply executeTrade_keeps in H.
  - now apply moveRobber_keeps in H.
  - now apply discardResources_keeps in H.
  - now apply handleEndTurn_keeps in H.
Qed.



Lemma board_modifyPlayer s seat f :
  GameState.board (GameState.modifyPlayer seat f s) = GameState.board s.
Proof. now destruct s. Qed.

(** * The robber's tile

    What [moveRobber] and an on-board knight do to the robber flags. *)

Lemma Map_map_absent {V} (m : Map.t V) k0 (f : V -> V) :
  ~ In k0 (Map.keys m) ->
  List.map (fun kv => if String.eqb (fst kv) k0 then (fst kv, f (snd kv)) else kv) m
  = m.
Proof.
  induction m as [|[k v] m IH]; simpl; intros Hnotin; [reflexivity|].
  destruct (String.eqb_spec k k0) as [->|Hne].
  - elim Hnotin. now left.
  - f_equal. apply IH. intros H. apply Hnotin. now right.
Qed.

Lemma Map_update_as_map {V} (m : Map.t V) k0 (f : V -> V) :
  NoDup (Map.keys m) ->
  Map.update m k0 f
  = List.map (fun kv => if String.eqb (fst kv) k0 then (fst kv, f (snd kv)) else kv) m.
Proof.
  induction m as [|[k v] m IH]; simpl; intros Hnd; [reflexivity|].
  inversion Hnd as [|? ? Hnotin Hnd']; subst.
  destruct (String.eqb_spec k k0) as [->|Hne].
  - f_equal. symmetry. now apply Map_map_absent.
  - f_equal. now apply IH.
Qed.

Lemma Map_keys_update {V} (m : Map.t V) k0 (f : V -> V) :
  Map.keys (Map.update m k0 f) = Map.keys m.
Proof.
  induction m as [|[k v] m IH]; simpl; [reflexivity|].
  destruct (String.eqb k k0); simpl; [reflexivity | now rewrite IH].
Qed.

Lemma Map_get_In_entry {V} (m : Map.t V) k v :
  Map.get m k = Some v -> In (k, v) m.
Proof.
  induction m as [|[k' v'] m IH]; simpl; [discriminate|].
  destruct (String.eqb_spec k' k) as [->|Hne].
  - intros [= ->]. now left.
  - intros H. right. now apply IH.
Qed.

(** With distinct keys, the flagged tiles are counted by their keys. *)
Lemma one_flag_per_key (tiles : Map.t Tile) (key : string) :
  NoDup (Map.keys tiles) ->
  In key (Map.keys tiles) ->
  (forall k tile, In (k, tile) tiles -> (Tile.hasRobber tile = true <-> k = key)) ->
  List.length (List.filter Tile.hasRobber (Map.values tiles)) = 1%nat.
Proof.
  induction tiles as [|[k tile] tiles IH]; simpl; intros Hnd Hin Hflag; [contradiction|].
  inversion Hnd as [|? ? Hnotin Hnd']; subst.
  assert (Hrest : forall k' t', In (k', t') tiles ->
                    (Tile.hasRobber t' = true <-> k' = key)).
  { intros k' t' H. apply Hflag. now right. }
  destruct (string_dec k key) as [->|Hne].
  - rewrite (proj2 (Hflag key tile (or_introl eq_refl)) eq_refl). simpl. f_equal.
    assert (Hnone : forall t', In t' (Map.values tiles) -> Tile.hasRobber t' = false).
    { intros t' Ht'. apply in_map_iff in Ht'. destruct Ht' as [[k' t''] [<- Hin']].
      simpl. apply not_true_is_false. intros Ht. apply (Hrest k' t'' Hin') in Ht.
      subst. apply Hnotin. apply in_map_iff. now exists (key, t''). }
    clear -Hnone. induction (Map.values tiles) as [|t l IHl]; [reflexivity|].
    simpl. rewrite (Hnone t (or_introl eq_refl)). apply IHl.
    intros t' Ht'. apply Hnone. now right.
  - assert (Hf : Tile.hasRobber tile = false).
    { apply not_true_is_false. intros Ht.
      apply (Hflag k tile (or_introl eq_refl)) in Ht. contradiction. }
    rewrite Hf. apply IH; try assumption.
    destruct Hin as [Hin|Hin]; [contradiction | assumption].
Qed.

Lemma stealRandomResource_board from to s u s' :
  ResourceManager.stealRandomResource from to s u = Return s' ->
  GameState.board s' = GameState.board s.
Proof.
  unfold ResourceManager.stealRandomResource. intros E.
  destruct (findPlayerIndex _ from); [|discriminate].
  destruct (findPlayerIndex _ to); [|discriminate].
  destruct (nth_error _ _); [|discriminate].
  destruct (ResourceManager.availableResources _); injection E as <-;
    [reflexivity|]. now rewrite !board_modifyPlayer.
Qed.

Lemma moveRobber_board s playerId loc target u s' :
  RobberManager.moveRobber s playerId loc target u = Return s' ->
  Map.has (GameBoard.tiles (GameState.board s)) (BoardGenerator.coordToKey loc) = true /\
  GameState.board s'
  = GameBoard.set_robberLocation loc
      (GameBoard.set_tiles
         (Map.update
            (Map.update (GameBoard.tiles (GameState.board s))
               (BoardGenerator.coordToKey
                  (GameBoard.robberLocation (GameState.board s)))
               (Tile.set_hasRobber false))
            (BoardGenerator.coordToKey loc) (Tile.set_hasRobber true))
         (GameState.board s)).
Proof.
  unfold RobberManager.moveRobber. intros H.
  apply bind_Return_inv in H. destruct H as [v [Hv H]].
  apply bind_Return_inv in H. destruct H as [[] [Hc H]].
  apply check_inv in Hc. subst v.
  split.
  { unfold RobberManager.canMoveRobber in Hv.
    destruct (findPlayer s playerId); [|discriminate].
    apply bind_Return_inv in Hv. destruct Hv as [nc [_ Hv]].
    destruct nc; [discriminate|]. unfold Map.has.
    now destruct (Map.get _ _). }
  cbv zeta in H.
  match type of H with
  | context [ResourceManager.stealRandomResource _ _ ?st _] =>
      assert (K : GameState.board s' = GameState.board st)
  end.
  { destruct target as [t|]; [|now injection H as <-].
    destruct (_ && _); [|now injection H as <-].
    destruct (valid _); [|now injection H as <-].
    now apply stealRandomResource_board in H. }
  rewrite K. destruct s as [? ? ? ? board ? ? ? ?]. destruct board. reflexivity.
Qed.

(** X18: [moveRobber] keeps the robber on exactly one tile. *)
Lemma moveRobber_keeps_one_robber s playerId loc target u s' :
  robberMarked (GameState.board s) ->
  RobberManager.moveRobber s playerId loc target u = Return s' ->
  robberMarked (GameState.board s') /\
  List.length (robberTiles s') = 1%nat.
Proof.
  intros [Hnd Hflag] H. destruct (moveRobber_board _ _ _ _ _ _ H) as [Hhas Hb].
  set (old := BoardGenerator.coordToKey (GameBoard.robberLocation (GameState.board s))) in *.
  set (new := BoardGenerator.coordToKey loc) in *.
  set (tiles := GameBoard.tiles (GameState.board s)) in *.
  assert (Hnd1 : NoDup (Map.keys (Map.update tiles old (Tile.set_hasRobber false))))
    by now rewrite Map_keys_update.
  assert (Htiles' : GameBoard.tiles (GameState.board s')
                    = Map.update (Map.update tiles old (Tile.set_hasRobber false))
                                 new (Tile.set_hasRobber true))
    by now rewrite Hb.
  assert (Hloc' : GameBoard.robberLocation (GameState.board s') = loc)
    by now rewrite Hb.
  assert (Hmarked : robberMarked (GameState.board s')).
  { split.
    - now rewrite Htiles', !Map_keys_update.
    - rewrite Htiles', Hloc'. fold new.
      rewrite (Map_update_as_map _ new _ Hnd1), (Map_update_as_map _ old _ Hnd).
      rewrite map_map. intros k tile Hin. apply in_map_iff in Hin.
      destruct Hin as [[k0 t0] [E Hin]]. simpl in E.
      pose proof (Hflag k0 t0 Hin) as Hold.
      destruct (String.eqb_spec k0 old) as [->|Hne]; simpl in E.
      + destruct (String.eqb_spec old new) as [Eon|Hon]; injection E as <- <-; simpl.
        * tauto.
        * split; [discriminate | intros; contradiction].
      + destruct (String.eqb_spec k0 new) as [->|Hnn]; injection E as <- <-; simpl.
        * tauto.
        * split; [|intros; contradiction].
          intros Ht. apply Hold in Ht. contradiction. }
  split; [assumption|].
  destruct Hmarked as [Hnd' Hflag']. unfold robberTiles.
  apply one_flag_per_key with (key := BoardGenerator.coordToKey
                                        (GameBoard.robberLocation (GameState.board s')));
    try assumption.
  rewrite Htiles', !Map_keys_update, Hloc'. fold new.
  unfold Map.has in Hhas. fold tiles in Hhas.
  destruct (Map.get tiles new) as [t|] eqn:Hget; [|discriminate].
  apply Map_get_In_entry in Hget. apply in_map_iff. now exists (new, t).
Qed.

Lemma new_game_robberMarked (playerIds : list string) (shuffle : nat -> nat)
    (now : string) (gameState : GameState) :
  CatanRuleEngine.createNewGame playerIds shuffle now = inr gameState ->
  robberMarked (GameState.board gameState).
Proof.
  unfold CatanRuleEngine.createNewGame.
  destruct (_ || _); [discriminate|]. intros [= <-].
  cbn [GameState.board]. split.
  - vm_compute. repeat constructor; simpl; intuition discriminate.
  - intros k tile Hin. vm_compute in Hin.
    repeat (destruct Hin as [Hin|Hin];
            [injection Hin as <- <-; vm_compute; split; intros; (reflexivity || discriminate)|]).
    contradiction.
Qed.

Lemma privateUpdateLargestArmy_board s playerId s' :
  DevelopmentCardManager.updateLargestArmy s playerId = Return s' ->
  GameState.board s' = GameState.board s.
Proof.
  unfold DevelopmentCardManager.updateLargestArmy. intros H.
  destruct (findPlayer s playerId); [|now injection H as <-].
  destruct (_ <? 3); [now injection H as <-|].
  destruct (_ >? _); [|now injection H as <-].
  apply bind_Return_inv in H. destruct H as [s1 [H1 H]].
  apply withPlayer_inv in H. destruct H as [seat [player [_ [_ H]]]].
  injection H as <-. rewrite !board_modifyPlayer.
  destruct (find _ _); [|now injection H1 as <-].
  apply withPlayer_inv in H1. destruct H1 as [seat1 [player1 [_ [_ H1]]]].
  injection H1 as <-. now rewrite !board_modifyPlayer.
Qed.

Lemma playKnightCard_board s playerId loc target u s' :
  DevelopmentCardManager.playKnightCard s playerId loc target u = Return s' ->
  GameState.board s'
  = GameBoard.set_tiles
      (Map.update
         (Map.updateAll (GameBoard.tiles (GameState.board s))
                        (Tile.set_hasRobber false))
         (BoardGenerator.coordToKey loc) (Tile.set_hasRobber true))
      (GameBoard.set_robberLocation loc (GameState.board s)).
Proof.
  unfold DevelopmentCardManager.playKnightCard. intros H.
  apply bind_Return_inv in H. destruct H as [[] [_ H]].
  apply withPlayer_inv in H. destruct H as [seat [player [_ [_ H]]]].
  cbv zeta in H.
  match type of H with
  | context [ResourceManager.stealRandomResource _ _ ?st _] =>
      assert (K : GameState.board s' = GameState.board st)
  end.
  { destruct target as [t|].
    - destruct (_ && _).
      + now apply stealRandomResource_board in H.
      + now apply privateUpdateLargestArmy_board in H.
    - now apply privateUpdateLargestArmy_board in H. }
  rewrite K. destruct s as [? ? ? ? board ? ? ? ?]. destruct board. reflexivity.
Qed.

(** X29: a knight played onto a hex of the board keeps the robber on
    exactly one tile.  That the hex is a tile is a hypothesis here:
    [playKnightCard] does not check it, where [moveRobber] does. *)
Lemma knight_on_board_keeps_one_robber s playerId loc target u s' :
  NoDup (Map.keys (GameBoard.tiles (GameState.board s))) ->
  Map.has (GameBoard.tiles (GameState.board s)) (BoardGenerator.coordToKey loc) = true ->
  DevelopmentCardManager.playKnightCard s playerId loc target u = Return s' ->
  robberMarked (GameState.board s') /\
  List.length (robberTiles s') = 1%nat.
Proof.
  intros Hnd Hhas H. pose proof (playKnightCard_board _ _ _ _ _ _ H) as Hb.
  set (new := BoardGenerator.coordToKey loc) in *.
  set (tiles := GameBoard.tiles (GameState.board s)) in *.
  assert (Hkeys : Map.keys (Map.updateAll tiles (Tile.set_hasRobber false))
                  = Map.keys tiles).
  { unfold Map.updateAll, Map.keys. rewrite map_map. reflexivity. }
  assert (Hnd1 : NoDup (Map.keys (Map.updateAll tiles (Tile.set_hasRobber false))))
    by now rewrite Hkeys.
  assert (Htiles' : GameBoard.tiles (GameState.board s')
                    = Map.update (Map.updateAll tiles (Tile.set_hasRobber false))
                                 new (Tile.set_hasRobber true))
    by now rewrite Hb.
  assert (Hloc' : GameBoard.robberLocation (GameState.board s') = loc)
    by now rewrite Hb.
  assert (Hmarked : robberMarked (GameState.board s')).
  { split.
    - now rewrite Htiles', Map_keys_update.
    - rewrite Htiles', Hloc'. fold new.
      rewrite (Map_update_as_map _ new _ Hnd1). unfold Map.updateAll.
      rewrite map_map. intros k tile Hin. apply in_map_iff in Hin.
      destruct Hin as [[k0 t0] [E Hin]]. simpl in E.
      destruct (String.eqb_spec k0 new) as [->|Hnn]; injection E as <- <-; simpl.
      + tauto.
      + split; [discriminate | intros; contradiction]. }
  split; [assumption|].
  destruct Hmarked as [Hnd' Hflag']. unfold robberTiles.
  apply one_flag_per_key with (key := BoardGenerator.coordToKey
                                        (GameBoard.robberLocation (GameState.board s')));
    try assumption.
  rewrite Htiles', Map_keys_update, Hkeys, Hloc'. fold new.
  unfold Map.has in Hhas. fold tiles in Hhas.
  destruct (Map.get tiles new) as [t|] eqn:Hget; [|discriminate].
  apply Map_get_In_entry in Hget. apply in_map_iff. now exists (new, t).
Qed.

Section AwardKeeps.
Context {B : Type} (g : Player -> B).
Variable holds : Player -> bool.
Variable setHolds : bool -> Player -> Player.
Hypothesis g_setHolds : forall b p, g (setHolds b p) = g p.
Hypothesis g_victoryPoints : forall v p, g (Player.set_victoryPoints v p) = g p.

Lemma flag_write_keeps (b : bool) (delta : Z) s seat :
  List.map g
    (GameState.players
       (GameState.modifyPlayer seat
          (fun p => Player.set_victoryPoints (Player.victoryPoints p + delta) p)
          (GameState.modifyPlayer seat (setHolds b) s)))
  = List.map g (GameState.players s) /\
  GameState.board
    (GameState.modifyPlayer seat
       (fun p => Player.set_victoryPoints (Player.victoryPoints p + delta) p)
       (GameState.modifyPlayer seat (setHolds b) s))
  = GameState.board s.
Proof.
  split.
  - rewrite !players_modifyPlayer, modify_nth_compose. apply map_modify_nth.
    intros p. now rewrite g_victoryPoints, g_setHolds.
  - now rewrite !board_modifyPlayer.
Qed.

Lemma award_keeps (minimum : Z) (scores : list (string * Z)) s s' :
  VictoryManager.award holds setHolds minimum scores s = Return s' ->
  List.map g (GameState.players s') = List.map g (GameState.players s) /\
  GameState.board s' = GameState.board s.
Proof.
  unfold VictoryManager.award. intros H.
  destruct (List.filter _ scores) as [|v0 valid'].
  { injection H as <-. unfold VictoryManager.revokeAll. destruct s; simpl.
    split; [|reflexivity]. rewrite map_map. apply map_ext. intros p.
    destruct (holds p); [|reflexivity].
    now rewrite g_victoryPoints, g_setHolds. }
  cbv zeta in H.
  destruct (List.filter _ (VictoryManager.sortDescending _)) as [|winner [|second rest]];
    destruct (List.find holds (GameState.players s)) as [incumbent|];
    try (injection H as <-; now split).
  - cbn [existsb negb] in H.
    apply withPlayer_inv in H. destruct H as [seat [p [_ [_ H]]]].
    injection H as <-. apply (flag_write_keeps false (-2)).
  - destruct (negb _); [|injection H as <-; now split].
    apply bind_Return_inv in H. destruct H as [s1 [H1 H]].
    apply withPlayer_inv in H1. destruct H1 as [seat1 [p1 [_ [_ H1]]]].
    apply withPlayer_inv in H. destruct H as [seat [p [_ [_ H]]]].
    injection H1 as <-. injection H as <-.
    destruct (flag_write_keeps false (-2) s seat1) as [K1 K2].
    destruct (flag_write_keeps true 2
                (VictoryManager.revoke setHolds seat1 s) seat) as [K3 K4].
    split; [etransitivity; [exact K3 | exact K1]
           | etransitivity; [exact K4 | exact K2]].
  - apply withPlayer_inv in H. destruct H as [seat [p [_ [_ H]]]].
    injection H as <-. apply (flag_write_keeps true 2).
  - destruct (negb _); [|injection H as <-; now split].
    apply withPlayer_inv in H. destruct H as [seat [p [_ [_ H]]]].
    injection H as <-. apply (flag_write_keeps false (-2)).
Qed.
End AwardKeeps.







Lemma ids_of_bonusView players players' :
  List.map bonusView players' = List.map bonusView players ->
  List.map Player.id players' = List.map Player.id players.
Proof.
  intros H. apply (f_equal (List.map fst)) in H.
  now rewrite !map_map in H.
Qed.


Lemma processAction_Success_inv gameState action draws final :
  CatanRuleEngine.processAction gameState action draws = Success final ->
  exists handled crowned armed,
    CatanRuleEngine.dispatch gameState action draws = Some (Return handled) /\
    VictoryManager.updateLongestRoad handled = Return crowned /\
    VictoryManager.updateLargestArmy crowned = Return armed /\
    GameState.players final = GameState.players armed /\
    GameState.board final = GameState.board armed.
Proof.
  unfold CatanRuleEngine.processAction, CatanRuleEngine.tryProcessAction.
  destruct (CatanRuleEngine.dispatch gameState action draws) as [[handled|e h]|];
    [|discriminate|discriminate].
  cbn [bind].
  destruct (VictoryManager.updateLongestRoad handled) as [crowned|e h] eqn:Hc;
    [|discriminate]. cbn [bind].
  destruct (VictoryManager.updateLargestArmy crowned) as [armed|e h] eqn:Ha;
    [|discriminate]. cbn [bind].
  intros H. exists handled, crowned, armed.
  repeat split; try reflexivity; try assumption;
    destruct (VictoryManager.checkGameEnd armed); cbv beta iota in H;
    injection H as <-; now destruct armed.
Qed.


(** ** The theorems at work on example states *)


Lemma standardBoard_tilesKeyed :
  tilesKeyedByCoordinate (GameBoard.tiles BoardGenerator.generateStandardBoard).
Proof. unfold tilesKeyedByCoordinate. vm_compute. repeat constructor. Qed.

Lemma standardBoard_standardPorts :
  standardPorts BoardGenerator.generateStandardBoard.
Proof. unfold standardPorts, standardPort. vm_compute. repeat constructor. Qed.

Lemma distributeResources_production_witness :
  tilesKeyedByCoordinate (GameBoard.tiles (GameState.board productionExample)) /\
  (ResourceManager.distributeResources productionExample 7 = productionExample /\
   (forall (index : nat) (k : ResourceType) (tile : Tile),
      tileCredit productionExample 3 index k (Tile.set_hasRobber true tile) = 0) /\
   (forall (index : nat) (k : ResourceType),
      handAt (GameState.players
                (ResourceManager.distributeResources productionExample 3)) index k
      = handAt (GameState.players productionExample) index k
        + (if 3 =? 7 then 0 else production productionExample 3 index k))) /\
  production productionExample 3 0 Wheat = 2.
Proof.
  assert (H : tilesKeyedByCoordinate
                (GameBoard.tiles (GameState.board productionExample))).
  { unfold tilesKeyedByCoordinate. vm_compute. repeat constructor. }
  split; [exact H|].
  split; [exact (distributeResources_production productionExample 3 H)|].
  vm_compute. reflexivity.
Defined.

Lemma player_trade_ignores_counterpart_hand_witness :
  TradeOffer.toPlayerId tradeExampleOffer = Some "player2" /\
  "player2" <> "" /\
  findPlayer tradeExample (TradeOffer.fromPlayerId tradeExampleOffer)
  = Some (examplePlayer "player1" "red" (Resources.mk 1 0 0 0 0) []) /\
  findPlayer tradeExample "player2"
  = Some (examplePlayer "player2" "blue" (Resources.mk 0 0 0 0 0) []) /\
  ResourceManager.hasResources (Resources.mk 1 0 0 0 0)
    (TradeOffer.offering tradeExampleOffer) = true /\
  ResourceManager.hasResources (Resources.mk 0 0 0 0 0)
    (TradeOffer.requesting tradeExampleOffer) = false /\
  exists (newState : GameState) (seat : nat),
    TradingManager.validatePlayerTrade tradeExample tradeExampleOffer = Valid /\
    TradingManager.executeTrade tradeExample tradeExampleOffer = Return newState /\
    findPlayerIndex tradeExample "player2" = Some seat.
Proof.
  assert (H1 : TradeOffer.toPlayerId tradeExampleOffer = Some "player2")
    by reflexivity.
  assert (H2 : "player2" <> "") by discriminate.
  assert (H3 : findPlayer tradeExample (TradeOffer.fromPlayerId tradeExampleOffer)
               = Some (examplePlayer "player1" "red" (Resources.mk 1 0 0 0 0) []))
    by reflexivity.
  assert (H4 : findPlayer tradeExample "player2"
               = Some (examplePlayer "player2" "blue" (Resources.mk 0 0 0 0 0) []))
    by reflexivity.
  assert (H5 : ResourceManager.hasResources
                 (Player.resources
                    (examplePlayer "player1" "red" (Resources.mk 1 0 0 0 0) []))
                 (TradeOffer.offering tradeExampleOffer) = true) by reflexivity.
  split; [exact H1|]. split; [exact H2|]. split; [exact H3|]. split; [exact H4|].
  split; [exact H5|]. split; [reflexivity|].
  destruct (player_trade_ignores_counterpart_hand tradeExample tradeExampleOffer
              "player2" _ _ H1 H2 H3 H4 H5)
    as [[newState [seat [Hv [He [Hs _]]]]] _].
  now exists newState, seat.
Defined.

Lemma setup_round_2_start_and_free_settlement_witness :
  GameState.phase setupExample = SETUP_ROUND_1 /\
  CatanRuleEngine.handleEndTurn setupExample (Action.mk END_TURN "player2")
  = Return setupEntered /\
  GameState.phase setupEntered = SETUP_ROUND_2 /\
  GameState.players setupEntered <> [] /\
  GameState.currentPlayerIndex setupEntered
  = (List.length (GameState.players setupEntered) - 1)%nat.
Proof.
  assert (H1 : GameState.phase setupExample = SETUP_ROUND_1) by reflexivity.
  assert (H2 : CatanRuleEngine.handleEndTurn setupExample
                 (Action.mk END_TURN "player2") = Return setupEntered)
    by (vm_compute; reflexivity).
  assert (H3 : GameState.phase setupEntered = SETUP_ROUND_2) by reflexivity.
  split; [exact H1|]. split; [exact H2|]. split; [exact H3|].
  destruct (setup_round_2_start_and_free_settlement setupExample
              (Action.mk END_TURN "player2") setupEntered H1 H2 H3)
    as [Hne [Hidx _]].
  split; [exact Hne | exact Hidx].
Defined.


(** * Further properties of the engine *)

(** * The board generator's keys and ids *)

Lemma lacks_app sep a b :
  lacks sep (a ++ b) = lacks sep a && lacks sep b.
Proof.
  induction a as [|c a IH]; simpl; [reflexivity|].
  now rewrite IH, andb_assoc.
Qed.

Lemma append_assoc (a b c : string) : (a ++ b) ++ c = a ++ (b ++ c).
Proof. induction a as [|x a IH]; simpl; [reflexivity | now rewrite IH]. Qed.

Lemma append_empty_r (a : string) : a ++ "" = a.
Proof. induction a as [|x a IH]; simpl; [reflexivity | now rewrite IH]. Qed.

Lemma split_aux_lacks sep acc s :
  lacks sep s = true ->
  BoardGenerator.split_aux sep acc s = [acc ++ s].
Proof.
  revert acc. induction s as [|c s IH]; simpl; intros acc H.
  - now rewrite append_empty_r.
  - apply andb_prop in H. destruct H as [Hc Hs].
    destruct (Ascii.eqb c sep); [discriminate|].
    rewrite IH by assumption. now rewrite append_assoc.
Qed.

Lemma split_aux_app sep acc a b :
  lacks sep a = true ->
  BoardGenerator.split_aux sep acc (a ++ String sep b)
  = (acc ++ a) :: BoardGenerator.split_aux sep "" b.
Proof.
  revert acc. induction a as [|c a IH]; simpl; intros acc H.
  - now rewrite Ascii.eqb_refl, append_empty_r.
  - apply andb_prop in H. destruct H as [Hc Hs].
    destruct (Ascii.eqb c sep); [discriminate|].
    rewrite IH by assumption. now rewrite append_assoc.
Qed.

Lemma digits_lack sep d :
  (sep <> "0" /\ sep <> "1" /\ sep <> "2" /\ sep <> "3" /\ sep <> "4" /\
   sep <> "5" /\ sep <> "6" /\ sep <> "7" /\ sep <> "8" /\ sep <> "9")%char ->
  lacks sep (NilEmpty.string_of_uint d) = true.
Proof.
  intros H. induction d; cbn [NilEmpty.string_of_uint lacks]; try reflexivity;
    rewrite IHd, andb_true_r;
    apply negb_true_iff, Ascii.eqb_neq; intros E; subst sep; intuition congruence.
Qed.

(** A printed number holds digits and at most a minus sign. *)
Lemma numberToString_lacks sep z :
  (sep = "," \/ sep = "_")%char ->
  lacks sep (BoardGenerator.numberToString z) = true.
Proof.
  intros Hsep.
  assert (Hd : forall d, lacks sep (NilEmpty.string_of_uint d) = true).
  { intros d. apply digits_lack. destruct Hsep; subst sep;
      repeat split; discriminate. }
  assert (Hu : forall d, lacks sep (NilZero.string_of_uint d) = true).
  { intros d. destruct d; try apply (Hd (_ d)).
    simpl. destruct Hsep; subst sep; reflexivity. }
  unfold BoardGenerator.numberToString.
  destruct (Z.to_int z); simpl; [apply Hu|].
  rewrite Hu, andb_true_r. destruct Hsep; subst sep; reflexivity.
Qed.

(** [Number] reads back what [numberToString] printed. *)
Lemma Number_numberToString z :
  BoardGenerator.Number (BoardGenerator.numberToString z) = z.
Proof.
  unfold BoardGenerator.Number, BoardGenerator.numberToString.
  rewrite NilZero.isi.
  - apply DecimalZ.of_to.
  - destruct z; simpl; try discriminate.
    intros [= E]. now apply DecimalPos.Unsigned.to_uint_nonnil in E.
  - destruct z; simpl; try discriminate.
    intros [= E]. now apply DecimalPos.Unsigned.to_uint_nonnil in E.
Qed.

Lemma split_coordToKey coord :
  BoardGenerator.split "," (BoardGenerator.coordToKey coord)
  = [BoardGenerator.numberToString (HexCoordinate.q coord);
     BoardGenerator.numberToString (HexCoordinate.r coord)].
Proof.
  unfold BoardGenerator.split, BoardGenerator.coordToKey.
  change ("," ++ ?x) with (String "," x).
  rewrite split_aux_app by (apply numberToString_lacks; now left).
  rewrite split_aux_lacks by (apply numberToString_lacks; now left).
  reflexivity.
Qed.

Lemma keyToCoord_inverts coord :
  BoardGenerator.keyToCoord (BoardGenerator.coordToKey coord) = coord.
Proof.
  destruct coord as [q r]. unfold BoardGenerator.keyToCoord.
  rewrite split_coordToKey. simpl. now rewrite !Number_numberToString.
Qed.

Lemma coordToKey_injective coord1 coord2 :
  BoardGenerator.coordToKey coord1 = BoardGenerator.coordToKey coord2 ->
  coord1 = coord2.
Proof.
  intros E. rewrite <- (keyToCoord_inverts coord1), <- (keyToCoord_inverts coord2).
  now rewrite E.
Qed.

(** X1: [keyToCoord] undoes [coordToKey], so two hexes share a key only when
    they are the same hex. *)
Theorem keyToCoord_coordToKey :
  (forall coord : HexCoordinate,
     BoardGenerator.keyToCoord (BoardGenerator.coordToKey coord) = coord) /\
  (forall coord1 coord2 : HexCoordinate,
     BoardGenerator.coordToKey coord1 = BoardGenerator.coordToKey coord2 ->
     coord1 = coord2).
Proof. split; [exact keyToCoord_inverts | exact coordToKey_injective]. Qed.

Lemma coordToKey_lacks_underscore coord :
  lacks "_" (BoardGenerator.coordToKey coord) = true.
Proof.
  unfold BoardGenerator.coordToKey. rewrite !lacks_app.
  rewrite !numberToString_lacks by now right. reflexivity.
Qed.

Lemma parse_edge_string key1 key2 coord1 coord2 :
  key1 = BoardGenerator.coordToKey coord1 ->
  key2 = BoardGenerator.coordToKey coord2 ->
  BoardGenerator.parseEdgeId ("e_" ++ key1 ++ "_" ++ key2)
  = (BoardGenerator.intersectionToId coord1, BoardGenerator.intersectionToId coord2).
Proof.
  intros -> ->. unfold BoardGenerator.parseEdgeId, BoardGenerator.split.
  change ("e_" ++ ?x) with ("e" ++ String "_" x).
  rewrite split_aux_app by reflexivity.
  change ("_" ++ ?x) with (String "_" x).
  rewrite split_aux_app by apply coordToKey_lacks_underscore.
  rewrite split_aux_lacks by apply coordToKey_lacks_underscore.
  simpl. now rewrite !keyToCoord_inverts.
Qed.

Lemma parseEdgeId_createEdgeId (coord1 coord2 : HexCoordinate) :
  BoardGenerator.parseEdgeId (BoardGenerator.createEdgeId coord1 coord2)
  = (BoardGenerator.intersectionToId coord1,
     BoardGenerator.intersectionToId coord2) \/
  BoardGenerator.parseEdgeId (BoardGenerator.createEdgeId coord1 coord2)
  = (BoardGenerator.intersectionToId coord2,
     BoardGenerator.intersectionToId coord1).
Proof.
  unfold BoardGenerator.createEdgeId, String.ltb. cbv zeta.
  destruct (String.compare (BoardGenerator.coordToKey coord1)
                           (BoardGenerator.coordToKey coord2)) eqn:E; simpl.
  - right. now apply parse_edge_string.
  - left. now apply parse_edge_string.
  - right. now apply parse_edge_string.
Qed.

Lemma createEdgeId_symmetric (coord1 coord2 : HexCoordinate) :
  BoardGenerator.createEdgeId coord1 coord2
  = BoardGenerator.createEdgeId coord2 coord1.
Proof.
  unfold BoardGenerator.createEdgeId, String.ltb. cbv zeta.
  rewrite (String.compare_antisym (BoardGenerator.coordToKey coord2)).
  destruct (String.compare (BoardGenerator.coordToKey coord1)
                           (BoardGenerator.coordToKey coord2)) eqn:E; simpl;
    try reflexivity.
  apply String.compare_eq_iff in E. now rewrite E.
Qed.

(** X2: an edge id does not depend on the order its two ends are given in,
    and [parseEdgeId] reads the ids of these two ends back from it. *)
Theorem createEdgeId_parseEdgeId (coord1 coord2 : HexCoordinate) :
  BoardGenerator.createEdgeId coord1 coord2
  = BoardGenerator.createEdgeId coord2 coord1 /\
  (BoardGenerator.parseEdgeId (BoardGenerator.createEdgeId coord1 coord2)
   = (BoardGenerator.intersectionToId coord1,
      BoardGenerator.intersectionToId coord2) \/
   BoardGenerator.parseEdgeId (BoardGenerator.createEdgeId coord1 coord2)
   = (BoardGenerator.intersectionToId coord2,
      BoardGenerator.intersectionToId coord1)).
Proof.
  split; [apply createEdgeId_symmetric | apply parseEdgeId_createEdgeId].
Qed.

Lemma distanceNumerator_even coord1 coord2 :
  BoardGenerator.distanceNumerator coord1 coord2
  = 2 * BoardGenerator.getDistance coord1 coord2.
Proof.
  unfold BoardGenerator.getDistance, BoardGenerator.distanceNumerator.
  destruct coord1 as [q1 r1], coord2 as [q2 r2]; cbn [HexCoordinate.q HexCoordinate.r].
  destruct (Z.abs_spec (q1 - q2)) as [[? Ea]|[? Ea]],
           (Z.abs_spec (q1 + r1 - q2 - r2)) as [[? Eb]|[? Eb]],
           (Z.abs_spec (r1 - r2)) as [[? Ec]|[? Ec]];
    rewrite Ea, Eb, Ec;
    match goal with
    | |- ?n = _ =>
        let k := fresh "k" in
        let Hk := fresh "Hk" in
        first
          [ assert (Hk : n = 2 * (q1 + r1 - q2 - r2)) by lia
          | assert (Hk : n = 2 * (q1 - q2)) by lia
          | assert (Hk : n = 2 * (r1 - r2)) by lia
          | assert (Hk : n = 2 * (q2 + r2 - q1 - r1)) by lia
          | assert (Hk : n = 2 * (q2 - q1)) by lia
          | assert (Hk : n = 2 * (r2 - r1)) by lia ];
        rewrite Hk, (Z.mul_comm 2), Z.div_mul by lia; lia
    end.
Qed.

Lemma HexCoordinate_eq (a b : HexCoordinate) :
  HexCoordinate.q a = HexCoordinate.q b ->
  HexCoordinate.r a = HexCoordinate.r b -> a = b.
Proof. destruct a, b; simpl; congruence. Qed.

(** X3: [getDistance] is a whole number and a metric on the hexes, and the
    hexes [getNeighbors] lists are exactly those at distance one. *)
Theorem getDistance_metric (a b c : HexCoordinate) :
  BoardGenerator.distanceNumerator a b = 2 * BoardGenerator.getDistance a b /\
  BoardGenerator.getDistance a b = BoardGenerator.getDistance b a /\
  (BoardGenerator.getDistance a b = 0 <-> a = b) /\
  BoardGenerator.getDistance a c
    <= BoardGenerator.getDistance a b + BoardGenerator.getDistance b c /\
  (In b (BoardGenerator.getNeighbors a) <-> BoardGenerator.getDistance a b = 1).
Proof.
  pose proof (distanceNumerator_even a b) as Hab.
  pose proof (distanceNumerator_even b a) as Hba.
  pose proof (distanceNumerator_even a c) as Hac.
  pose proof (distanceNumerator_even b c) as Hbc.
  unfold BoardGenerator.distanceNumerator in *.
  repeat split.
  - exact Hab.
  - lia.
  - intros H0. apply HexCoordinate_eq; lia.
  - intros ->. lia.
  - lia.
  - unfold BoardGenerator.getNeighbors. cbn [In].
    intros [<-|[<-|[<-|[<-|[<-|[<-|[]]]]]]];
      cbn [HexCoordinate.q HexCoordinate.r] in Hab; lia.
  - intros H1. unfold BoardGenerator.getNeighbors. cbn [In].
    destruct a as [q1 r1], b as [q2 r2];
      cbn [HexCoordinate.q HexCoordinate.r] in *.
    clear Hba Hac Hbc. rewrite H1 in Hab.
    destruct (Z.abs_spec (q1 - q2)) as [[? Ea]|[? Ea]],
             (Z.abs_spec (q1 + r1 - q2 - r2)) as [[? Eb]|[? Eb]],
             (Z.abs_spec (r1 - r2)) as [[? Ec]|[? Ec]];
      rewrite Ea, Eb, Ec in Hab; clear Ea Eb Ec H1;
      (assert (Hq : q2 = q1 - 1 \/ q2 = q1 \/ q2 = q1 + 1) by lia);
      (assert (Hr : r2 = r1 - 1 \/ r2 = r1 \/ r2 = r1 + 1) by lia);
      destruct Hq as [-> | [-> | ->]], Hr as [-> | [-> | ->]];
      try lia; auto 10.
Qed.

Lemma Map_get_set {V} (m : Map.t V) k v k' :
  Map.get (Map.set m k v) k' = if String.eqb k k' then Some v else Map.get m k'.
Proof.
  induction m as [|[k0 v0] m IH]; simpl.
  - reflexivity.
  - destruct (String.eqb_spec k0 k) as [->|Hne]; simpl.
    + destruct (String.eqb_spec k k'); reflexivity.
    + rewrite IH. destruct (String.eqb_spec k0 k') as [->|Hne'];
        [|reflexivity].
      destruct (String.eqb_spec k k'); [congruence | reflexivity].
Qed.

Section FillByKey.
Context {K V : Type} (key : K -> string) (make : K -> V).
Hypothesis key_injective : forall a b, key a = key b -> a = b.

Lemma fillStep_made m x :
  madeByKey key make m -> madeByKey key make (fillStep key make m x).
Proof.
  unfold fillStep, Map.has. intros Hm x' v'.
  destruct (Map.get m (key x)) eqn:E; [apply Hm|].
  rewrite Map_get_set.
  destruct (String.eqb_spec (key x) (key x')) as [Ek|]; [|apply Hm].
  apply key_injective in Ek. subst x'. now intros [= <-].
Qed.

Lemma fillStep_has m x k' :
  Map.has m k' = true -> Map.has (fillStep key make m x) k' = true.
Proof.
  unfold fillStep, Map.has. intros H.
  destruct (Map.get m (key x)) eqn:E; [assumption|].
  rewrite Map_get_set. now destruct (String.eqb (key x) k').
Qed.

Lemma fillStep_adds m x : Map.has (fillStep key make m x) (key x) = true.
Proof.
  unfold fillStep, Map.has. destruct (Map.get m (key x)) eqn:E.
  - now rewrite E.
  - now rewrite Map_get_set, String.eqb_refl.
Qed.

Lemma fill_made items : forall m,
  madeByKey key make m ->
  madeByKey key make (fold_left (fillStep key make) items m).
Proof.
  induction items as [|x items IH]; simpl; intros m Hm; [assumption|].
  apply IH. now apply fillStep_made.
Qed.

Lemma fill_has items k' : forall m,
  Map.has m k' = true ->
  Map.has (fold_left (fillStep key make) items m) k' = true.
Proof.
  induction items as [|x items IH]; simpl; intros m Hm; [assumption|].
  apply IH. now apply fillStep_has.
Qed.

Lemma fill_adds items x' : forall m,
  In x' items ->
  Map.has (fold_left (fillStep key make) items m) (key x') = true.
Proof.
  induction items as [|x items IH]; simpl; intros m Hin; [contradiction|].
  destruct Hin as [->|Hin].
  - apply fill_has, fillStep_adds.
  - now apply IH.
Qed.

(** Every item ends up stored, under its key, with the value made for it. *)
Lemma fill_get items x :
  In x items ->
  Map.get (fold_left (fillStep key make) items []) (key x) = Some (make x).
Proof.
  intros Hin.
  pose proof (fill_adds items x [] Hin) as Hhas.
  assert (Hmade : madeByKey key make (fold_left (fillStep key make) items []))
    by (apply fill_made; intros ? ? [=]).
  unfold Map.has in Hhas.
  destruct (Map.get _ (key x)) eqn:E; [|discriminate].
  now rewrite (Hmade _ _ E).
Qed.
End FillByKey.

Lemma fold_left_flat {A B C} (f : A -> C -> A) (g : B -> list C) (l : list B) :
  forall a,
  fold_left (fun acc b => fold_left f (g b) acc) l a
  = fold_left f (flat_map g l) a.
Proof.
  induction l as [|b l IH]; simpl; intros a; [reflexivity|].
  now rewrite fold_left_app, IH.
Qed.

Lemma createEdges_fill intersections :
  BoardGenerator.createEdges intersections
  = fold_left (fillStep (fun edgeId => edgeId) makeEdge)
      (flat_map Intersection.edges (Map.values intersections)) [].
Proof.
  unfold BoardGenerator.createEdges.
  now rewrite <- (fold_left_flat (fillStep (fun edgeId => edgeId) makeEdge)
                                 Intersection.edges).
Qed.

Lemma createIntersections_fill tiles :
  BoardGenerator.createIntersections tiles
  = fold_left (fillStep BoardGenerator.intersectionToId (makeIntersection tiles))
      (flat_map (fun tile => BoardGenerator.getHexIntersections (Tile.coordinate tile))
                (Map.values tiles)) [].
Proof.
  unfold BoardGenerator.createIntersections.
  now rewrite <- (fold_left_flat
                    (fillStep BoardGenerator.intersectionToId (makeIntersection tiles))
                    (fun tile => BoardGenerator.getHexIntersections (Tile.coordinate tile))).
Qed.

Lemma intersectionToId_injective a b :
  BoardGenerator.intersectionToId a = BoardGenerator.intersectionToId b -> a = b.
Proof.
  unfold BoardGenerator.intersectionToId. intros E.
  apply coordToKey_injective. now injection E.
Qed.

(** X4: whatever the tiles, the generator stores every corner of every tile
    as an intersection under the id of the corner, without a building, and
    every edge id an intersection lists as an edge under that id, without a
    road and with the two ends parsed from the id. *)
Theorem createIntersectionsAndEdges_complete (tiles : Map.t Tile) :
  (forall tile corner,
     In tile (Map.values tiles) ->
     In corner (BoardGenerator.getHexIntersections (Tile.coordinate tile)) ->
     Map.get (fst (BoardGenerator.createIntersectionsAndEdges tiles))
             (BoardGenerator.intersectionToId corner)
     = Some (Intersection.mk (BoardGenerator.intersectionToId corner)
               (BoardGenerator.getAdjacentHexes corner tiles)
               (BoardGenerator.getIntersectionEdges corner)
               None
               (BoardGenerator.getPortForIntersection corner))) /\
  (forall intersection edgeId,
     In intersection
        (Map.values (fst (BoardGenerator.createIntersectionsAndEdges tiles))) ->
     In edgeId (Intersection.edges intersection) ->
     Map.get (snd (BoardGenerator.createIntersectionsAndEdges tiles)) edgeId
     = Some (Edge.mk edgeId (BoardGenerator.parseEdgeId edgeId) None)).
Proof.
  unfold BoardGenerator.createIntersectionsAndEdges. cbn [fst snd]. split.
  - intros tile corner Htile Hcorner. rewrite createIntersections_fill.
    apply (fill_get BoardGenerator.intersectionToId (makeIntersection tiles)
                    intersectionToId_injective).
    apply in_flat_map. now exists tile.
  - intros intersection edgeId Hx He. rewrite createEdges_fill.
    apply (fill_get (fun edgeId => edgeId) makeEdge (fun a b E => E)).
    apply in_flat_map. now exists intersection.
Qed.

(** * Hands: adding, subtracting, discarding, stealing *)

Lemma Resources_ext (a b : Resources) :
  (forall k, Resources.get a k = Resources.get b k) -> a = b.
Proof.
  intros H. destruct a, b.
  pose proof (H Wood). pose proof (H Brick). pose proof (H Wool).
  pose proof (H Wheat). pose proof (H Ore). simpl in *. congruence.
Qed.

Lemma getTotalResources_sum held :
  ResourceManager.getTotalResources held = sumOverKinds (Resources.get held).
Proof. now destruct held. Qed.

Lemma entries_In (x : PartialResources) k a :
  In (k, a) (PartialResources.entries x) <-> PartialResources.get x k = Some a.
Proof.
  unfold PartialResources.entries.
  destruct x as [[w|] [b|] [l|] [h|] [o|]]; destruct k; simpl;
    intuition congruence.
Qed.

Lemma hasResources_get held required :
  ResourceManager.hasResources held required = true <->
  forall k a, PartialResources.get required k = Some a -> a <= Resources.get held k.
Proof.
  unfold ResourceManager.hasResources. rewrite forallb_forall. split.
  - intros H k a Hk. apply entries_In in Hk. apply H in Hk. simpl in Hk. lia.
  - intros H [k a] Hin. apply entries_In in Hin. apply H in Hin. simpl. lia.
Qed.

Lemma get_subtract_positivePart held amounts k :
  Resources.get (ResourceManager.subtractResources held amounts) k
  = Z.max 0 (Resources.get held k - positivePart amounts k)
    \/ (positivePart amounts k = 0 /\
        Resources.get (ResourceManager.subtractResources held amounts) k
        = Resources.get held k).
Proof.
  rewrite get_subtractResources. unfold clampedSubtract, positivePart, amountOf.
  destruct (PartialResources.get amounts k) as [a|]; [|right; split; reflexivity].
  destruct (Z.gtb_spec a 0); [left; f_equal; lia | right; split; lia].
Qed.

Lemma get_add_positivePart held amounts k :
  Resources.get (ResourceManager.addResources held amounts) k
  = Resources.get held k + positivePart amounts k.
Proof.
  rewrite get_addResources. unfold credited, positivePart, amountOf.
  destruct (PartialResources.get amounts k) as [a|]; [|lia].
  destruct (Z.gtb_spec a 0); lia.
Qed.

Lemma get_subtract_exact held amounts k :
  ResourceManager.hasResources held amounts = true ->
  Resources.get (ResourceManager.subtractResources held amounts) k
  = Resources.get held k - positivePart amounts k.
Proof.
  intros H. rewrite get_subtractResources.
  unfold clampedSubtract, positivePart, amountOf.
  destruct (PartialResources.get amounts k) as [a|] eqn:E; [|lia].
  apply (proj1 (hasResources_get held amounts)) with (k := k) (a := a) in H;
    [|assumption].
  destruct (Z.gtb_spec a 0); lia.
Qed.

(** X5: hand arithmetic.  Subtracting from a hand without negative entries
    never produces one and never adds cards; taking an amount the hand holds
    and handing it back, or the other way round, restores the hand; adding
    raises the card count by the positive amounts. *)
Theorem subtract_add_resources (held : Resources) (amounts : PartialResources) :
  handNonnegative held ->
  (forall k,
     0 <= Resources.get (ResourceManager.subtractResources held amounts) k
       <= Resources.get held k) /\
  (ResourceManager.hasResources held amounts = true ->
   ResourceManager.addResources
     (ResourceManager.subtractResources held amounts) amounts = held) /\
  ResourceManager.subtractResources
    (ResourceManager.addResources held amounts) amounts = held /\
  ResourceManager.getTotalResources (ResourceManager.addResources held amounts)
  = ResourceManager.getTotalResources held + sumOverKinds (positivePart amounts).
Proof.
  intros Hnonneg. repeat split.
  - destruct (get_subtract_positivePart held amounts k) as [-> | [_ ->]];
      [lia | apply Hnonneg].
  - pose proof (Hnonneg k). unfold positivePart.
    destruct (get_subtract_positivePart held amounts k) as [-> | [_ ->]];
      unfold positivePart; lia.
  - intros Hhas. apply Resources_ext. intros k.
    rewrite get_add_positivePart, get_subtract_exact by assumption. lia.
  - apply Resources_ext. intros k. pose proof (Hnonneg k).
    destruct (get_subtract_positivePart
                (ResourceManager.addResources held amounts) amounts k)
      as [-> | [H0 ->]]; rewrite get_add_positivePart; lia.
  - rewrite !getTotalResources_sum. unfold sumOverKinds.
    rewrite !get_add_positivePart. lia.
Qed.

Lemma subtract_add_resources_witness :
  handNonnegative eightCards /\
  ResourceManager.addResources
    (ResourceManager.subtractResources eightCards fourOfThem) fourOfThem
  = eightCards.
Proof.
  assert (H : handNonnegative eightCards) by (intros k; destruct k; simpl; lia).
  split; [exact H|].
  apply (proj1 (proj2 (subtract_add_resources eightCards fourOfThem H))).
  reflexivity.
Defined.

Lemma discardAmount_sum toDiscard :
  fold_left (fun sum entry => sum + snd entry)
            (PartialResources.entries toDiscard) 0
  = sumOverKinds (amountOf toDiscard).
Proof.
  unfold PartialResources.entries, sumOverKinds, amountOf.
  destruct toDiscard as [[w|] [b|] [l|] [h|] [o|]]; simpl; lia.
Qed.

Lemma handAt_modify players seat f index k :
  handAt (modify_nth seat f players) index k
  = if Nat.eqb seat index
    then match nth_error players index with
         | Some p => Resources.get (Player.resources (f p)) k
         | None => 0
         end
    else handAt players index k.
Proof.
  unfold handAt. rewrite nth_error_modify_nth.
  destruct (Nat.eqb seat index); [|reflexivity].
  now destruct (nth_error players index).
Qed.

Lemma totalAt_hand players index :
  totalAt players index = sumOverKinds (handAt players index).
Proof.
  unfold totalAt, handAt, sumOverKinds.
  destruct (nth_error players index) as [p|]; [|reflexivity].
  now destruct (Player.resources p).
Qed.

(** X6: a discard that is accepted.  The player held more than seven cards,
    the amounts named add up to half the hand, rounded down, and the hand
    loses the positive amounts; nobody else's hand changes.  When no amount
    is negative the hand therefore shrinks by exactly that half. *)
Theorem discardResources_outcome (gameState : GameState) (playerId : string)
    (toDiscard : PartialResources) (newState : GameState) :
  ResourceManager.discardResources gameState playerId toDiscard = Return newState ->
  exists seat,
    seatOf (GameState.players gameState) playerId = Some seat /\
    7 < totalAt (GameState.players gameState) seat /\
    sumOverKinds (amountOf toDiscard)
    = totalAt (GameState.players gameState) seat / 2 /\
    (forall k,
       handAt (GameState.players newState) seat k
       = handAt (GameState.players gameState) seat k - positivePart toDiscard k) /\
    (forall index k,
       index <> seat ->
       handAt (GameState.players newState) index k
       = handAt (GameState.players gameState) index k) /\
    ((forall k, 0 <= amountOf toDiscard k) ->
     totalAt (GameState.players newState) seat
     = totalAt (GameState.players gameState) seat
       - totalAt (GameState.players gameState) seat / 2).
Proof.
  unfold ResourceManager.discardResources. intros H.
  destruct (findPlayerIndex gameState playerId) as [seat|] eqn:Hseat;
    [|discriminate].
  destruct (nth_error (GameState.players gameState) seat) as [player|] eqn:Hp;
    [|discriminate].
  destruct (Z.leb_spec (ResourceManager.getTotalResources (Player.resources player)) 7)
    as [|Htotal]; [discriminate|].
  destruct (ResourceManager.validateDiscardSelection _ _ _) eqn:Hvalid;
    [|discriminate].
  injection H as <-.
  unfold ResourceManager.validateDiscardSelection in Hvalid.
  destruct (ResourceManager.hasResources _ _) eqn:Hhas; [|discriminate].
  simpl in Hvalid. apply Z.eqb_eq in Hvalid. rewrite discardAmount_sum in Hvalid.
  assert (Hhand : forall k,
            handAt (GameState.players
                      (GameState.modifyPlayer seat
                         (fun p => Player.set_resources
                                     (ResourceManager.subtractResources
                                        (Player.resources player) toDiscard) p)
                         gameState)) seat k
            = handAt (GameState.players gameState) seat k - positivePart toDiscard k).
  { intros k. rewrite players_modifyPlayer, handAt_modify, Nat.eqb_refl, Hp.
    unfold handAt. rewrite Hp. cbn [Player.resources Player.set_resources].
    now apply get_subtract_exact. }
  assert (Htot : totalAt (GameState.players gameState) seat
                 = ResourceManager.getTotalResources (Player.resources player))
    by (unfold totalAt; now rewrite Hp).
  rewrite <- Htot in Htotal, Hvalid.
  exists seat. repeat split; try assumption.
  - intros index k Hne. rewrite players_modifyPlayer, handAt_modify.
    destruct (Nat.eqb_spec seat index); [congruence | reflexivity].
  - intros Hnonneg.
    rewrite <- Hvalid, !totalAt_hand. unfold sumOverKinds. rewrite !Hhand.
    assert (Hpos : forall k, positivePart toDiscard k = amountOf toDiscard k).
    { intros k. unfold positivePart. pose proof (Hnonneg k). lia. }
    rewrite !Hpos. lia.
Qed.

Lemma discardResources_outcome_witness :
  ResourceManager.discardResources discardExample "player1" fourOfThem
  = Return discardExampleAfter /\
  exists seat,
    seatOf (GameState.players discardExample) "player1" = Some seat /\
    totalAt (GameState.players discardExampleAfter) seat = 4.
Proof.
  assert (H : ResourceManager.discardResources discardExample "player1" fourOfThem
              = Return discardExampleAfter) by (vm_compute; reflexivity).
  split; [exact H|].
  destruct (discardResources_outcome _ _ _ _ H)
    as [seat [Hseat [_ [_ [_ [_ Hhalf]]]]]].
  exists seat. split; [exact Hseat|].
  rewrite Hhalf.
  - injection Hseat as <-. reflexivity.
  - intros k. destruct k; vm_compute; discriminate.
Defined.

Lemma availableResources_In resources k :
  In k (ResourceManager.availableResources resources)
  <-> 1 <= Resources.get resources k.
Proof.
  unfold ResourceManager.availableResources. rewrite in_flat_map. split.
  - intros [k' [_ Hin]]. apply repeat_spec in Hin as E. subst k'.
    destruct (Z.to_nat (Resources.get resources k)) eqn:En; [contradiction|].
    lia.
  - intros H. exists k. split; [destruct k; simpl; tauto|].
    destruct (Z.to_nat (Resources.get resources k)) eqn:En; [lia|].
    now left.
Qed.

Lemma stealRandomResource_card fromPlayerId toPlayerId gameState u newState
      victim thief fromPlayer first rest stolen :
  findPlayerIndex gameState fromPlayerId = Some victim ->
  findPlayerIndex gameState toPlayerId = Some thief ->
  nth_error (GameState.players gameState) victim = Some fromPlayer ->
  ResourceManager.availableResources (Player.resources fromPlayer) = first :: rest ->
  stolen = nth (u mod List.length (first :: rest)) (first :: rest) first ->
  ResourceManager.stealRandomResource fromPlayerId toPlayerId gameState u
  = Return newState ->
  newState
  = GameState.modifyPlayer thief
      (fun p => Player.set_resource stolen
                  (Resources.get (Player.resources p) stolen + 1) p)
      (GameState.modifyPlayer victim
         (fun p => Player.set_resource stolen
                     (Resources.get (Player.resources p) stolen - 1) p)
         gameState).
Proof.
  intros Hv Ht Hp Hav -> H. unfold ResourceManager.stealRandomResource in H.
  rewrite Hv, Ht, Hp in H. cbv zeta in H. rewrite Hav in H.
  cbv iota in H. injection H as H. symmetry. exact H.
Qed.

(** X7: a theft between two different players moves exactly one card, of a
    kind the victim holds, from the victim to the thief; it does nothing
    when the victim holds no card, and touches nobody else's hand. *)
Theorem stealRandomResource_moves_one_card (fromPlayerId toPlayerId : string)
    (gameState : GameState) (u : nat) (newState : GameState) :
  fromPlayerId <> toPlayerId ->
  ResourceManager.stealRandomResource fromPlayerId toPlayerId gameState u
  = Return newState ->
  exists victim thief,
    seatOf (GameState.players gameState) fromPlayerId = Some victim /\
    seatOf (GameState.players gameState) toPlayerId = Some thief /\
    victim <> thief /\
    (forall index k,
       index <> victim -> index <> thief ->
       handAt (GameState.players newState) index k
       = handAt (GameState.players gameState) index k) /\
    (((forall k, handAt (GameState.players gameState) victim k <= 0) /\
      newState = gameState) \/
     exists stolen,
       1 <= handAt (GameState.players gameState) victim stolen /\
       forall k,
         handAt (GameState.players newState) victim k
         = handAt (GameState.players gameState) victim k
           - (if ResourceType_eqb stolen k then 1 else 0) /\
         handAt (GameState.players newState) thief k
         = handAt (GameState.players gameState) thief k
           + (if ResourceType_eqb stolen k then 1 else 0)).
Proof.
  intros Hne H. pose proof H as H'.
  unfold ResourceManager.stealRandomResource in H'.
  destruct (findPlayerIndex gameState fromPlayerId) as [victim|] eqn:Hv;
    [|discriminate].
  destruct (findPlayerIndex gameState toPlayerId) as [thief|] eqn:Ht;
    [|discriminate].
  destruct (nth_error (GameState.players gameState) victim) as [fromPlayer|] eqn:Hp;
    [|discriminate].
  pose proof (seats_differ _ _ _ _ _ Hv Ht Hne) as Hseats.
  destruct (findIndex_Some _ _ _ Ht) as [toPlayer [Hq _]].
  exists victim, thief.
  destruct (ResourceManager.availableResources (Player.resources fromPlayer))
    as [|first rest] eqn:Hav.
  - injection H' as <-. repeat split; try assumption; try reflexivity.
    left. split; [|reflexivity]. intros k. unfold handAt. rewrite Hp.
    destruct (Z.le_gt_cases (Resources.get (Player.resources fromPlayer) k) 0)
      as [|Hpos]; [assumption|].
    assert (Hin : In k (ResourceManager.availableResources
                          (Player.resources fromPlayer)))
      by (apply availableResources_In; lia).
    rewrite Hav in Hin. contradiction.
  - clear H'.
    remember (nth (u mod List.length (first :: rest)) (first :: rest) first)
      as stolen eqn:Hstolen.
    rewrite (stealRandomResource_card _ _ _ _ _ _ _ _ _ _ _ Hv Ht Hp Hav Hstolen H).
    assert (Hin : 1 <= Resources.get (Player.resources fromPlayer) stolen).
    { apply availableResources_In. rewrite Hav, Hstolen.
      apply nth_In. apply Nat.mod_upper_bound. discriminate. }
    clear Hstolen H.
    repeat split; try assumption.
    + intros index k Hiv Hit.
      rewrite !players_modifyPlayer, !handAt_modify.
      destruct (Nat.eqb_spec thief index); [congruence|].
      destruct (Nat.eqb_spec victim index); [congruence | reflexivity].
    + right. exists stolen. split; [unfold handAt; now rewrite Hp|].
      intros k. rewrite !players_modifyPlayer, !handAt_modify.
      rewrite Nat.eqb_refl.
      destruct (Nat.eqb_spec thief victim); [congruence|].
      rewrite !nth_error_modify_nth.
      destruct (Nat.eqb_spec victim thief); [congruence|].
      rewrite Nat.eqb_refl, Hp, Hq. unfold handAt. rewrite Hp, Hq.
      cbn [option_map Player.set_resource Player.set_resources Player.resources].
      rewrite !Resources_get_set.
      destruct (ResourceType_eqb stolen k) eqn:Ek.
      * apply ResourceType_eqb_eq in Ek. subst k. split; lia.
      * split; lia.
Qed.

Lemma stealRandomResource_moves_one_card_witness :
  "player1" <> "player2" /\
  ResourceManager.stealRandomResource "player1" "player2" discardExample 3
  = Return stealExampleAfter /\
  exists victim thief,
    seatOf (GameState.players discardExample) "player1" = Some victim /\
    seatOf (GameState.players discardExample) "player2" = Some thief /\
    victim <> thief.
Proof.
  assert (Hne : "player1" <> "player2") by discriminate.
  assert (H : ResourceManager.stealRandomResource "player1" "player2"
                discardExample 3 = Return stealExampleAfter)
    by (vm_compute; reflexivity).
  split; [exact Hne|]. split; [exact H|].
  destruct (stealRandomResource_moves_one_card _ _ _ _ _ Hne H)
    as [victim [thief [Hv [Ht [Hd _]]]]].
  exists victim, thief. repeat split; assumption.
Defined.

(** * Building *)

Lemma Map_get_update {V} (m : Map.t V) k f k' :
  Map.get (Map.update m k f) k'
  = if String.eqb k k' then option_map f (Map.get m k') else Map.get m k'.
Proof.
  induction m as [|[k0 v0] m IH]; simpl.
  - now destruct (String.eqb k k').
  - destruct (String.eqb_spec k0 k) as [->|Hne]; simpl.
    + destruct (String.eqb_spec k k'); reflexivity.
    + rewrite IH. destruct (String.eqb_spec k0 k') as [->|Hne'];
        [|reflexivity].
      destruct (String.eqb_spec k k'); [congruence | reflexivity].
Qed.

Lemma includes_spec l x : includes l x = true <-> In x l.
Proof.
  unfold includes. rewrite existsb_exists. split.
  - intros [y [Hin E]]. apply String.eqb_eq in E. now subst.
  - intros H. exists x. split; [assumption | apply String.eqb_refl].
Qed.

(** [a.splice(a.indexOf(x), 1)] removes the first [x], and the last
    element when there is no [x]. *)
Lemma splice_indexOf_spec x l :
  (In x l ->
   exists before after,
     l = (before ++ x :: after)%list /\ ~ In x before /\
     splice_indexOf x l = (before ++ after)%list) /\
  (~ In x l -> splice_indexOf x l = removelast l).
Proof.
  induction l as [|y l [IHin IHout]].
  - split; [contradiction | reflexivity].
  - split.
    + intros Hin. cbn [splice_indexOf].
      destruct (String.eqb_spec y x) as [->|Hne].
      * exists [], l. repeat split. intros [].
      * destruct Hin as [|Hin]; [congruence|].
        rewrite (proj2 (includes_spec l x) Hin).
        destruct (IHin Hin) as [before [after [-> [Hnot ->]]]].
        exists (y :: before), after. repeat split.
        intros [|]; [congruence | contradiction].
    + intros Hnot. cbn [splice_indexOf].
      destruct (String.eqb_spec y x) as [->|Hne]; [elim Hnot; now left|].
      destruct (includes l x) eqn:E; [|reflexivity].
      apply includes_spec in E. elim Hnot. now right.
Qed.

Lemma nth_error_modify_same {A} (f : A -> A) (l : list A) i x :
  nth_error l i = Some x -> nth_error (modify_nth i f l) i = Some (f x).
Proof. intros H. now rewrite nth_error_modify_nth, Nat.eqb_refl, H. Qed.

Lemma nth_error_modify_other {A} (f : A -> A) (l : list A) i j :
  i <> j -> nth_error (modify_nth i f l) j = nth_error l j.
Proof.
  intros H. rewrite nth_error_modify_nth.
  destruct (Nat.eqb_spec i j); [congruence | reflexivity].
Qed.

Lemma players_modifyIntersection k f s :
  GameState.players (GameState.modifyIntersection k f s) = GameState.players s.
Proof. now destruct s. Qed.

Lemma players_modifyEdge k f s :
  GameState.players (GameState.modifyEdge k f s) = GameState.players s.
Proof. now destruct s. Qed.

Lemma board_modifyIntersection k f s :
  GameBoard.intersections (GameState.board (GameState.modifyIntersection k f s))
  = Map.update (GameBoard.intersections (GameState.board s)) k f.
Proof. now destruct s. Qed.

(** X8: an accepted city.  The intersection carried a settlement of the
    builder, who held two wheat and three ore and pays exactly these; the
    intersection now carries the builder's city, the ledger of cities gains
    the intersection and the builder one victory point.  From the ledger
    of settlements the first entry for the intersection is taken out, or,
    when the ledger does not list the intersection, its last entry. *)
Theorem buildCity_outcome (gameState : GameState)
    (playerId intersectionId : string) (newState : GameState) :
  BuildingManager.buildCity gameState playerId intersectionId = Return newState ->
  exists seat player player' intersection,
    seatOf (GameState.players gameState) playerId = Some seat /\
    nth_error (GameState.players gameState) seat = Some player /\
    nth_error (GameState.players newState) seat = Some player' /\
    Map.get (GameBoard.intersections (GameState.board gameState)) intersectionId
    = Some intersection /\
    Intersection.building intersection = Some (Building.mk Settlement playerId) /\
    Map.get (GameBoard.intersections (GameState.board newState)) intersectionId
    = Some (Intersection.set_building (Building.mk City playerId) intersection) /\
    (forall k,
       Resources.get (Player.resources player') k
       = Resources.get (Player.resources player) k
         - Resources.get BUILDING_COSTS.city k) /\
    Player.victoryPoints player' = Player.victoryPoints player + 1 /\
    Buildings.cities (Player.buildings player')
    = (Buildings.cities (Player.buildings player) ++ [intersectionId])%list /\
    Buildings.roads (Player.buildings player')
    = Buildings.roads (Player.buildings player) /\
    Buildings.settlements (Player.buildings player')
    = splice_indexOf intersectionId (Buildings.settlements (Player.buildings player)) /\
    (In intersectionId (Buildings.settlements (Player.buildings player)) ->
     exists before after,
       Buildings.settlements (Player.buildings player)
       = (before ++ intersectionId :: after)%list /\
       ~ In intersectionId before /\
       Buildings.settlements (Player.buildings player') = (before ++ after)%list) /\
    (~ In intersectionId (Buildings.settlements (Player.buildings player)) ->
     Buildings.settlements (Player.buildings player')
     = removelast (Buildings.settlements (Player.buildings player))) /\
    (forall index,
       index <> seat ->
       nth_error (GameState.players newState) index
       = nth_error (GameState.players gameState) index).
Proof.
  unfold BuildingManager.buildCity. intros H.
  apply bind_Return_inv in H. destruct H as [[] [Hcheck H]].
  apply check_inv in Hcheck.
  apply withPlayer_inv in H. destruct H as [seat [player [Hseat [Hp H]]]].
  injection H as <-.
  unfold BuildingManager.canBuildCity in Hcheck.
  rewrite (findPlayer_at_seat _ _ _ Hseat), Hp in Hcheck.
  destruct (ResourceManager.hasResources _ _) eqn:Hhas; [|discriminate].
  cbn [negb] in Hcheck.
  destruct (Map.get _ intersectionId) as [intersection|] eqn:Hx; [|discriminate].
  destruct (Intersection.building intersection) as [[[] owner]|] eqn:Hb;
    try discriminate.
  destruct (String.eqb_spec owner playerId) as [->|]; [|discriminate].
  set (f := fun p : Player =>
              Player.set_victoryPoints (Player.victoryPoints p + 1)
                (Player.set_buildings
                   (Buildings.mk (Buildings.roads (Player.buildings p))
                      (splice_indexOf intersectionId
                         (Buildings.settlements (Player.buildings p)))
                      (Buildings.cities (Player.buildings p) ++ [intersectionId]))
                   (Player.set_resources
                      (ResourceManager.subtractResources (Player.resources player)
                         (PartialResources.ofResources BUILDING_COSTS.city)) p))).
  assert (Hplayers :
            GameState.players
              (GameState.modifyPlayer seat
                 (fun p => Player.set_victoryPoints (Player.victoryPoints p + 1) p)
                 (GameState.modifyPlayer seat
                    (fun p =>
                       Player.set_buildings
                         (Buildings.mk (Buildings.roads (Player.buildings p))
                            (splice_indexOf intersectionId
                               (Buildings.settlements (Player.buildings p)))
                            (Buildings.cities (Player.buildings p) ++ [intersectionId]))
                         p)
                    (GameState.modifyIntersection intersectionId
                       (Intersection.set_building (Building.mk City playerId))
                       (GameState.modifyPlayer seat
                          (Player.set_resources
                             (ResourceManager.subtractResources
                                (Player.resources player)
                                (PartialResources.ofResources BUILDING_COSTS.city)))
                          gameState))))
            = modify_nth seat f (GameState.players gameState)).
  { rewrite !players_modifyPlayer, players_modifyIntersection,
      players_modifyPlayer, !modify_nth_compose. reflexivity. }
  exists seat, player, (f player), intersection.
  rewrite Hplayers.
  split; [exact Hseat|]. split; [exact Hp|].
  split; [now apply nth_error_modify_same|].
  split; [reflexivity|]. split; [exact Hb|].
  split.
  { rewrite !board_modifyPlayer, board_modifyIntersection, board_modifyPlayer.
    now rewrite Map_get_update, String.eqb_refl, Hx. }
  split.
  { intros k. subst f. cbn [Player.resources Player.set_victoryPoints
                            Player.set_buildings Player.set_resources].
    rewrite get_subtract_exact by assumption.
    unfold positivePart, amountOf. now destruct k. }
  split; [reflexivity|]. split; [reflexivity|]. split; [reflexivity|].
  split; [reflexivity|].
  split; [apply (proj1 (splice_indexOf_spec _ _))|].
  split; [apply (proj2 (splice_indexOf_spec _ _))|].
  intros index Hne. now apply nth_error_modify_other.
Qed.

Lemma buildCity_outcome_witness :
  BuildingManager.buildCity cityExample "player1" "i_1,0" = Return cityExampleAfter /\
  exists player',
    nth_error (GameState.players cityExampleAfter) 0 = Some player' /\
    Buildings.settlements (Player.buildings player') = ["i_0,-2"] /\
    Buildings.cities (Player.buildings player') = ["i_1,0"].
Proof.
  assert (H : BuildingManager.buildCity cityExample "player1" "i_1,0"
              = Return cityExampleAfter) by (vm_compute; reflexivity).
  split; [exact H|].
  destruct (buildCity_outcome _ _ _ _ H)
    as [seat [player [player' [x [Hseat [Hp [Hp' [_ [_ [_ [_ [_ [Hc [_ [Hs _]]]]]]]]]]]]]]].
  injection Hseat as <-. injection Hp as <-.
  exists player'. split; [exact Hp'|]. split; [exact Hs | exact Hc].
Defined.

Lemma find_modify_nth {A B} (g : A -> B) (pred : A -> bool) (f : A -> A)
    (l : list A) : forall i,
  (forall x, g (f x) = g x) -> (forall x, pred (f x) = pred x) ->
  option_map g (List.find pred (modify_nth i f l)) = option_map g (List.find pred l).
Proof.
  intros i Hg Hpred. revert i.
  induction l as [|x l IH]; intros i; [now destruct i|].
  destruct i; simpl.
  - rewrite Hpred. destruct (pred x); [simpl; now rewrite Hg | reflexivity].
  - destruct (pred x); [reflexivity | apply IH].
Qed.

Lemma findPlayer_set_buildings gameState seat buildings playerId :
  option_map Player.resources
    (findPlayer (GameState.modifyPlayer seat (Player.set_buildings buildings)
                                        gameState) playerId)
  = option_map Player.resources (findPlayer gameState playerId).
Proof.
  unfold findPlayer. rewrite players_modifyPlayer.
  apply find_modify_nth; intros p; reflexivity.
Qed.

(** X9: the three build checks do not read the builder's ledger of pieces:
    whatever roads, settlements and cities a player is recorded to have,
    the verdict is the same.  It cannot depend on how many pieces a player
    has already placed. *)
Theorem build_checks_ignore_ledger (gameState : GameState) (seat : nat)
    (buildings : Buildings) (playerId target : string) :
  BuildingManager.canBuildRoad
    (GameState.modifyPlayer seat (Player.set_buildings buildings) gameState)
    playerId target
  = BuildingManager.canBuildRoad gameState playerId target /\
  BuildingManager.canBuildSettlement
    (GameState.modifyPlayer seat (Player.set_buildings buildings) gameState)
    playerId target
  = BuildingManager.canBuildSettlement gameState playerId target /\
  BuildingManager.canBuildCity
    (GameState.modifyPlayer seat (Player.set_buildings buildings) gameState)
    playerId target
  = BuildingManager.canBuildCity gameState playerId target.
Proof.
  pose proof (findPlayer_set_buildings gameState seat buildings playerId) as E.
  unfold BuildingManager.canBuildRoad, BuildingManager.canBuildSettlement,
    BuildingManager.canBuildCity.
  destruct (findPlayer (GameState.modifyPlayer seat _ gameState) playerId)
    as [p'|], (findPlayer gameState playerId) as [p|];
    simpl in E; try discriminate; [|repeat split; reflexivity].
  injection E as ->.
  destruct gameState; repeat split; reflexivity.
Qed.

(** X10: an accepted road.  The edge exists, was free and is reached by a
    building or road of the builder; it now carries the builder's road and
    is appended to the ledger of roads.  The price of a road is taken from
    the hand in every phase, the setup rounds included, as far as the hand
    goes; outside the setup rounds the hand covers it. *)
Theorem buildRoad_outcome (gameState : GameState) (playerId edgeId : string)
    (newState : GameState) :
  BuildingManager.buildRoad gameState playerId edgeId = Return newState ->
  exists seat player player' edge,
    seatOf (GameState.players gameState) playerId = Some seat /\
    nth_error (GameState.players gameState) seat = Some player /\
    nth_error (GameState.players newState) seat = Some player' /\
    Map.get (GameBoard.edges (GameState.board gameState)) edgeId = Some edge /\
    Edge.road edge = None /\
    roadConnected gameState playerId edgeId = true /\
    Map.get (GameBoard.edges (GameState.board newState)) edgeId
    = Some (Edge.set_road (Road.mk playerId) edge) /\
    Buildings.roads (Player.buildings player')
    = (Buildings.roads (Player.buildings player) ++ [edgeId])%list /\
    (forall k,
       Resources.get (Player.resources player') k
       = clampedSubtract (Resources.get (Player.resources player) k)
                         (Some (Resources.get BUILDING_COSTS.road k))) /\
    (isSetupPhase (GameState.phase gameState) = false ->
     forall k,
       Resources.get (Player.resources player') k
       = Resources.get (Player.resources player) k
         - Resources.get BUILDING_COSTS.road k) /\
    (forall index,
       index <> seat ->
       nth_error (GameState.players newState) index
       = nth_error (GameState.players gameState) index).
Proof.
  unfold BuildingManager.buildRoad. intros H.
  apply bind_Return_inv in H. destruct H as [[] [Hcheck H]].
  apply check_inv in Hcheck.
  apply withPlayer_inv in H. destruct H as [seat [player [Hseat [Hp H]]]].
  injection H as <-.
  unfold BuildingManager.canBuildRoad in Hcheck.
  rewrite (findPlayer_at_seat _ _ _ Hseat), Hp in Hcheck.
  destruct (negb (isSetupPhase (GameState.phase gameState)) &&
            negb (ResourceManager.hasResources (Player.resources player)
                    (PartialResources.ofResources BUILDING_COSTS.road)))
    eqn:Hpay; [discriminate|].
  destruct (Map.get (GameBoard.edges (GameState.board gameState)) edgeId)
    as [edge|] eqn:He; [|discriminate].
  destruct (Edge.road edge) eqn:Hroad; [discriminate|].
  destruct (BuildingManager.isRoadConnected gameState playerId edgeId) eqn:Hconn;
    [|discriminate].
  set (f := fun p : Player =>
              Player.push_road edgeId
                (Player.set_resources
                   (ResourceManager.subtractResources (Player.resources player)
                      (PartialResources.ofResources BUILDING_COSTS.road)) p)).
  assert (Hplayers :
            GameState.players
              (GameState.modifyPlayer seat (Player.push_road edgeId)
                 (GameState.modifyEdge edgeId (Edge.set_road (Road.mk playerId))
                    (GameState.modifyPlayer seat
                       (Player.set_resources
                          (ResourceManager.subtractResources
                             (Player.resources player)
                             (PartialResources.ofResources BUILDING_COSTS.road)))
                       gameState)))
            = modify_nth seat f (GameState.players gameState)).
  { rewrite players_modifyPlayer, players_modifyEdge, players_modifyPlayer,
      modify_nth_compose. reflexivity. }
  exists seat, player, (f player), edge. rewrite Hplayers.
  split; [exact Hseat|]. split; [exact Hp|].
  split; [now apply nth_error_modify_same|].
  split; [reflexivity|]. split; [exact Hroad|]. split; [exact Hconn|].
  split.
  { destruct gameState as [? ? ? ? board ? ? ? ?].
    cbn [GameState.board GameState.modifyPlayer GameState.modifyEdge
         GameState.set_players GameState.set_board GameBoard.edges
         GameBoard.set_edges GameState.players] in *.
    now rewrite Map_get_update, String.eqb_refl, He. }
  split; [reflexivity|].
  split.
  { intros k. subst f.
    cbn [Player.resources Player.push_road Player.set_buildings
         Player.set_resources].
    rewrite get_subtractResources. now destruct k. }
  split.
  { intros Hphase k. rewrite Hphase in Hpay. cbn [negb andb] in Hpay.
    apply negb_false_iff in Hpay. subst f.
    cbn [Player.resources Player.push_road Player.set_buildings
         Player.set_resources].
    rewrite get_subtract_exact by assumption.
    unfold positivePart, amountOf. now destruct k. }
  intros index Hne. now apply nth_error_modify_other.
Qed.

Lemma buildRoad_outcome_witness :
  BuildingManager.buildRoad roadSetupExample "player1" "e_1,0_2,-1"
  = Return roadSetupExampleAfter /\
  exists player',
    nth_error (GameState.players roadSetupExampleAfter) 0 = Some player' /\
    Resources.get (Player.resources player') Wood = 0.
Proof.
  assert (H : BuildingManager.buildRoad roadSetupExample "player1" "e_1,0_2,-1"
              = Return roadSetupExampleAfter) by (vm_compute; reflexivity).
  split; [exact H|].
  destruct (buildRoad_outcome _ _ _ _ H)
    as [seat [player [player' [edge [Hseat [Hp [Hp' [_ [_ [_ [_ [_ [Hhand _]]]]]]]]]]]]].
  injection Hseat as <-. injection Hp as <-.
  exists player'. split; [exact Hp'|]. rewrite Hhand. reflexivity.
Defined.

Lemma createEdgeId_ends a b c d :
  BoardGenerator.createEdgeId a b = BoardGenerator.createEdgeId c d ->
  (a = c /\ b = d) \/ (a = d /\ b = c).
Proof.
  intros E.
  pose proof (parseEdgeId_createEdgeId a b) as Hab.
  pose proof (parseEdgeId_createEdgeId c d) as Hcd.
  rewrite E in Hab.
  destruct Hab as [Hab|Hab], Hcd as [Hcd|Hcd]; rewrite Hab in Hcd;
    pose proof (f_equal fst Hcd) as E1; pose proof (f_equal snd Hcd) as E2;
    cbn [fst snd] in E1, E2;
    apply intersectionToId_injective in E1, E2; subst; auto.
Qed.

(** X11: every edge the generator draws is listed by one of its two ends
    only: the intersection at [coord] lists its edges to the three
    [forwardNeighbours], and none of these lists the edge back. *)
Theorem edge_listed_by_one_end (coord : HexCoordinate) :
  BoardGenerator.getIntersectionEdges coord
  = List.map (BoardGenerator.createEdgeId coord) (forwardNeighbours coord) /\
  Forall
    (fun neighbour =>
       In (BoardGenerator.createEdgeId coord neighbour)
          (BoardGenerator.getIntersectionEdges coord) /\
       ~ In (BoardGenerator.createEdgeId coord neighbour)
            (BoardGenerator.getIntersectionEdges neighbour))
    (forwardNeighbours coord).
Proof.
  split; [reflexivity|].
  assert (Hback : forall neighbour,
            In neighbour (forwardNeighbours coord) ->
            ~ In (BoardGenerator.createEdgeId coord neighbour)
                 (BoardGenerator.getIntersectionEdges neighbour)).
  { intros neighbour Hn Hin.
    change (BoardGenerator.getIntersectionEdges neighbour)
      with (List.map (BoardGenerator.createEdgeId neighbour)
                     (forwardNeighbours neighbour)) in Hin.
    apply in_map_iff in Hin. destruct Hin as [far [E Hfar]].
    apply createEdgeId_ends in E.
    destruct coord as [q r]. unfold forwardNeighbours in Hn, Hfar.
    cbn [HexCoordinate.q HexCoordinate.r In] in Hn.
    destruct Hn as [<-|[<-|[<-|[]]]];
      cbn [HexCoordinate.q HexCoordinate.r In] in Hfar;
      destruct Hfar as [<-|[<-|[<-|[]]]];
      destruct E as [[E1 E2]|[E1 E2]];
      try (injection E1; lia); try (injection E2; lia). }
  apply Forall_forall. intros neighbour Hn. split; [|now apply Hback].
  change (BoardGenerator.getIntersectionEdges coord)
    with (List.map (BoardGenerator.createEdgeId coord) (forwardNeighbours coord)).
  now apply in_map.
Qed.

(** * Development cards *)

Lemma count_overwrite (deck : list DevelopmentCardType) : forall i old new x,
  nth_error deck i = Some old ->
  (count_occ DevelopmentCardType_eq_dec (modify_nth i (fun _ => new) deck) x
   + sameCard old x
   = count_occ DevelopmentCardType_eq_dec deck x + sameCard new x)%nat.
Proof.
  unfold sameCard.
  induction deck as [|c deck IH]; intros i old new x Hi; [now destruct i|].
  destruct i as [|i]; simpl in Hi |- *.
  - injection Hi as ->.
    destruct (DevelopmentCardType_eq_dec new x),
             (DevelopmentCardType_eq_dec old x); lia.
  - specialize (IH i old new x Hi).
    destruct (DevelopmentCardType_eq_dec c x); lia.
Qed.

Lemma swap_count deck i j x :
  count_occ DevelopmentCardType_eq_dec (DevelopmentCardManager.swap deck i j) x
  = count_occ DevelopmentCardType_eq_dec deck x.
Proof.
  unfold DevelopmentCardManager.swap.
  destruct (nth_error deck i) as [a|] eqn:Hi; [|reflexivity].
  destruct (nth_error deck j) as [b|] eqn:Hj; [|reflexivity].
  pose proof (count_overwrite deck i a b x Hi) as H1.
  assert (Hj' : nth_error (modify_nth i (fun _ => b) deck) j = Some b).
  { rewrite nth_error_modify_nth, Hj. now destruct (Nat.eqb i j). }
  pose proof (count_overwrite _ j b a x Hj') as H2. lia.
Qed.

Lemma shuffle_count u n : forall deck x,
  count_occ DevelopmentCardType_eq_dec (DevelopmentCardManager.shuffle u n deck) x
  = count_occ DevelopmentCardType_eq_dec deck x.
Proof.
  induction n as [|n IH]; intros deck x; [reflexivity|].
  cbn [DevelopmentCardManager.shuffle]. now rewrite IH, swap_count.
Qed.

(** X12: whatever the random draws, the shuffled deck is a rearrangement of
    the 25 cards it was made from: 14 knights, 5 victory points and 2 each
    of road building, invention and monopoly. *)
Theorem createStandardDeck_composition (u : nat -> nat) :
  Permutation (DevelopmentCardManager.createStandardDeck u)
              DevelopmentCardManager.unshuffledDeck /\
  List.length (DevelopmentCardManager.createStandardDeck u) = 25%nat /\
  forall cardType,
    count_occ DevelopmentCardType_eq_dec
      (DevelopmentCardManager.createStandardDeck u) cardType
    = deckComposition cardType.
Proof.
  assert (Hcount : forall cardType,
            count_occ DevelopmentCardType_eq_dec
              (DevelopmentCardManager.createStandardDeck u) cardType
            = count_occ DevelopmentCardType_eq_dec
                DevelopmentCardManager.unshuffledDeck cardType).
  { intros cardType. apply shuffle_count. }
  assert (Hperm : Permutation (DevelopmentCardManager.createStandardDeck u)
                              DevelopmentCardManager.unshuffledDeck).
  { apply (Permutation_count_occ DevelopmentCardType_eq_dec). exact Hcount. }
  split; [exact Hperm|]. split.
  - rewrite (Permutation_length Hperm). reflexivity.
  - intros cardType. rewrite Hcount. now destruct cardType.
Qed.

Lemma DevelopmentCards_get_set cards k v k' :
  DevelopmentCards.get (DevelopmentCards.set cards k v) k'
  = if DevelopmentCardType_eqb k k' then v else DevelopmentCards.get cards k'.
Proof. destruct k, k'; reflexivity. Qed.

Lemma last_Some {A} (l : list A) (x : A) :
  List.last (List.map Some l) None = Some x -> l = (removelast l ++ [x])%list.
Proof.
  induction l as [|y l IH]; [discriminate|].
  destruct l as [|z l].
  - simpl. now intros [= ->].
  - intros H.
    change (y :: z :: l = y :: (removelast (z :: l) ++ [x]))%list.
    f_equal. apply IH. exact H.
Qed.

(** X13: an accepted purchase.  The buyer pays exactly one wool, one wheat
    and one ore, the last card of the deck leaves it for the buyer's hand of
    cards, and the buyer may play no card until the lock is lifted; nobody
    else changes. *)
Theorem buyDevelopmentCard_outcome (gameState : GameState) (playerId : string)
    (newState : GameState) :
  DevelopmentCardManager.buyDevelopmentCard gameState playerId = Return newState ->
  exists seat player player' drawnCard,
    seatOf (GameState.players gameState) playerId = Some seat /\
    nth_error (GameState.players gameState) seat = Some player /\
    nth_error (GameState.players newState) seat = Some player' /\
    GameState.developmentCardDeck gameState
    = (GameState.developmentCardDeck newState ++ [drawnCard])%list /\
    (forall cardType,
       DevelopmentCards.get (Player.developmentCards player') cardType
       = DevelopmentCards.get (Player.developmentCards player) cardType
         + (if DevelopmentCardType_eqb drawnCard cardType then 1 else 0)) /\
    (forall k,
       Resources.get (Player.resources player') k
       = Resources.get (Player.resources player) k
         - Resources.get BUILDING_COSTS.developmentCard k) /\
    Player.canPlayDevCard player' = false /\
    (forall index,
       index <> seat ->
       nth_error (GameState.players newState) index
       = nth_error (GameState.players gameState) index).
Proof.
  unfold DevelopmentCardManager.buyDevelopmentCard. intros H.
  apply bind_Return_inv in H. destruct H as [[] [Hcheck H]].
  apply check_inv in Hcheck.
  apply withPlayer_inv in H. destruct H as [seat [player [Hseat [Hp H]]]].
  cbv zeta in H.
  unfold DevelopmentCardManager.canBuyDevelopmentCard in Hcheck.
  rewrite (findPlayer_at_seat _ _ _ Hseat), Hp in Hcheck.
  destruct (ResourceManager.hasResources _ _) eqn:Hhas; [|discriminate].
  clear Hcheck.
  destruct (last _ None) as [drawnCard|] eqn:Hlast; [|discriminate].
  injection H as <-.
  assert (Hdeck : GameState.developmentCardDeck
                    (GameState.modifyPlayer seat
                       (Player.set_resources
                          (ResourceManager.subtractResources
                             (Player.resources player)
                             (PartialResources.ofResources
                                BUILDING_COSTS.developmentCard)))
                       gameState)
                  = GameState.developmentCardDeck gameState)
    by now destruct gameState.
  rewrite Hdeck in Hlast. apply last_Some in Hlast.
  set (f := fun p : Player =>
              Player.set_canPlayDevCard false
                (Player.set_card drawnCard
                   (DevelopmentCards.get (Player.developmentCards p) drawnCard + 1)
                   (Player.set_resources
                      (ResourceManager.subtractResources (Player.resources player)
                         (PartialResources.ofResources
                            BUILDING_COSTS.developmentCard)) p))).
  match goal with
  | |- context [GameState.players ?s] =>
      match s with
      | GameState.modifyPlayer _ _ _ =>
          assert (Hplayers : GameState.players s
                             = modify_nth seat f (GameState.players gameState))
      end
  end.
  { rewrite !players_modifyPlayer.
    cbn [GameState.players GameState.set_developmentCardDeck].
    rewrite players_modifyPlayer, !modify_nth_compose. reflexivity. }
  exists seat, player, (f player), drawnCard. rewrite Hplayers.
  split; [exact Hseat|]. split; [exact Hp|].
  split; [now apply nth_error_modify_same|].
  split.
  { clear -Hlast. destruct gameState. exact Hlast. }
  split.
  { intros cardType. subst f.
    cbn [Player.developmentCards Player.set_canPlayDevCard Player.set_card
         Player.set_developmentCards Player.set_resources].
    rewrite DevelopmentCards_get_set.
    destruct (DevelopmentCardType_eqb drawnCard cardType) eqn:E; [|lia].
    apply DevelopmentCardType_eqb_eq in E. now subst. }
  split.
  { intros k. subst f.
    cbn [Player.resources Player.set_canPlayDevCard Player.set_card
         Player.set_developmentCards Player.set_resources].
    rewrite get_subtract_exact by assumption.
    unfold positivePart, amountOf. now destruct k. }
  split; [reflexivity|].
  intros index Hne. now apply nth_error_modify_other.
Qed.

Lemma buyDevelopmentCard_outcome_witness :
  DevelopmentCardManager.buyDevelopmentCard purchaseExample "player1"
  = Return purchaseExampleAfter /\
  exists drawnCard,
    GameState.developmentCardDeck purchaseExample
    = (GameState.developmentCardDeck purchaseExampleAfter ++ [drawnCard])%list.
Proof.
  assert (H : DevelopmentCardManager.buyDevelopmentCard purchaseExample "player1"
              = Return purchaseExampleAfter) by (vm_compute; reflexivity).
  split; [exact H|].
  destruct (buyDevelopmentCard_outcome _ _ _ H)
    as [seat [player [player' [drawnCard [_ [_ [_ [Hdeck _]]]]]]]].
  exists drawnCard. exact Hdeck.
Defined.

Lemma takeAll_nth resourceType playerIndex players : forall index j,
  nth_error
    (snd (DevelopmentCardManager.takeAll resourceType playerIndex index players)) j
  = option_map
      (fun p => if Nat.eqb (index + j) playerIndex then p
                else Player.set_resource resourceType 0 p)
      (nth_error players j).
Proof.
  induction players as [|p players IH]; intros index j; simpl.
  - now destruct j.
  - specialize (IH (S index)).
    destruct (DevelopmentCardManager.takeAll resourceType playerIndex (S index) players)
      as [total rest]. cbn [snd] in IH.
    destruct j as [|j].
    + rewrite Nat.add_0_r. destruct (Nat.eqb index playerIndex); reflexivity.
    + replace (index + S j)%nat with (S index + j)%nat by lia.
      destruct (Nat.eqb index playerIndex); simpl; apply IH.
Qed.

Lemma takeAll_total resourceType playerIndex players : forall index,
  fst (DevelopmentCardManager.takeAll resourceType playerIndex index players)
  = unitsOf resourceType players
    - (if (index <=? playerIndex)%nat
       then handAt players (playerIndex - index) resourceType else 0).
Proof.
  induction players as [|p players IH]; intros index.
  - simpl. unfold handAt. destruct (index <=? playerIndex)%nat; [|reflexivity].
    now destruct (playerIndex - index)%nat.
  - cbn [DevelopmentCardManager.takeAll]. specialize (IH (S index)).
    destruct (DevelopmentCardManager.takeAll resourceType playerIndex (S index) players)
      as [total rest]. cbn [fst] in IH.
    unfold unitsOf, sumZ in *. cbn [fold_right].
    destruct (Nat.eqb_spec index playerIndex) as [->|Hne]; cbn [fst].
    + rewrite IH, Nat.leb_refl, Nat.sub_diag.
      destruct (Nat.leb_spec (S playerIndex) playerIndex); [lia|].
      unfold handAt. cbn [nth_error]. lia.
    + rewrite IH.
      destruct (Nat.leb_spec (S index) playerIndex),
               (Nat.leb_spec index playerIndex); try lia.
      replace (playerIndex - index)%nat with (S (playerIndex - S index)) by lia.
      unfold handAt. cbn [nth_error]. lia.
Qed.

Lemma unitsOf_modify k seat f players :
  (forall p, Player.resources (f p) = Player.resources p) ->
  unitsOf k (modify_nth seat f players) = unitsOf k players.
Proof.
  intros Hf. unfold unitsOf. revert seat.
  induction players as [|p players IH]; intros seat; [now destruct seat|].
  destruct seat; simpl; [now rewrite Hf | now rewrite IH].
Qed.

(** X14: a monopoly that is played.  The player ends up with every card of
    the named kind that was in any hand, every other hand holds none of
    that kind, and the cards of the other kinds stay where they were; the
    player has one monopoly card less. *)
Theorem playMonopolyCard_outcome (gameState : GameState) (playerId : string)
    (resourceType : ResourceType) (newState : GameState) :
  DevelopmentCardManager.playMonopolyCard gameState playerId resourceType
  = Return newState ->
  exists seat,
    seatOf (GameState.players gameState) playerId = Some seat /\
    handAt (GameState.players newState) seat resourceType
    = unitsOf resourceType (GameState.players gameState) /\
    (forall index,
       index <> seat ->
       handAt (GameState.players newState) index resourceType = 0) /\
    (forall index k,
       k <> resourceType ->
       handAt (GameState.players newState) index k
       = handAt (GameState.players gameState) index k) /\
    cardsAt (GameState.players newState) seat Monopoly
    = cardsAt (GameState.players gameState) seat Monopoly - 1.
Proof.
  unfold DevelopmentCardManager.playMonopolyCard. intros H.
  apply bind_Return_inv in H. destruct H as [[] [_ H]].
  apply withPlayer_inv in H. destruct H as [seat [player [Hseat [Hp H]]]].
  cbv zeta in H.
  set (s1 := GameState.modifyPlayer seat
               (fun p => Player.set_card Monopoly
                           (DevelopmentCards.monopoly (Player.developmentCards p) - 1)
                           p) gameState) in *.
  pose proof (takeAll_nth resourceType seat (GameState.players s1) 0) as Hnth.
  pose proof (takeAll_total resourceType seat (GameState.players s1) 0) as Htotal.
  destruct (DevelopmentCardManager.takeAll resourceType seat 0 (GameState.players s1))
    as [totalStolen players'].
  cbn [fst snd] in Hnth, Htotal. injection H as <-.
  rewrite Nat.sub_0_r in Htotal. cbn [Nat.leb] in Htotal.
  assert (Hs1 : GameState.players s1
                = modify_nth seat
                    (fun p => Player.set_card Monopoly
                                (DevelopmentCards.monopoly (Player.developmentCards p) - 1)
                                p)
                    (GameState.players gameState))
    by apply players_modifyPlayer.
  assert (Hunits : unitsOf resourceType (GameState.players s1)
                   = unitsOf resourceType (GameState.players gameState)).
  { rewrite Hs1. apply unitsOf_modify. intros p. reflexivity. }
  assert (Hhand1 : forall index k,
            handAt (GameState.players s1) index k
            = handAt (GameState.players gameState) index k).
  { intros index k. rewrite Hs1, handAt_modify.
    destruct (Nat.eqb seat index); [|reflexivity].
    unfold handAt. now destruct (nth_error _ index). }
  assert (Hfinal : forall index k,
            handAt (GameState.players
                      (GameState.modifyPlayer seat
                         (fun p => Player.set_resource resourceType
                                     (Resources.get (Player.resources p) resourceType
                                      + totalStolen) p)
                         (GameState.set_players players' s1))) index k
            = match nth_error (GameState.players gameState) index with
              | None => 0
              | Some p =>
                  if ResourceType_eqb resourceType k
                  then if Nat.eqb seat index
                       then Resources.get (Player.resources p) k + totalStolen
                       else 0
                  else Resources.get (Player.resources p) k
              end).
  { intros index k. rewrite players_modifyPlayer.
    cbn [GameState.players GameState.set_players].
    rewrite handAt_modify. unfold handAt at 1. rewrite (Hnth index).
    cbn [Nat.add].
    pose proof (Hhand1 index) as Hh. unfold handAt in Hh.
    destruct (nth_error (GameState.players s1) index) as [p1|] eqn:Hp1;
      destruct (nth_error (GameState.players gameState) index) as [p0|] eqn:Hp0;
      cbn [option_map].
    - rewrite (Nat.eqb_sym index seat).
      destruct (Nat.eqb seat index);
        cbn [Player.resources Player.set_resource Player.set_resources];
        rewrite ?Resources_get_set;
        destruct (ResourceType_eqb resourceType k) eqn:Ek;
        try apply Hh.
      + apply ResourceType_eqb_eq in Ek. subst k. now rewrite Hh.
      + reflexivity.
    - exfalso. rewrite Hs1, nth_error_modify_nth, Hp0 in Hp1.
      now destruct (Nat.eqb seat index).
    - exfalso. rewrite Hs1, nth_error_modify_nth, Hp0 in Hp1.
      now destruct (Nat.eqb seat index).
    - now destruct (Nat.eqb seat index). }
  exists seat. split; [exact Hseat|]. split.
  { rewrite Hfinal, Hp, ResourceType_eqb_refl, Nat.eqb_refl, Htotal, Hunits, Hhand1.
    unfold handAt. rewrite Hp. lia. }
  split.
  { intros index Hne. rewrite Hfinal, ResourceType_eqb_refl.
    destruct (nth_error _ index); [|reflexivity].
    destruct (Nat.eqb_spec seat index); [congruence | reflexivity]. }
  split.
  { intros index k Hk. rewrite Hfinal. unfold handAt.
    destruct (nth_error _ index); [|reflexivity].
    destruct (ResourceType_eqb resourceType k) eqn:Ek; [|reflexivity].
    apply ResourceType_eqb_eq in Ek. congruence. }
  unfold cardsAt. rewrite players_modifyPlayer.
  cbn [GameState.players GameState.set_players].
  rewrite nth_error_modify_nth, Nat.eqb_refl, (Hnth seat). cbn [Nat.add].
  rewrite Nat.eqb_refl, Hs1, (nth_error_modify_same _ _ _ _ Hp), Hp. reflexivity.
Qed.

Lemma playMonopolyCard_outcome_witness :
  DevelopmentCardManager.playMonopolyCard monopolyExample "player1" Wood
  = Return monopolyExampleAfter /\
  exists seat,
    seatOf (GameState.players monopolyExample) "player1" = Some seat /\
    handAt (GameState.players monopolyExampleAfter) seat Wood = 6.
Proof.
  assert (H : DevelopmentCardManager.playMonopolyCard monopolyExample "player1" Wood
              = Return monopolyExampleAfter) by (vm_compute; reflexivity).
  split; [exact H|].
  destruct (playMonopolyCard_outcome _ _ _ _ H) as [seat [Hseat [Hhand _]]].
  exists seat. split; [exact Hseat|]. rewrite Hhand. reflexivity.
Defined.

(** X15: an invention that is played.  The player gains one card of each of
    the two kinds named, two of a kind named twice, and so two cards in
    all; the invention card is spent and the other hands stay as they
    were. *)
Theorem playInventionCard_outcome (gameState : GameState) (playerId : string)
    (first second : ResourceType) (newState : GameState) :
  DevelopmentCardManager.playInventionCard gameState playerId (first, second)
  = Return newState ->
  exists seat,
    seatOf (GameState.players gameState) playerId = Some seat /\
    (forall k,
       handAt (GameState.players newState) seat k
       = handAt (GameState.players gameState) seat k
         + (if ResourceType_eqb first k then 1 else 0)
         + (if ResourceType_eqb second k then 1 else 0)) /\
    totalAt (GameState.players newState) seat
    = totalAt (GameState.players gameState) seat + 2 /\
    (forall index k,
       index <> seat ->
       handAt (GameState.players newState) index k
       = handAt (GameState.players gameState) index k) /\
    cardsAt (GameState.players newState) seat Invention
    = cardsAt (GameState.players gameState) seat Invention - 1.
Proof.
  unfold DevelopmentCardManager.playInventionCard. intros H.
  apply bind_Return_inv in H. destruct H as [[] [_ H]].
  apply withPlayer_inv in H. destruct H as [seat [player [Hseat [Hp H]]]].
  cbv zeta in H. cbn [fst snd fold_left] in H. injection H as <-.
  rewrite !players_modifyPlayer, modify_nth_compose.
  match goal with
  | |- context [modify_nth seat ?f _] =>
      assert (Hhand : forall k,
                handAt (modify_nth seat f (GameState.players gameState)) seat k
                = handAt (GameState.players gameState) seat k
                  + (if ResourceType_eqb first k then 1 else 0)
                  + (if ResourceType_eqb second k then 1 else 0))
  end.
  { intros k. rewrite handAt_modify, Nat.eqb_refl. unfold handAt. rewrite Hp.
    cbn [Player.resources Player.set_resources Player.set_card
         Player.set_developmentCards].
    rewrite get_addResources.
    destruct first, second, k; cbn; lia. }
  exists seat. split; [exact Hseat|]. split; [exact Hhand|]. split.
  { rewrite !totalAt_hand. unfold sumOverKinds. rewrite !Hhand.
    destruct first, second; cbn; lia. }
  split.
  { intros index k Hne. rewrite handAt_modify.
    destruct (Nat.eqb_spec seat index); [congruence | reflexivity]. }
  unfold cardsAt. rewrite (nth_error_modify_same _ _ _ _ Hp), Hp. reflexivity.
Qed.

Lemma playInventionCard_outcome_witness :
  DevelopmentCardManager.playInventionCard monopolyExample "player1" (Ore, Ore)
  = Return inventionExampleAfter /\
  exists seat,
    seatOf (GameState.players monopolyExample) "player1" = Some seat /\
    handAt (GameState.players inventionExampleAfter) seat Ore = 2.
Proof.
  assert (H : DevelopmentCardManager.playInventionCard monopolyExample "player1"
                (Ore, Ore) = Return inventionExampleAfter)
    by (vm_compute; reflexivity).
  split; [exact H|].
  destruct (playInventionCard_outcome _ _ _ _ _ H) as [seat [Hseat [Hhand _]]].
  exists seat. split; [exact Hseat|]. rewrite Hhand.
  injection Hseat as <-. reflexivity.
Defined.

Lemma buildFreeRoad_inv gameState playerId edgeId newState :
  DevelopmentCardManager.buildFreeRoad gameState playerId edgeId = Return newState ->
  exists edge seat player,
    Map.get (GameBoard.edges (GameState.board gameState)) edgeId = Some edge /\
    Edge.road edge = None /\
    roadConnected gameState playerId edgeId = true /\
    findPlayerIndex gameState playerId = Some seat /\
    nth_error (GameState.players gameState) seat = Some player /\
    BuildingManager.remainingRoads player <> 0 /\
    newState
    = GameState.modifyPlayer seat (Player.push_road edgeId)
        (GameState.modifyEdge edgeId (Edge.set_road (Road.mk playerId)) gameState).
Proof.
  unfold DevelopmentCardManager.buildFreeRoad. cbv zeta. intros H.
  destruct (Map.get _ edgeId) as [edge|] eqn:He; [|discriminate].
  destruct (Edge.road edge) eqn:Hroad; [discriminate|].
  destruct (DevelopmentCardManager.isRoadConnectedForFreeBuilding _ _ _) eqn:Hconn;
    [|discriminate].
  cbn [negb] in H.
  destruct (findPlayer gameState playerId) as [found|] eqn:Hfound; [|discriminate].
  destruct (Z.eqb_spec (BuildingManager.remainingRoads found) 0) as [|Hrem];
    [discriminate|].
  apply withPlayer_inv in H. destruct H as [seat [player [Hseat [Hp H]]]].
  injection H as <-.
  rewrite (findPlayer_at_seat _ _ _ Hseat), Hp in Hfound. injection Hfound as <-.
  exists edge, seat, player. repeat split; assumption.
Qed.

Lemma edges_modifyPlayer seat f s :
  GameBoard.edges (GameState.board (GameState.modifyPlayer seat f s))
  = GameBoard.edges (GameState.board s).
Proof. now destruct s. Qed.

Lemma edges_modifyEdge k f s :
  GameBoard.edges (GameState.board (GameState.modifyEdge k f s))
  = Map.update (GameBoard.edges (GameState.board s)) k f.
Proof. now destruct s. Qed.

(** X16: a road-building card that is played in full.  Both edges were free
    and now carry the player's road, and they are appended to the ledger of
    roads in the order given (once, when the two ids are the same).  The
    roads are free: the hand is as before, and the card is spent.  The
    player had not yet laid 15 roads. *)
Theorem playRoadBuildingCard_outcome (gameState : GameState) (playerId : string)
    (first second : string) (newState : GameState) :
  DevelopmentCardManager.playRoadBuildingCard gameState playerId (first, second)
  = Return newState ->
  exists seat player player',
    seatOf (GameState.players gameState) playerId = Some seat /\
    nth_error (GameState.players gameState) seat = Some player /\
    nth_error (GameState.players newState) seat = Some player' /\
    Player.resources player' = Player.resources player /\
    Buildings.roads (Player.buildings player')
    = (Buildings.roads (Player.buildings player)
       ++ first :: (if String.eqb second first then [] else [second]))%list /\
    DevelopmentCards.roadBuilding (Player.developmentCards player')
    = DevelopmentCards.roadBuilding (Player.developmentCards player) - 1 /\
    (List.length (Buildings.roads (Player.buildings player)) <> 15)%nat /\
    roadOwnedBy playerId
      (Map.get (GameBoard.edges (GameState.board gameState)) first) = false /\
    roadOwnedBy playerId
      (Map.get (GameBoard.edges (GameState.board newState)) first) = true /\
    roadOwnedBy playerId
      (Map.get (GameBoard.edges (GameState.board newState)) second) = true /\
    (forall index,
       index <> seat ->
       nth_error (GameState.players newState) index
       = nth_error (GameState.players gameState) index).
Proof.
  unfold DevelopmentCardManager.playRoadBuildingCard. intros H.
  apply bind_Return_inv in H. destruct H as [[] [_ H]].
  apply withPlayer_inv in H. destruct H as [seat [player [Hseat [Hp H]]]].
  cbv zeta in H. cbn [fst snd] in H.
  apply bind_Return_inv in H. destruct H as [s2 [H1 H2]].
  apply rethrow_Return_inv in H1.
  set (spend := fun p : Player =>
                  Player.set_card RoadBuilding
                    (DevelopmentCards.roadBuilding (Player.developmentCards p) - 1) p)
    in *.
  set (s1 := GameState.modifyPlayer seat spend gameState) in *.
  assert (Hseat1 : findPlayerIndex s1 playerId = Some seat).
  { unfold s1. rewrite findPlayerIndex_modifyPlayer; [assumption|].
    intros p. reflexivity. }
  assert (Hp1 : nth_error (GameState.players s1) seat = Some (spend player)).
  { unfold s1. rewrite players_modifyPlayer. now apply nth_error_modify_same. }
  destruct (buildFreeRoad_inv _ _ _ _ H1)
    as [edge1 [seat1 [player1 [He1 [Hr1 [_ [Hs1 [Hq1 [Hrem1 ->]]]]]]]]].
  rewrite Hseat1 in Hs1. injection Hs1 as <-.
  rewrite Hp1 in Hq1. injection Hq1 as <-.
  unfold s1 in He1. rewrite edges_modifyPlayer in He1.
  assert (Hlen : (List.length (Buildings.roads (Player.buildings player)) <> 15)%nat).
  { intros E. apply Hrem1. unfold BuildingManager.remainingRoads,
      BuildingManager.getRemainingBuildings, spend. cbn. rewrite E. reflexivity. }
  assert (Hfree : roadOwnedBy playerId
                    (Map.get (GameBoard.edges (GameState.board gameState)) first)
                  = false).
  { rewrite He1. cbn [roadOwnedBy]. now rewrite Hr1. }
  set (s2 := GameState.modifyPlayer seat (Player.push_road first)
               (GameState.modifyEdge first (Edge.set_road (Road.mk playerId)) s1))
    in *.
  assert (Hplayers2 : GameState.players s2
                      = modify_nth seat
                          (fun p => Player.push_road first (spend p))
                          (GameState.players gameState)).
  { unfold s2, s1. rewrite players_modifyPlayer, players_modifyEdge,
      players_modifyPlayer, modify_nth_compose. reflexivity. }
  assert (Hedge2 : Map.get (GameBoard.edges (GameState.board s2)) first
                   = Some (Edge.set_road (Road.mk playerId) edge1)).
  { unfold s2, s1. rewrite edges_modifyPlayer, edges_modifyEdge, edges_modifyPlayer.
    now rewrite Map_get_update, String.eqb_refl, He1. }
  destruct (String.eqb_spec second first) as [->|Hne]; cbn [negb] in H2.
  - injection H2 as <-.
    exists seat, player, (Player.push_road first (spend player)).
    rewrite Hplayers2, Hedge2.
    split; [exact Hseat|]. split; [exact Hp|].
    split; [exact (nth_error_modify_same _ _ _ _ Hp)|].
    split; [reflexivity|]. split; [reflexivity|]. split; [reflexivity|].
    split; [exact Hlen|]. split; [exact Hfree|].
    cbn [roadOwnedBy Edge.road Edge.set_road Road.playerId].
    rewrite String.eqb_refl.
    split; [reflexivity|]. split; [reflexivity|].
    intros index Hd. now apply nth_error_modify_other.
  - apply rethrow_Return_inv in H2.
    destruct (buildFreeRoad_inv _ _ _ _ H2)
      as [edge2 [seat2 [player2 [He2 [Hr2 [_ [Hs2 [_ [_ ->]]]]]]]]].
    assert (Hseat2 : findPlayerIndex s2 playerId = Some seat).
    { unfold findPlayerIndex. rewrite Hplayers2.
      change (findPlayerIndex
                (GameState.modifyPlayer seat
                   (fun p => Player.push_road first (spend p)) gameState)
                playerId = Some seat).
      rewrite findPlayerIndex_modifyPlayer; [assumption|].
      intros p. reflexivity. }
    rewrite Hseat2 in Hs2. injection Hs2 as <-.
    exists seat, player,
      (Player.push_road second (Player.push_road first (spend player))).
    rewrite players_modifyPlayer, players_modifyEdge, Hplayers2, modify_nth_compose.
    rewrite edges_modifyPlayer, edges_modifyEdge, !Map_get_update.
    rewrite String.eqb_refl, He2, Hedge2.
    destruct (String.eqb_spec second first); [contradiction|].
    split; [exact Hseat|]. split; [exact Hp|].
    split; [exact (nth_error_modify_same _ _ _ _ Hp)|].
    split; [reflexivity|].
    split.
    { cbn [Player.buildings Player.push_road Player.set_buildings Buildings.roads
           spend Player.set_card Player.set_developmentCards].
      now rewrite <- app_assoc. }
    split; [reflexivity|]. split; [exact Hlen|]. split; [exact Hfree|].
    cbn [option_map roadOwnedBy Edge.road Edge.set_road Road.playerId].
    rewrite String.eqb_refl.
    split; [reflexivity|]. split; [reflexivity|].
    intros index Hd. now apply nth_error_modify_other.
Qed.

Lemma playRoadBuildingCard_outcome_witness :
  DevelopmentCardManager.playRoadBuildingCard roadBuildingExample "player1"
    ("e_1,0_2,-1", "e_1,0_2,0")
  = Return roadBuildingExampleAfter /\
  exists player',
    nth_error (GameState.players roadBuildingExampleAfter) 0 = Some player' /\
    Buildings.roads (Player.buildings player') = ["e_1,0_2,-1"; "e_1,0_2,0"].
Proof.
  assert (H : DevelopmentCardManager.playRoadBuildingCard roadBuildingExample
                "player1" ("e_1,0_2,-1", "e_1,0_2,0")
              = Return roadBuildingExampleAfter) by (vm_compute; reflexivity).
  split; [exact H|].
  destruct (playRoadBuildingCard_outcome _ _ _ _ _ H)
    as [seat [player [player' [Hseat [Hp [Hp' [_ [Hroads _]]]]]]]].
  injection Hseat as <-. injection Hp as <-.
  exists player'. split; [exact Hp'|]. exact Hroads.
Defined.

(** X17: the list of playable cards against the check made when a card is
    played, for the player to move.  Every kind the list names is accepted.
    The list is empty while the lock of a purchase is set, although a
    victory point held is accepted then too. *)
Theorem playable_cards_are_accepted (gameState : GameState) (player : Player) :
  findPlayer gameState (Player.id player) = Some player ->
  currentPlayerId gameState = Some (Player.id player) ->
  (forall cardType,
     In cardType (DevelopmentCardManager.getPlayableDevelopmentCards player) ->
     DevelopmentCardManager.canPlayDevelopmentCard gameState (Player.id player)
                                                   cardType
     = Return Valid) /\
  (Player.canPlayDevCard player = false ->
   0 < DevelopmentCards.victoryPoint (Player.developmentCards player) ->
   DevelopmentCardManager.getPlayableDevelopmentCards player = [] /\
   DevelopmentCardManager.canPlayDevelopmentCard gameState (Player.id player)
                                                 VictoryPoint
   = Return Valid).
Proof.
  intros Hfound Hcurrent. split.
  - intros cardType Hin.
    unfold DevelopmentCardManager.getPlayableDevelopmentCards in Hin.
    destruct (Player.canPlayDevCard player) eqn:Hflag; [|contradiction].
    cbn [negb] in Hin. apply filter_In in Hin. destruct Hin as [_ Hheld].
    unfold DevelopmentCardManager.canPlayDevelopmentCard.
    rewrite Hfound, Hflag.
    destruct (Z.eqb_spec (DevelopmentCards.get (Player.developmentCards player)
                                               cardType) 0); [lia|].
    unfold notCurrentPlayer. rewrite Hcurrent, String.eqb_refl.
    now destruct (DevelopmentCardType_eqb cardType VictoryPoint).
  - intros Hflag Hheld. split.
    + unfold DevelopmentCardManager.getPlayableDevelopmentCards.
      now rewrite Hflag.
    + unfold DevelopmentCardManager.canPlayDevelopmentCard.
      rewrite Hfound. cbn [DevelopmentCards.get].
      destruct (Z.eqb_spec (DevelopmentCards.victoryPoint
                              (Player.developmentCards player)) 0); [lia|].
      cbn. now rewrite andb_false_r.
Qed.

Lemma playable_cards_are_accepted_witness :
  findPlayer cardBought (Player.id cardBuyer) = Some cardBuyer /\
  currentPlayerId cardBought = Some (Player.id cardBuyer) /\
  DevelopmentCardManager.getPlayableDevelopmentCards cardBuyer = [] /\
  DevelopmentCardManager.canPlayDevelopmentCard cardBought (Player.id cardBuyer)
                                                VictoryPoint
  = Return Valid.
Proof.
  assert (Hfound : findPlayer cardBought (Player.id cardBuyer) = Some cardBuyer)
    by reflexivity.
  assert (Hcurrent : currentPlayerId cardBought = Some (Player.id cardBuyer))
    by reflexivity.
  split; [exact Hfound|]. split; [exact Hcurrent|].
  apply (proj2 (playable_cards_are_accepted cardBought cardBuyer Hfound Hcurrent));
    [reflexivity | reflexivity].
Defined.

(** * The robber *)

Lemma standardBoard_robberMarked :
  robberMarked BoardGenerator.generateStandardBoard.
Proof.
  split.
  - vm_compute. repeat constructor; simpl; intuition discriminate.
  - intros k tile Hin. vm_compute in Hin.
    repeat (destruct Hin as [Hin|Hin];
            [injection Hin as <- <-; vm_compute; split; intros;
             (reflexivity || discriminate)|]).
    contradiction.
Qed.

Lemma standardBoard_tilesStored :
  tilesStoredByCoordinate (GameBoard.tiles BoardGenerator.generateStandardBoard).
Proof.
  intros k tile Hin. vm_compute in Hin.
  repeat (destruct Hin as [Hin|Hin];
          [injection Hin as <- <-; vm_compute; reflexivity|]).
  contradiction.
Qed.

Lemma moveRobber_keeps_one_robber_witness :
  robberMarked (GameState.board robberExample) /\
  RobberManager.moveRobber robberExample "player1" (HexCoordinate.mk 1 0)
                           (Some "player2") 0
  = Return robberExampleAfter /\
  List.length (robberTiles robberExampleAfter) = 1%nat.
Proof.
  assert (Hmarked : robberMarked (GameState.board robberExample))
    by exact standardBoard_robberMarked.
  assert (H : RobberManager.moveRobber robberExample "player1"
                (HexCoordinate.mk 1 0) (Some "player2") 0
              = Return robberExampleAfter) by (vm_compute; reflexivity).
  split; [exact Hmarked|]. split; [exact H|].
  exact (proj2 (moveRobber_keeps_one_robber _ _ _ _ _ _ Hmarked H)).
Defined.

Lemma Map_In_get {V} (m : Map.t V) k v :
  In (k, v) m -> exists v', Map.get m k = Some v'.
Proof.
  induction m as [|[k0 v0] m IH]; simpl; [contradiction|].
  intros [E|Hin].
  - injection E as -> ->. rewrite String.eqb_refl. eauto.
  - destruct (String.eqb k0 k); eauto.
Qed.

Lemma HexCoordinate_eqb_eq a b : HexCoordinate.eqb a b = true <-> a = b.
Proof.
  unfold HexCoordinate.eqb. destruct a, b; simpl. split.
  - intros H. apply andb_prop in H. destruct H. f_equal; lia.
  - intros [= -> ->]. now rewrite !Z.eqb_refl.
Qed.

(** X19: the list of hexes the robber may go to is the set of hexes that
    [canMoveRobber] accepts from the player to move, on a board whose tiles
    are stored under their coordinates. *)
Theorem getValidRobberLocations_accepted (gameState : GameState)
    (playerId : string) (player : Player) (newLocation : HexCoordinate) :
  tilesStoredByCoordinate (GameBoard.tiles (GameState.board gameState)) ->
  findPlayer gameState playerId = Some player ->
  currentPlayerId gameState = Some playerId ->
  (In newLocation (RobberManager.getValidRobberLocations gameState) <->
   RobberManager.canMoveRobber gameState playerId newLocation = Return Valid).
Proof.
  intros Hstored Hfound Hcurrent.
  unfold RobberManager.canMoveRobber, RobberManager.getValidRobberLocations.
  rewrite Hfound. unfold notCurrentPlayer. rewrite Hcurrent, String.eqb_refl.
  cbn [negb bind]. rewrite in_map_iff. split.
  - intros [tile [<- Hin]]. apply filter_In in Hin. destruct Hin as [Hin Hmoved].
    apply in_map_iff in Hin. destruct Hin as [[k tile'] [E Hin]].
    cbn [snd] in E. subst tile'.
    pose proof (Hstored _ _ Hin) as Hk. subst k.
    destruct (Map_In_get _ _ _ Hin) as [found ->].
    destruct (HexCoordinate.eqb _ _) eqn:Heq; [|reflexivity].
    apply HexCoordinate_eqb_eq in Heq. rewrite Heq, !Z.eqb_refl in Hmoved.
    discriminate.
  - destruct (Map.get _ _) as [tile|] eqn:Hget; [|discriminate].
    destruct (HexCoordinate.eqb _ _) eqn:Heq; [discriminate|]. intros _.
    apply Map_get_In_entry in Hget. pose proof (Hstored _ _ Hget) as Hk.
    apply coordToKey_injective in Hk.
    exists tile. split; [now symmetry|]. apply filter_In. split.
    + apply in_map_iff. now exists (BoardGenerator.coordToKey newLocation, tile).
    + rewrite <- Hk. unfold HexCoordinate.eqb in Heq.
      destruct (Z.eqb_spec (HexCoordinate.q newLocation)
                  (HexCoordinate.q (GameBoard.robberLocation (GameState.board gameState))))
        as [Eq|]; [|reflexivity].
      rewrite Eq, Z.eqb_refl in Heq. cbn [andb] in Heq.
      rewrite Z.eqb_sym, Heq. apply orb_true_r.
Qed.

Lemma getValidRobberLocations_accepted_witness :
  tilesStoredByCoordinate (GameBoard.tiles (GameState.board robberExample)) /\
  In (HexCoordinate.mk 1 0) (RobberManager.getValidRobberLocations robberExample) /\
  RobberManager.canMoveRobber robberExample "player1" (HexCoordinate.mk 1 0)
  = Return Valid.
Proof.
  assert (Hstored : tilesStoredByCoordinate
                      (GameBoard.tiles (GameState.board robberExample)))
    by exact standardBoard_tilesStored.
  assert (Hin : In (HexCoordinate.mk 1 0)
                   (RobberManager.getValidRobberLocations robberExample))
    by (vm_compute; tauto).
  split; [exact Hstored|]. split; [exact Hin|].
  exact (proj1 (getValidRobberLocations_accepted robberExample "player1"
                  (examplePlayer "player1" "red" (Resources.mk 0 0 0 0 0) [])
                  (HexCoordinate.mk 1 0) Hstored eq_refl eq_refl) Hin).
Defined.

Lemma adjacentPlayers_fold robberLocation playerId intersections : forall acc,
  In playerId
     (fold_left
        (fun adjacentPlayers intersection =>
           if ResourceManager.isAdjacent intersection robberLocation then
             match Intersection.building intersection with
             | Some building =>
                 if negb (includes adjacentPlayers (Building.playerId building))
                 then (adjacentPlayers ++ [Building.playerId building])%list
                 else adjacentPlayers
             | None => adjacentPlayers
             end
           else adjacentPlayers)
        intersections acc)
  <-> In playerId acc \/
      exists intersection building,
        In intersection intersections /\
        ResourceManager.isAdjacent intersection robberLocation = true /\
        Intersection.building intersection = Some building /\
        Building.playerId building = playerId.
Proof.
  induction intersections as [|x rest IH]; intros acc; cbn [fold_left].
  - split; [now left | intros [H|[? [? [[] _]]]]; exact H].
  - rewrite IH. clear IH. split.
    + intros [Hacc|[y [b [Hy Hrest]]]].
      * destruct (ResourceManager.isAdjacent x robberLocation) eqn:Hadj;
          [|now left].
        destruct (Intersection.building x) as [b|] eqn:Hb; [|now left].
        destruct (includes acc (Building.playerId b)) eqn:Hinc;
          cbn [negb] in Hacc; [now left|].
        apply in_app_or in Hacc. destruct Hacc as [|[<-|[]]]; [now left|].
        right. exists x, b. repeat split; try assumption. now left.
      * right. exists y, b. split; [now right | exact Hrest].
    + intros [Hacc|[y [b [[<-|Hy] [Hadj [Hb Hid]]]]]].
      * left. destruct (ResourceManager.isAdjacent x robberLocation);
          [|assumption].
        destruct (Intersection.building x) as [b|]; [|assumption].
        destruct (negb _); [apply in_or_app; now left | assumption].
      * left. rewrite Hadj, Hb.
        destruct (includes acc (Building.playerId b)) eqn:Hinc; cbn [negb].
        -- apply includes_spec in Hinc. now rewrite <- Hid.
        -- apply in_or_app. right. left. exact Hid.
      * right. exists y, b. repeat split; assumption.
Qed.

Lemma getPlayersAdjacentToRobber_spec gameState playerId :
  In playerId (RobberManager.getPlayersAdjacentToRobber gameState)
  <-> buildsNextTo gameState playerId
        (GameBoard.robberLocation (GameState.board gameState)).
Proof.
  unfold RobberManager.getPlayersAdjacentToRobber. cbv zeta.
  rewrite adjacentPlayers_fold. unfold buildsNextTo. split.
  - intros [[]|H]. exact H.
  - intros H. now right.
Qed.

Lemma playerHasAdjacentBuilding_spec gameState playerId hex :
  RobberManager.playerHasAdjacentBuilding gameState playerId hex = true
  <-> buildsNextTo gameState playerId hex.
Proof.
  unfold RobberManager.playerHasAdjacentBuilding, buildsNextTo.
  rewrite existsb_exists. split.
  - intros [x [Hin H]]. apply andb_prop in H. destruct H as [Hadj Hown].
    cbn [buildingOwnedBy] in Hown.
    destruct (Intersection.building x) as [b|] eqn:Hb; [|discriminate].
    apply String.eqb_eq in Hown. now exists x, b.
  - intros [x [b [Hin [Hadj [Hb Hid]]]]]. exists x. split; [assumption|].
    rewrite Hadj. cbn [buildingOwnedBy andb]. rewrite Hb.
    now apply String.eqb_eq.
Qed.

(** X20: the list of players that may be robbed is the set of players that
    [canStealFromPlayer] accepts at the robber's hex, as long as no hand
    holds a negative number of cards. *)
Theorem getValidStealTargets_accepted (gameState : GameState)
    (theftPlayerId targetPlayerId : string) :
  (forall p, In p (GameState.players gameState) ->
             handNonnegative (Player.resources p)) ->
  (In targetPlayerId (RobberManager.getValidStealTargets gameState theftPlayerId)
   <-> RobberManager.canStealFromPlayer gameState theftPlayerId targetPlayerId
         (GameBoard.robberLocation (GameState.board gameState)) = Valid).
Proof.
  intros Hnonneg.
  unfold RobberManager.getValidStealTargets, RobberManager.canStealFromPlayer.
  rewrite filter_In, getPlayersAdjacentToRobber_spec.
  rewrite (String.eqb_sym theftPlayerId targetPlayerId).
  destruct (String.eqb targetPlayerId theftPlayerId);
    [split; [intros [_ H] | intros H]; discriminate|].
  destruct (findPlayer gameState targetPlayerId) as [target|] eqn:Hfound;
    [|split; [intros [_ H] | intros H]; discriminate].
  assert (Htotal : 0 <= ResourceManager.getTotalResources (Player.resources target)).
  { apply find_some in Hfound. destruct Hfound as [Hin _].
    pose proof (Hnonneg target Hin) as H.
    rewrite getTotalResources_sum. unfold sumOverKinds.
    pose proof (H Wood). pose proof (H Brick). pose proof (H Wool).
    pose proof (H Wheat). pose proof (H Ore). lia. }
  destruct (Z.eqb_spec (ResourceManager.getTotalResources (Player.resources target)) 0)
    as [E|E].
  - split; [intros [_ H]; lia | discriminate].
  - destruct (RobberManager.playerHasAdjacentBuilding gameState targetPlayerId _)
      eqn:Hadj; cbn [negb].
    + apply playerHasAdjacentBuilding_spec in Hadj.
      split; [reflexivity|]. intros _. split; [assumption | lia].
    + split; [|discriminate]. intros [Hnext _].
      apply playerHasAdjacentBuilding_spec in Hnext. congruence.
Qed.

Lemma getValidStealTargets_accepted_witness :
  (forall p, In p (GameState.players robberExampleMoved) ->
             handNonnegative (Player.resources p)) /\
  In "player2" (RobberManager.getValidStealTargets robberExampleMoved "player1") /\
  RobberManager.canStealFromPlayer robberExampleMoved "player1" "player2"
    (GameBoard.robberLocation (GameState.board robberExampleMoved)) = Valid.
Proof.
  assert (Hnonneg : forall p, In p (GameState.players robberExampleMoved) ->
                              handNonnegative (Player.resources p)).
  { intros p Hin. vm_compute in Hin.
    destruct Hin as [<-|[<-|[]]]; intros k; destruct k; vm_compute; discriminate. }
  assert (Hin : In "player2"
                   (RobberManager.getValidStealTargets robberExampleMoved "player1"))
    by (vm_compute; tauto).
  split; [exact Hnonneg|]. split; [exact Hin|].
  exact (proj1 (getValidStealTargets_accepted robberExampleMoved "player1"
                  "player2" Hnonneg) Hin).
Defined.

Lemma stealRandomResource_returns fromPlayerId toPlayerId gameState u :
  findPlayer gameState fromPlayerId <> None ->
  findPlayer gameState toPlayerId <> None ->
  exists newState,
    ResourceManager.stealRandomResource fromPlayerId toPlayerId gameState u
    = Return newState.
Proof.
  intros Hfrom Hto.
  destruct (findPlayer gameState fromPlayerId) as [a|] eqn:Ha; [|congruence].
  destruct (findPlayer gameState toPlayerId) as [b|] eqn:Hb; [|congruence].
  destruct (findPlayer_seat _ _ _ Ha) as [i [Hi Hpi]].
  destruct (findPlayer_seat _ _ _ Hb) as [j [Hj _]].
  unfold ResourceManager.stealRandomResource. rewrite Hi, Hj, Hpi. cbv zeta.
  destruct (ResourceManager.availableResources _); eauto.
Qed.

Lemma getTotalResources_set held k v :
  ResourceManager.getTotalResources (Resources.set held k v)
  = ResourceManager.getTotalResources held - Resources.get held k + v.
Proof. destruct held, k; unfold ResourceManager.getTotalResources; simpl; lia. Qed.

Lemma totalUnits_modify f players : forall seat p,
  nth_error players seat = Some p ->
  totalUnits (modify_nth seat f players)
  = totalUnits players
    + ResourceManager.getTotalResources (Player.resources (f p))
    - ResourceManager.getTotalResources (Player.resources p).
Proof.
  unfold totalUnits, sumZ.
  induction players as [|q players IH]; intros seat p Hp; [now destruct seat|].
  destruct seat; cbn [modify_nth fold_right nth_error] in *.
  - injection Hp as ->. lia.
  - rewrite (IH _ _ Hp). lia.
Qed.

Lemma stealRandomResource_conserves fromPlayerId toPlayerId gameState u newState :
  fromPlayerId <> toPlayerId ->
  ResourceManager.stealRandomResource fromPlayerId toPlayerId gameState u
  = Return newState ->
  totalUnits (GameState.players newState) = totalUnits (GameState.players gameState).
Proof.
  intros Hne H. pose proof H as H'.
  unfold ResourceManager.stealRandomResource in H'.
  destruct (findPlayerIndex gameState fromPlayerId) as [victim|] eqn:Hv;
    [|discriminate].
  destruct (findPlayerIndex gameState toPlayerId) as [thief|] eqn:Ht;
    [|discriminate].
  destruct (nth_error (GameState.players gameState) victim) as [fromPlayer|] eqn:Hp;
    [|discriminate].
  pose proof (seats_differ _ _ _ _ _ Hv Ht Hne) as Hseats.
  destruct (findIndex_Some _ _ _ Ht) as [toPlayer [Hq _]].
  destruct (ResourceManager.availableResources (Player.resources fromPlayer))
    as [|first rest] eqn:Hav; [now injection H' as <-|].
  clear H'.
  rewrite (stealRandomResource_card _ _ _ _ _ _ _ _ _ _ _ Hv Ht Hp Hav eq_refl H).
  rewrite !players_modifyPlayer.
  rewrite (totalUnits_modify _ _ thief toPlayer)
    by (rewrite nth_error_modify_other; [assumption | exact Hseats]).
  rewrite (totalUnits_modify _ _ victim fromPlayer) by assumption.
  cbn [Player.resources Player.set_resource Player.set_resources].
  rewrite !getTotalResources_set. lia.
Qed.

Lemma moveRobber_players_or_steal gameState playerId newLocation target u newState :
  RobberManager.moveRobber gameState playerId newLocation target u = Return newState ->
  GameState.players newState = GameState.players gameState \/
  exists victimId moved,
    target = Some victimId /\ victimId <> playerId /\
    GameState.players moved = GameState.players gameState /\
    ResourceManager.stealRandomResource victimId playerId moved u = Return newState.
Proof.
  unfold RobberManager.moveRobber. intros H.
  apply bind_Return_inv in H. destruct H as [v [_ H]].
  apply bind_Return_inv in H. destruct H as [[] [_ H]].
  cbv zeta in H.
  destruct target as [victimId|]; [|left; injection H as <-; now destruct gameState].
  destruct (truthy (Some victimId) && negb (String.eqb victimId playerId)) eqn:Hc;
    [|left; injection H as <-; now destruct gameState].
  destruct (valid _); [|left; injection H as <-; now destruct gameState].
  right. apply andb_prop in Hc. destruct Hc as [_ Hc].
  apply negb_true_iff, String.eqb_neq in Hc.
  eexists victimId, _. split; [reflexivity|]. split; [exact Hc|].
  split; [|exact H]. now destruct gameState.
Qed.

Lemma moveRobber_returns gameState playerId newLocation targetPlayerId u :
  RobberManager.canMoveRobber gameState playerId newLocation = Return Valid ->
  exists newState,
    RobberManager.moveRobber gameState playerId newLocation targetPlayerId u
    = Return newState.
Proof.
  intros Hcan. unfold RobberManager.moveRobber. rewrite Hcan.
  cbn [bind check]. cbv zeta.
  destruct targetPlayerId as [victimId|]; [|eauto].
  destruct (truthy (Some victimId) && negb (String.eqb victimId playerId));
    [|eauto].
  match goal with
  | |- context [RobberManager.canStealFromPlayer ?s _ _ _] =>
      set (moved := s)
  end.
  destruct (RobberManager.canStealFromPlayer moved playerId victimId newLocation)
    eqn:Hsteal; cbn [valid]; [|eauto].
  assert (Hplayers : GameState.players moved = GameState.players gameState)
    by (unfold moved; now destruct gameState).
  apply stealRandomResource_returns.
  - unfold RobberManager.canStealFromPlayer in Hsteal.
    destruct (String.eqb playerId victimId); [discriminate|].
    destruct (findPlayer moved victimId); [discriminate | discriminate].
  - unfold RobberManager.canMoveRobber in Hcan.
    unfold findPlayer in *. rewrite Hplayers.
    destruct (find _ (GameState.players gameState)); discriminate.
Qed.

(** X21: [moveRobber] goes through exactly when [canMoveRobber] accepts the
    move, whoever is named as the victim and whether or not somebody could
    have been robbed; it keeps the seating and the number of cards in
    play, since a theft only moves a card from one hand to another. *)
Theorem moveRobber_accepts (gameState : GameState) (playerId : string)
    (newLocation : HexCoordinate) (targetPlayerId : option string) (u : nat) :
  ((exists newState,
      RobberManager.moveRobber gameState playerId newLocation targetPlayerId u
      = Return newState)
   <-> RobberManager.canMoveRobber gameState playerId newLocation = Return Valid) /\
  (forall newState,
     RobberManager.moveRobber gameState playerId newLocation targetPlayerId u
     = Return newState ->
     List.map Player.id (GameState.players newState)
     = List.map Player.id (GameState.players gameState) /\
     totalUnits (GameState.players newState)
     = totalUnits (GameState.players gameState)).
Proof.
  split.
  - split.
    + intros [newState H]. unfold RobberManager.moveRobber in H.
      apply bind_Return_inv in H. destruct H as [v [Hv H]].
      apply bind_Return_inv in H. destruct H as [[] [Hc _]].
      apply check_inv in Hc. now subst v.
    + apply moveRobber_returns.
  - intros newState H.
    destruct (moveRobber_players_or_steal _ _ _ _ _ _ H)
      as [->|[victimId [moved [_ [Hne [Hmoved Hsteal]]]]]].
    + split; reflexivity.
    + rewrite <- Hmoved. split.
      * pose proof (stealRandomResource_keeps _ _ _ _ _ Hsteal) as Hkeep.
        unfold keepsBonusView in Hkeep.
        apply (f_equal (List.map fst)) in Hkeep.
        now rewrite !map_map in Hkeep.
      * now apply (stealRandomResource_conserves victimId playerId moved u).
Qed.

(** * Trading *)

Lemma positiveEntries_In amounts k v :
  In (k, v) (TradingManager.positiveEntries amounts)
  <-> PartialResources.get amounts k = Some v /\ 0 < v.
Proof.
  unfold TradingManager.positiveEntries. rewrite filter_In, entries_In.
  cbn [snd]. split; intros [H1 H2]; (split; [assumption | lia]).
Qed.

Lemma positiveEntries_single amounts kind amount k :
  TradingManager.positiveEntries amounts = [(kind, amount)] ->
  0 < amount /\
  positivePart amounts k = if ResourceType_eqb kind k then amount else 0.
Proof.
  intros H.
  assert (Hkind : PartialResources.get amounts kind = Some amount /\ 0 < amount).
  { apply positiveEntries_In. rewrite H. now left. }
  split; [apply Hkind|].
  unfold positivePart, amountOf.
  destruct (ResourceType_eqb kind k) eqn:E.
  - apply ResourceType_eqb_eq in E. subst k. destruct Hkind as [-> ?]. lia.
  - destruct (PartialResources.get amounts k) as [v|] eqn:Hk; [|reflexivity].
    destruct (Z.le_gt_cases v 0); [lia|].
    assert (Hin : In (k, v) (TradingManager.positiveEntries amounts))
      by (apply positiveEntries_In; split; [assumption | lia]).
    rewrite H in Hin. destruct Hin as [[= -> _]|[]].
    now rewrite ResourceType_eqb_refl in E.
Qed.

(** X22: a trade with the bank that is carried out.  One kind is offered
    and one requested, in positive amounts; the trader's hand loses the
    offered amount and gains the requested one, and nobody else is
    involved. *)
Theorem bank_trade_outcome (gameState : GameState) (offer : TradeOffer)
    (newState : GameState) :
  truthy (TradeOffer.toPlayerId offer) = false ->
  TradingManager.executeTrade gameState offer = Return newState ->
  exists seat offered offeredAmount requested requestedAmount,
    seatOf (GameState.players gameState) (TradeOffer.fromPlayerId offer)
    = Some seat /\
    TradingManager.positiveEntries (TradeOffer.offering offer)
    = [(offered, offeredAmount)] /\
    TradingManager.positiveEntries (TradeOffer.requesting offer)
    = [(requested, requestedAmount)] /\
    0 < offeredAmount /\ 0 < requestedAmount /\
    (forall k,
       handAt (GameState.players newState) seat k
       = handAt (GameState.players gameState) seat k
         - (if ResourceType_eqb offered k then offeredAmount else 0)
         + (if ResourceType_eqb requested k then requestedAmount else 0)) /\
    (forall index,
       index <> seat ->
       nth_error (GameState.players newState) index
       = nth_error (GameState.players gameState) index).
Proof.
  intros Hbank H. unfold TradingManager.executeTrade in H.
  apply bind_Return_inv in H. destruct H as [[] [Hcheck H]].
  apply check_inv in Hcheck.
  apply withPlayer_inv in H. destruct H as [seat [player [Hseat [Hp H]]]].
  cbv zeta in H.
  assert (Hs2 : newState
                = GameState.modifyPlayer seat
                    (fun p => Player.set_resources
                                (ResourceManager.addResources (Player.resources p)
                                   (TradeOffer.requesting offer)) p)
                    (GameState.modifyPlayer seat
                       (fun p => Player.set_resources
                                   (ResourceManager.subtractResources
                                      (Player.resources p)
                                      (TradeOffer.offering offer)) p)
                       gameState)).
  { destruct (TradeOffer.toPlayerId offer) as [target|].
    - rewrite Hbank in H. now injection H as <-.
    - now injection H as <-. }
  clear H. subst newState.
  unfold TradingManager.validatePlayerTrade in Hcheck.
  rewrite (findPlayer_at_seat _ _ _ Hseat), Hp, Hbank in Hcheck.
  cbn [andb negb] in Hcheck.
  destruct (ResourceManager.hasResources (Player.resources player)
              (TradeOffer.offering offer)) eqn:Hhas; [|discriminate].
  cbn [negb] in Hcheck.
  unfold TradingManager.validateBankTrade in Hcheck.
  rewrite (findPlayer_at_seat _ _ _ Hseat), Hp, Hhas in Hcheck.
  cbn [negb] in Hcheck.
  destruct (TradingManager.positiveEntries (TradeOffer.offering offer))
    as [|[offered a] [|? ?]] eqn:Hoff; try discriminate.
  destruct (TradingManager.positiveEntries (TradeOffer.requesting offer))
    as [|[requested b] [|? ?]] eqn:Hreq; try discriminate.
  clear Hcheck.
  exists seat, offered, a, requested, b.
  split; [exact Hseat|]. split; [reflexivity|]. split; [reflexivity|].
  split; [apply (positiveEntries_single _ _ _ Wood Hoff)|].
  split; [apply (positiveEntries_single _ _ _ Wood Hreq)|].
  rewrite !players_modifyPlayer, modify_nth_compose. split.
  - intros k. rewrite handAt_modify, Nat.eqb_refl. unfold handAt. rewrite Hp.
    cbn [Player.resources Player.set_resources].
    rewrite get_add_positivePart, get_subtract_exact by assumption.
    rewrite (proj2 (positiveEntries_single _ _ _ k Hoff)).
    now rewrite (proj2 (positiveEntries_single _ _ _ k Hreq)).
  - intros index Hne. now apply nth_error_modify_other.
Qed.

Lemma bank_trade_outcome_witness :
  truthy (TradeOffer.toPlayerId bankOffer) = false /\
  TradingManager.executeTrade bankExample bankOffer = Return bankExampleAfter /\
  exists seat,
    seatOf (GameState.players bankExample) "player1" = Some seat /\
    handAt (GameState.players bankExampleAfter) seat Brick = 1.
Proof.
  assert (Hbank : truthy (TradeOffer.toPlayerId bankOffer) = false) by reflexivity.
  assert (H : TradingManager.executeTrade bankExample bankOffer
              = Return bankExampleAfter) by (vm_compute; reflexivity).
  split; [exact Hbank|]. split; [exact H|].
  destruct (bank_trade_outcome _ _ _ Hbank H)
    as [seat [offered [a [requested [b [Hseat [Hoff [Hreq [_ [_ [Hhand _]]]]]]]]]]].
  exists seat. split; [exact Hseat|].
  rewrite Hhand. injection Hoff as <- <-. injection Hreq as <- <-.
  injection Hseat as <-. reflexivity.
Defined.

(** X23: the bank trades that [getPossibleBankTrades] proposes are
    accepted.  On a board whose ports carry the generator's rates, every
    proposal names two different kinds, the ratio that applies to the kind
    offered and a positive whole number of trades; and for any number of
    trades up to that maximum, the offer built by [createBankTradeOffer]
    passes [validateBankTrade]. *)
Theorem getPossibleBankTrades_accepted (gameState : GameState)
    (playerId : string) (player : Player) (trade : TradingManager.PossibleTrade.t) :
  findPlayer gameState playerId = Some player ->
  standardPorts (GameState.board gameState) ->
  In trade (TradingManager.getPossibleBankTrades gameState playerId) ->
  TradingManager.PossibleTrade.offeringResource trade
    <> TradingManager.PossibleTrade.requestingResource trade /\
  TradingManager.PossibleTrade.ratio trade
  = requiredRatio gameState player
      (TradingManager.PossibleTrade.offeringResource trade) /\
  exists maxTrades,
    TradingManager.PossibleTrade.maxTrades trade = TradingManager.Finite maxTrades /\
    0 < maxTrades /\
    maxTrades
    = Resources.get (Player.resources player)
        (TradingManager.PossibleTrade.offeringResource trade)
      / TradingManager.PossibleTrade.ratio trade /\
    forall trades,
      0 < trades <= maxTrades ->
      TradingManager.validateBankTrade gameState
        (TradingManager.createBankTradeOffer playerId
           (TradingManager.PossibleTrade.offeringResource trade)
           (TradingManager.PossibleTrade.ratio trade * trades)
           (TradingManager.PossibleTrade.requestingResource trade)
           trades)
      = Valid.
Proof.
  intros Hfound Hports Hin.
  pose proof (findPlayer_id _ _ _ Hfound) as Hid.
  unfold TradingManager.getPossibleBankTrades in Hin. rewrite Hfound in Hin.
  apply in_flat_map in Hin. destruct Hin as [offered [_ Hin]].
  destruct (Z.eqb_spec (Resources.get (Player.resources player) offered) 0);
    [contradiction|].
  cbv zeta in Hin.
  assert (Hratio : TradingManager.getBestTradeRatio
                     (TradingManager.getAccessiblePorts gameState playerId) offered
                   = requiredRatio gameState player offered).
  { rewrite <- Hid. apply bestRatio_is_requiredRatio; [now rewrite Hid | assumption]. }
  rewrite Hratio in Hin.
  assert (Hrange : 2 <= requiredRatio gameState player offered <= 4).
  { unfold requiredRatio.
    destruct (hasBuildingOnPort gameState player Generic),
             (hasBuildingOnPort gameState player (Specific offered)); lia. }
  unfold TradingManager.floorDivide in Hin.
  destruct (Z.eqb_spec (requiredRatio gameState player offered) 0); [lia|].
  cbn [TradingManager.isPositive] in Hin.
  destruct (Z.gtb_spec (Resources.get (Player.resources player) offered
                        / requiredRatio gameState player offered) 0)
    as [Hmax|]; [|contradiction].
  apply in_flat_map in Hin. destruct Hin as [requested [_ Hin]].
  destruct (ResourceType_eqb requested offered) eqn:Hsame; cbn [negb] in Hin;
    [contradiction|].
  destruct Hin as [<-|[]]. cbn [TradingManager.PossibleTrade.offeringResource
                                TradingManager.PossibleTrade.requestingResource
                                TradingManager.PossibleTrade.ratio
                                TradingManager.PossibleTrade.maxTrades].
  split.
  { intros ->. now rewrite ResourceType_eqb_refl in Hsame. }
  split; [reflexivity|].
  eexists. split; [reflexivity|]. split; [lia|]. split; [reflexivity|].
  intros trades [Hpos Hle].
  set (ratio := requiredRatio gameState player offered) in *.
  assert (Hafford : ratio * trades
                    <= Resources.get (Player.resources player) offered).
  { pose proof (Z.mul_div_le (Resources.get (Player.resources player) offered)
                             ratio ltac:(lia)). nia. }
  unfold TradingManager.validateBankTrade, TradingManager.createBankTradeOffer.
  cbn [TradeOffer.fromPlayerId TradeOffer.offering TradeOffer.requesting].
  rewrite Hfound.
  assert (Hhas : ResourceManager.hasResources (Player.resources player)
                   (PartialResources.set PartialResources.empty offered
                                         (ratio * trades)) = true).
  { apply hasResources_get. intros k a Hk.
    destruct offered, k; cbn in Hk; try discriminate; injection Hk as <-;
      exact Hafford. }
  rewrite Hhas. cbn [negb].
  assert (Hoff : TradingManager.positiveEntries
                   (PartialResources.set PartialResources.empty offered
                                         (ratio * trades))
                 = [(offered, ratio * trades)]).
  { unfold TradingManager.positiveEntries, PartialResources.entries.
    destruct offered; cbn [flat_map allResourceTypes PartialResources.get
                           PartialResources.set PartialResources.empty
                           PartialResources.wood PartialResources.brick
                           PartialResources.wool PartialResources.wheat
                           PartialResources.ore app filter snd];
      destruct (Z.gtb_spec (ratio * trades) 0); try reflexivity; nia. }
  assert (Hreq : TradingManager.positiveEntries
                   (PartialResources.set PartialResources.empty requested trades)
                 = [(requested, trades)]).
  { unfold TradingManager.positiveEntries, PartialResources.entries.
    destruct requested; cbn [flat_map allResourceTypes PartialResources.get
                             PartialResources.set PartialResources.empty
                             PartialResources.wood PartialResources.brick
                             PartialResources.wool PartialResources.wheat
                             PartialResources.ore app filter snd];
      destruct (Z.gtb_spec trades 0); try reflexivity; lia. }
  rewrite Hoff, Hreq, Hratio. fold ratio.
  destruct (Z.ltb_spec (ratio * trades) (ratio * trades)); [lia | reflexivity].
Qed.

Lemma getPossibleBankTrades_accepted_witness :
  findPlayer bankExample "player1" = Some bankPlayer /\
  standardPorts (GameState.board bankExample) /\
  In (TradingManager.PossibleTrade.mk Wood Brick 2 (TradingManager.Finite 1))
     (TradingManager.getPossibleBankTrades bankExample "player1") /\
  requiredRatio bankExample bankPlayer Wood = 2.
Proof.
  assert (Hfound : findPlayer bankExample "player1" = Some bankPlayer)
    by reflexivity.
  assert (Hports : standardPorts (GameState.board bankExample))
    by exact standardBoard_standardPorts.
  assert (Hin : In (TradingManager.PossibleTrade.mk Wood Brick 2
                      (TradingManager.Finite 1))
                   (TradingManager.getPossibleBankTrades bankExample "player1"))
    by (vm_compute; tauto).
  split; [exact Hfound|]. split; [exact Hports|]. split; [exact Hin|].
  symmetry.
  exact (proj1 (proj2 (getPossibleBankTrades_accepted bankExample "player1"
                         bankPlayer _ Hfound Hports Hin))).
Defined.

(** * Victory *)

Section AwardRule.
(** The rule that [award] applies, for either bonus. *)
Variable holds : Player -> bool.
Variable setHolds : bool -> Player -> Player.
Hypothesis holds_setHolds : forall b p, holds (setHolds b p) = b.
Hypothesis id_setHolds : forall b p, Player.id (setHolds b p) = Player.id p.
Hypothesis holds_victoryPoints :
  forall v p, holds (Player.set_victoryPoints v p) = holds p.
Variable minimum : Z.

Lemma award_rule
    (gameState : GameState) (scores : list (string * Z))
    (Hseats : NoDup (List.map Player.id (GameState.players gameState)))
    (Hone : atMostOneHolder holds (GameState.players gameState))
    (Hids : List.map fst scores
            = List.map Player.id (GameState.players gameState)) :
  exists newState : GameState,
    VictoryManager.award holds setHolds minimum scores gameState
    = Return newState /\
    List.map fst scores = List.map Player.id (GameState.players newState) /\
    atMostOneHolder holds (GameState.players newState) /\
    let before := holdsBonus holds (GameState.players gameState) in
    let after := holdsBonus holds (GameState.players newState) in
    (forall a x, In (a, x) scores -> after a = true -> minimum <= x) /\
    (forall a x,
        In (a, x) scores -> minimum <= x ->
        (forall b y, In (b, y) scores -> b <> a -> y < x) ->
        forall c, after c = String.eqb c a) /\
    (forall a b x,
        a <> b -> In (a, x) scores -> In (b, x) scores -> minimum <= x ->
        (forall c y, In (c, y) scores -> y <= x) ->
        (forall c, after c = true -> before c = true) /\
        (forall c, before c = true -> In (c, x) scores -> after c = true) /\
        (forall c y, before c = true -> In (c, y) scores -> y < x ->
                     after c = false)).
Proof.
  destruct (award_outcome holds setHolds holds_setHolds id_setHolds
              holds_victoryPoints minimum scores gameState Hseats Hone Hids)
    as [newState [Haward [Hids' Hafter]]].
  exists newState. split; [exact Haward|]. split; [congruence|].
  set (valid := List.filter (fun e => snd e >=? minimum) scores) in *.
  assert (Hvalid : forall a x, In (a, x) valid <-> In (a, x) scores /\ minimum <= x).
  { intros a x. unfold valid. rewrite filter_In. simpl. rewrite Z.geb_le. tauto. }
  assert (Hnd : NoDup (List.map fst scores)) by now rewrite Hids.
  assert (Hfun : forall a x y, In (a, x) scores -> In (a, y) scores -> x = y).
  { intros a x y. now apply NoDup_fst_functional. }
  assert (Hndv : NoDup (List.map fst valid)) by now apply NoDup_map_filter.
  pose proof (tiedLeaders_NoDup valid Hndv) as Hndt.
  assert (Hcases :
    valid = [] /\ (forall c, holdsBonus holds
                               (GameState.players newState) c = false) \/
    exists top,
      (minimum <= top /\ exists a0, In (a0, top) scores) /\
      (forall a x, In (a, x) scores -> minimum <= x -> x <= top) /\
      (forall a x, In (a, x) (tiedLeaders valid) <-> In (a, x) scores /\ x = top) /\
      tiedLeaders valid <> [] /\
      forall c,
        holdsBonus holds (GameState.players newState) c
        = match tiedLeaders valid with
          | [winner] => String.eqb c (fst winner)
          | _ =>
              holdsBonus holds
                         (GameState.players gameState) c &&
              existsb (fun e => String.eqb (fst e) c) (tiedLeaders valid)
          end).
  { destruct valid as [|v0 valid'] eqn:Ev; [left; split; [reflexivity | exact Hafter]|].
    right. rewrite <- Ev in *.
    destruct (tiedLeaders_spec valid) as [top [Hmax [[[a0 x0] [Hin0 Htop0]] Htied]]];
      [rewrite Ev; discriminate|].
    simpl in Htop0. subst x0. exists top.
    apply Hvalid in Hin0 as Hin0'. destruct Hin0' as [Hin0l Htopmin].
    split; [split; [assumption | now exists a0]|]. split.
    { intros a x Ha Hx. apply (Hmax (a, x)). apply Hvalid. tauto. }
    split.
    { intros a x. rewrite (Htied (a, x)), Hvalid. simpl.
      split; [tauto|]. intros [H ->]. tauto. }
    split.
    { intros Hnil. assert (H : In (a0, top) (tiedLeaders valid))
        by (apply Htied; tauto). now rewrite Hnil in H. }
    intros c. apply Hafter. }
  clearbody valid. clear Hafter.
  assert (Huniq : forall c c',
             holdsBonus holds (GameState.players newState) c = true ->
             holdsBonus holds (GameState.players newState) c' = true ->
             c = c').
  { intros c c'. destruct Hcases as [[_ Hnone]|[top [_ [_ [_ [_ Hafter]]]]]].
    - rewrite Hnone. discriminate.
    - rewrite !Hafter.
      destruct (tiedLeaders valid) as [|winner [|second rest]].
      + rewrite !andb_false_r. discriminate.
      + rewrite !String.eqb_eq. congruence.
      + intros Hc Hc'. apply andb_true_iff in Hc, Hc'.
        destruct Hc as [Hc _], Hc' as [Hc' _].
        destruct (List.find holds
                            (GameState.players gameState)) as [inc|] eqn:Hfind.
        * rewrite (holdsBonus_incumbent _ _ _ Hone Hfind) in Hc, Hc'.
          apply String.eqb_eq in Hc, Hc'. congruence.
        * rewrite (holdsBonus_vacant _ _ Hfind) in Hc. discriminate. }
  split; [apply atMostOneHolder_unique; [now rewrite Hids' | exact Huniq]|].
  cbv zeta. split; [|split].
  - (* below the minimum, no bonus *)
    intros a x Hin Hhold.
    destruct Hcases as [[_ Hnone]|[top [[Htopmin _] [_ [Htied [_ Hafter]]]]]];
      [rewrite Hnone in Hhold; discriminate|].
    rewrite Hafter in Hhold.
    assert (Hmem : exists y, In (a, y) (tiedLeaders valid)).
    { destruct (tiedLeaders valid) as [|[w y] [|second rest]] eqn:Et.
      - rewrite andb_false_r in Hhold. discriminate.
      - simpl in Hhold. apply String.eqb_eq in Hhold. subst. exists y. now left.
      - apply andb_true_iff in Hhold. destruct Hhold as [_ Hhold].
        now apply existsb_fst_In in Hhold. }
    destruct Hmem as [y Hy]. apply Htied in Hy. destruct Hy as [Hy ->].
    now rewrite (Hfun a x top Hin Hy).
  - (* a strict leader takes it *)
    intros a x Hin Hx Hstrict c.
    destruct Hcases as [[Hnil _]|[top [Htopmin [Hmax [Htied [Hne Hafter]]]]]].
    { assert (H : In (a, x) valid) by (apply Hvalid; tauto). now rewrite Hnil in H. }
    assert (Honly : forall b y, In (b, y) (tiedLeaders valid) -> (b, y) = (a, x)).
    { intros b y Hb. apply Htied in Hb. destruct Hb as [Hb ->].
      destruct (string_dec b a) as [->|Hba].
      - now rewrite (Hfun a top x Hb Hin).
      - pose proof (Hstrict b top Hb Hba). pose proof (Hmax a x Hin Hx). lia. }
    rewrite Hafter.
    destruct (tiedLeaders valid) as [|[w y] [|[w2 y2] rest]] eqn:Et.
    + now elim Hne.
    + pose proof (Honly w y (or_introl eq_refl)) as E1.
      injection E1 as -> ->. reflexivity.
    + pose proof (Honly w y (or_introl eq_refl)) as E1.
      pose proof (Honly w2 y2 (or_intror (or_introl eq_refl))) as E2.
      injection E1 as -> ->. injection E2 as -> ->.
      simpl in Hndt. inversion Hndt as [|? ? Hnotin _]; subst.
      elim Hnotin. now left.
  - (* a tie never transfers *)
    intros a b x Hab Ha Hb Hx Hmaxx.
    destruct Hcases as [[Hnil _]|[top [Htopmin [Hmax [Htied [Hne Hafter]]]]]].
    { assert (H : In (a, x) valid) by (apply Hvalid; tauto). now rewrite Hnil in H. }
    assert (Htopx : top = x).
    { destruct Htopmin as [_ [a0 Ha0]].
      pose proof (Hmaxx a0 top Ha0). pose proof (Hmax a x Ha Hx). lia. }
    subst top.
    assert (Hta : In (a, x) (tiedLeaders valid)) by (apply Htied; tauto).
    assert (Htb : In (b, x) (tiedLeaders valid)) by (apply Htied; tauto).
    assert (Hform : forall c,
               holdsBonus holds (GameState.players newState) c
               = holdsBonus holds (GameState.players gameState) c
                 && existsb (fun e => String.eqb (fst e) c) (tiedLeaders valid)).
    { intros c. rewrite Hafter.
      destruct (tiedLeaders valid) as [|w [|w2 rest]] eqn:Et; try reflexivity.
      destruct Hta as [Ea|[]], Htb as [Eb|[]]. elim Hab. congruence. }
    split; [|split].
    + intros c Hc. rewrite Hform in Hc. now apply andb_true_iff in Hc.
    + intros c Hc Hin. rewrite Hform, Hc. simpl.
      apply existsb_fst_In. exists x. apply Htied. tauto.
    + intros c y Hc Hin Hlt. rewrite Hform, Hc. simpl.
      apply not_true_is_false. intros Hex. apply existsb_fst_In in Hex.
      destruct Hex as [z Hz]. apply Htied in Hz. destruct Hz as [Hz ->].
      pose proof (Hfun c y x Hin Hz). lia.
Qed.

End AwardRule.

Lemma holdsLargestArmy_facts :
  (forall b p, VictoryManager.holdsLargestArmy (Player.set_largestArmy b p) = b) /\
  (forall b p, Player.id (Player.set_largestArmy b p) = Player.id p) /\
  (forall v p, VictoryManager.holdsLargestArmy (Player.set_victoryPoints v p)
               = VictoryManager.holdsLargestArmy p).
Proof. repeat split; intros ? p; now destruct p. Qed.

(** X24: the largest army, as [updateLargestArmy] of the victory manager
    awards it.  With distinct player ids and at most one holder going in,
    the update returns, keeps the seating and leaves at most one holder; a
    holder has played three knights or more; a player with three or more
    knights and strictly more than everybody else becomes the one holder;
    and when the top count is shared, no flag is newly set: a holder at the
    top keeps the bonus and a holder below it loses it. *)
Theorem largest_army_award (gameState : GameState)
    (Hseats : NoDup (List.map Player.id (GameState.players gameState)))
    (Hone : atMostOneHolder VictoryManager.holdsLargestArmy
              (GameState.players gameState)) :
  exists newState : GameState,
    VictoryManager.updateLargestArmy gameState = Return newState /\
    List.map Player.id (GameState.players newState)
    = List.map Player.id (GameState.players gameState) /\
    atMostOneHolder VictoryManager.holdsLargestArmy (GameState.players newState) /\
    let knights := VictoryManager.armySizes gameState in
    let before := holdsBonus VictoryManager.holdsLargestArmy
                    (GameState.players gameState) in
    let after := holdsBonus VictoryManager.holdsLargestArmy
                   (GameState.players newState) in
    (forall a x, In (a, x) knights -> after a = true -> 3 <= x) /\
    (forall a x,
        In (a, x) knights -> 3 <= x ->
        (forall b y, In (b, y) knights -> b <> a -> y < x) ->
        forall c, after c = String.eqb c a) /\
    (forall a b x,
        a <> b -> In (a, x) knights -> In (b, x) knights -> 3 <= x ->
        (forall c y, In (c, y) knights -> y <= x) ->
        (forall c, after c = true -> before c = true) /\
        (forall c, before c = true -> In (c, x) knights -> after c = true) /\
        (forall c y, before c = true -> In (c, y) knights -> y < x ->
                     after c = false)).
Proof.
  destruct holdsLargestArmy_facts as [F1 [F2 F3]].
  assert (Hids : List.map fst (VictoryManager.armySizes gameState)
                 = List.map Player.id (GameState.players gameState)).
  { unfold VictoryManager.armySizes. now rewrite map_map. }
  destruct (award_rule VictoryManager.holdsLargestArmy Player.set_largestArmy
              F1 F2 F3 3 gameState (VictoryManager.armySizes gameState)
              Hseats Hone Hids)
    as [newState [Haward [Hids' [Hone' Hrule]]]].
  exists newState. split; [exact Haward|].
  split; [congruence|]. split; [exact Hone'|]. exact Hrule.
Qed.

Lemma largest_army_award_witness :
  NoDup (List.map Player.id (GameState.players armyExample)) /\
  atMostOneHolder VictoryManager.holdsLargestArmy (GameState.players armyExample) /\
  exists newState,
    VictoryManager.updateLargestArmy armyExample = Return newState /\
    holdsBonus VictoryManager.holdsLargestArmy (GameState.players newState)
               "player1" = true.
Proof.
  assert (Hseats : NoDup (List.map Player.id (GameState.players armyExample))).
  { cbn. repeat constructor; cbn; intuition discriminate. }
  assert (Hone : atMostOneHolder VictoryManager.holdsLargestArmy
                   (GameState.players armyExample))
    by (unfold atMostOneHolder; cbn; lia).
  split; [exact Hseats|]. split; [exact Hone|].
  destruct (largest_army_award armyExample Hseats Hone)
    as [newState [Hupdate [_ [_ [_ [Hleader _]]]]]].
  exists newState. split; [exact Hupdate|].
  rewrite (Hleader "player1" 3).
  - reflexivity.
  - cbn. tauto.
  - lia.
  - intros b y Hin Hne. cbn in Hin.
    destruct Hin as [[= <- <-]|[[= <- <-]|[]]]; [congruence | lia].
Defined.

Lemma calculateVictoryPoints_stored (player : Player) :
  VictoryManager.calculateVictoryPoints player = Player.victoryPoints player.
Proof.
  unfold VictoryManager.calculateVictoryPoints, VictoryManager.bonus.
  cbv zeta.
  destruct (SpecialCards.longestRoad (Player.specialCards player)),
           (SpecialCards.largestArmy (Player.specialCards player)); lia.
Qed.

(** X25: the points [calculateVictoryPoints] computes are the stored
    [victoryPoints]: the terms for settlements, cities and bonus cards that
    it adds are subtracted again.  Writing them back changes nothing, and
    the total of the breakdown is the larger of the stored points and the
    points on the board. *)
Theorem calculateVictoryPoints_is_stored (player : Player) (gameState : GameState) :
  VictoryManager.calculateVictoryPoints player = Player.victoryPoints player /\
  VictoryManager.updatePlayerVictoryPoints gameState = gameState /\
  VictoryManager.Breakdown.total (VictoryManager.getVictoryPointBreakdown player)
  = Z.max (Player.victoryPoints player) (pointsOnBoard player).
Proof.
  split; [apply calculateVictoryPoints_stored|]. split.
  - unfold VictoryManager.updatePlayerVictoryPoints.
    rewrite (map_ext _ (fun p => p)).
    + rewrite map_id. now destruct gameState.
    + intros p. rewrite calculateVictoryPoints_stored. now destruct p.
  - unfold VictoryManager.getVictoryPointBreakdown, pointsOnBoard,
      VictoryManager.bonus.
    cbn [VictoryManager.Breakdown.total].
    destruct (SpecialCards.longestRoad (Player.specialCards player)),
             (SpecialCards.largestArmy (Player.specialCards player)); lia.
Qed.

Lemma getWinner_first gameState :
  VictoryManager.getWinner gameState
  = List.hd_error
      (List.filter (fun p => 10 <=? Player.victoryPoints p)
                   (GameState.players gameState)).
Proof.
  unfold VictoryManager.getWinner.
  rewrite (filter_ext _ (fun p => 10 <=? Player.victoryPoints p)).
  - now destruct (List.filter _ _).
  - intros p.
    rewrite calculateVictoryPoints_stored.
    apply Z.geb_leb.
Qed.

Lemma updateLongestRoad_ids s s' :
  VictoryManager.updateLongestRoad s = Return s' ->
  List.map Player.id (GameState.players s') = List.map Player.id (GameState.players s).
Proof.
  unfold VictoryManager.updateLongestRoad. intros H.
  apply bind_Return_inv in H. destruct H as [lengths [_ H]].
  revert H. apply award_keeps; reflexivity.
Qed.

Lemma updateLargestArmy_ids s s' :
  VictoryManager.updateLargestArmy s = Return s' ->
  List.map Player.id (GameState.players s') = List.map Player.id (GameState.players s).
Proof. unfold VictoryManager.updateLargestArmy. apply award_keeps; reflexivity. Qed.

(** X26: what every accepted action leaves behind.  The players are the
    same, in the same seats.  When some player then has ten points or more,
    the game is over and its winner is the first such player in seating
    order. *)
Theorem processAction_declares_winner (gameState : GameState) (action : Action)
    (draws : Draws) (final : GameState) :
  CatanRuleEngine.processAction gameState action draws = Success final ->
  List.map Player.id (GameState.players final)
  = List.map Player.id (GameState.players gameState) /\
  VictoryManager.getWinner final
  = List.hd_error
      (List.filter (fun p => 10 <=? Player.victoryPoints p)
                   (GameState.players final)) /\
  forall winner,
    VictoryManager.getWinner final = Some winner ->
    GameState.phase final = GAME_OVER /\
    GameState.winner final = Some (Player.id winner).
Proof.
  intros H.
  destruct (processAction_Success_inv _ _ _ _ H)
    as [handled [crowned [armed [Hhandled [Hcrown [Harmy [Hplayers _]]]]]]].
  split.
  { rewrite Hplayers, (updateLargestArmy_ids _ _ Harmy),
      (updateLongestRoad_ids _ _ Hcrown).
    apply ids_of_bonusView. exact (dispatch_keeps _ _ _ _ Hhandled). }
  split; [apply getWinner_first|].
  intros winner Hwinner.
  assert (Hsame : VictoryManager.getWinner final = VictoryManager.getWinner armed)
    by (unfold VictoryManager.getWinner; now rewrite Hplayers).
  rewrite Hsame in Hwinner.
  unfold CatanRuleEngine.processAction, CatanRuleEngine.tryProcessAction in H.
  rewrite Hhandled in H. cbn [bind] in H. rewrite Hcrown in H. cbn [bind] in H.
  rewrite Harmy in H. cbn [bind] in H.
  unfold VictoryManager.checkGameEnd in H. rewrite Hwinner in H.
  injection H as <-. split; reflexivity.
Qed.

Lemma processAction_declares_winner_witness :
  CatanRuleEngine.processAction lastCardExample lastCardPlayed noDraws
  = Success lastCardExampleAfter /\
  GameState.phase lastCardExampleAfter = GAME_OVER /\
  GameState.winner lastCardExampleAfter = Some "player1".
Proof.
  assert (H : CatanRuleEngine.processAction lastCardExample lastCardPlayed noDraws
              = Success lastCardExampleAfter) by (vm_compute; reflexivity).
  split; [exact H|].
  destruct (processAction_declares_winner _ _ _ _ H) as [_ [_ Hwinner]].
  exact (Hwinner (Player.mk "player1" "red" (Resources.mk 0 0 0 0 0)
                    (DevelopmentCards.mk 0 0 0 0 0) (Buildings.mk [] [] [])
                    (SpecialCards.mk false false) 0 10 true) eq_refl).
Defined.

(** * Invariants of a game *)

Lemma subtractResources_nonnegative held amounts :
  handNonnegative held ->
  handNonnegative (ResourceManager.subtractResources held amounts).
Proof.
  intros H k. specialize (H k).
  destruct (get_subtract_positivePart held amounts k) as [E|[_ E]];
    rewrite E; lia.
Qed.

Lemma addResources_nonnegative held amounts :
  handNonnegative held ->
  handNonnegative (ResourceManager.addResources held amounts).
Proof.
  intros H k. specialize (H k). rewrite get_add_positivePart.
  unfold positivePart. lia.
Qed.

Lemma set_nonnegative held k v :
  handNonnegative held -> 0 <= v -> handNonnegative (Resources.set held k v).
Proof.
  intros H Hv k'. unfold handNonnegative in H. rewrite Resources_get_set.
  destruct (ResourceType_eqb k k'); [exact Hv | apply H].
Qed.

Lemma set_resource_nonnegative k v p :
  handNonnegative (Player.resources p) -> 0 <= v ->
  handNonnegative (Player.resources (Player.set_resource k v p)).
Proof. intros H Hv. destruct p. exact (set_nonnegative _ _ _ H Hv). Qed.

Lemma Forall_modify_nth {A} (P : A -> Prop) (f : A -> A) (l : list A) i :
  (forall x, nth_error l i = Some x -> P x -> P (f x)) ->
  Forall P l -> Forall P (modify_nth i f l).
Proof.
  intros Hf Hl. apply Forall_forall. intros y Hy.
  apply In_nth_error in Hy. destruct Hy as [n Hn].
  rewrite nth_error_modify_nth in Hn.
  rewrite Forall_forall in Hl.
  destruct (Nat.eqb_spec i n) as [E|_]; [subst n|].
  - destruct (nth_error l i) as [x|] eqn:Hx; [|discriminate].
    simpl in Hn. injection Hn as <-. apply Hf; [reflexivity|].
    apply Hl. eapply nth_error_In. exact Hx.
  - apply Hl. eapply nth_error_In. exact Hn.
Qed.

Lemma keepsHands_refl s : keepsHands s s.
Proof. split; [trivial | reflexivity]. Qed.

Lemma keepsHands_trans s1 s2 s3 :
  keepsHands s1 s2 -> keepsHands s2 s3 -> keepsHands s1 s3.
Proof. unfold keepsHands. intros [H1 E1] [H2 E2]. split; [auto | congruence]. Qed.

Lemma keepsHands_modifyPlayer s seat f :
  (forall p, nth_error (GameState.players s) seat = Some p ->
             handNonnegative (Player.resources p) ->
             handNonnegative (Player.resources (f p))) ->
  keepsHands s (GameState.modifyPlayer seat f s).
Proof.
  intros Hf. split; [|reflexivity].
  unfold handsNonnegative. rewrite players_modifyPlayer.
  now apply Forall_modify_nth.
Qed.

Lemma hands_of_resources s s' :
  List.map Player.resources (GameState.players s')
  = List.map Player.resources (GameState.players s) ->
  handsNonnegative s -> handsNonnegative s'.
Proof.
  intros E. unfold handsNonnegative. rewrite !Forall_forall. intros H p Hp.
  apply (in_map Player.resources) in Hp. rewrite E in Hp.
  apply in_map_iff in Hp. destruct Hp as [q [<- Hq]]. now apply H.
Qed.

Lemma keepsHands_resources s s' :
  List.map Player.resources (GameState.players s')
  = List.map Player.resources (GameState.players s) ->
  GameState.currentPlayerIndex s' = GameState.currentPlayerIndex s ->
  keepsHands s s'.
Proof. intros E Hi. split; [now apply hands_of_resources | assumption]. Qed.

Lemma keepsHands_pay s seat player cost :
  nth_error (GameState.players s) seat = Some player ->
  keepsHands s
    (GameState.modifyPlayer seat
       (Player.set_resources
          (ResourceManager.subtractResources (Player.resources player) cost)) s).
Proof.
  intros Hn. apply keepsHands_modifyPlayer. intros p Hp Hhand.
  rewrite Hn in Hp. injection Hp as <-. destruct player.
  now apply subtractResources_nonnegative.
Qed.

Lemma keepsHands_subtract s seat amounts :
  keepsHands s
    (GameState.modifyPlayer seat
       (fun p => Player.set_resources
                   (ResourceManager.subtractResources (Player.resources p) amounts)
                   p) s).
Proof.
  apply keepsHands_modifyPlayer. intros p _ Hhand. destruct p.
  now apply subtractResources_nonnegative.
Qed.

Lemma keepsHands_add s seat amounts :
  keepsHands s
    (GameState.modifyPlayer seat
       (fun p => Player.set_resources
                   (ResourceManager.addResources (Player.resources p) amounts)
                   p) s).
Proof.
  apply keepsHands_modifyPlayer. intros p _ Hhand. destruct p.
  now apply addResources_nonnegative.
Qed.

(** A field written that is not the hand. *)
Ltac hand_field := intros p _ Hp; destruct p; exact Hp.

Ltac hands :=
  repeat first
    [ apply keepsHands_refl
    | (eapply keepsHands_trans;
       [| apply keepsHands_modifyPlayer; hand_field])
    | (eapply keepsHands_trans; [| apply keepsHands_pay; eassumption])
    | (eapply keepsHands_trans; [| apply keepsHands_subtract])
    | (eapply keepsHands_trans; [| apply keepsHands_add])
    | (eapply keepsHands_trans;
       [| apply keepsHands_resources;
          [ (unfold GameState.modifyEdge, GameState.modifyTile,
                    GameState.modifyIntersection); cbn [GameState.players
               GameState.set_board GameState.set_phase GameState.set_diceRoll
               GameState.set_turn GameState.set_winner
               GameState.set_currentPlayerIndex
               GameState.set_developmentCardDeck]; reflexivity
          | reflexivity ]]) ].

Lemma buildRoad_hands s playerId edgeId s' :
  BuildingManager.buildRoad s playerId edgeId = Return s' -> keepsHands s s'.
Proof.
  unfold BuildingManager.buildRoad. intros H.
  apply bind_Return_inv in H. destruct H as [[] [_ H]].
  apply withPlayer_inv in H. destruct H as [seat [player [_ [Hn H]]]].
  injection H as <-.
  hands.
Qed.

Lemma buildSettlement_hands s playerId intersectionId s' :
  BuildingManager.buildSettlement s playerId intersectionId = Return s' ->
  keepsHands s s'.
Proof.
  unfold BuildingManager.buildSettlement. intros H.
  apply bind_Return_inv in H. destruct H as [[] [_ H]].
  apply withPlayer_inv in H. destruct H as [seat [player [_ [Hn H]]]].
  injection H as <-. destruct (negb _); hands.
Qed.

Lemma buildCity_hands s playerId intersectionId s' :
  BuildingManager.buildCity s playerId intersectionId = Return s' ->
  keepsHands s s'.
Proof.
  unfold BuildingManager.buildCity. intros H.
  apply bind_Return_inv in H. destruct H as [[] [_ H]].
  apply withPlayer_inv in H. destruct H as [seat [player [_ [Hn H]]]].
  injection H as <-.
  hands.
Qed.

Lemma stealRandomResource_hands from to s u s' :
  ResourceManager.stealRandomResource from to s u = Return s' ->
  keepsHands s s'.
Proof.
  unfold ResourceManager.stealRandomResource. intros H.
  destruct (findPlayerIndex s from) as [victim|]; [|discriminate].
  destruct (findPlayerIndex s to) as [thief|]; [|discriminate].
  destruct (nth_error _ _) as [fromPlayer|] eqn:Hn; [|discriminate].
  cbv zeta in H.
  destruct (ResourceManager.availableResources _) as [|first rest] eqn:Hav;
    [injection H as <-; hands|].
  remember (nth (u mod List.length (first :: rest)) (first :: rest) first)
    as stolen eqn:Hstolen.
  injection H as <-.
  assert (Hheld : 1 <= Resources.get (Player.resources fromPlayer) stolen).
  { apply availableResources_In. rewrite Hav, Hstolen.
    apply nth_In. apply Nat.mod_upper_bound. discriminate. }
  eapply keepsHands_trans; cycle 1.
  - apply keepsHands_modifyPlayer. intros p _ Hhand.
    apply set_resource_nonnegative; [exact Hhand|].
    specialize (Hhand stolen). lia.
  - apply keepsHands_modifyPlayer. intros p Hp Hhand.
    rewrite Hn in Hp. injection Hp as <-.
    apply set_resource_nonnegative; [exact Hhand | lia].
Qed.

Lemma discardResources_hands s playerId toDiscard s' :
  ResourceManager.discardResources s playerId toDiscard = Return s' ->
  keepsHands s s'.
Proof.
  unfold ResourceManager.discardResources. intros H.
  destruct (findPlayerIndex s playerId); [|discriminate].
  destruct (nth_error _ _) as [player|] eqn:Hn; [|discriminate].
  destruct (_ <=? 7); [discriminate|].
  destruct (negb _); [discriminate|]. injection H as <-.
  apply keepsHands_modifyPlayer. intros p Hp Hhand.
  rewrite Hn in Hp. injection Hp as <-. destruct player.
  now apply subtractResources_nonnegative.
Qed.

Lemma creditIntersection_hands coord resource s x :
  keepsHands s (ResourceManager.creditIntersection coord resource s x).
Proof.
  unfold ResourceManager.creditIntersection.
  destruct (ResourceManager.isAdjacent x coord); [|hands].
  destruct (Intersection.building x) as [building|]; [|hands].
  destruct (findPlayerIndex s _); [|hands].
  apply keepsHands_modifyPlayer. intros p _ Hhand.
  apply set_resource_nonnegative; [exact Hhand|]. specialize (Hhand resource).
  destruct (Building.type building); lia.
Qed.

Lemma fold_hands {A} (step : GameState -> A -> GameState) (l : list A) :
  (forall s x, keepsHands s (step s x)) ->
  forall s, keepsHands s (fold_left step l s).
Proof.
  intros Hstep. induction l as [|x l IH]; intros s; simpl; [hands|].
  eapply keepsHands_trans; [apply Hstep | apply IH].
Qed.

Lemma distributeResources_hands s diceSum :
  keepsHands s (ResourceManager.distributeResources s diceSum).
Proof.
  unfold ResourceManager.distributeResources.
  destruct (diceSum =? 7); [rewrite handleSevenRolled_id; hands|].
  apply fold_hands. intros st coord. unfold ResourceManager.creditTile.
  destruct (Map.get _ _); [|hands].
  destruct (ResourceManager.terrainToResource _); [|hands].
  apply fold_hands. intros. apply creditIntersection_hands.
Qed.

Lemma executeTrade_hands s offer s' :
  TradingManager.executeTrade s offer = Return s' -> keepsHands s s'.
Proof.
  unfold TradingManager.executeTrade. intros H.
  apply bind_Return_inv in H. destruct H as [[] [_ H]].
  apply withPlayer_inv in H. destruct H as [seat [player [_ [_ H]]]].
  cbv zeta in H.
  match type of H with
  | context [match TradeOffer.toPlayerId offer with
             | Some _ => _ | None => Return ?st end] =>
      assert (K : keepsHands s st)
        by (eapply keepsHands_trans;
            [apply keepsHands_subtract | apply keepsHands_add])
  end.
  destruct (TradeOffer.toPlayerId offer) as [target|];
    [|injection H as <-; exact K].
  destruct (truthy _); [|injection H as <-; exact K].
  apply withPlayer_inv in H. destruct H as [seat2 [player2 [_ [_ H]]]].
  injection H as <-.
  eapply keepsHands_trans; [exact K|].
  eapply keepsHands_trans; [apply keepsHands_subtract | apply keepsHands_add].
Qed.

Lemma moveRobber_hands s playerId loc target u s' :
  RobberManager.moveRobber s playerId loc target u = Return s' ->
  keepsHands s s'.
Proof.
  unfold RobberManager.moveRobber. intros H.
  apply bind_Return_inv in H. destruct H as [v [_ H]].
  apply bind_Return_inv in H. destruct H as [[] [_ H]].
  destruct target as [t|]; [|injection H as <-; hands].
  destruct (_ && _); [|injection H as <-; hands].
  destruct (valid _); [|injection H as <-; hands].
  apply stealRandomResource_hands in H.
  eapply keepsHands_trans; [|exact H]. hands.
Qed.

Lemma buyDevelopmentCard_hands s playerId s' :
  DevelopmentCardManager.buyDevelopmentCard s playerId = Return s' ->
  keepsHands s s'.
Proof.
  unfold DevelopmentCardManager.buyDevelopmentCard. intros H.
  apply bind_Return_inv in H. destruct H as [[] [_ H]].
  apply withPlayer_inv in H. destruct H as [seat [player [_ [Hn H]]]].
  cbv zeta in H. destruct (last _ None); [|discriminate].
  injection H as <-.
  hands.
Qed.

Lemma privateUpdateLargestArmy_hands s playerId s' :
  DevelopmentCardManager.updateLargestArmy s playerId = Return s' ->
  keepsHands s s'.
Proof.
  unfold DevelopmentCardManager.updateLargestArmy. intros H.
  destruct (findPlayer s playerId); [|injection H as <-; hands].
  destruct (_ <? 3); [injection H as <-; hands|].
  destruct (_ >? _); [|injection H as <-; hands].
  apply bind_Return_inv in H. destruct H as [s1 [H1 H]].
  apply withPlayer_inv in H. destruct H as [seat [player [_ [_ H]]]].
  injection H as <-.
  assert (K1 : keepsHands s s1).
  { destruct (find _ _); [|injection H1 as <-; hands].
    apply withPlayer_inv in H1. destruct H1 as [seat1 [player1 [_ [_ H1]]]].
    injection H1 as <-. hands. }
  eapply keepsHands_trans; [exact K1|]. hands.
Qed.

Lemma playKnightCard_hands s playerId loc target u s' :
  DevelopmentCardManager.playKnightCard s playerId loc target u = Return s' ->
  keepsHands s s'.
Proof.
  unfold DevelopmentCardManager.playKnightCard. intros H.
  apply bind_Return_inv in H. destruct H as [[] [_ H]].
  apply withPlayer_inv in H. destruct H as [seat [player [_ [_ H]]]].
  cbv zeta in H.
  match type of H with
  | context [ResourceManager.stealRandomResource _ _ ?st _] =>
      assert (K : keepsHands s st) by hands
  end.
  eapply keepsHands_trans; [exact K|].
  destruct target as [t|].
  - destruct (_ && _).
    + now apply stealRandomResource_hands in H.
    + now apply privateUpdateLargestArmy_hands in H.
  - now apply privateUpdateLargestArmy_hands in H.
Qed.

Lemma buildFreeRoad_hands s playerId edgeId s' :
  DevelopmentCardManager.buildFreeRoad s playerId edgeId = Return s' ->
  keepsHands s s'.
Proof.
  unfold DevelopmentCardManager.buildFreeRoad. intros H. cbv zeta in H.
  destruct (Map.get _ _) as [edge|]; [|discriminate].
  destruct (Edge.road edge); [discriminate|].
  destruct (negb _); [discriminate|].
  destruct (findPlayer s playerId); [|discriminate].
  destruct (_ =? 0); [discriminate|].
  apply withPlayer_inv in H. destruct H as [seat [player [_ [_ H]]]].
  injection H as <-. hands.
Qed.

Lemma playRoadBuildingCard_hands s playerId edgeIds s' :
  DevelopmentCardManager.playRoadBuildingCard s playerId edgeIds = Return s' ->
  keepsHands s s'.
Proof.
  unfold DevelopmentCardManager.playRoadBuildingCard. intros H.
  apply bind_Return_inv in H. destruct H as [[] [_ H]].
  apply withPlayer_inv in H. destruct H as [seat [player [_ [_ H]]]].
  cbv zeta in H.
  apply bind_Return_inv in H. destruct H as [s2 [H2 H]].
  apply rethrow_Return_inv, buildFreeRoad_hands in H2.
  assert (K : keepsHands s s2).
  { eapply keepsHands_trans; [|exact H2]. hands. }
  destruct (negb _).
  - apply rethrow_Return_inv, buildFreeRoad_hands in H.
    eapply keepsHands_trans; eassumption.
  - now injection H as <-.
Qed.

Lemma playInventionCard_hands s playerId resources s' :
  DevelopmentCardManager.playInventionCard s playerId resources = Return s' ->
  keepsHands s s'.
Proof.
  unfold DevelopmentCardManager.playInventionCard. intros H.
  apply bind_Return_inv in H. destruct H as [[] [_ H]].
  apply withPlayer_inv in H. destruct H as [seat [player [_ [_ H]]]].
  injection H as <-.
  eapply keepsHands_trans; [|apply keepsHands_add]. hands.
Qed.

Lemma takeAll_hands resourceType playerIndex players : forall index,
  Forall (fun p => handNonnegative (Player.resources p)) players ->
  0 <= fst (DevelopmentCardManager.takeAll resourceType playerIndex index players) /\
  Forall (fun p => handNonnegative (Player.resources p))
    (snd (DevelopmentCardManager.takeAll resourceType playerIndex index players)).
Proof.
  induction players as [|p players IH]; intros index Hall; simpl.
  { split; [lia | constructor]. }
  inversion Hall as [|? ? Hp Hrest]; subst.
  specialize (IH (S index) Hrest).
  destruct (DevelopmentCardManager.takeAll resourceType playerIndex (S index) players)
    as [total rest]. cbn [fst snd] in IH. destruct IH as [Htotal Hforall].
  destruct (Nat.eqb index playerIndex); cbn [fst snd].
  - split; [assumption | now constructor].
  - split; [specialize (Hp resourceType); lia|].
    constructor; [|assumption].
    apply set_resource_nonnegative; [exact Hp | lia].
Qed.

Lemma playMonopolyCard_hands s playerId resourceType s' :
  DevelopmentCardManager.playMonopolyCard s playerId resourceType = Return s' ->
  keepsHands s s'.
Proof.
  unfold DevelopmentCardManager.playMonopolyCard. intros H.
  apply bind_Return_inv in H. destruct H as [[] [_ H]].
  apply withPlayer_inv in H. destruct H as [seat [player [_ [_ H]]]].
  cbv zeta in H.
  match type of H with
  | context [DevelopmentCardManager.takeAll ?r ?i ?n ?ps] =>
      pose proof (takeAll_hands r i ps n) as Htake;
      destruct (DevelopmentCardManager.takeAll r i n ps) as [total players']
  end.
  injection H as <-. cbn [fst snd] in Htake.
  split; [|reflexivity]. intros Hs.
  assert (K : keepsHands s
                (GameState.modifyPlayer seat
                   (fun p => Player.set_card Monopoly
                      (DevelopmentCards.monopoly (Player.developmentCards p) - 1) p)
                   s)) by hands.
  destruct (Htake (proj1 K Hs)) as [Htotal Hforall].
  apply (@keepsHands_modifyPlayer
           (GameState.set_players players'
              (GameState.modifyPlayer seat
                 (fun p => Player.set_card Monopoly
                    (DevelopmentCards.monopoly (Player.developmentCards p) - 1) p)
                 s))).
  - intros p _ Hhand.
    apply set_resource_nonnegative; [exact Hhand|].
    specialize (Hhand resourceType). lia.
  - exact Hforall.
Qed.

Lemma playVictoryPointCard_hands s playerId s' :
  DevelopmentCardManager.playVictoryPointCard s playerId = Return s' ->
  keepsHands s s'.
Proof.
  unfold DevelopmentCardManager.playVictoryPointCard. intros H.
  apply bind_Return_inv in H. destruct H as [[] [_ H]].
  apply withPlayer_inv in H. destruct H as [seat [player [_ [_ H]]]].
  injection H as <-. hands.
Qed.

Lemma handleRollDice_hands s action draws s' :
  CatanRuleEngine.handleRollDice s action draws = Return s' ->
  keepsHands s s'.
Proof.
  unfold CatanRuleEngine.handleRollDice. intros H.
  destruct (negb _); [discriminate|].
  apply bind_Return_inv in H. destruct H as [notCurrent [_ H]].
  destruct notCurrent; [discriminate|]. cbv zeta in H.
  match type of H with
  | context [GameState.set_phase ACTION ?st] =>
      assert (K : keepsHands s st)
  end.
  { destruct (_ =? 7).
    - unfold RobberManager.handleSevenRolled. hands.
    - eapply keepsHands_trans;
        [|apply keepsHands_resources; reflexivity].
      eapply keepsHands_trans; [|apply distributeResources_hands]. hands. }
  destruct (_ || _); injection H as <-; [|exact K].
  eapply keepsHands_trans; [exact K|]. hands.
Qed.

(** Every handler but [handleEndTurn] leaves the turn where it was. *)
Lemma dispatch_hands s action draws s' :
  Action.type action <> END_TURN ->
  CatanRuleEngine.dispatch s action draws = Some (Return s') ->
  keepsHands s s'.
Proof.
  unfold CatanRuleEngine.dispatch. intros Hend H.
  destruct (Action.type action) as [|card| | | | | | | | | |];
    try discriminate; try (now elim Hend); injection H as H.
  - now apply handleRollDice_hands in H.
  - unfold CatanRuleEngine.handlePlayDevelopmentCard in H.
    destruct card.
    + now apply playKnightCard_hands in H.
    + now apply playRoadBuildingCard_hands in H.
    + now apply playInventionCard_hands in H.
    + now apply playMonopolyCard_hands in H.
    + now apply playVictoryPointCard_hands in H.
    + discriminate.
  - unfold CatanRuleEngine.handleBuildRoad in H.
    apply bind_Return_inv in H. destruct H as [notCurrent [_ H]].
    destruct notCurrent; [discriminate|]. now apply buildRoad_hands in H.
  - unfold CatanRuleEngine.handleBuildSettlement in H.
    apply bind_Return_inv in H. destruct H as [notCurrent [_ H]].
    destruct notCurrent; [discriminate|]. now apply buildSettlement_hands in H.
  - unfold CatanRuleEngine.handleBuildCity in H.
    apply bind_Return_inv in H. destruct H as [notCurrent [_ H]].
    destruct notCurrent; [discriminate|]. now apply buildCity_hands in H.
  - now apply buyDevelopmentCard_hands in H.
  - now apply executeTrade_hands in H.
  - now apply executeTrade_hands in H.
  - now apply moveRobber_hands in H.
  - now apply discardResources_hands in H.
Qed.

Lemma handleEndTurn_seats s action s' :
  CatanRuleEngine.handleEndTurn s action = Return s' ->
  List.map Player.resources (GameState.players s')
  = List.map Player.resources (GameState.players s) /\
  (currentPlayerSeated s -> currentPlayerSeated s').
Proof.
  unfold CatanRuleEngine.handleEndTurn. intros H.
  apply bind_Return_inv in H. destruct H as [notCurrent [_ H]].
  destruct notCurrent; [discriminate|]. cbv zeta in H.
  assert (Hreset : forall l : list Player,
             List.map Player.resources
               (List.map (Player.set_canPlayDevCard true) l)
             = List.map Player.resources l).
  { intros l. rewrite map_map. apply map_ext. intros p. now destruct p. }
  assert (Hlength : forall l : list Player,
             List.length (List.map (Player.set_canPlayDevCard true) l)
             = List.length l) by (intros; apply length_map).
  unfold currentPlayerSeated.
  unfold DevelopmentCardManager.resetPlayDevCardFlag in H.
  destruct s as [id phase index players board deck dice turn winner].
  cbn [GameState.players GameState.currentPlayerIndex GameState.phase
       GameState.turn GameState.set_players GameState.set_phase
       GameState.set_turn GameState.set_currentPlayerIndex] in H |- *.
  repeat match type of H with
         | context [if ?c then _ else _] => destruct c
         | context [match ?p with SETUP_ROUND_1 => _ | _ => _ end] => destruct p
         end;
    cbn [GameState.players GameState.currentPlayerIndex GameState.phase
         GameState.turn GameState.set_players GameState.set_phase
         GameState.set_turn GameState.set_currentPlayerIndex] in H;
    injection H as <-;
    cbn [GameState.players GameState.currentPlayerIndex GameState.phase
         GameState.turn GameState.set_players GameState.set_phase
         GameState.set_turn GameState.set_currentPlayerIndex];
    (split; [apply Hreset|]); rewrite Hlength; intros Hseat;
    first [ apply Nat.mod_upper_bound; lia | lia ].
Qed.

Section AwardTurn.
Variable holds : Player -> bool.
Variable setHolds : bool -> Player -> Player.

Lemma award_currentPlayerIndex (minimum : Z) (scores : list (string * Z)) s s' :
  VictoryManager.award holds setHolds minimum scores s = Return s' ->
  GameState.currentPlayerIndex s' = GameState.currentPlayerIndex s.
Proof.
  unfold VictoryManager.award. intros H.
  destruct (List.filter _ scores) as [|v0 valid'].
  { now injection H as <-. }
  cbv zeta in H.
  destruct (List.filter _ (VictoryManager.sortDescending _)) as [|winner [|second rest]];
    destruct (List.find holds (GameState.players s)) as [incumbent|];
    try (injection H as <-; reflexivity).
  - cbn [existsb negb] in H.
    apply withPlayer_inv in H. destruct H as [seat [p [_ [_ H]]]].
    now injection H as <-.
  - destruct (negb _); [|now injection H as <-].
    apply bind_Return_inv in H. destruct H as [s1 [H1 H]].
    apply withPlayer_inv in H1. destruct H1 as [seat1 [p1 [_ [_ H1]]]].
    apply withPlayer_inv in H. destruct H as [seat [p [_ [_ H]]]].
    injection H1 as <-. now injection H as <-.
  - apply withPlayer_inv in H. destruct H as [seat [p [_ [_ H]]]].
    now injection H as <-.
  - destruct (negb _); [|now injection H as <-].
    apply withPlayer_inv in H. destruct H as [seat [p [_ [_ H]]]].
    now injection H as <-.
Qed.
End AwardTurn.

Lemma updateLongestRoad_hands s s' :
  VictoryManager.updateLongestRoad s = Return s' -> keepsHands s s'.
Proof.
  unfold VictoryManager.updateLongestRoad. intros H.
  apply bind_Return_inv in H. destruct H as [lengths [_ H]].
  apply keepsHands_resources.
  - revert H. apply award_keeps; reflexivity.
  - revert H. apply award_currentPlayerIndex.
Qed.

Lemma updateLargestArmy_hands s s' :
  VictoryManager.updateLargestArmy s = Return s' -> keepsHands s s'.
Proof.
  unfold VictoryManager.updateLargestArmy. intros H.
  apply keepsHands_resources.
  - revert H. apply award_keeps; reflexivity.
  - revert H. apply award_currentPlayerIndex.
Qed.

Lemma createNewGame_players playerIds shuffle now gameState :
  CatanRuleEngine.createNewGame playerIds shuffle now = inr gameState ->
  (2 <= List.length playerIds <= 4)%nat /\
  List.map Player.id (GameState.players gameState) = playerIds /\
  GameState.currentPlayerIndex gameState = 0%nat /\
  Forall (fun p => Player.resources p = Resources.mk 0 0 0 0 0)
         (GameState.players gameState).
Proof.
  unfold CatanRuleEngine.createNewGame.
  destruct (Nat.ltb_spec (List.length playerIds) 2) as [|Hlow]; [discriminate|].
  destruct (Nat.ltb_spec 4 (List.length playerIds)) as [|Hhigh]; [discriminate|].
  cbn [orb]. intros Hnew. injection Hnew as <-.
  cbn [GameState.players GameState.currentPlayerIndex].
  split; [lia|]. split; [|split; [reflexivity|]].
  - rewrite map_map. cbn [Player.id].
    destruct playerIds as [|a [|b [|c [|d [|e rest]]]]];
      try reflexivity; simpl in *; lia.
  - apply Forall_forall. intros p Hp. apply in_map_iff in Hp.
    now destruct Hp as [entry [<- _]].
Qed.

Lemma keepsHands_seated s s' :
  List.length (GameState.players s') = List.length (GameState.players s) ->
  keepsHands s s' ->
  handsNonnegative s /\ currentPlayerSeated s ->
  handsNonnegative s' /\ currentPlayerSeated s'.
Proof.
  unfold currentPlayerSeated. intros Hlength [Hhands Hindex] [Hs Hseat].
  split; [auto|]. rewrite Hlength, Hindex. exact Hseat.
Qed.

Lemma same_ids_same_length s s' :
  List.map Player.id (GameState.players s')
  = List.map Player.id (GameState.players s) ->
  List.length (GameState.players s') = List.length (GameState.players s).
Proof. intros E. apply (f_equal (@List.length _)) in E. now rewrite !length_map in E. Qed.

Lemma dispatch_invariants s action draws s' :
  CatanRuleEngine.dispatch s action draws = Some (Return s') ->
  handsNonnegative s /\ currentPlayerSeated s ->
  handsNonnegative s' /\ currentPlayerSeated s'.
Proof.
  intros H Hs.
  assert (Hlength : List.length (GameState.players s')
                    = List.length (GameState.players s)).
  { apply same_ids_same_length, ids_of_bonusView.
    exact (dispatch_keeps _ _ _ _ H). }
  destruct (Action.type action) eqn:E;
    try (apply (keepsHands_seated s s' Hlength); [|exact Hs];
         apply (dispatch_hands s action draws); [rewrite E; discriminate | exact H]).
  unfold CatanRuleEngine.dispatch in H. rewrite E in H. injection H as H.
  apply handleEndTurn_seats in H. destruct H as [Hresources Hseat].
  destruct Hs as [Hs Hseated]. split; [|auto].
  exact (hands_of_resources _ _ Hresources Hs).
Qed.

Lemma processAction_invariants gameState action draws final :
  CatanRuleEngine.processAction gameState action draws = Success final ->
  handsNonnegative gameState /\ currentPlayerSeated gameState ->
  (handsNonnegative final /\ currentPlayerSeated final) /\
  List.length (GameState.players final)
  = List.length (GameState.players gameState).
Proof.
  intros H Hs.
  destruct (processAction_Success_inv _ _ _ _ H)
    as [handled [crowned [armed [Hhandled [Hcrown [Harmy [Hplayers _]]]]]]].
  assert (Hindex : GameState.currentPlayerIndex final
                   = GameState.currentPlayerIndex armed).
  { unfold CatanRuleEngine.processAction, CatanRuleEngine.tryProcessAction in H.
    rewrite Hhandled in H. cbn [bind] in H. rewrite Hcrown in H. cbn [bind] in H.
    rewrite Harmy in H. cbn [bind] in H.
    destruct (VictoryManager.checkGameEnd armed); injection H as <-; reflexivity. }
  pose proof (updateLongestRoad_ids _ _ Hcrown) as Hids1.
  pose proof (updateLargestArmy_ids _ _ Harmy) as Hids2.
  pose proof (ids_of_bonusView _ _ (dispatch_keeps _ _ _ _ Hhandled)) as Hids0.
  apply same_ids_same_length in Hids0, Hids1, Hids2.
  apply (dispatch_invariants _ _ _ _ Hhandled) in Hs.
  apply (keepsHands_seated _ _ Hids1 (updateLongestRoad_hands _ _ Hcrown)) in Hs.
  apply (keepsHands_seated _ _ Hids2 (updateLargestArmy_hands _ _ Harmy)) in Hs.
  split; [|rewrite Hplayers; congruence].
  unfold handsNonnegative, currentPlayerSeated in *.
  now rewrite Hplayers, Hindex.
Qed.

(** X27: what holds in every state a game passes through, from
    [createNewGame] on through any actions [processAction] accepts: two to
    four players sit at the table, the current player index names one of
    them, and nobody holds a negative number of any card. *)
Theorem reachable_invariants (gameState : GameState) :
  reachable gameState ->
  (2 <= List.length (GameState.players gameState) <= 4)%nat /\
  currentPlayerSeated gameState /\
  handsNonnegative gameState.
Proof.
  induction 1 as [playerIds shuffle now gameState Hnew
                 |gameState action draws newState _ IH Hstep].
  - apply createNewGame_players in Hnew.
    destruct Hnew as [Hcount [Hids [Hindex Hempty]]].
    assert (Hlength : List.length (GameState.players gameState)
                      = List.length playerIds)
      by (rewrite <- Hids; now rewrite length_map).
    unfold currentPlayerSeated. rewrite Hlength, Hindex.
    split; [exact Hcount|]. split; [lia|].
    unfold handsNonnegative. eapply Forall_impl; [|exact Hempty].
    intros p -> k. destruct k; simpl; lia.
  - destruct IH as [Hcount [Hseat Hhands]].
    destruct (processAction_invariants _ _ _ _ Hstep (conj Hhands Hseat))
      as [[Hhands' Hseat'] Hlength].
    rewrite Hlength. auto.
Qed.

Lemma reachable_invariants_witness :
  reachable openingExample /\
  (2 <= List.length (GameState.players openingExample) <= 4)%nat /\
  currentPlayerSeated openingExample /\
  handsNonnegative openingExample.
Proof.
  assert (H : playFromNew 0 openingTrace = Some openingExample)
    by (vm_compute; reflexivity).
  apply playFromNew_reachable in H.
  split; [exact H|]. exact (reachable_invariants openingExample H).
Defined.

Lemma isDiscardPhaseComplete_nobodyOverSeven s :
  RobberManager.isDiscardPhaseComplete s = nobodyOverSeven s.
Proof.
  unfold RobberManager.isDiscardPhaseComplete, RobberManager.mustDiscardResources,
    nobodyOverSeven.
  induction (GameState.players s) as [|p l IH]; simpl; [reflexivity|].
  rewrite Z.gtb_ltb, Z.ltb_antisym.
  destruct (_ <=? 7); simpl; [exact IH | reflexivity].
Qed.

(** X28: a roll of the dice.  It is taken only in the production phase and
    from the current player, and shows two dice of 1 to 6.  Unless the sum
    is 7 the game moves on to the action phase.  A 7 changes no hand; the
    game moves on to the action phase when nobody holds more than seven
    cards and otherwise stays in the production phase.  The turn stays with
    the player who rolled. *)
Theorem handleRollDice_outcome (gameState : GameState) (action : Action)
    (draws : Draws) (newState : GameState) :
  CatanRuleEngine.handleRollDice gameState action draws = Return newState ->
  let diceRoll :=
    ResourceManager.rollDice (Draws.die1 draws) (Draws.die2 draws) in
  GameState.phase gameState = PRODUCTION /\
  currentPlayerId gameState = Some (Action.playerId action) /\
  GameState.diceRoll newState = Some diceRoll /\
  1 <= fst diceRoll <= 6 /\ 1 <= snd diceRoll <= 6 /\
  GameState.currentPlayerIndex newState = GameState.currentPlayerIndex gameState /\
  (fst diceRoll + snd diceRoll <> 7 -> GameState.phase newState = ACTION) /\
  (fst diceRoll + snd diceRoll = 7 ->
   GameState.players newState = GameState.players gameState /\
   GameState.phase newState
   = if nobodyOverSeven gameState then ACTION else PRODUCTION).
Proof.
  intros H diceRoll.
  pose proof (handleRollDice_hands _ _ _ _ H) as [_ Hindex].
  unfold CatanRuleEngine.handleRollDice in H.
  destruct (GameState.phase gameState) eqn:Hphase; try discriminate.
  cbn [GamePhase_eqb negb] in H.
  unfold notCurrentPlayer in H.
  destruct (currentPlayerId gameState) as [current|]; [|discriminate].
  cbn [bind] in H.
  destruct (String.eqb_spec current (Action.playerId action)) as [E|];
    [rewrite E|discriminate].
  cbn [negb] in H. cbv zeta in H. fold diceRoll in H.
  split; [reflexivity|]. split; [reflexivity|].
  assert (Hdice : 1 <= fst diceRoll <= 6 /\ 1 <= snd diceRoll <= 6).
  { unfold diceRoll, ResourceManager.rollDice. cbn [fst snd].
    pose proof (Nat.mod_upper_bound (Draws.die1 draws) 6).
    pose proof (Nat.mod_upper_bound (Draws.die2 draws) 6). lia. }
  destruct (Z.eqb_spec (fst diceRoll + snd diceRoll) 7) as [Hseven|Hother].
  - cbn [negb orb] in H.
    unfold RobberManager.handleSevenRolled in H.
    rewrite isDiscardPhaseComplete_nobodyOverSeven in H.
    assert (Hsame : nobodyOverSeven
                      (GameState.set_diceRoll (Some diceRoll)
                         (GameState.set_diceRoll (Some diceRoll) gameState))
                    = nobodyOverSeven gameState) by reflexivity.
    rewrite Hsame in H.
    destruct (nobodyOverSeven gameState); injection H as <-;
      (split; [reflexivity|]); (split; [tauto|]); (split; [tauto|]);
      (split; [reflexivity|]); (split; [intros; contradiction|]);
      intros _; (split; [reflexivity|]); first [reflexivity | exact Hphase].
  - cbn [negb orb] in H. injection H as <-.
    split; [reflexivity|]. split; [tauto|]. split; [tauto|].
    split; [exact Hindex|].
    split; [reflexivity | intros; contradiction].
Qed.

Lemma handleRollDice_outcome_witness :
  CatanRuleEngine.handleRollDice discardExample (fst rollsSeven) (snd rollsSeven)
  = Return sevenExampleAfter /\
  GameState.players sevenExampleAfter = GameState.players discardExample /\
  GameState.phase sevenExampleAfter = PRODUCTION.
Proof.
  assert (H : CatanRuleEngine.handleRollDice discardExample (fst rollsSeven)
                (snd rollsSeven) = Return sevenExampleAfter)
    by (vm_compute; reflexivity).
  split; [exact H|].
  destruct (handleRollDice_outcome _ _ _ _ H)
    as [_ [_ [_ [_ [_ [_ [_ Hseven]]]]]]].
  exact (Hseven eq_refl).
Defined.

Lemma knight_on_board_keeps_one_robber_witness :
  DevelopmentCardManager.playKnightCard knightExample "player1"
    (HexCoordinate.mk 1 0) None 0
  = Return knightExampleAfter /\
  GameBoard.robberLocation (GameState.board knightExampleAfter)
  = HexCoordinate.mk 1 0 /\
  List.length (robberTiles knightExampleAfter) = 1%nat.
Proof.
  assert (H : DevelopmentCardManager.playKnightCard knightExample "player1"
                (HexCoordinate.mk 1 0) None 0
              = Return knightExampleAfter) by (vm_compute; reflexivity).
  split; [exact H|]. split; [reflexivity|].
  assert (Hkeys : NoDup (Map.keys (GameBoard.tiles (GameState.board knightExample))))
    by exact (proj1 standardBoard_robberMarked).
  assert (Htile : Map.has (GameBoard.tiles (GameState.board knightExample))
                    (BoardGenerator.coordToKey (HexCoordinate.mk 1 0)) = true)
    by (vm_compute; reflexivity).
  exact (proj2 (knight_on_board_keeps_one_robber _ _ _ _ _ _ Hkeys Htile H)).
Defined.

Lemma canStealFromPlayer_ext s s' theftPlayerId targetPlayerId robberLocation :
  GameState.players s' = GameState.players s ->
  GameBoard.intersections (GameState.board s')
  = GameBoard.intersections (GameState.board s) ->
  RobberManager.canStealFromPlayer s' theftPlayerId targetPlayerId robberLocation
  = RobberManager.canStealFromPlayer s theftPlayerId targetPlayerId robberLocation.
Proof.
  intros Hplayers Hboard.
  unfold RobberManager.canStealFromPlayer, RobberManager.playerHasAdjacentBuilding,
    findPlayer.
  now rewrite Hplayers, Hboard.
Qed.

(** X30: a placement of the robber that [validateRobberPlacement] accepts is
    carried out by [moveRobber].  When a victim is named, the victim is
    another player with a card in hand and a building next to the new hex,
    and the theft takes place.  When none is named, nobody is robbed, and
    nobody could have been robbed next to the hex that the robber leaves:
    the hex it goes to is not looked at. *)
Theorem validateRobberPlacement_carried_out (gameState : GameState)
    (playerId : string) (robberLocation : HexCoordinate)
    (targetPlayerId : option string) (u : nat) :
  RobberManager.validateRobberPlacement gameState playerId robberLocation
                                        targetPlayerId
  = Return Valid ->
  RobberManager.canMoveRobber gameState playerId robberLocation = Return Valid /\
  exists newState,
    RobberManager.moveRobber gameState playerId robberLocation targetPlayerId u
    = Return newState /\
    if truthy targetPlayerId then
      exists victimId moved,
        targetPlayerId = Some victimId /\
        RobberManager.canStealFromPlayer gameState playerId victimId robberLocation
        = Valid /\
        GameState.players moved = GameState.players gameState /\
        ResourceManager.stealRandomResource victimId playerId moved u
        = Return newState
    else
      RobberManager.getValidStealTargets gameState playerId = [] /\
      GameState.players newState = GameState.players gameState.
Proof.
  unfold RobberManager.validateRobberPlacement. intros H.
  apply bind_Return_inv in H. destruct H as [moveValidation [Hcan H]].
  destruct moveValidation as [|message]; cbn [valid negb] in H;
    [|discriminate].
  split; [exact Hcan|].
  destruct (moveRobber_returns gameState playerId robberLocation targetPlayerId u Hcan)
    as [newState Hmove].
  exists newState. split; [exact Hmove|].
  unfold RobberManager.moveRobber in Hmove. rewrite Hcan in Hmove.
  cbn [bind check] in Hmove. cbv zeta in Hmove.
  assert (Hnone : match RobberManager.getValidStealTargets gameState playerId with
                  | [] => Return Valid
                  | _ :: _ =>
                      Return (Invalid "Must select a player to steal from when valid targets are available")
                  end = Return Valid ->
                  RobberManager.getValidStealTargets gameState playerId = []).
  { destruct (RobberManager.getValidStealTargets gameState playerId);
      [reflexivity | discriminate]. }
  destruct targetPlayerId as [victimId|].
  - destruct (truthy (Some victimId)) eqn:Htruthy.
    + injection H as Hsteal.
      assert (Hother : String.eqb victimId playerId = false).
      { unfold RobberManager.canStealFromPlayer in Hsteal. rewrite String.eqb_sym.
        destruct (String.eqb playerId victimId); [discriminate | reflexivity]. }
      rewrite Hother in Hmove. cbn [negb andb] in Hmove.
      match type of Hmove with
      | context [RobberManager.canStealFromPlayer ?s _ _ _] => set (moved := s) in *
      end.
      assert (Hplayers : GameState.players moved = GameState.players gameState)
        by (unfold moved; now destruct gameState).
      assert (Hboard : GameBoard.intersections (GameState.board moved)
                       = GameBoard.intersections (GameState.board gameState)).
      { unfold moved. destruct gameState as [? ? ? ? board ? ? ? ?].
        now destruct board. }
      rewrite (canStealFromPlayer_ext gameState moved playerId victimId
                 robberLocation Hplayers Hboard), Hsteal in Hmove.
      cbn [valid] in Hmove.
      exists victimId, moved. repeat split; assumption.
    + cbn [andb] in Hmove. injection Hmove as <-.
      split; [now apply Hnone | now destruct gameState].
  - cbn [truthy]. injection Hmove as <-.
    split; [now apply Hnone | now destruct gameState].
Qed.

Lemma validateRobberPlacement_carried_out_witness :
  RobberManager.validateRobberPlacement robberExample "player1"
    (HexCoordinate.mk 1 0) (Some "player2")
  = Return Valid /\
  RobberManager.canMoveRobber robberExample "player1" (HexCoordinate.mk 1 0)
  = Return Valid.
Proof.
  assert (H : RobberManager.validateRobberPlacement robberExample "player1"
                (HexCoordinate.mk 1 0) (Some "player2") = Return Valid)
    by (vm_compute; reflexivity).
  split; [exact H|].
  exact (proj1 (validateRobberPlacement_carried_out robberExample "player1"
                  (HexCoordinate.mk 1 0) (Some "player2") 0 H)).
Defined.

(** * Bank trades, kind by kind *)

Lemma positiveEntries_namesOnly amounts kind amount :
  TradingManager.positiveEntries amounts = [(kind, amount)]
  <-> namesOnly amounts kind amount.
Proof.
  split.
  - intros H.
    assert (Hkind : PartialResources.get amounts kind = Some amount /\ 0 < amount).
    { apply positiveEntries_In. rewrite H. now left. }
    destruct Hkind as [Hget Hpos]. split; [exact Hget|]. split; [exact Hpos|].
    intros other amount' Hother Hget'.
    destruct (Z.le_gt_cases amount' 0) as [Hle|Hgt]; [exact Hle|].
    assert (Hin : In (other, amount') (TradingManager.positiveEntries amounts))
      by (apply positiveEntries_In; split; [assumption | lia]).
    rewrite H in Hin. destruct Hin as [E|[]]. injection E as E _.
    now elim Hother.
  - intros [Hget [Hpos Hothers]].
    assert (Hdrop : forall other,
               other <> kind ->
               List.filter (fun entry : ResourceType * Z => snd entry >? 0)
                 (match PartialResources.get amounts other with
                  | Some v => [(other, v)]
                  | None => []
                  end) = []).
    { intros other Hother.
      destruct (PartialResources.get amounts other) as [v|] eqn:E; [|reflexivity].
      specialize (Hothers other v Hother E). cbn [List.filter snd].
      destruct (Z.gtb_spec v 0); [lia | reflexivity]. }
    assert (Hkeep : List.filter (fun entry : ResourceType * Z => snd entry >? 0)
                      (match PartialResources.get amounts kind with
                       | Some v => [(kind, v)]
                       | None => []
                       end) = [(kind, amount)]).
    { rewrite Hget. cbn [List.filter snd].
      destruct (Z.gtb_spec amount 0); [reflexivity | lia]. }
    unfold TradingManager.positiveEntries, PartialResources.entries,
      allResourceTypes.
    cbn [flat_map]. rewrite !filter_app.
    destruct kind; rewrite Hkeep, !Hdrop by discriminate; reflexivity.
Qed.

(** C5: bank-trade validation.  For an offer whose initiator is seated and
    holds what is offered, on a board whose ports carry the generator's
    rates, [validateBankTrade] accepts exactly when the offer names one kind
    offered and one kind requested, each in a positive amount, and the
    offered amount is at least the required ratio times the requested
    amount; the ratio is the minimum of 4, of 3 with a building on a generic
    port and of 2 with a building on the port of the offered kind.  A kind
    listed with an amount of zero or less does not count as named.  With no
    counterpart named, [validatePlayerTrade] is [validateBankTrade]. *)
Theorem bank_trade_validation (gameState : GameState) (offer : TradeOffer)
    (player : Player)
    (Hplayer : findPlayer gameState (TradeOffer.fromPlayerId offer) = Some player)
    (Hholds : ResourceManager.hasResources (Player.resources player)
                (TradeOffer.offering offer) = true)
    (Hports : standardPorts (GameState.board gameState)) :
  (TradingManager.validateBankTrade gameState offer = Valid <->
   exists (offered requested : ResourceType) (offeredAmount requestedAmount : Z),
     namesOnly (TradeOffer.offering offer) offered offeredAmount /\
     namesOnly (TradeOffer.requesting offer) requested requestedAmount /\
     offeredAmount >= requiredRatio gameState player offered * requestedAmount) /\
  (truthy (TradeOffer.toPlayerId offer) = false ->
   TradingManager.validatePlayerTrade gameState offer
   = TradingManager.validateBankTrade gameState offer).
Proof.
  destruct (bank_trade_validation_entries gameState offer player
              Hplayer Hholds Hports) as [Hiff Hbank].
  split; [|exact Hbank].
  rewrite Hiff. split.
  - intros (offered & requested & a & b & Hoff & Hreq & Hge).
    exists offered, requested, a, b.
    split; [now apply positiveEntries_namesOnly|].
    split; [now apply positiveEntries_namesOnly | exact Hge].
  - intros (offered & requested & a & b & Hoff & Hreq & Hge).
    exists offered, requested, a, b.
    split; [now apply positiveEntries_namesOnly|].
    split; [now apply positiveEntries_namesOnly | exact Hge].
Qed.

Lemma bank_trade_validation_witness :
  findPlayer bankExample (TradeOffer.fromPlayerId bankOffer) = Some bankPlayer /\
  ResourceManager.hasResources (Player.resources bankPlayer)
    (TradeOffer.offering bankOffer) = true /\
  standardPorts (GameState.board bankExample) /\
  requiredRatio bankExample bankPlayer Wood = 2 /\
  TradingManager.validateBankTrade bankExample bankOffer = Valid /\
  requiredRatio plainExample plainTrader Wood = 4 /\
  TradingManager.validateBankTrade plainExample fourForOne = Valid /\
  TradingManager.validateBankTrade plainExample threeForOne <> Valid.
Proof.
  assert (H1 : findPlayer bankExample (TradeOffer.fromPlayerId bankOffer)
               = Some bankPlayer) by reflexivity.
  assert (H2 : ResourceManager.hasResources (Player.resources bankPlayer)
                 (TradeOffer.offering bankOffer) = true) by reflexivity.
  assert (H3 : standardPorts (GameState.board bankExample))
    by exact standardBoard_standardPorts.
  assert (Hport : requiredRatio bankExample bankPlayer Wood = 2)
    by (vm_compute; reflexivity).
  assert (Hplain : requiredRatio plainExample plainTrader Wood = 4)
    by (vm_compute; reflexivity).
  assert (Hnames : forall amount,
             0 < amount ->
             namesOnly (PartialResources.set PartialResources.empty Wood amount)
                       Wood amount /\
             namesOnly (PartialResources.set PartialResources.empty Brick 1)
                       Brick 1).
  { intros amount Hpos. split.
    - split; [reflexivity|]. split; [exact Hpos|].
      intros other amount' Hother Hget.
      destruct other; first [now elim Hother | discriminate Hget].
    - split; [reflexivity|]. split; [lia|].
      intros other amount' Hother Hget.
      destruct other; first [now elim Hother | discriminate Hget]. }
  split; [exact H1|]. split; [exact H2|]. split; [exact H3|].
  split; [exact Hport|]. split.
  { apply (proj1 (bank_trade_validation bankExample bankOffer bankPlayer H1 H2 H3)).
    exists Wood, Brick, 2, 1.
    split; [apply (Hnames 2); lia|]. split; [apply (Hnames 2); lia|].
    rewrite Hport. lia. }
  split; [exact Hplain|]. split.
  { apply (proj1 (bank_trade_validation plainExample fourForOne plainTrader
                    eq_refl eq_refl standardBoard_standardPorts)).
    exists Wood, Brick, 4, 1.
    split; [apply (Hnames 4); lia|]. split; [apply (Hnames 4); lia|].
    rewrite Hplain. lia. }
  intros Hvalid.
  apply (proj1 (bank_trade_validation plainExample threeForOne plainTrader
                  eq_refl eq_refl standardBoard_standardPorts)) in Hvalid.
  destruct Hvalid as (offered & requested & a & b & Hoff & Hreq & Hge).
  destruct Hoff as [Hoff _], Hreq as [Hreq _].
  destruct offered; try discriminate Hoff. injection Hoff as <-.
  destruct requested; try discriminate Hreq. injection Hreq as <-.
  rewrite Hplain in Hge. lia.
Defined.

(** ** The lock across other actions *)

Lemma locksKept_refl l : locksKept l l.
Proof.
  split; [reflexivity|]. intros seat p p' Hp Hp' Hlock.
  rewrite Hp in Hp'. now injection Hp' as <-.
Qed.

Lemma locksKept_trans a b c : locksKept a b -> locksKept b c -> locksKept a c.
Proof.
  intros [Hids1 H1] [Hids2 H2]. split; [congruence|].
  intros seat p p'' Hp Hp'' Hlock.
  destruct (nth_error b seat) as [p'|] eqn:Hp'.
  - eauto.
  - exfalso. apply nth_error_None in Hp'.
    assert (Hseat : (seat < List.length a)%nat)
      by (apply nth_error_Some; congruence).
    apply (f_equal (@List.length _)) in Hids1. rewrite !length_map in Hids1. lia.
Qed.

Lemma locksKept_view a b :
  List.map lockView b = List.map lockView a -> locksKept a b.
Proof.
  intros E. split.
  - apply (f_equal (List.map fst)) in E. now rewrite !map_map in E.
  - intros seat p p' Hp Hp' Hlock.
    apply (map_nth_error lockView) in Hp, Hp'. rewrite E, Hp in Hp'.
    injection Hp' as _ Hflag. congruence.
Qed.

Lemma locksKept_modify l seat f :
  (forall p, Player.id (f p) = Player.id p) ->
  (forall p, Player.canPlayDevCard p = false ->
             Player.canPlayDevCard (f p) = false) ->
  locksKept l (modify_nth seat f l).
Proof.
  intros Hid Hflag. split; [now apply map_modify_nth|].
  intros j p p' Hp Hp' Hlock. rewrite nth_error_modify_nth, Hp in Hp'.
  destruct (Nat.eqb seat j); simpl in Hp'; injection Hp' as <-; auto.
Qed.

Lemma locksKept_modifyPlayer before s seat f :
  (forall p, Player.id (f p) = Player.id p) ->
  (forall p, Player.canPlayDevCard p = false ->
             Player.canPlayDevCard (f p) = false) ->
  locksKept before (GameState.players s) ->
  locksKept before (GameState.players (GameState.modifyPlayer seat f s)).
Proof.
  intros Hid Hflag H. apply (locksKept_trans _ _ _ H).
  rewrite players_modifyPlayer. now apply locksKept_modify.
Qed.

Lemma locksKept_players before s s' :
  GameState.players s' = GameState.players s ->
  locksKept before (GameState.players s) ->
  locksKept before (GameState.players s').
Proof. now intros ->. Qed.

Ltac lock_id := intros p; destruct p; reflexivity.
Ltac lock_flag := intros p Hp; destruct p; first [exact Hp | reflexivity].

(** The players of a state written field by field from a state whose
    locks are kept. *)
Ltac locks :=
  repeat first
    [ eassumption
    | apply locksKept_refl
    | (apply locksKept_modifyPlayer; [lock_id | lock_flag |])
    | progress
        (match goal with
         | |- locksKept _ (GameState.players ?t) =>
             eapply (locksKept_players _ _ t);
             [ (unfold GameState.modifyEdge, GameState.modifyTile,
                       GameState.modifyIntersection); cbn [GameState.players
                  GameState.set_board GameState.set_phase GameState.set_diceRoll
                  GameState.set_turn GameState.set_winner
                  GameState.set_currentPlayerIndex
                  GameState.set_developmentCardDeck]; reflexivity |]
         end) ].

Lemma lockSafe_bind {A B : Type} before (good : B -> Prop) (o : Outcome A)
    (k : A -> Outcome B) :
  lockSafe before (fun a => lockSafe before good (k a)) o ->
  lockSafe before good (bind o k).
Proof. now destruct o. Qed.

Lemma lockSafe_bind_any {A B : Type} before (good : B -> Prop) (o : Outcome A)
    (k : A -> Outcome B) :
  lockSafe before (fun _ => True) o ->
  (forall a, lockSafe before good (k a)) ->
  lockSafe before good (bind o k).
Proof. intros Ho Hk. destruct o; simpl; [apply Hk | exact Ho]. Qed.

Lemma lockSafe_bind_state {B : Type} before (good : B -> Prop)
    (o : Outcome GameState) (k : GameState -> Outcome B) :
  lockSafe before (kept before) o ->
  (forall s', locksKept before (GameState.players s') ->
              lockSafe before good (k s')) ->
  lockSafe before good (bind o k).
Proof. intros Ho Hk. destruct o; simpl; [now apply Hk | exact Ho]. Qed.

Lemma lockSafe_check {B : Type} before (good : B -> Prop) v s
    (k : unit -> Outcome B) :
  locksKept before (GameState.players s) ->
  lockSafe before good (k tt) ->
  lockSafe before good (bind (check v s) k).
Proof. intros Hs Hk. destruct v; simpl; assumption. Qed.

Lemma lockSafe_notCurrent {B : Type} before (good : B -> Prop) s playerId
    (k : bool -> Outcome B) :
  locksKept before (GameState.players s) ->
  (forall notCurrent, lockSafe before good (k notCurrent)) ->
  lockSafe before good (bind (notCurrentPlayer s playerId) k).
Proof.
  intros Hs Hk. unfold notCurrentPlayer.
  destruct (currentPlayerId s); simpl; [apply Hk | assumption].
Qed.

Lemma lockSafe_checkPlay {B : Type} before (good : B -> Prop) s playerId cardType
    (k : unit -> Outcome B) :
  locksKept before (GameState.players s) ->
  lockSafe before good (k tt) ->
  lockSafe before good
    (bind (DevelopmentCardManager.checkPlay s playerId cardType) k).
Proof.
  intros Hs Hk.
  unfold DevelopmentCardManager.checkPlay,
    DevelopmentCardManager.canPlayDevelopmentCard, notCurrentPlayer.
  repeat first
    [ assumption
    | progress cbn [bind check lockSafe GameState.heap Heap.players negb]
    | match goal with
      | |- context [match ?x with _ => _ end] =>
          lazymatch x with
          | context [match _ with _ => _ end] => fail
          | _ => destruct x
          end
      end ].
Qed.

Lemma lockSafe_withPlayer {B : Type} before (good : B -> Prop) s playerId
    (k : nat -> Player -> Outcome B) :
  locksKept before (GameState.players s) ->
  (forall seat player,
      nth_error (GameState.players s) seat = Some player ->
      lockSafe before good (k seat player)) ->
  lockSafe before good (withPlayer s playerId k).
Proof.
  intros Hs Hk. unfold withPlayer.
  destruct (findPlayerIndex s playerId) as [seat|]; [|exact Hs].
  destruct (nth_error _ seat) eqn:Hn; [now apply Hk | exact Hs].
Qed.

Lemma lockSafe_rethrow {B : Type} before (good : B -> Prop) f (o : Outcome B) :
  lockSafe before good o -> lockSafe before good (rethrow f o).
Proof. now destruct o. Qed.

(** One step of a handler: a check, a lookup, a branch, and in the end the
    state returned or the heap thrown. *)
Ltac safe :=
  repeat first
    [ progress cbv zeta
    | (apply lockSafe_check; [locks|])
    | (apply lockSafe_checkPlay; [locks|])
    | (apply lockSafe_notCurrent; [locks | intros ?])
    | (apply lockSafe_withPlayer; [locks | intros ? ? ?])
    | apply lockSafe_rethrow
    | match goal with
      | |- lockSafe _ _ (Return _) => cbn [lockSafe]; unfold kept; locks
      | |- lockSafe _ _ (Throw _ (GameState.heap _)) =>
          cbn [lockSafe GameState.heap Heap.players]; locks
      | |- lockSafe _ _ (if ?c then _ else _) => destruct c
      | |- lockSafe _ _ (match ?x with _ => _ end) => destruct x
      | |- locksKept _ _ => progress locks
      | |- context [if ?c then _ else _] => destruct c
      end ].

Section Locks.
Variable before : list Player.

Lemma buildRoad_locks s playerId edgeId :
  locksKept before (GameState.players s) ->
  lockSafe before (kept before) (BuildingManager.buildRoad s playerId edgeId).
Proof. intros Hs. unfold BuildingManager.buildRoad. safe. Qed.

Lemma buildSettlement_locks s playerId intersectionId :
  locksKept before (GameState.players s) ->
  lockSafe before (kept before) (BuildingManager.buildSettlement s playerId intersectionId).
Proof. intros Hs. unfold BuildingManager.buildSettlement. safe. Qed.

Lemma buildCity_locks s playerId intersectionId :
  locksKept before (GameState.players s) ->
  lockSafe before (kept before) (BuildingManager.buildCity s playerId intersectionId).
Proof. intros Hs. unfold BuildingManager.buildCity. safe. Qed.

Lemma stealRandomResource_locks from to s u :
  locksKept before (GameState.players s) ->
  lockSafe before (kept before) (ResourceManager.stealRandomResource from to s u).
Proof. intros Hs. unfold ResourceManager.stealRandomResource. safe. Qed.

Lemma discardResources_locks s playerId toDiscard :
  locksKept before (GameState.players s) ->
  lockSafe before (kept before) (ResourceManager.discardResources s playerId toDiscard).
Proof. intros Hs. unfold ResourceManager.discardResources. safe. Qed.
Lemma creditIntersection_locks coord resource s x :
  locksKept before (GameState.players s) ->
  locksKept before
    (GameState.players (ResourceManager.creditIntersection coord resource s x)).
Proof.
  intros Hs. unfold ResourceManager.creditIntersection.
  repeat match goal with
         | |- context [match ?c with _ => _ end] =>
             lazymatch c with
             | context [match _ with _ => _ end] => fail
             | _ => destruct c
             end
         end; locks.
Qed.

Lemma fold_locks {A : Type} (step : GameState -> A -> GameState) (l : list A) :
  (forall s x, locksKept before (GameState.players s) ->
               locksKept before (GameState.players (step s x))) ->
  forall s, locksKept before (GameState.players s) ->
            locksKept before (GameState.players (fold_left step l s)).
Proof.
  intros Hstep. induction l as [|x l IH]; intros s Hs; simpl; [exact Hs|].
  apply IH. now apply Hstep.
Qed.

Lemma distributeResources_locks s diceSum :
  locksKept before (GameState.players s) ->
  locksKept before
    (GameState.players (ResourceManager.distributeResources s diceSum)).
Proof.
  intros Hs. unfold ResourceManager.distributeResources.
  destruct (diceSum =? 7); [now rewrite handleSevenRolled_id|].
  apply fold_locks; [|exact Hs]. intros st coord Hst.
  unfold ResourceManager.creditTile.
  destruct (Map.get _ _); [|exact Hst].
  destruct (ResourceManager.terrainToResource _); [|exact Hst].
  apply fold_locks; [|exact Hst]. intros. now apply creditIntersection_locks.
Qed.

Lemma executeTrade_locks s offer :
  locksKept before (GameState.players s) ->
  lockSafe before (kept before) (TradingManager.executeTrade s offer).
Proof. intros Hs. unfold TradingManager.executeTrade. safe. Qed.

Lemma canMoveRobber_locks s playerId newLocation :
  locksKept before (GameState.players s) ->
  lockSafe before (fun _ => True)
    (RobberManager.canMoveRobber s playerId newLocation).
Proof.
  intros Hs. unfold RobberManager.canMoveRobber.
  destruct (findPlayer s playerId); [|exact I].
  apply lockSafe_notCurrent; [exact Hs|]. intros notCurrent.
  repeat match goal with
         | |- context [match ?c with _ => _ end] => destruct c
         end; exact I.
Qed.

Lemma moveRobber_locks s playerId newLocation target u :
  locksKept before (GameState.players s) ->
  lockSafe before (kept before)
    (RobberManager.moveRobber s playerId newLocation target u).
Proof.
  intros Hs. unfold RobberManager.moveRobber.
  apply lockSafe_bind_any; [now apply canMoveRobber_locks|]. intros validation.
  apply lockSafe_check; [exact Hs|]. cbv zeta.
  destruct target as [victimId|]; [|safe].
  destruct (_ && _); [|safe].
  destruct (valid _); [|safe].
  apply stealRandomResource_locks. locks.
Qed.

Lemma buyDevelopmentCard_locks_kept s playerId :
  locksKept before (GameState.players s) ->
  lockSafe before (kept before)
    (DevelopmentCardManager.buyDevelopmentCard s playerId).
Proof. intros Hs. unfold DevelopmentCardManager.buyDevelopmentCard. safe. Qed.

Lemma privateUpdateLargestArmy_locks s playerId :
  locksKept before (GameState.players s) ->
  lockSafe before (kept before)
    (DevelopmentCardManager.updateLargestArmy s playerId).
Proof.
  intros Hs. unfold DevelopmentCardManager.updateLargestArmy.
  destruct (findPlayer s playerId); [|safe].
  destruct (_ <? 3); [safe|]. cbv zeta.
  destruct (_ >? _); [|safe].
  apply lockSafe_bind_state.
  - destruct (find _ _); safe.
  - intros s1 Hs1. safe.
Qed.

Lemma playKnightCard_locks s playerId loc target u :
  locksKept before (GameState.players s) ->
  lockSafe before (kept before)
    (DevelopmentCardManager.playKnightCard s playerId loc target u).
Proof.
  intros Hs. unfold DevelopmentCardManager.playKnightCard.
  apply lockSafe_checkPlay; [exact Hs|].
  apply lockSafe_withPlayer; [exact Hs|]. intros seat player _. cbv zeta.
  destruct target as [victimId|].
  - destruct (_ && _).
    + apply stealRandomResource_locks. locks.
    + apply privateUpdateLargestArmy_locks. locks.
  - apply privateUpdateLargestArmy_locks. locks.
Qed.

Lemma buildFreeRoad_locks s playerId edgeId :
  locksKept before (GameState.players s) ->
  lockSafe before (kept before)
    (DevelopmentCardManager.buildFreeRoad s playerId edgeId).
Proof. intros Hs. unfold DevelopmentCardManager.buildFreeRoad. safe. Qed.

Lemma playRoadBuildingCard_locks s playerId edgeIds :
  locksKept before (GameState.players s) ->
  lockSafe before (kept before)
    (DevelopmentCardManager.playRoadBuildingCard s playerId edgeIds).
Proof.
  intros Hs. unfold DevelopmentCardManager.playRoadBuildingCard.
  apply lockSafe_checkPlay; [exact Hs|].
  apply lockSafe_withPlayer; [exact Hs|]. intros seat player _. cbv zeta.
  apply lockSafe_bind_state.
  - apply lockSafe_rethrow, buildFreeRoad_locks. locks.
  - intros s2 Hs2. destruct (negb _); [|exact Hs2].
    now apply lockSafe_rethrow, buildFreeRoad_locks.
Qed.

Lemma playInventionCard_locks s playerId resources :
  locksKept before (GameState.players s) ->
  lockSafe before (kept before)
    (DevelopmentCardManager.playInventionCard s playerId resources).
Proof. intros Hs. unfold DevelopmentCardManager.playInventionCard. safe. Qed.

Lemma takeAll_lockView resourceType playerIndex players : forall index,
  List.map lockView
    (snd (DevelopmentCardManager.takeAll resourceType playerIndex index players))
  = List.map lockView players.
Proof.
  induction players as [|p players IH]; intros index; simpl; [reflexivity|].
  specialize (IH (S index)).
  destruct (DevelopmentCardManager.takeAll resourceType playerIndex (S index) players)
    as [total rest]. simpl in IH.
  destruct (Nat.eqb index playerIndex); simpl; rewrite IH; [reflexivity|].
  now destruct p.
Qed.

Lemma playMonopolyCard_locks s playerId resourceType :
  locksKept before (GameState.players s) ->
  lockSafe before (kept before)
    (DevelopmentCardManager.playMonopolyCard s playerId resourceType).
Proof.
  intros Hs. unfold DevelopmentCardManager.playMonopolyCard.
  apply lockSafe_checkPlay; [exact Hs|].
  apply lockSafe_withPlayer; [exact Hs|]. intros seat player _. cbv zeta.
  match goal with
  | |- context [DevelopmentCardManager.takeAll ?r ?i ?n ?ps] =>
      pose proof (takeAll_lockView r i ps n) as Hview;
      destruct (DevelopmentCardManager.takeAll r i n ps) as [total players']
  end.
  cbn [snd] in Hview. cbn [lockSafe]. unfold kept.
  apply locksKept_modifyPlayer; [lock_id | lock_flag |].
  cbn [GameState.players GameState.set_players].
  eapply locksKept_trans; [|apply locksKept_view; exact Hview]. locks.
Qed.

Lemma playVictoryPointCard_locks s playerId :
  locksKept before (GameState.players s) ->
  lockSafe before (kept before)
    (DevelopmentCardManager.playVictoryPointCard s playerId).
Proof. intros Hs. unfold DevelopmentCardManager.playVictoryPointCard. safe. Qed.

Lemma handleRollDice_locks s action draws :
  locksKept before (GameState.players s) ->
  lockSafe before (kept before) (CatanRuleEngine.handleRollDice s action draws).
Proof.
  intros Hs. unfold CatanRuleEngine.handleRollDice.
  destruct (negb _); [safe|].
  apply lockSafe_notCurrent; [exact Hs|]. intros notCurrent.
  destruct notCurrent; [safe|]. cbv zeta.
  match goal with
  | |- context [GameState.set_phase ACTION ?st] =>
      assert (K : locksKept before (GameState.players st))
  end.
  { destruct (_ =? 7).
    - unfold RobberManager.handleSevenRolled. locks.
    - apply (locksKept_players _
               (ResourceManager.distributeResources
                  (GameState.set_diceRoll
                     (Some (ResourceManager.rollDice (Draws.die1 draws)
                                                     (Draws.die2 draws))) s)
                  (fst (ResourceManager.rollDice (Draws.die1 draws)
                                                 (Draws.die2 draws))
                   + snd (ResourceManager.rollDice (Draws.die1 draws)
                                                   (Draws.die2 draws)))));
        [reflexivity|].
      apply distributeResources_locks. locks. }
  destruct (_ || _); cbn [lockSafe]; unfold kept; [|exact K]. locks.
Qed.

(** Every handler but the end of turn. *)
Lemma dispatch_locks s action draws handled :
  Action.type action <> END_TURN ->
  locksKept before (GameState.players s) ->
  CatanRuleEngine.dispatch s action draws = Some handled ->
  lockSafe before (kept before) handled.
Proof.
  unfold CatanRuleEngine.dispatch. intros Hend Hs H.
  destruct (Action.type action) as [|card| | | | | | | | | |];
    try discriminate; try (now elim Hend); injection H as <-.
  - now apply handleRollDice_locks.
  - unfold CatanRuleEngine.handlePlayDevelopmentCard.
    destruct card.
    + now apply playKnightCard_locks.
    + now apply playRoadBuildingCard_locks.
    + now apply playInventionCard_locks.
    + now apply playMonopolyCard_locks.
    + now apply playVictoryPointCard_locks.
    + exact Hs.
  - unfold CatanRuleEngine.handleBuildRoad.
    apply lockSafe_notCurrent; [exact Hs|]. intros [|]; [exact Hs|].
    now apply buildRoad_locks.
  - unfold CatanRuleEngine.handleBuildSettlement.
    apply lockSafe_notCurrent; [exact Hs|]. intros [|]; [exact Hs|].
    now apply buildSettlement_locks.
  - unfold CatanRuleEngine.handleBuildCity.
    apply lockSafe_notCurrent; [exact Hs|]. intros [|]; [exact Hs|].
    now apply buildCity_locks.
  - now apply buyDevelopmentCard_locks_kept.
  - now apply executeTrade_locks.
  - now apply executeTrade_locks.
  - now apply moveRobber_locks.
  - now apply discardResources_locks.
Qed.
End Locks.

Section AwardLocks.
Variable before : list Player.
Variable holds : Player -> bool.
Variable setHolds : bool -> Player -> Player.
Hypothesis lockView_setHolds : forall b p, lockView (setHolds b p) = lockView p.

Lemma flag_write_locks (b : bool) (delta : Z) s seat :
  locksKept before (GameState.players s) ->
  locksKept before
    (GameState.players
       (GameState.modifyPlayer seat
          (fun p => Player.set_victoryPoints (Player.victoryPoints p + delta) p)
          (GameState.modifyPlayer seat (setHolds b) s))).
Proof.
  intros Hs. apply locksKept_modifyPlayer; [lock_id | lock_flag |].
  apply locksKept_modifyPlayer; [| |exact Hs].
  - intros p. exact (f_equal fst (lockView_setHolds b p)).
  - intros p Hp. pose proof (f_equal snd (lockView_setHolds b p)) as E.
    cbn [lockView snd] in E. congruence.
Qed.

Lemma award_locks (minimum : Z) (scores : list (string * Z)) s :
  locksKept before (GameState.players s) ->
  lockSafe before (kept before)
    (VictoryManager.award holds setHolds minimum scores s).
Proof.
  intros Hs. unfold VictoryManager.award.
  destruct (List.filter _ scores) as [|v0 valid'].
  { cbn [lockSafe]. unfold kept, VictoryManager.revokeAll.
    apply (locksKept_trans _ _ _ Hs), locksKept_view.
    cbn [GameState.players GameState.set_players].
    rewrite map_map. apply map_ext. intros p.
    destruct (holds p); [|reflexivity].
    rewrite <- (lockView_setHolds false p). now destruct (setHolds false p). }
  cbv zeta.
  destruct (List.filter _ (VictoryManager.sortDescending _)) as [|winner [|second rest]];
    destruct (List.find holds (GameState.players s)) as [incumbent|];
    try exact Hs.
  - cbn [existsb negb].
    apply lockSafe_withPlayer; [exact Hs|]. intros seat p _.
    now apply (flag_write_locks false (-2)).
  - destruct (negb _); [|exact Hs].
    apply lockSafe_bind_state.
    + apply lockSafe_withPlayer; [exact Hs|]. intros seat p _.
      now apply (flag_write_locks false (-2)).
    + intros s1 Hs1. apply lockSafe_withPlayer; [exact Hs1|]. intros seat p _.
      now apply (flag_write_locks true 2).
  - apply lockSafe_withPlayer; [exact Hs|]. intros seat p _.
    now apply (flag_write_locks true 2).
  - destruct (negb _); [|exact Hs].
    apply lockSafe_withPlayer; [exact Hs|]. intros seat p _.
    now apply (flag_write_locks false (-2)).
Qed.
End AwardLocks.

Lemma roadLengths_locks before s players :
  locksKept before (GameState.players s) ->
  lockSafe before (fun _ => True) (VictoryManager.roadLengths s players).
Proof.
  intros Hs. induction players as [|p players IH]; simpl; [exact I|].
  apply lockSafe_bind_any.
  - unfold VictoryManager.calculateLongestRoadLength.
    repeat match goal with
           | |- context [match ?c with _ => _ end] =>
               lazymatch c with
               | context [match _ with _ => _ end] => fail
               | _ => destruct c
               end
           end; first [exact I | exact Hs].
  - intros length. apply lockSafe_bind_any; [exact IH | intros; exact I].
Qed.

Lemma updateLongestRoad_locks before s :
  locksKept before (GameState.players s) ->
  lockSafe before (kept before) (VictoryManager.updateLongestRoad s).
Proof.
  intros Hs. unfold VictoryManager.updateLongestRoad.
  apply lockSafe_bind_any; [now apply roadLengths_locks|]. intros lengths.
  apply award_locks; [intros b p; now destruct p | exact Hs].
Qed.

Lemma updateLargestArmy_locks before s :
  locksKept before (GameState.players s) ->
  lockSafe before (kept before) (VictoryManager.updateLargestArmy s).
Proof.
  intros Hs. unfold VictoryManager.updateLargestArmy.
  apply award_locks; [intros b p; now destruct p | exact Hs].
Qed.

(** Whatever [processAction] answers to an action that is not an end of
    turn, the players the caller is left with keep their locks. *)
Lemma stateAfter_locks gameState action draws :
  Action.type action <> END_TURN ->
  locksKept (GameState.players gameState)
            (GameState.players (stateAfter gameState action draws)).
Proof.
  intros Hend.
  assert (H : lockSafe (GameState.players gameState)
                (fun result =>
                   match result with
                   | Success newState =>
                       locksKept (GameState.players gameState)
                                 (GameState.players newState)
                   | Failure _ => True
                   end)
                (CatanRuleEngine.tryProcessAction gameState action draws)).
  { unfold CatanRuleEngine.tryProcessAction.
    destruct (CatanRuleEngine.dispatch gameState action draws) as [handled|] eqn:Hd;
      [|exact I].
    apply lockSafe_bind_state.
    { apply (dispatch_locks _ gameState action draws); try assumption.
      apply locksKept_refl. }
    intros s1 Hs1. apply lockSafe_bind_state;
      [now apply updateLongestRoad_locks|].
    intros s2 Hs2. apply lockSafe_bind_state;
      [now apply updateLargestArmy_locks|].
    intros s3 Hs3.
    destruct (VictoryManager.checkGameEnd s3); cbn [lockSafe]; exact Hs3. }
  unfold stateAfter, CatanRuleEngine.processAction, CatanRuleEngine.inputAfter,
    CatanRuleEngine.heapAfter.
  destruct (CatanRuleEngine.tryProcessAction gameState action draws)
    as [[newState|error]|e h]; cbn [lockSafe] in H.
  - exact H.
  - apply locksKept_refl.
  - exact H.
Qed.

Lemma playOn_locks trace : forall gameState,
  withinTurn trace ->
  locksKept (GameState.players gameState)
            (GameState.players (playOn gameState trace)).
Proof.
  induction trace as [|[action draws] rest IH]; intros gameState Hturn;
    [apply locksKept_refl|].
  inversion Hturn as [|? ? Hstep Hrest]; subst. cbn [playOn].
  eapply locksKept_trans; [|apply IH; exact Hrest].
  now apply stateAfter_locks.
Qed.

Lemma locked_later s s' playerId p :
  findPlayer s playerId = Some p ->
  Player.canPlayDevCard p = false ->
  locksKept (GameState.players s) (GameState.players s') ->
  exists p', findPlayer s' playerId = Some p' /\ Player.canPlayDevCard p' = false.
Proof.
  intros Hp Hlock [Hids Hflags].
  destruct (findPlayer_seat _ _ _ Hp) as [seat [Hseat Hnth]].
  destruct (nth_error_same_length Player.id Player.id _ _ seat p Hids Hnth)
    as [p' Hnth'].
  exists p'. split; [|now apply (Hflags seat p p')].
  rewrite (findPlayer_at_seat s' playerId seat); [exact Hnth'|].
  unfold findPlayerIndex in *. rewrite <- Hseat.
  exact (findIndex_ext_map Player.id (fun i => String.eqb i playerId) _ _ Hids).
Qed.

Lemma processAction_locked_purchase gameState playerId draws bought :
  CatanRuleEngine.processAction gameState
    (Action.mk BUY_DEVELOPMENT_CARD playerId) draws = Success bought ->
  exists buyer,
    findPlayer bought playerId = Some buyer /\
    Player.canPlayDevCard buyer = false.
Proof.
  intros H.
  destruct (processAction_Success_inv _ _ _ _ H)
    as [handled [crowned [armed [Hhandled [Hcrown [Harmy [Hplayers _]]]]]]].
  unfold CatanRuleEngine.dispatch in Hhandled. cbn [Action.type] in Hhandled.
  injection Hhandled as Hhandled.
  unfold CatanRuleEngine.handleBuyDevelopmentCard in Hhandled.
  cbn [Action.playerId] in Hhandled.
  destruct (buyDevelopmentCard_locks _ _ _ Hhandled) as [buyer [Hbuyer Hlock]].
  apply (locked_later handled bought playerId buyer Hbuyer Hlock).
  rewrite Hplayers.
  pose proof (updateLongestRoad_locks (GameState.players handled) handled
                (locksKept_refl _)) as K1.
  rewrite Hcrown in K1. cbn [lockSafe] in K1.
  pose proof (updateLargestArmy_locks (GameState.players handled) crowned K1) as K2.
  rewrite Harmy in K2. exact K2.
Qed.

Lemma award_flags_kept s crowned armed final :
  VictoryManager.updateLongestRoad s = Return crowned ->
  VictoryManager.updateLargestArmy crowned = Return armed ->
  GameState.players final = GameState.players armed ->
  List.map Player.canPlayDevCard (GameState.players final)
  = List.map Player.canPlayDevCard (GameState.players s).
Proof.
  intros Hcrown Harmy ->.
  unfold VictoryManager.updateLongestRoad in Hcrown.
  apply bind_Return_inv in Hcrown. destruct Hcrown as [lengths [_ Hcrown]].
  apply (award_keeps Player.canPlayDevCard) in Hcrown;
    [|intros b p; now destruct p | intros v p; now destruct p].
  unfold VictoryManager.updateLargestArmy in Harmy.
  apply (award_keeps Player.canPlayDevCard) in Harmy;
    [|intros b p; now destruct p | intros v p; now destruct p].
  destruct Hcrown as [E1 _], Harmy as [E2 _]. congruence.
Qed.

(** C6: the per-turn lock.  Take a player who has just bought a development
    card, through [buyDevelopmentCard] or through [processAction], and let
    any actions follow that are not an end of turn, from any players,
    accepted or turned down.  The buyer's lock is then still set, and
    whoever's turn it is: a victory-point card the buyer holds is played (one
    card fewer, one point more), and [processAction] reports success for it
    as soon as the two award passes it runs afterwards return; every other
    card play by the buyer is turned down by [processAction]; and an end of
    turn, as [handleEndTurn] carries it out and as [processAction] accepts
    it, clears every player's lock. *)
Theorem development_card_lock
    (gameState : GameState) (playerId : string) (bought : GameState)
    (trace : list (Action * Draws))
    (Hbuy : DevelopmentCardManager.buyDevelopmentCard gameState playerId
            = Return bought \/
            exists draws,
              CatanRuleEngine.processAction gameState
                (Action.mk BUY_DEVELOPMENT_CARD playerId) draws
              = Success bought)
    (Hturn : withinTurn trace) :
  exists buyer : Player,
    findPlayer (playOn bought trace) playerId = Some buyer /\
    Player.canPlayDevCard buyer = false /\
    forall (turnIndex : nat) (draws : Draws),
      let current :=
        GameState.set_currentPlayerIndex turnIndex (playOn bought trace) in
      let playsVictoryPoint :=
        Action.mk (PLAY_DEVELOPMENT_CARD PlayVictoryPoint) playerId in
      (DevelopmentCards.victoryPoint (Player.developmentCards buyer) <> 0 ->
       exists (played : GameState) (seat : nat),
         CatanRuleEngine.handlePlayDevelopmentCard current playsVictoryPoint
           PlayVictoryPoint draws = Return played /\
         nth_error (GameState.players played) seat
         = Some (Player.set_victoryPoints (Player.victoryPoints buyer + 1)
                   (Player.set_card VictoryPoint
                      (DevelopmentCards.victoryPoint
                         (Player.developmentCards buyer) - 1) buyer)) /\
         forall crowned armed : GameState,
           VictoryManager.updateLongestRoad played = Return crowned ->
           VictoryManager.updateLargestArmy crowned = Return armed ->
           exists final : GameState,
             CatanRuleEngine.processAction current playsVictoryPoint draws
             = Success final /\
             GameState.players final = GameState.players armed) /\
      (forall card : CardPayload,
          card <> PlayVictoryPoint ->
          exists error : string,
            CatanRuleEngine.processAction current
              (Action.mk (PLAY_DEVELOPMENT_CARD card) playerId) draws
            = Failure error) /\
      (forall (action : Action) (ended : GameState),
          CatanRuleEngine.handleEndTurn current action = Return ended ->
          Forall (fun p => Player.canPlayDevCard p = true)
                 (GameState.players ended)) /\
      (forall (action : Action) (ended : GameState),
          Action.type action = END_TURN ->
          CatanRuleEngine.processAction current action draws = Success ended ->
          Forall (fun p => Player.canPlayDevCard p = true)
                 (GameState.players ended)).
Proof.
  assert (Hlocked : exists buyer0,
             findPlayer bought playerId = Some buyer0 /\
             Player.canPlayDevCard buyer0 = false).
  { destruct Hbuy as [Hbuy|[draws Hbuy]].
    - exact (buyDevelopmentCard_locks _ _ _ Hbuy).
    - exact (processAction_locked_purchase _ _ _ _ Hbuy). }
  destruct Hlocked as [buyer0 [Hbuyer0 Hlock0]].
  destruct (locked_later bought (playOn bought trace) playerId buyer0 Hbuyer0 Hlock0
              (playOn_locks trace bought Hturn)) as [buyer [Hbuyer Hlock]].
  exists buyer. split; [assumption|]. split; [assumption|].
  intros turnIndex draws current playsVictoryPoint.
  assert (Hcur : findPlayer current playerId = Some buyer).
  { unfold current. now destruct (playOn bought trace). }
  split; [|split; [|split]].
  - intros Hheld. destruct (findPlayer_seat _ _ _ Hcur) as [seat [Hseat Hnth]].
    assert (Hplayed : exists played,
               CatanRuleEngine.handlePlayDevelopmentCard current playsVictoryPoint
                 PlayVictoryPoint draws = Return played /\
               nth_error (GameState.players played) seat
               = Some (Player.set_victoryPoints (Player.victoryPoints buyer + 1)
                         (Player.set_card VictoryPoint
                            (DevelopmentCards.victoryPoint
                               (Player.developmentCards buyer) - 1) buyer))).
    { unfold playsVictoryPoint.
      cbn [CatanRuleEngine.handlePlayDevelopmentCard Action.playerId].
      unfold DevelopmentCardManager.playVictoryPointCard.
      rewrite (checkPlay_victoryPoint _ _ _ Hcur Hheld). cbn [bind].
      rewrite (withPlayer_found _ _ _ _ _ Hseat Hnth).
      eexists. split; [reflexivity|].
      rewrite !players_modifyPlayer, !nth_error_modify_nth, Nat.eqb_refl, Hnth.
      reflexivity. }
    destruct Hplayed as [played [Hplayed Hnth']].
    exists played, seat. split; [exact Hplayed|]. split; [exact Hnth'|].
    intros crowned armed Hcrown Harmy.
    unfold CatanRuleEngine.processAction, CatanRuleEngine.tryProcessAction,
      CatanRuleEngine.dispatch.
    unfold playsVictoryPoint at 1 2. cbn [Action.type].
    rewrite Hplayed. cbn [bind]. rewrite Hcrown. cbn [bind].
    rewrite Harmy. cbn [bind].
    destruct (VictoryManager.checkGameEnd armed); eexists;
      (split; [reflexivity|]); reflexivity.
  - intros card Hcard. now apply play_locked_rejected with (player := buyer).
  - intros action ended. apply handleEndTurn_unlocks.
  - intros action ended Htype Hended.
    destruct (processAction_Success_inv _ _ _ _ Hended)
      as [handled [crowned [armed [Hhandled [Hcrown [Harmy [Hplayers _]]]]]]].
    unfold CatanRuleEngine.dispatch in Hhandled. rewrite Htype in Hhandled.
    injection Hhandled as Hhandled.
    apply handleEndTurn_unlocks in Hhandled.
    pose proof (award_flags_kept _ _ _ _ Hcrown Harmy Hplayers) as Hflags.
    apply Forall_forall. intros p Hp.
    apply (in_map Player.canPlayDevCard) in Hp. rewrite Hflags in Hp.
    apply in_map_iff in Hp. destruct Hp as [q [<- Hq]].
    rewrite Forall_forall in Hhandled. now apply Hhandled.
Qed.

Lemma development_card_lock_witness :
  DevelopmentCardManager.buyDevelopmentCard lockExample "player1"
  = Return lockBought /\
  withinTurn lockTrace /\
  playOn lockBought lockTrace = lockLater /\
  currentPlayerId lockLater = Some "player2" /\
  (exists buyer : Player,
     findPlayer lockLater "player1" = Some buyer /\
     Player.canPlayDevCard buyer = false /\
     DevelopmentCards.knight (Player.developmentCards buyer) = 1 /\
     DevelopmentCards.victoryPoint (Player.developmentCards buyer) = 1) /\
  (exists error : string,
     CatanRuleEngine.processAction
       (GameState.set_currentPlayerIndex 0 lockLater) playsKnight noDraws
     = Failure error) /\
  (exists final : GameState,
     CatanRuleEngine.processAction lockLater playsVictoryPoint noDraws
     = Success final).
Proof.
  assert (Hbuy : DevelopmentCardManager.buyDevelopmentCard lockExample "player1"
                 = Return lockBought) by (vm_compute; reflexivity).
  assert (Hturn : withinTurn lockTrace)
    by (repeat constructor; discriminate).
  assert (Hlater : playOn lockBought lockTrace = lockLater)
    by (vm_compute; reflexivity).
  split; [exact Hbuy|]. split; [exact Hturn|]. split; [exact Hlater|].
  split; [reflexivity|].
  destruct (development_card_lock lockExample "player1" lockBought lockTrace
              (or_introl Hbuy) Hturn) as [buyer [Hbuyer [Hlock Hafter]]].
  rewrite Hlater in Hbuyer, Hafter.
  split.
  - exists buyer. split; [exact Hbuyer|]. split; [exact Hlock|].
    vm_compute in Hbuyer. injection Hbuyer as <-. split; reflexivity.
  - split.
    + destruct (Hafter 0%nat noDraws) as [_ [Hrejected _]].
      apply Hrejected. discriminate.
    + eexists. vm_compute. reflexivity.
Defined.
